(* ===== verification/_CoqProject ===== *)
-Q . S2P
Prelude.v
Core.v
Json.v
Files.v
Config.v
Storage.v
Control.v
Updater.v
Pairing.v
Network.v
Audio.v
Amplifier.v
EventBus.v
StateMachine.v
Watchdog.v
Speakers.v
Zones.v
Gateway.v
Sender.v
Engine.v
StreamerConfig.v
Onboarding.v
ReedSolomon.v
QrReader.v
QrCode.v
QrScan.v
Web.v
Dsp.v
MasterDsp.v
Application.v
Discovery.v
StreamerApi.v
Sources.v
StreamerApp.v
Transport.v
Scanners.v
Fft.v
Acoustics.v
Calibration.v
Measure.v
Mdns.v
Hardware.v
Diagnostics.v
Sound.v
Boot.v
Workers.v
Http.v
StreamerMain.v
