(* ===== verification/Prelude.v ===== *)
(** * Nexus Speaker OS: verification library

    The repository holds two C++ programs.  The speaker firmware (src/src) runs on every
    active speaker: it keeps a configuration, is paired once to a streamer, obeys signed
    commands, plays a synchronised stream, protects its amplifier, corrects for its room,
    updates itself and serves a small web interface.  The streamer (src/streamer/src) runs
    once per site: it finds and pairs speakers, groups them into zones, sends them commands
    and audio, mirrors their state and serves the dashboard.  This library models both and
    what they say to each other.

    ** How a program is modelled

    Code that keeps state is a run [SW S E A] (below): from a state [S] to a value, a new
    state and the list of its effects [E] in order; [value_of], [state_after] and
    [effects_of] take it apart, [zoom] runs a component inside a larger state.  An error is a
    [Status] or a [Result], as in the source ([Core]); an exception is a value of [Try]
    ([Json]), so what is thrown and where it is caught is part of every statement.  Code of
    several threads is a step relation, one step per critical section, access to an atomic,
    notification or call ([EventBus], [StateMachine.Threads], [Engine], [Scanners],
    [Workers], the waits of [Boot] and [StreamerMain]); a thread that waits on a condition
    variable sleeps until it is notified, times out or wakes of its own accord, and a
    notification that meets no sleeper is lost.  Integers keep their width ([wrap], [to_signed]); a double or float is
    a [spec_float] with the rounding of IEEE 754; bytes are numbers below 256; maps are
    [gmap]s or, where order counts, lists.  The disk is the class [FileSystem] ([Files]):
    system calls that may fail, and for every file what a power cut may leave of it.

    ** The files

    Foundations.  [Prelude]: automation, lists, runs.  [Core]: src/src/core (codes, status,
    events).  [Json]: the interface to nlohmann::json with a concrete instance.  [Files]:
    the file system and core/AtomicFile.cpp.

    The speaker.  [Config]: config/.  [Storage]: storage/ and the files of updater/.
    [Control]: control/ (command, history, validator, executor, router, server).
    [Updater]: updater/.  [Pairing]: pairing/ and identity/ApCredentials.cpp.  [Network]:
    network/.  [Audio]: audio/ (datagrams, buffer, clock, receiver, playback).  [Amplifier]:
    amplifier/.  [EventBus]: core/EventBus.cpp.  [StateMachine], [Watchdog]: system/.
    [ReedSolomon], [QrCode]: web/QrEncoder.cpp; [QrReader]: a scanner after ISO/IEC 18004,
    written without regard to the code; [QrScan]: the scanner reads the symbols.  [Web]: web/ApiRouter.cpp, WebServer.cpp.
    [Dsp]: dsp/.  [Fft], [Acoustics], [Calibration]: calibration/ and microphone/.
    [Measure]: measure/.  [Discovery]: discovery/, status/, bluetooth/ over their hardware.
    [Hardware]: the adapters to GPIO, ALSA and bluetoothctl and the playback thread.
    [Diagnostics]: diagnostics/ and logging/.  [Application]: the wiring of
    main/Application.cpp, its web callbacks and subscriptions.  [Sound]: the same wiring with
    the calibration and the checks in place.  [Boot]: main/main.cpp,
    ApCredentialsCli.cpp, and the start and end of Application.cpp.

    The streamer.  [Speakers]: group/SpeakerRegistry.h and state/.  [Zones]:
    group/ZoneManager.h.  [Gateway]: control/ and app/CommandGateway.cpp.  [Workers]: the
    threads of state/MonitorService.h and app/LinkReporterService.h.  [Sender], [Engine]:
    send/ and audio/AudioEngine.cpp.  [StreamerConfig]: config/.  [Onboarding]: pairing/,
    provisioning/ and the speaker's handler of the same handshake.  [MasterDsp]: dsp/.
    [StreamerApi]: web/StreamerApiRouter.cpp.  [Sources]: sources/.  [Scanners]:
    discovery/NetworkScanner.cpp, ApScanner.cpp, net/WifiSignal.cpp.  [StreamerApp]: app/ and
    discovery/ApJoiner.cpp.  [StreamerMain]: main/StreamerMain.cpp.

    Between them.  [Transport]: the sockets of the control channel and of the audio, both
    ends.  [Mdns]: both Avahi adapters.  [Http]: both adapters to cpp-httplib.

    Definitions carry the names of the source; the comment above one gives the file, the
    lines and the function it translates.

    ** What is proved

    Commands: the router runs only authentic, fresh commands, each at most once; a setting is
    applied exactly when it is acknowledged; and from the streamer's call through signing,
    socket exchange, validation and execution to the mirrored state the two ends agree
    ([Control], [Gateway], [Transport]). Pairing: accepted only with proof of the code and of
    the key; the two ends record the same, the streamer on its disk too if the disk takes it; a
    fresh speaker is open to exactly that for fifteen minutes ([Pairing], [Onboarding], [Boot]).
    Persistence: a write is all or nothing at every crash point, a configuration is always
    valid, an update survives a power cut, the dashboard and a room correction survive a restart
    ([Files], [Config], [StreamerApp], [Boot]). Updates: only verified packages, completed or
    rolled back ([Updater]). Audio: what the source holds is what the speaker decodes, in order
    and once; the engine numbers its datagrams under every interleaving; the buffer is not
    overrun; datagrams are read within their bounds, the header included; the running signal
    chain is the one the configuration asks for; blocks do not matter to it; a WAV file arrives
    sample by sample ([Sender], [Engine], [Audio], [Sound], [Dsp], [Sources]). Protection: an
    unhealthy amplifier is muted; whatever threads call, the state walks legal edges only and
    every change is announced once; a calibration gives the playback back ([Amplifier],
    [StateMachine], [Calibration]). Mathematics: the transform is the discrete Fourier transform
    over any ring with the roots, the code words have their roots, a standard scanner reads the
    text from the symbols of versions 1 to 6 ([Fft], [ReedSolomon], [QrScan]). The interfaces:
    no write without a credential, destructive requests confirmed, every request keeps the site
    well formed ([Web], [StreamerApi], [StreamerApp]). Zones stay disjoint and play in order
    ([Zones], [StreamerApp]). Threads: the bus delivers in order and drains, the sweep of the
    subnet ends with the same result under every schedule, the background threads stop promptly
    ([EventBus], [Scanners], [Workers]). The programs: each starts whole or not at all, and the
    streamer plays what its command line asks for ([Boot], [StreamerMain]).

    Classes state what one part promises another: [AtomicWriter] (implemented in [Files],
    used by every manager that saves), [AudioSource] and [FiniteSource], [NetworkHal],
    [DiscoveryHal], [BluetoothHal], [MicHal], [Libm], [Crypto].

    ** Bounds and fuel

    Recursion is structural wherever the source's loop consumes something.  Elsewhere: the
    write loop of [atomicWriteFile] has a round per byte, since a round that writes nothing
    fails; [drain] more rounds than the source has samples; the zig-zag of the QR symbol
    its size; the search for a free zone id the 10000 rounds of the code; the walk over the
    chunks of a WAV file its length; the resampler's window the samples it may need; the
    passes of the transform the length, its carry the number of bits; the browse of Avahi
    the 50 turns of the code; [replace_from] the length plus one.  Loops that wait for
    events or devices are lists of what happens at each turn, so the theorems hold for any
    number of turns; that they go on, and end, is proved on the step relations.

    ** Parameters

    Third-party code and the outside world are arguments or classes: nlohmann::json
    ([JsonLib], laws [JsonLaws]), the operating system's files ([FileSystem],
    [FileSystemLaws]), libsodium ([Crypto], [CryptoLaws], sealed boxes, Base64, SHA-256),
    libm ([Libm], [std::sin], [std::stod]), libgpiod, ALSA, Avahi, cpp-httplib, spdlog,
    popen and child processes, sockets, clocks and random numbers, the environment.  The
    hypotheses on them are laws of the documented behaviour, and the witnesses instantiate
    them: [jvalue_lib], [mdisk_system], [demo_crypto], [flat_libm].

    ** Not modelled

    The texts of the two web pages (web/Frontend.h, web/StreamerFrontend.h: HTML and
    JavaScript in string literals; their substitution functions are modelled); the
    speaker's and streamer's identity and crypto sources, which are not in the repository
    (only their use is); branches for macOS (CaptureDevices.cpp, WifiSignal.cpp, ApScanner)
    and for builds without sockets; construction and destruction order of C++ objects beyond
    the starts and stops; data races on unprotected fields (noted where found); the Mac
    applications, shell scripts and tests.  The log lines are left out of the components,
    since nothing reads them. *)

From stdpp Require Export base tactics list strings numbers gmap.
From stdpp Require Export relations.

(** ** The scope of the development *)

Declare Scope nexus_scope.
Delimit Scope nexus_scope with nexus.

(** ** Automation

    [nexus] collects the lemmas that close side conditions by resolution,
    [nexus_simpl] the equations that simplify component states. *)

Create HintDb nexus.
Create Rewrite HintDb nexus_simpl.

(** Split a conjunction, case-analyse the matches of a goal or of a hypothesis,
    and clean up. *)
Ltac split_and_solve := repeat split; simplify_eq/=; try done; try lia; eauto with nexus.

Ltac case_all :=
  repeat (case_match; simplify_eq/=; try done).

(** [cases_in H]: analyse every match of the hypothesis [H]. *)
Ltac cases_in H :=
  repeat match type of H with
  | context [match ?x with _ => _ end] =>
      let E := fresh "E" in destruct x eqn:E; simplify_eq/=; try done
  end.

(** Boolean tests of the source as propositions. *)
Ltac bool_to_prop :=
  repeat match goal with
  | H : (_ && _)%bool = true |- _ => apply andb_true_iff in H as [? ?]
  | H : (_ || _)%bool = false |- _ => apply orb_false_iff in H as [? ?]
  | H : negb _ = true |- _ => apply negb_true_iff in H
  | H : negb _ = false |- _ => apply negb_false_iff in H
  | H : (_ =? _)%Z = true |- _ => apply Z.eqb_eq in H
  | H : (_ =? _)%Z = false |- _ => apply Z.eqb_neq in H
  | H : (_ <? _)%Z = true |- _ => apply Z.ltb_lt in H
  | H : (_ <? _)%Z = false |- _ => apply Z.ltb_ge in H
  | H : (_ <=? _)%Z = true |- _ => apply Z.leb_le in H
  | H : (_ <=? _)%Z = false |- _ => apply Z.leb_gt in H
  | H : (_ <? _)%nat = true |- _ => apply Nat.ltb_lt in H
  | H : (_ <? _)%nat = false |- _ => apply Nat.ltb_ge in H
  | H : (_ <=? _)%nat = true |- _ => apply Nat.leb_le in H
  | H : (_ <=? _)%nat = false |- _ => apply Nat.leb_gt in H
  | H : bool_decide _ = true |- _ => apply bool_decide_eq_true_1 in H
  | H : bool_decide _ = false |- _ => apply bool_decide_eq_false_1 in H
  end.

(** Case analysis on the decidable tests of the goal, not of the hypotheses. *)
Ltac goal_bool_decide :=
  repeat match goal with
  | |- context [bool_decide ?P] =>
      let H := fresh "Hd" in destruct (bool_decide_reflect P) as [H|H]
  end.

(** Close a decidable goal by evaluating its decision. *)
Ltac by_decision := refine (bool_decide_eq_true_1 _ _); vm_compute; reflexivity.

(** ** Machine integers

    A [w]-bit unsigned value is a [Z] between 0 and [2^w - 1]; arithmetic on it
    wraps.  Signed values use two's complement. *)

Section MachineIntegers.
Local Open Scope Z_scope.

Definition wrap (w z : Z) : Z := z `mod` 2 ^ w.

Definition to_signed (w z : Z) : Z :=
  let u := wrap w z in if u <? 2 ^ (w - 1) then u else u - 2 ^ w.

Definition in_unsigned (w z : Z) : Prop := 0 <= z < 2 ^ w.
Definition in_signed (w z : Z) : Prop := - 2 ^ (w - 1) <= z < 2 ^ (w - 1).

Lemma wrap_small w z : in_unsigned w z -> wrap w z = z.
Proof. intros H. apply Z.mod_small, H. Qed.

Lemma wrap_bound w z : 0 <= w -> in_unsigned w (wrap w z).
Proof. intros Hw. apply Z.mod_pos_bound. lia. Qed.

Lemma wrap_wrap w z : 0 <= w -> wrap w (wrap w z) = wrap w z.
Proof. intros Hw. by apply wrap_small, wrap_bound. Qed.

Lemma pow_half w : 0 < w -> 2 ^ w = 2 * 2 ^ (w - 1).
Proof. intros Hw. rewrite <- Z.pow_succ_r by lia. f_equal. lia. Qed.

Lemma to_signed_bound w z : 0 < w -> in_signed w (to_signed w z).
Proof.
  intros Hw. pose proof (wrap_bound w z ltac:(lia)) as [Hlo Hhi].
  pose proof (pow_half w Hw). unfold in_signed, to_signed.
  destruct (Z.ltb_spec (wrap w z) (2 ^ (w - 1))); lia.
Qed.

(** Reading the two's complement representation of an in-range value gives
    the value back. *)
Lemma to_signed_wrap w z : 0 < w -> in_signed w z -> to_signed w (wrap w z) = z.
Proof.
  intros Hw [Hlo Hhi]. pose proof (pow_half w Hw) as Hp.
  unfold to_signed. rewrite wrap_wrap by lia. unfold wrap.
  destruct (decide (0 <= z)).
  - rewrite Z.mod_small by lia. destruct (Z.ltb_spec z (2 ^ (w - 1))); lia.
  - replace (z `mod` 2 ^ w) with (z + 2 ^ w).
    + destruct (Z.ltb_spec (z + 2 ^ w) (2 ^ (w - 1))); lia.
    + rewrite <- (Z.mod_add z 1 (2 ^ w)) by lia. rewrite Z.mod_small; lia.
Qed.

Lemma to_signed_small w z : 0 < w -> in_signed w z -> to_signed w z = z.
Proof.
  intros Hw Hz. rewrite <- (to_signed_wrap w z Hw Hz) at 2.
  unfold to_signed. by rewrite wrap_wrap by lia.
Qed.
End MachineIntegers.

#[export] Hint Resolve wrap_bound wrap_wrap to_signed_bound : nexus.

(** ** Lists *)

(** Every element that a [std::remove_if]-style erase keeps. *)
Lemma filter_preserves_Forall {A} (P : A -> Prop) (Q : A -> Prop) `{!forall x, Decision (Q x)} l :
  Forall P l -> Forall P (filter Q l).
Proof.
  intros Hall. apply Forall_forall. intros x [_ Hx]%list_elem_of_filter.
  by eapply Forall_forall in Hall.
Qed.

Lemma NoDup_snoc {A} (l : list A) x : NoDup l -> x ∉ l -> NoDup (l ++ [x]).
Proof.
  intros Hl Hx. apply NoDup_app. split; [done|]. split.
  - intros y Hy ->%list_elem_of_singleton. done.
  - apply NoDup_singleton.
Qed.

Lemma NoDup_map_filter {A B} (f : A -> B) (Q : A -> Prop) `{!forall x, Decision (Q x)} l :
  NoDup (f <$> l) -> NoDup (f <$> filter Q l).
Proof.
  intros Hnd. eapply sublist_NoDup; [exact Hnd|].
  apply fmap_sublist, sublist_filter.
Qed.

Lemma join_cons {A} (x : list A) (xs : list (list A)) : mjoin (x :: xs) = x ++ mjoin xs.
Proof. done. Qed.

Lemma join_app {A} (l l' : list (list A)) : mjoin (l ++ l') = mjoin l ++ mjoin l'.
Proof.
  induction l as [|x l IH]; [done|]. cbn [app]. by rewrite !join_cons, IH, app_assoc.
Qed.

Lemma forallb_elem {A} (P : A -> bool) l x : forallb P l = true -> x ∈ l -> P x = true.
Proof. rewrite forallb_forall. intros H Hx. by apply H, list_elem_of_In. Qed.

Lemma filter_ext_in {A} (P Q : A -> bool) (l : list A) :
  (forall x, x ∈ l -> P x = Q x) ->
  filter (fun x => P x = true) l = filter (fun x => Q x = true) l.
Proof.
  induction l as [|x l IH]; intros H; [done|].
  rewrite !filter_cons, (H x) by constructor. rewrite IH; [done|]. intros y Hy. apply H. by constructor.
Qed.

(** [std::deque::push_back] on a queue bounded by dropping from the front. *)
Definition last_n {A} (n : nat) (l : list A) : list A := drop (length l - n) l.

Lemma last_n_length {A} n (l : list A) : length (last_n n l) = n `min` length l.
Proof. unfold last_n. rewrite length_drop. lia. Qed.

Lemma last_n_suffix {A} n (l : list A) : exists p, l = p ++ last_n n l.
Proof. exists (take (length l - n) l). unfold last_n. by rewrite take_drop. Qed.

Lemma last_n_last_n {A} n (l k : list A) : last_n n (last_n n l ++ k) = last_n n (l ++ k).
Proof.
  unfold last_n. rewrite !length_app, length_drop.
  destruct (decide (length l <= n)).
  { by replace (length l - n) with 0 by lia; rewrite Nat.sub_0_r, drop_0. }
  rewrite <- (drop_app_le l k (length l - n)) by lia. rewrite drop_drop. f_equal. lia.
Qed.

(** ** Reachability

    A component that several threads drive is a step relation; an invariant
    holds on every state the relation reaches. *)

Section Reachability.
Context {S : Type} (init : S -> Prop) (step : S -> S -> Prop).

Definition reachable (s : S) : Prop := exists s0, init s0 /\ rtc step s0 s.

Lemma reachable_init s : init s -> reachable s.
Proof. intros. exists s. split; [done|apply rtc_refl]. Qed.

Lemma reachable_step s s' : reachable s -> step s s' -> reachable s'.
Proof. intros (s0 & ? & ?) ?. exists s0. split; [done|]. by eapply rtc_r. Qed.

Lemma invariant_reachable (I : S -> Prop) :
  (forall s, init s -> I s) -> (forall s s', I s -> step s s' -> I s') ->
  forall s, reachable s -> I s.
Proof.
  intros Hi Hs s (s0 & H0 & Hr). apply Hi in H0.
  induction Hr as [s|s1 s2 s3 H12 _ IH]; eauto.
Qed.

(** A measure that every step decreases bounds the runs. *)
Lemma measured_runs (I : S -> Prop) (m : S -> nat) :
  (forall s s', I s -> step s s' -> I s' /\ (m s' < m s)%nat) ->
  forall k s s', I s -> nsteps step k s s' -> I s' /\ (k + m s' <= m s)%nat.
Proof.
  intros Hm k s s' Hi Hr. induction Hr as [s|k s1 s2 s3 H12 _ IH]; [done|].
  destruct (Hm _ _ Hi H12) as [H2 Hlt]. destruct (IH H2). split; [done|lia].
Qed.
End Reachability.

(** ** State and output

    An operation of a component reads and writes the component's state and emits
    effects in order: events published on the bus, calls of injected actions. *)

Definition SW (S E A : Type) : Type := S -> A * S * list E.

Section StateOutput.
Context {S E : Type}.

#[global] Instance SW_ret : MRet (SW S E) := fun A a s => (a, s, []).

#[global] Instance SW_bind : MBind (SW S E) := fun A B f m s =>
  let '(a, s1, o1) := m s in
  let '(b, s2, o2) := f a s1 in
  (b, s2, o1 ++ o2).

Definition get : SW S E S := fun s => (s, s, []).
Definition modify (f : S -> S) : SW S E unit := fun s => ((), f s, []).
Definition tell (es : list E) : SW S E unit := fun s => ((), s, es).
Definition when (b : bool) (m : SW S E unit) : SW S E unit := if b then m else mret ().

(** The three parts of a run. *)
Definition value_of {A} (m : SW S E A) (s : S) : A := (m s).1.1.
Definition state_after {A} (m : SW S E A) (s : S) : S := (m s).1.2.
Definition effects_of {A} (m : SW S E A) (s : S) : list E := (m s).2.

Lemma bind_run {A B} (f : A -> SW S E B) (m : SW S E A) s :
  mbind f m s =
    (value_of (f (value_of m s)) (state_after m s),
     state_after (f (value_of m s)) (state_after m s),
     effects_of m s ++ effects_of (f (value_of m s)) (state_after m s)).
Proof.
  unfold value_of, state_after, effects_of, mbind, SW_bind.
  destruct (m s) as [[a s1] o1]. simpl. by destruct (f a s1) as [[b s2] o2].
Qed.

Lemma state_after_bind {A B} (f : A -> SW S E B) (m : SW S E A) s :
  state_after (mbind f m) s = state_after (f (value_of m s)) (state_after m s).
Proof. unfold state_after at 1. by rewrite bind_run. Qed.

Lemma value_of_bind {A B} (f : A -> SW S E B) (m : SW S E A) s :
  value_of (mbind f m) s = value_of (f (value_of m s)) (state_after m s).
Proof. unfold value_of at 1. by rewrite bind_run. Qed.

Lemma effects_of_bind {A B} (f : A -> SW S E B) (m : SW S E A) s :
  effects_of (mbind f m) s =
    effects_of m s ++ effects_of (f (value_of m s)) (state_after m s).
Proof. unfold effects_of at 1. by rewrite bind_run. Qed.

(** A property of runs: [R s es s'] holds of a run from [s] to [s'] that emitted
    [es].  Such a property composes when it holds of the empty run and of the
    concatenation of two runs. *)
Class RunRel (R : S -> list E -> S -> Prop) := {
  run_refl : forall s, R s [] s;
  run_trans : forall s1 e1 s2 e2 s3, R s1 e1 s2 -> R s2 e2 s3 -> R s1 (e1 ++ e2) s3
}.

Definition respects {A} (R : S -> list E -> S -> Prop) (m : SW S E A) : Prop :=
  forall s, R s (effects_of m s) (state_after m s).

Section Respects.
Context (R : S -> list E -> S -> Prop) `{!RunRel R}.

Lemma respects_bind {A B} (f : A -> SW S E B) (m : SW S E A) :
  respects R m -> (forall a, respects R (f a)) -> respects R (mbind f m).
Proof.
  intros Hm Hf s. rewrite state_after_bind, effects_of_bind.
  eapply run_trans; [apply Hm|apply Hf].
Qed.

Lemma respects_ret {A} (a : A) : respects R (mret a).
Proof. intros s. apply run_refl. Qed.

Lemma respects_get : respects R get.
Proof. intros s. apply run_refl. Qed.

Lemma respects_when b m : respects R m -> respects R (when b m).
Proof. intros Hm. destruct b; [exact Hm|apply respects_ret]. Qed.

Lemma respects_modify f : (forall s, R s [] (f s)) -> respects R (modify f).
Proof. intros Hf s. apply Hf. Qed.

Lemma respects_tell es : (forall s, R s es s) -> respects R (tell es).
Proof. intros Hes s. apply Hes. Qed.
End Respects.

(** Hoare triples: from a state of [P], the run ends in a value and a state of [Q]
    and every effect it emits satisfies [G]. *)
Section Triples.
Context (G : E -> Prop).

Definition triple {A} (P : S -> Prop) (m : SW S E A) (Q : A -> S -> Prop) : Prop :=
  forall s, P s -> Forall G (effects_of m s) /\ Q (value_of m s) (state_after m s).

Lemma triple_ret {A} (a : A) (Q : A -> S -> Prop) : triple (Q a) (mret a) Q.
Proof. intros s Hs. split; [constructor|exact Hs]. Qed.

Lemma triple_bind {A B} P (f : A -> SW S E B) (m : SW S E A) Q R :
  triple P m Q -> (forall a, triple (Q a) (f a) R) -> triple P (mbind f m) R.
Proof.
  intros Hm Hf s Hs. rewrite effects_of_bind, value_of_bind, state_after_bind.
  destruct (Hm s Hs) as [Hg Hq]. destruct (Hf _ _ Hq) as [Hg' Hr].
  split; [by apply Forall_app|exact Hr].
Qed.

Lemma triple_weaken {A} (P P' : S -> Prop) (m : SW S E A) (Q Q' : A -> S -> Prop) :
  triple P m Q -> (forall s, P' s -> P s) -> (forall a s, Q a s -> Q' a s) -> triple P' m Q'.
Proof. intros Hm HP HQ s Hs. destruct (Hm s (HP s Hs)). auto. Qed.

Lemma triple_get (P : S -> Prop) : triple P get (fun a s => a = s /\ P s).
Proof. intros s Hs. split; [constructor|by split]. Qed.

Lemma triple_pre {A} (P : S -> Prop) (m : SW S E A) (X : Prop) Q :
  (X -> triple P m Q) -> triple (fun s => X /\ P s) m Q.
Proof. intros Hm s [HX Hs]. by apply Hm. Qed.
End Triples.

(** A state predicate kept by a run, as a property of runs. *)
Definition keeps (P : S -> Prop) : S -> list E -> S -> Prop := fun s _ s' => P s -> P s'.

#[global] Instance keeps_run P : RunRel (keeps P).
Proof. split; unfold keeps; auto. Qed.
End StateOutput.

(** A run of a part of a larger state: [look] finds the part, [put_] stores it back, [inj]
    places its effects among those of the whole. *)
Definition zoom {S T E E' A} (look : T -> S) (put_ : S -> T -> T) (inj : E -> E') (f : SW S E A) :
  SW T E' A := fun t =>
  (value_of f (look t), put_ (state_after f (look t)) t, inj <$> effects_of f (look t)).

Lemma get_bind_run {S E A} (f : S -> SW S E A) s : mbind f get s = f s s.
Proof. unfold mbind, SW_bind, get. by destruct (f s s) as [[a s'] es]. Qed.

#[export] Hint Rewrite @state_after_bind @value_of_bind @effects_of_bind : nexus_simpl.

Create HintDb runs.
#[export] Hint Resolve respects_bind respects_ret respects_get respects_when : runs.

(** Compute one run: unfold the monad, keep the operations. *)
Ltac run_simpl :=
  repeat first
    [ progress autorewrite with nexus_simpl
    | progress cbn [value_of state_after effects_of get modify tell when mret SW_ret fst snd] ].
