(* ===== verification/Core.v ===== *)
(** * Core: status values, service states and the event catalogue

    Models [src/src/core]: the canonical error codes, [Status] and [Result],
    the service lifecycle states and the events the modules exchange. *)

From Stdlib Require Export SpecFloat.
From S2P Require Import Prelude.

(** ** Error codes *)

Module ErrorCode.
(* [src/src/core/ErrorCodes.h:10-45] ErrorCode *)
Inductive ErrorCode :=
| Ok | Unknown | InvalidArg | NotFound | IoError | Timeout | PermissionDenied
| Corrupt | NotImplemented | AlreadyExists
| LogInitFailed
| ConfigNotFound | ConfigParseError | ConfigValidationFailed | ConfigWriteFailed
| ConfigCorrupt
| IllegalStateTransition | ServiceStartFailed
| CryptoError | IdentityMissing | IdentityCorrupt | KeyGenerationFailed
| SigningFailed | SecureStoreError.

#[global] Instance ErrorCode_eq_dec : EqDecision ErrorCode.
Proof. solve_decision. Defined.
End ErrorCode.
Abbreviation ErrorCode := ErrorCode.ErrorCode.

(* [src/src/core/ErrorCodes.h:10-47] toInt *)
Definition toInt (c : ErrorCode) : Z :=
  match c with
  | ErrorCode.Ok => 0
  | ErrorCode.Unknown => 1000
  | ErrorCode.InvalidArg => 1001
  | ErrorCode.NotFound => 1002
  | ErrorCode.IoError => 1003
  | ErrorCode.Timeout => 1004
  | ErrorCode.PermissionDenied => 1005
  | ErrorCode.Corrupt => 1006
  | ErrorCode.NotImplemented => 1007
  | ErrorCode.AlreadyExists => 1008
  | ErrorCode.LogInitFailed => 1100
  | ErrorCode.ConfigNotFound => 1200
  | ErrorCode.ConfigParseError => 1201
  | ErrorCode.ConfigValidationFailed => 1202
  | ErrorCode.ConfigWriteFailed => 1203
  | ErrorCode.ConfigCorrupt => 1204
  | ErrorCode.IllegalStateTransition => 1300
  | ErrorCode.ServiceStartFailed => 1301
  | ErrorCode.CryptoError => 1400
  | ErrorCode.IdentityMissing => 1401
  | ErrorCode.IdentityCorrupt => 1402
  | ErrorCode.KeyGenerationFailed => 1403
  | ErrorCode.SigningFailed => 1404
  | ErrorCode.SecureStoreError => 1405
  end.

(* [src/src/core/ErrorCodes.cpp:5-33] describe *)
Definition describe (c : ErrorCode) : string :=
  match c with
  | ErrorCode.Ok => "ok"
  | ErrorCode.Unknown => "unknown error"
  | ErrorCode.InvalidArg => "invalid argument"
  | ErrorCode.NotFound => "not found"
  | ErrorCode.IoError => "I/O error"
  | ErrorCode.Timeout => "timeout"
  | ErrorCode.PermissionDenied => "permission denied"
  | ErrorCode.Corrupt => "corrupt data"
  | ErrorCode.NotImplemented => "not implemented"
  | ErrorCode.AlreadyExists => "already exists"
  | ErrorCode.LogInitFailed => "logger initialization failed"
  | ErrorCode.ConfigNotFound => "config file not found"
  | ErrorCode.ConfigParseError => "config parse error"
  | ErrorCode.ConfigValidationFailed => "config validation failed"
  | ErrorCode.ConfigWriteFailed => "config write failed"
  | ErrorCode.ConfigCorrupt => "config corrupt"
  | ErrorCode.IllegalStateTransition => "illegal state transition"
  | ErrorCode.ServiceStartFailed => "service start failed"
  | ErrorCode.CryptoError => "crypto error"
  | ErrorCode.IdentityMissing => "device identity missing"
  | ErrorCode.IdentityCorrupt => "device identity corrupt"
  | ErrorCode.KeyGenerationFailed => "key generation failed"
  | ErrorCode.SigningFailed => "signing failed"
  | ErrorCode.SecureStoreError => "secure store error"
  end.

(** ** Status and Result *)

(* [src/src/core/Result.h:15-35] Status *)
Record Status := mk_status { code : ErrorCode; message : string }.

#[export] Instance Status_eq_dec : EqDecision Status.
Proof. solve_decision. Defined.

(* [src/src/core/Result.h:21-21] Status::success *)
Definition success : Status := mk_status ErrorCode.Ok "".

(* [src/src/core/Result.h:22-24] Status::error *)
Definition error (c : ErrorCode) (msg : string) : Status := mk_status c msg.

(* [src/src/core/Result.h:26-26] Status::ok *)
Definition status_ok (s : Status) : bool := bool_decide (code s = ErrorCode.Ok).

(** [Result<T>]: a value, or the status of a failure.  The source keeps a status
    beside an optional value; a value always comes with the [Ok] status. *)
(* [src/src/core/Result.h:39-58] Result *)
Inductive Result (A : Type) :=
| Value (a : A)
| Failure (s : Status).
Arguments Value {A} _.
Arguments Failure {A} _.

Lemma status_ok_error c msg : c <> ErrorCode.Ok -> status_ok (error c msg) = false.
Proof. intros H. by apply bool_decide_eq_false_2. Qed.

Lemma status_ok_success : status_ok success = true.
Proof. reflexivity. Qed.

#[export] Hint Rewrite status_ok_success : nexus_simpl.

(** The numbering is a diagnostic contract: a code alone identifies its origin. *)
Lemma toInt_inj c1 c2 : toInt c1 = toInt c2 -> c1 = c2.
Proof. destruct c1, c2; by intros. Qed.

(** ** Service lifecycle *)

Module ServiceState.
(* [src/src/core/ServiceStatus.h:10-17] ServiceState *)
Inductive ServiceState :=
| Stopped | Starting | Running | Degraded | Faulted | Stopping.

#[global] Instance ServiceState_eq_dec : EqDecision ServiceState.
Proof. solve_decision. Defined.
End ServiceState.
Abbreviation ServiceState := ServiceState.ServiceState.

(** ** Events *)

Module EventType.
(* [src/src/core/Event.h:13-69] EventType *)
Inductive EventType :=
| ServiceStarted | ServiceStopped | ServiceDegraded | ServiceFaulted | StateChanged
| ConfigChanged | ConfigInvalid | ShutdownRequested
| IdentityProvisioned | IdentityCorrupt | PairingStarted | PairingCompleted
| PairingFailed
| NetworkConnected | NetworkDisconnected | IpChanged | WifiSignalLow
| InternetAvailable | InternetUnavailable | StreamerFound | StreamerLost
| StreamerDisconnected
| CommandReceived | CommandExecuted | AudioStarted | AudioStopped | AudioLost
| AmplifierOverheat | AmplifierProtection | AmplifierFault | OutputClipping
| MicFailure | TempWarning | HealthCheckFailed | WatchdogTimeout | SafeModeEntered
| UpdateAvailable | UpdateStarted | UpdateFailed | UpdateCompleted
| RollbackTriggered | CalibrationStarted | CalibrationCompleted | CalibrationFailed.

#[global] Instance EventType_eq_dec : EqDecision EventType.
Proof. solve_decision. Defined.
(* [src/src/core/EventBus.cpp:7-55] toString *)
Definition event_name (t : EventType) : string :=
  match t with
  | ServiceStarted => "ServiceStarted"
  | ServiceStopped => "ServiceStopped"
  | ServiceDegraded => "ServiceDegraded"
  | ServiceFaulted => "ServiceFaulted"
  | StateChanged => "StateChanged"
  | ConfigChanged => "ConfigChanged"
  | ConfigInvalid => "ConfigInvalid"
  | ShutdownRequested => "ShutdownRequested"
  | IdentityProvisioned => "IdentityProvisioned"
  | IdentityCorrupt => "IdentityCorrupt"
  | PairingStarted => "PairingStarted"
  | PairingCompleted => "PairingCompleted"
  | PairingFailed => "PairingFailed"
  | NetworkConnected => "NetworkConnected"
  | NetworkDisconnected => "NetworkDisconnected"
  | IpChanged => "IpChanged"
  | WifiSignalLow => "WifiSignalLow"
  | InternetAvailable => "InternetAvailable"
  | InternetUnavailable => "InternetUnavailable"
  | StreamerFound => "StreamerFound"
  | StreamerLost => "StreamerLost"
  | StreamerDisconnected => "StreamerDisconnected"
  | CommandReceived => "CommandReceived"
  | CommandExecuted => "CommandExecuted"
  | AudioStarted => "AudioStarted"
  | AudioStopped => "AudioStopped"
  | AudioLost => "AudioLost"
  | AmplifierOverheat => "AmplifierOverheat"
  | AmplifierProtection => "AmplifierProtection"
  | AmplifierFault => "AmplifierFault"
  | OutputClipping => "OutputClipping"
  | MicFailure => "MicFailure"
  | TempWarning => "TempWarning"
  | HealthCheckFailed => "HealthCheckFailed"
  | WatchdogTimeout => "WatchdogTimeout"
  | SafeModeEntered => "SafeModeEntered"
  | UpdateAvailable => "UpdateAvailable"
  | UpdateStarted => "UpdateStarted"
  | UpdateFailed => "UpdateFailed"
  | UpdateCompleted => "UpdateCompleted"
  | RollbackTriggered => "RollbackTriggered"
  | CalibrationStarted => "CalibrationStarted"
  | CalibrationCompleted => "CalibrationCompleted"
  | CalibrationFailed => "CalibrationFailed"
  end.

(** Two types never share a name in the log. *)
Lemma event_name_inj t t' : event_name t = event_name t' -> t = t'.
Proof. by destruct t, t'. Qed.
End EventType.
Abbreviation EventType := EventType.EventType.

(** A JSON object that a publisher writes as an initialiser list of scalars. *)
Inductive Scalar :=
| SStr (s : string)
| SInt (z : Z)
| SBool (b : bool)
| SDouble (x : spec_float).

#[global] Instance spec_float_eq_dec : EqDecision spec_float.
Proof. solve_decision. Defined.
#[global] Instance Scalar_eq_dec : EqDecision Scalar.
Proof. solve_decision. Defined.

Definition Payload : Type := list (string * Scalar).

(** [object[key] = value]: the first entry of the key is replaced, or one is added. *)
Fixpoint set_key (k : string) (v : Scalar) (p : Payload) : Payload :=
  match p with
  | [] => [(k, v)]
  | (k', v') :: r => if bool_decide (k = k') then (k, v) :: r else (k', v') :: set_key k v r
  end.

(** An event.  [data] is the payload, of a type [D] the publisher chooses; the
    timestamp is not read by any subscriber and is left out. *)
(* [src/src/core/Event.h:75-85] Event *)
Record Event (D : Type) := mk_event
  { type : EventType; source : string; command_id : string; data : D }.
Arguments mk_event {D} _ _ _ _.
Arguments type {D} _.
Arguments source {D} _.
Arguments command_id {D} _.
Arguments data {D} _.

#[export] Instance Event_eq_dec {D} `{!EqDecision D} : EqDecision (Event D).
Proof. solve_decision. Defined.

(** [Event{type, source, data}], with no command id. *)
Definition event (t : EventType) (src : string) (d : Payload) : Event Payload :=
  mk_event t src "" d.

(** The events among the effects of a run that have a given type. *)
Definition of_type (t : EventType) (l : list (Event Payload)) : list (Event Payload) :=
  filter (fun e => type e = t) l.
