(* ===== verification/Json.v ===== *)
(** * Json: the interface to nlohmann::json

    The sources read and write JSON through the third-party header
    [nlohmann/json.hpp].  The library is a parameter of the development: [JsonLib]
    lists the operations the sources call, [JsonLaws] the documented behaviour the
    theorems rely on.  [JValue] is a concrete value type with an encoding that
    satisfies the laws; the witnesses of the theorems are computed with it. *)

From Stdlib Require Import Ascii.
From Stdlib Require String.
From stdpp Require Import countable pretty.
From S2P Require Import Prelude Core.

(** ** Exceptions *)

(** The outcome of an expression that may throw a [std::exception]. *)
Inductive Try (A : Type) :=
| Done (a : A)
| Throw (what : string).
Arguments Done {A} _.
Arguments Throw {A} _.

#[global] Instance Try_ret : MRet Try := fun A a => Done a.
#[global] Instance Try_bind : MBind Try := fun A B f m =>
  match m with Done a => f a | Throw w => Throw w end.

(** Runs whose outcome may be an exception: the rest is run on a value, an exception ends
    the run. *)
Definition try_bind {S E A B} (m : SW S E (Try A)) (f : A -> SW S E (Try B)) : SW S E (Try B) :=
  r ← m; match r with Done a => f a | Throw w => mret (Throw w) end.
Notation "'let?' x := m 'in' k" := (try_bind m (fun x => k))
  (at level 10, x binder, m at level 200, k at level 200) : nexus_scope.
Open Scope nexus_scope.

#[global] Instance Try_eq_dec {A} `{!EqDecision A} : EqDecision (Try A).
Proof. solve_decision. Defined.

(** ** The operations *)

Class JsonLib := {
  json : Type;
  json_eq_dec : EqDecision json;
  jstr : string -> json;
  jint : Z -> json;
  jbool : bool -> json;
  jdbl : spec_float -> json;
  jarr : list json -> json;
  (** an initialiser list of pairs, or [json::object()] *)
  jobj : list (string * json) -> json;
  is_object : json -> bool;
  is_boolean : json -> bool;
  is_number : json -> bool;
  is_number_integer : json -> bool;
  is_string : json -> bool;
  is_array : json -> bool;
  is_null : json -> bool;
  jnull : json;
  (** the element of a key of an object; [None] when absent or not an object *)
  jfind : json -> string -> option json;
  jempty : json -> bool;
  (** [j[k] = v] *)
  jset : json -> string -> json -> json;
  (** [j.update(other)] of two objects *)
  jupdate : json -> json -> json;
  (** [j.get<T>()] *)
  get_string : json -> Try string;
  get_int : json -> Try Z;
  get_int64 : json -> Try Z;
  get_bool : json -> Try bool;
  get_double : json -> Try spec_float;
  (** the elements of an array; a [type_error] for anything else *)
  get_array : json -> Try (list json);
  (** the message of the [type_error] of [value()] on a value that is no object *)
  not_an_object : json -> string;
  (** the message of the exception of [at()] for a missing key or on a value that is no
      object *)
  at_failed : json -> string -> string;
  (** [json::parse] of a whole text *)
  parse : string -> Try json;
  (** [operator>>]: one value from the front of a stream *)
  parse_stream : string -> Try json;
  (** [dump()]; the strings of the sources are valid UTF-8 where it is called *)
  dump : json -> string;
  (** [dump(2)] *)
  dump_indented : json -> string;
  (** values whose text reads back as the same value: their strings are UTF-8 and
      their numbers finite *)
  dumpable : json -> Prop
}.
#[global] Existing Instance json_eq_dec.

(** First entry of a key in an initialiser list; the others are dropped by the
    [std::map] the library builds. *)
Fixpoint assoc {A} (k : string) (l : list (string * A)) : option A :=
  match l with
  | [] => None
  | (k', v) :: r => if String.eqb k k' then Some v else assoc k r
  end.

Section Derived.
Context `{JsonLib}.

(** [j.contains(k)]. *)
Definition contains (j : json) (k : string) : bool :=
  match jfind j k with Some _ => true | None => false end.

(** [j.value(k, d)]: throws when [j] is no object and when the element has another
    type. *)
Definition value_or {A} (get : json -> Try A) (j : json) (k : string) (d : A) : Try A :=
  if is_object j then
    match jfind j k with Some v => get v | None => Done d end
  else Throw (not_an_object j).

Definition value_string := value_or get_string.
Definition value_int := value_or get_int.
Definition value_int64 := value_or get_int64.
Definition value_bool := value_or get_bool.
Definition value_double := value_or get_double.

(** [j.at(k)]. *)
Definition at_ (j : json) (k : string) : Try json :=
  match jfind j k with Some v => Done v | None => Throw (at_failed j k) end.

(** A payload of scalars as a JSON object. *)
Definition of_scalar (s : Scalar) : json :=
  match s with
  | SStr s => jstr s | SInt z => jint z | SBool b => jbool b | SDouble x => jdbl x
  end.

Definition of_payload (p : Payload) : json := jobj (prod_map id of_scalar <$> p).
End Derived.

(** ** The laws *)

Class JsonLaws (J : JsonLib) := {
  is_object_obj l : is_object (jobj l) = true;
  jfind_obj l k : jfind (jobj l) k = assoc k l;
  jfind_non_object j k : is_object j = false -> jfind j k = None;
  is_object_set j k v : is_object j = true -> is_object (jset j k v) = true;
  jfind_set j k v k' : is_object j = true ->
    jfind (jset j k v) k' = if bool_decide (k = k') then Some v else jfind j k';
  is_object_update j o : is_object j = true -> is_object o = true -> is_object (jupdate j o) = true;
  jfind_update j o k : is_object j = true -> is_object o = true ->
    jfind (jupdate j o) k = match jfind o k with Some v => Some v | None => jfind j k end;
  get_string_str s : get_string (jstr s) = Done s;
  get_int_int z : in_signed 32 z -> get_int (jint z) = Done z;
  get_int64_int z : in_signed 64 z -> get_int64 (jint z) = Done z;
  get_bool_bool b : get_bool (jbool b) = Done b;
  get_double_dbl x : get_double (jdbl x) = Done x;
  get_array_arr l : get_array (jarr l) = Done l;
  is_number_integer_int z : is_number_integer (jint z) = true;
  is_boolean_bool b : is_boolean (jbool b) = true;
  is_number_dbl x : is_number (jdbl x) = true;
  is_string_str s : is_string (jstr s) = true;
  is_array_arr l : is_array (jarr l) = true;
  is_null_null : is_null jnull = true;
  get_int_total j : is_number_integer j = true -> exists z, get_int j = Done z;
  get_int_range j z : get_int j = Done z -> in_signed 32 z;
  get_bool_total j : is_boolean j = true -> exists b, get_bool j = Done b;
  get_double_total j : is_number j = true -> exists x, get_double j = Done x;
  get_string_total j : is_string j = true -> exists s, get_string j = Done s;
  get_string_throws j : is_string j = false -> exists w, get_string j = Throw w;
  parse_dump j : dumpable j -> parse (dump j) = Done j;
  parse_dump_indented j : dumpable j -> parse (dump_indented j) = Done j;
  parse_stream_dump_indented j : dumpable j -> parse_stream (dump_indented j) = Done j
}.

Create Rewrite HintDb json.
#[export] Hint Rewrite @is_object_obj @jfind_obj @get_string_str @get_bool_bool
  @get_double_dbl @get_array_arr using typeclasses eauto : json.

Section ValueLemmas.
Context {J : JsonLib} {L : JsonLaws J}.

Lemma value_or_obj {A} (get : json -> Try A) l k d :
  value_or get (jobj l) k d = match assoc k l with Some v => get v | None => Done d end.
Proof. unfold value_or. by rewrite is_object_obj, jfind_obj. Qed.

Lemma contains_obj l k :
  contains (jobj l) k = match assoc k l with Some _ => true | None => false end.
Proof. unfold contains. by rewrite jfind_obj. Qed.

Lemma contains_is_object j k : contains j k = true -> is_object j = true.
Proof.
  unfold contains. destruct (is_object j) eqn:E; [done|].
  by rewrite jfind_non_object.
Qed.
End ValueLemmas.

(** ** A concrete library *)

Inductive JValue :=
| JNull
| JBool (b : bool)
| JInt (z : Z)
| JDbl (x : spec_float)
| JStr (s : string)
| JArr (l : list JValue)
| JObj (l : list (string * JValue)).

Definition float_code (x : spec_float) : nat * bool * positive * Z :=
  match x with
  | S754_zero s => (0, s, 1%positive, 0%Z)
  | S754_infinity s => (1, s, 1%positive, 0%Z)
  | S754_nan => (2, false, 1%positive, 0%Z)
  | S754_finite s m e => (3, s, m, e)
  end.
Definition float_decode (c : nat * bool * positive * Z) : spec_float :=
  match c with
  | (0, s, _, _) => S754_zero s
  | (1, s, _, _) => S754_infinity s
  | (2, _, _, _) => S754_nan
  | (_, s, m, e) => S754_finite s m e
  end.
#[global] Instance spec_float_countable : Countable spec_float.
Proof. apply (inj_countable' float_code float_decode). by intros []. Defined.

Abbreviation JTree := (gen_tree (bool + Z + spec_float + string)).

Fixpoint to_tree (j : JValue) : JTree :=
  match j with
  | JNull => GenNode 0 []
  | JBool b => GenNode 1 [GenLeaf (inl (inl (inl b)))]
  | JInt z => GenNode 2 [GenLeaf (inl (inl (inr z)))]
  | JDbl x => GenNode 3 [GenLeaf (inl (inr x))]
  | JStr s => GenNode 4 [GenLeaf (inr s)]
  | JArr l => GenNode 5 (to_tree <$> l)
  | JObj l => GenNode 6 ((fun p => GenNode 7 [GenLeaf (inr p.1); to_tree p.2]) <$> l)
  end.

Fixpoint of_tree (t : JTree) : JValue :=
  match t with
  | GenNode 1 [GenLeaf (inl (inl (inl b)))] => JBool b
  | GenNode 2 [GenLeaf (inl (inl (inr z)))] => JInt z
  | GenNode 3 [GenLeaf (inl (inr x))] => JDbl x
  | GenNode 4 [GenLeaf (inr s)] => JStr s
  | GenNode 5 l => JArr (of_tree <$> l)
  | GenNode 6 l =>
      JObj ((fun t => match t with
                      | GenNode _ [GenLeaf (inr k); v] => (k, of_tree v)
                      | _ => (EmptyString, JNull)
                      end) <$> l)
  | _ => JNull
  end.

Fixpoint of_to_tree (j : JValue) : of_tree (to_tree j) = j.
Proof.
  destruct j as [| | | | |l|l]; simpl; try done; f_equal.
  - induction l as [|x l IH]; [done|]. simpl. f_equal; [apply of_to_tree|exact IH].
  - induction l as [|[k x] l IH]; [done|]. simpl. f_equal; [by rewrite of_to_tree|exact IH].
Qed.

#[global] Instance JValue_eq_dec : EqDecision JValue.
Proof. refine (fun x y => cast_if (decide (to_tree x = to_tree y))).
  - by rewrite <- (of_to_tree x), e, of_to_tree.
  - congruence.
Defined.

(** A text for a tree: the binary digits of its code. *)
Fixpoint digits (p : positive) : string :=
  match p with
  | xH => ""
  | xO p => String "0"%char (digits p)
  | xI p => String "1"%char (digits p)
  end.

Fixpoint of_digits (s : string) : positive :=
  match s with
  | EmptyString => xH
  | String c s => if bool_decide (c = "0"%char) then xO (of_digits s) else xI (of_digits s)
  end.

Lemma of_digits_digits p : of_digits (digits p) = p.
Proof. induction p; simpl; by rewrite ?IHp. Qed.

Definition jv_parse (s : string) : Try JValue :=
  match decode (of_digits s) with
  | Some t => Done (of_tree t)
  | None => Throw "parse_error"
  end.

Definition jv_dump (j : JValue) : string := digits (encode (to_tree j)).

Lemma jv_parse_dump j : jv_parse (jv_dump j) = Done j.
Proof. unfold jv_parse, jv_dump. by rewrite of_digits_digits, decode_encode, of_to_tree. Qed.

Fixpoint jv_update (k : string) (v : JValue) (l : list (string * JValue)) :=
  match l with
  | [] => [(k, v)]
  | (k', v') :: r => if bool_decide (k = k') then (k, v) :: r else (k', v') :: jv_update k v r
  end.

Lemma assoc_update k v l k' :
  assoc k' (jv_update k v l) = if bool_decide (k = k') then Some v else assoc k' l.
Proof.
  induction l as [|[k1 v1] l IH]; simpl.
  - destruct (String.eqb_spec k' k); goal_bool_decide; congruence.
  - destruct (bool_decide_reflect (k = k1)); simpl; rewrite ?IH;
      repeat match goal with |- context [String.eqb ?x ?y] => destruct (String.eqb_spec x y) end;
      goal_bool_decide; congruence.
Qed.

Definition jv_merge (l m : list (string * JValue)) : list (string * JValue) :=
  foldr (fun e m => jv_update e.1 e.2 m) m l.

Lemma assoc_merge l m k :
  assoc k (jv_merge l m) = match assoc k l with Some v => Some v | None => assoc k m end.
Proof.
  induction l as [|[k1 v1] l IH]; [done|]. unfold jv_merge in *. cbn [foldr assoc fst snd].
  rewrite assoc_update, IH.
  destruct (String.eqb_spec k k1); goal_bool_decide; congruence.
Qed.

#[global] Instance jvalue_lib : JsonLib := {|
  json := JValue;
  json_eq_dec := _;
  jstr := JStr; jint := JInt; jbool := JBool; jdbl := JDbl; jarr := JArr; jobj := JObj;
  is_object j := match j with JObj _ => true | _ => false end;
  is_boolean j := match j with JBool _ => true | _ => false end;
  is_number j := match j with JInt _ | JDbl _ => true | _ => false end;
  is_number_integer j := match j with JInt _ => true | _ => false end;
  is_string j := match j with JStr _ => true | _ => false end;
  is_array j := match j with JArr _ => true | _ => false end;
  is_null j := match j with JNull => true | _ => false end;
  jnull := JNull;
  jupdate j o := match j, o with
    | JObj m, JObj l => JObj (jv_merge l m)
    | _, _ => j end;
  jfind j k := match j with JObj l => assoc k l | _ => None end;
  jempty j := match j with JObj [] | JArr [] | JNull => true | _ => false end;
  jset j k v := match j with JObj l => JObj (jv_update k v l) | _ => j end;
  get_string j := match j with JStr s => Done s | _ => Throw "type must be string" end;
  get_int j := match j with JInt z => Done (to_signed 32 z) | _ => Throw "type must be number" end;
  get_int64 j := match j with JInt z => Done (to_signed 64 z) | _ => Throw "type must be number" end;
  get_bool j := match j with JBool b => Done b | _ => Throw "type must be boolean" end;
  get_double j := match j with
    | JDbl x => Done x
    | JInt z => Done (binary_normalize 53 1024 z 0 false)
    | _ => Throw "type must be number" end;
  get_array j := match j with JArr l => Done l | _ => Throw "type must be array" end;
  not_an_object _ := "cannot use value()";
  at_failed _ k := "key '" +:+ k +:+ "' not found";
  parse := jv_parse;
  parse_stream := jv_parse;
  dump := jv_dump;
  dump_indented := jv_dump;
  dumpable _ := True
|}.

#[global] Instance jvalue_laws : JsonLaws jvalue_lib.
Proof.
  assert (Hr : forall w z, (0 < w)%Z -> in_signed w z -> to_signed w z = z).
  { intros w z Hw Hz. rewrite <- (to_signed_wrap w z Hw Hz) at 2.
    unfold to_signed. by rewrite wrap_wrap by lia. }
  split; simpl; try done.
  - by intros [].
  - by intros [].
  - intros []; simpl; try done. intros. apply assoc_update.
  - intros [] []; simpl; done.
  - intros [] []; simpl; try done. intros. apply assoc_merge.
  - intros. by rewrite Hr by done.
  - intros. by rewrite Hr by done.
  - intros []; try done. eauto.
  - intros [] z' ?; simplify_eq/=. by apply to_signed_bound.
  - intros []; try done. eauto.
  - intros []; try done; eauto.
  - intros []; try done; eauto.
  - intros []; try done; eauto.
  - intros. apply jv_parse_dump.
  - intros. apply jv_parse_dump.
  - intros. apply jv_parse_dump.
Qed.
