(* ===== verification/Files.v ===== *)
(** * Files: the POSIX file system and atomic replacement

    The operating system is a parameter: [FileSystem] lists the calls the sources
    make, with the behaviour POSIX gives them, including what a file may hold after
    a power cut.  [atomicWriteFile] models [src/src/core/AtomicFile.cpp] call by
    call; every state between two calls is an effect of the run, so that a theorem
    about all of them is a theorem about every crash point. *)

From Stdlib Require Import Ascii.
From Stdlib Require String.
From stdpp Require Import functions.
From S2P Require Import Prelude Core.

(** ** Strings as byte buffers *)

Definition str_take (n : nat) (s : string) : string := String.substring 0 n s.

Fixpoint str_drop (n : nat) (s : string) : string :=
  match n, s with
  | O, _ => s
  | S n, EmptyString => EmptyString
  | S n, String _ s => str_drop n s
  end.

Lemma str_app_cons c s t : String c s +:+ t = String c (s +:+ t).
Proof. reflexivity. Qed.

Lemma str_take_drop n s : str_take n s +:+ str_drop n s = s.
Proof.
  revert n. induction s as [|c s IH]; intros [|n]; try done.
  unfold str_take in *. simpl. rewrite str_app_cons. f_equal. apply IH.
Qed.

Lemma str_take_all n s : (String.length s <= n)%nat -> str_take n s = s.
Proof.
  revert n. induction s as [|c s IH]; intros n Hn; [by destruct n|].
  destruct n as [|n]; simpl in Hn; [lia|]. specialize (IH n ltac:(lia)). unfold str_take in *. simpl. by rewrite IH.
Qed.

Lemma str_drop_length n s : String.length (str_drop n s) = String.length s - n.
Proof. revert n. induction s as [|c s IH]; intros [|n]; simpl; auto. Qed.

Lemma str_app_nil s : s +:+ "" = s.
Proof. induction s as [|c s IH]; [done|]. by rewrite str_app_cons, IH. Qed.

Lemma str_app_assoc s t u : (s +:+ t) +:+ u = s +:+ (t +:+ u).
Proof. induction s as [|c s IH]; [done|]. by rewrite !str_app_cons, IH. Qed.

Lemma str_app_length s t : String.length (s +:+ t) = String.length s + String.length t.
Proof. induction s as [|c s IH]; [done|]. rewrite str_app_cons. simpl. by rewrite IH. Qed.

(** [fs::path::parent_path]: what precedes the last slash; the root is its own
    parent.  [None] when there is no slash. *)
Fixpoint parent_path (s : string) : option string :=
  match s with
  | EmptyString => None
  | String c r =>
      match parent_path r with
      | Some p => Some (String c p)
      | None => if bool_decide (c = "/"%char) then Some "" else None
      end
  end.

Definition dir_of (p : string) : string :=
  match parent_path p with Some "" => "/" | Some d => d | None => "." end.

(** ** The operating system *)

Class FileSystem := {
  Disk : Type;
  (** what a process reads at a path *)
  visible : Disk -> string -> option string;
  (** what may be at the path after a power cut *)
  survives : Disk -> string -> option string -> Prop;
  (** the bytes of the file at the path have reached the medium *)
  data_synced : Disk -> string -> Prop;
  (** the path an open descriptor was opened at *)
  fd_path : Disk -> Z -> option string;
  (** a disk found when the machine restarts after a power cut *)
  reboot : Disk -> Disk -> Prop;
  create_directories : string -> Disk -> unit * Disk;
  open_trunc : string -> Disk -> Z * Disk;
  open_dir : string -> Disk -> Z * Disk;
  write : Z -> string -> Disk -> Z * Disk;
  fsync : Z -> Disk -> Z * Disk;
  close : Z -> Disk -> unit * Disk;
  unlink : string -> Disk -> unit * Disk;
  rename : string -> string -> Disk -> Z * Disk;
  (** 0 when the copy succeeded *)
  copy_file : string -> string -> Disk -> Z * Disk;
  strerror : Disk -> string
}.

(** A call leaves the file at [q] alone. *)
Definition same_file `{FileSystem} (q : string) (d d' : Disk) : Prop :=
  visible d' q = visible d q /\ (forall x, survives d' q x -> survives d q x).

(** [fs::exists]. *)
Definition exists_file `{FileSystem} (d : Disk) (p : string) : bool :=
  match visible d p with Some _ => true | None => false end.

Class FileSystemLaws (F : FileSystem) := {
  create_directories_same p d q : same_file q d (create_directories p d).2;
  open_trunc_same p d q : q <> p -> same_file q d (open_trunc p d).2;
  open_trunc_ok p d : (0 <= (open_trunc p d).1)%Z ->
    visible (open_trunc p d).2 p = Some "" /\
    fd_path (open_trunc p d).2 (open_trunc p d).1 = Some p;
  open_dir_same p d q : same_file q d (open_dir p d).2;
  write_same fd s d p q : fd_path d fd = Some p -> q <> p -> same_file q d (write fd s d).2;
  write_fd fd s d fd' : fd_path (write fd s d).2 fd' = fd_path d fd';
  write_ok fd s d p c : fd_path d fd = Some p -> visible d p = Some c ->
    let n := (write fd s d).1 in (0 <= n)%Z ->
    (n <= Z.of_nat (String.length s))%Z /\
    visible (write fd s d).2 p = Some (c +:+ str_take (Z.to_nat n) s);
  (** a request to write at least one byte to a regular file never writes none *)
  write_progress fd s d p : fd_path d fd = Some p -> s <> "" -> (write fd s d).1 <> 0%Z;
  fsync_same fd d q : same_file q d (fsync fd d).2;
  fsync_fd fd d fd' : fd_path (fsync fd d).2 fd' = fd_path d fd';
  fsync_ok fd d p : fd_path d fd = Some p -> (fsync fd d).1 = 0%Z ->
    data_synced (fsync fd d).2 p;
  close_same fd d q : same_file q d (close fd d).2;
  close_synced fd d q : data_synced d q -> data_synced (close fd d).2 q;
  unlink_same p d q : q <> p -> same_file q d (unlink p d).2;
  rename_same p q d r : r <> p -> r <> q -> same_file r d (rename p q d).2;
  rename_failed p q d r : (rename p q d).1 <> 0%Z -> same_file r d (rename p q d).2;
  (** renaming is atomic, and keeps the promise made for the bytes that were synced *)
  rename_ok p q d c : (rename p q d).1 = 0%Z -> p <> q -> visible d p = Some c ->
    visible (rename p q d).2 q = Some c /\ visible (rename p q d).2 p = None /\
    (data_synced d p -> forall x, survives (rename p q d).2 q x -> survives d q x \/ x = Some c);
  copy_file_same p q d r : r <> q -> same_file r d (copy_file p q d).2;
  copy_file_ok p q d c : (copy_file p q d).1 = 0%Z -> visible d p = Some c ->
    visible (copy_file p q d).2 q = Some c;
  reboot_survives d d' p : reboot d d' -> survives d p (visible d' p)
}.

Lemma same_file_refl `{FileSystem} q d : same_file q d d.
Proof. by split. Qed.

Lemma same_file_trans `{FileSystem} q d1 d2 d3 :
  same_file q d1 d2 -> same_file q d2 d3 -> same_file q d1 d3.
Proof. intros [H1 H1'] [H2 H2']. split; [congruence|auto]. Qed.

#[export] Hint Resolve same_file_refl create_directories_same open_dir_same fsync_same
  close_same : nexus.

(** ** Replacing a file *)

Section AtomicFile.
Context {F : FileSystem}.

(** A system call; the disk it leaves is a point where the power may be cut. *)
Definition sys {A} (f : Disk -> A * Disk) : SW Disk Disk A :=
  fun d => ((f d).1, (f d).2, [(f d).2]).

(** The text of an error, from the errno of the last call. *)
Definition write_failed (code : ErrorCode) (what : string) : SW Disk Disk (option Status) :=
  d ← get; mret (Some (error code (what +:+ strerror d))).

(** The loop that writes the buffer, with the error code of its caller; [None] when the
    fuel runs out. *)
(* [src/src/core/AtomicFile.cpp:28-40] atomicWriteFile *)
Fixpoint write_all (code : ErrorCode) (fuel : nat) (fd : Z) (tmp p : string) : SW Disk Disk (option Status) :=
  if bool_decide (p = "") then mret (Some success)
  else
    match fuel with
    | O => mret None
    | S fuel =>
        n ← sys (write fd p);
        if (n <? 0)%Z then
          sys (close fd);;
          sys (unlink tmp);;
          write_failed code "write failed: "
        else write_all code fuel fd tmp (str_drop (Z.to_nat n) p)
    end.

(** From the write loop on, once the temporary file is open. *)
(* [src/src/core/AtomicFile.cpp:28-60] atomicWriteFile *)
Definition write_and_rename (fuel : nat) (fd : Z) (tmp target dir contents : string) :
  SW Disk Disk (option Status) :=
  w ← write_all ErrorCode.ConfigWriteFailed fuel fd tmp contents;
  match w with
  | None => mret None
  | Some w =>
      if negb (status_ok w) then mret (Some w)
      else
        f ← sys (fsync fd);
        if bool_decide (f <> 0%Z) then
          sys (close fd);;
          sys (unlink tmp);;
          write_failed ErrorCode.ConfigWriteFailed "fsync failed: "
        else
          sys (close fd);;
          r ← sys (rename tmp target);
          if bool_decide (r <> 0%Z) then
            sys (unlink tmp);;
            write_failed ErrorCode.ConfigWriteFailed "rename failed: "
          else
            dfd ← sys (open_dir dir);
            (if (0 <=? dfd)%Z then sys (fsync dfd);; sys (close dfd) else mret ());;
            mret (Some success)
  end.

(* [src/src/core/AtomicFile.cpp:14-62] atomicWriteFile *)
Definition atomicWriteFile (fuel : nat) (path contents : string) : SW Disk Disk (option Status) :=
  let dir := dir_of path in
  sys (create_directories dir);;
  let tmp := path +:+ ".tmp" in
  fd ← sys (open_trunc tmp);
  if (fd <? 0)%Z then write_failed ErrorCode.ConfigWriteFailed "open tmp failed: "
  else write_and_rename fuel fd tmp path dir contents.
End AtomicFile.

(** ** What a writer promises to the components that persist files *)

(** [atomic_outcome path contents d r d' points]: a run from [d] to [d'] that returned
    [r] and passed through [points]. *)
Record atomic_outcome `{FileSystem} (path contents : string) (d : Disk) (r : Status)
    (d' : Disk) (points : list Disk) : Prop := mk_outcome {
  outcome_ok : status_ok r = true -> visible d' path = Some contents;
  outcome_error : status_ok r = false -> same_file path d d';
  outcome_points : Forall (fun x =>
    (visible x path = visible d path \/ visible x path = Some contents) /\
    (forall y, survives x path y -> survives d path y \/ y = Some contents)) points;
  outcome_last : forall y, survives d' path y -> survives d path y \/ y = Some contents;
  outcome_others : forall q, q <> path -> q <> path +:+ ".tmp" ->
    Forall (fun x => same_file q d x) (d' :: points)
}.

Class AtomicWriter (F : FileSystem) := {
  atomic_write : string -> string -> SW Disk Disk Status;
  atomic_write_spec path contents d :
    atomic_outcome path contents d (value_of (atomic_write path contents) d)
      (state_after (atomic_write path contents) d) (effects_of (atomic_write path contents) d)
}.

Lemma suffix_ne (p : string) s : s <> "" -> p <> p +:+ s.
Proof.
  intros Hs E. apply (f_equal String.length) in E. rewrite str_app_length in E.
  destruct s; [done|]. simpl in E. lia.
Qed.

Lemma tmp_ne path : path <> path +:+ ".tmp".
Proof. by apply suffix_ne. Qed.
#[export] Hint Resolve tmp_ne : nexus.

(** ** The implementation keeps the promise *)

Section AtomicFileProofs.
Context {F : FileSystem} {FL : FileSystemLaws F}.
Variables (path tmp contents : string) (d0 : Disk).
Hypothesis Htmp : path <> tmp.

(** Nothing but the temporary file has changed. *)
Definition quiet (d : Disk) : Prop := forall q, q <> tmp -> same_file q d0 d.

(** The target has been replaced. *)
Definition replaced (d : Disk) : Prop :=
  visible d path = Some contents /\
  (forall y, survives d path y -> survives d0 path y \/ y = Some contents) /\
  (forall q, q <> path -> q <> tmp -> same_file q d0 d).

Definition crash_point (d : Disk) : Prop := quiet d \/ replaced d.

Lemma quiet_step d d' : quiet d -> (forall q, q <> tmp -> same_file q d d') -> quiet d'.
Proof. intros Hd Hs q Hq. eapply same_file_trans; [by apply Hd|by apply Hs]. Qed.

Lemma replaced_step d d' : replaced d -> (forall q, q <> tmp -> same_file q d d') -> replaced d'.
Proof.
  intros (Hv & Hy & Hq) Hs. destruct (Hs path Htmp) as [Ev Es].
  split_and!; [congruence|auto|].
  intros q ??. eapply same_file_trans; [by apply Hq|by apply Hs].
Qed.

Lemma sys_triple {A} P (f : Disk -> A * Disk) (Q : A -> Disk -> Prop) :
  (forall d, P d -> crash_point (f d).2 /\ Q (f d).1 (f d).2) ->
  triple crash_point P (sys f) Q.
Proof. intros Hf d Hd. destruct (Hf d Hd). split; [by constructor|done]. Qed.

(** A call that only touches the temporary file. *)
Lemma sys_quiet {A} (f : Disk -> A * Disk) :
  (forall d q, q <> tmp -> same_file q d (f d).2) ->
  triple crash_point quiet (sys f) (fun _ => quiet).
Proof.
  intros Hf. apply sys_triple. intros d Hd.
  assert (quiet (f d).2) by (by eapply quiet_step; eauto). by split; [left|].
Qed.

Definition failed (r : option Status) (d : Disk) : Prop :=
  exists s, r = Some s /\ status_ok s = false /\ quiet d.

Lemma write_failed_triple code what : code <> ErrorCode.Ok ->
  triple crash_point quiet (write_failed code what) failed.
Proof.
  intros Hc. eapply triple_bind; [apply triple_get|]. intros d1.
  intros d [_ Hd]. split; [constructor|]. eexists. by rewrite status_ok_error.
Qed.

(** The temporary file is open and holds what has been written so far. *)
Definition writing (fd : Z) (sofar : string) (d : Disk) : Prop :=
  quiet d /\ fd_path d fd = Some tmp /\ visible d tmp = Some sofar.

(** Closing and removing the temporary file before an error is returned. *)
Lemma cleanup_triple {A} (f : Disk -> A * Disk) code what :
  code <> ErrorCode.Ok ->
  (forall d q, q <> tmp -> same_file q d (f d).2) ->
  triple crash_point quiet (sys f;; sys (unlink tmp);; write_failed code what) failed.
Proof.
  intros Hc Hf. eapply triple_bind; [by apply sys_quiet|]. intros ?.
  eapply triple_bind; [apply sys_quiet; intros; by apply unlink_same|]. intros ?.
  by apply write_failed_triple.
Qed.

Lemma write_all_triple code fuel fd p sofar :
  code <> ErrorCode.Ok -> sofar +:+ p = contents -> String.length p <= fuel ->
  triple crash_point (writing fd sofar) (write_all code fuel fd tmp p)
    (fun r d => failed r d \/ r = Some success /\ writing fd contents d).
Proof.
  intros Hc. revert p sofar. induction fuel as [|fuel IH]; intros p sofar Hp Hlen; simpl.
  - destruct p; [|simpl in Hlen; lia]. rewrite bool_decide_eq_true_2 by done.
    rewrite str_app_nil in Hp. subst sofar.
    intros d Hd. split; [constructor|]. by right.
  - destruct (bool_decide_reflect (p = "")) as [->|Hne].
    + rewrite str_app_nil in Hp. subst sofar. intros d Hd. split; [constructor|]. by right.
    + eapply (triple_bind _ _ _ _ (fun n d => quiet d /\ ((0 <= n)%Z ->
        (0 < n <= Z.of_nat (String.length p))%Z /\
        writing fd (sofar +:+ str_take (Z.to_nat n) p) d))).
      * apply sys_triple. intros d (Hq & Hfd & Hv).
        assert (quiet (write fd p d).2) as Hq'.
        { eapply quiet_step; [done|]. intros. by eapply write_same. }
        split; [by left|]. split; [done|]. intros Hn.
        destruct (write_ok fd p d tmp sofar Hfd Hv Hn) as [Hle Hv'].
        pose proof (write_progress fd p d tmp Hfd Hne).
        split; [lia|]. split_and!; [done|by rewrite write_fd|done].
      * intros n. destruct (Z.ltb_spec n 0).
        -- eapply triple_weaken; [apply cleanup_triple; [done|intros; apply close_same]|by intros ? []|].
           intros r d Hr. by left.
        -- intros d [_ Hd]. destruct (Hd ltac:(lia)) as [Hn Hw].
           eapply IH; [|rewrite str_drop_length; lia|exact Hw].
           by rewrite str_app_assoc, str_take_drop.
Qed.
(** The outcome of the whole run. *)
Definition outcome (r : option Status) (d : Disk) : Prop :=
  failed r d \/ r = Some success /\ replaced d.

(** A call after the rename. *)
Lemma sys_replaced {A} (f : Disk -> A * Disk) :
  (forall d q, same_file q d (f d).2) ->
  triple crash_point replaced (sys f) (fun _ => replaced).
Proof.
  intros Hf. apply sys_triple. intros d Hd.
  assert (replaced (f d).2) by (by eapply replaced_step). by split; [right|].
Qed.

Lemma finish_triple dir :
  triple crash_point replaced
    (dfd ← sys (open_dir dir);
     (if (0 <=? dfd)%Z then sys (fsync dfd);; sys (close dfd) else mret ());;
     mret (Some success)) outcome.
Proof.
  eapply triple_bind; [apply sys_replaced; auto with nexus|]. intros dfd.
  eapply (triple_bind _ _ _ _ (fun _ => replaced)).
  - destruct (0 <=? dfd)%Z.
    + eapply triple_bind; [apply sys_replaced; auto with nexus|]. intros ?.
      apply sys_replaced. auto with nexus.
    + intros d Hd. by split; [constructor|].
  - intros ? d Hd. split; [constructor|]. by right.
Qed.

(** The temporary file is complete and its bytes have reached the medium. *)
Definition complete (d : Disk) : Prop :=
  quiet d /\ visible d tmp = Some contents /\ data_synced d tmp.

Lemma rename_triple dir :
  triple crash_point complete
    (r ← sys (rename tmp path);
     if bool_decide (r <> 0%Z) then sys (unlink tmp);; write_failed ErrorCode.ConfigWriteFailed "rename failed: "
     else
       dfd ← sys (open_dir dir);
       (if (0 <=? dfd)%Z then sys (fsync dfd);; sys (close dfd) else mret ());;
       mret (Some success)) outcome.
Proof.
  eapply (triple_bind _ _ _ _ (fun r d => if bool_decide (r <> 0%Z) then quiet d else replaced d)).
  - apply sys_triple. intros d (Hq & Hv & Hs).
    destruct (bool_decide_reflect ((rename tmp path d).1 <> 0%Z)) as [Hr|Hr].
    + assert (quiet (rename tmp path d).2); [|by split; [left|]].
      eapply quiet_step; [done|]. intros. by apply rename_failed.
    + assert (replaced (rename tmp path d).2); [|by split; [right|]].
      destruct (rename_ok tmp path d contents) as (Hv' & _ & Hsv);
        [lia|by apply not_eq_sym|done|].
      destruct (Hq path Htmp) as [_ Hold].
      split_and!; [done|intros y Hy; destruct (Hsv Hs y Hy); auto|].
      intros q Hqp Hqt. eapply same_file_trans; [by apply Hq|by apply rename_same].
  - intros r. destruct (bool_decide (r <> 0%Z)); [|apply finish_triple].
    eapply triple_bind; [apply sys_quiet; intros; by apply unlink_same|]. intros ?.
    eapply triple_weaken; [by apply write_failed_triple|done|by left].
Qed.

Lemma write_and_rename_triple fuel fd dir :
  String.length contents <= fuel ->
  triple crash_point (writing fd "") (write_and_rename fuel fd tmp path dir contents) outcome.
Proof.
  intros Hfuel. eapply triple_bind; [by apply write_all_triple|]. intros w d [Hw|[-> Hw]].
  - destruct Hw as (s & -> & Hs & Hq). rewrite Hs. split; [constructor|].
    left. by exists s.
  - rewrite status_ok_success. revert d Hw.
    eapply (triple_bind _ _ _ _ (fun f d => if bool_decide (f <> 0%Z) then quiet d else complete d)).
    + apply sys_triple. intros d (Hq & Hfd & Hv).
      assert (quiet (fsync fd d).2) as Hq' by (by eapply quiet_step; eauto with nexus).
      split; [by left|].
      destruct (bool_decide_reflect ((fsync fd d).1 <> 0%Z)) as [|Hf]; [done|].
      split_and!; [done| |].
      * by destruct (fsync_same fd d tmp) as [-> _].
      * eapply fsync_ok; [done|lia].
    + intros f. destruct (bool_decide (f <> 0%Z)).
      * eapply triple_weaken; [by apply cleanup_triple; auto with nexus|done|by left].
      * eapply (triple_bind _ _ _ _ (fun _ => complete)); [|intros ?; apply rename_triple].
        apply sys_triple. intros d (Hq & Hv & Hs).
        assert (quiet (close fd d).2) as Hq' by (by eapply quiet_step; eauto with nexus).
        split; [by left|]. split_and!; [done| |by apply close_synced].
        by destruct (close_same fd d tmp) as [-> _].
Qed.

End AtomicFileProofs.

Lemma atomicWriteFile_triple {F : FileSystem} {FL : FileSystemLaws F} path contents d0 fuel :
  String.length contents <= fuel ->
  let tmp := path +:+ ".tmp" in
  triple (crash_point path tmp contents d0) (quiet tmp d0) (atomicWriteFile fuel path contents)
    (outcome path tmp contents d0).
Proof.
  intros Hfuel tmp. pose proof (tmp_ne path) as Htmp. fold tmp in Htmp.
  eapply triple_bind; [apply sys_quiet; auto with nexus|]. intros ?.
  eapply (triple_bind _ _ _ _ (fun fd d => quiet tmp d0 d /\
    ((0 <= fd)%Z -> writing tmp d0 fd "" d))).
  - apply sys_triple. intros d Hd.
    assert (quiet tmp d0 (open_trunc tmp d).2) as Hq.
    { eapply quiet_step; [done|]. intros. by apply open_trunc_same. }
    split; [by left|]. split; [done|]. intros Hfd.
    by destruct (open_trunc_ok tmp d Hfd).
  - intros fd. destruct (Z.ltb_spec fd 0).
    + eapply triple_weaken; [by apply write_failed_triple|by intros ? []|by left].
    + eapply triple_weaken; [by apply write_and_rename_triple| |done].
      intros d [_ Hd]. by apply Hd.
Qed.


(** From a triple on the crash points to the outcome promised by the interface. *)
Lemma outcome_of_run {F : FileSystem} {FL : FileSystemLaws F} fuel path contents d :
  String.length contents <= fuel ->
  let m := atomicWriteFile fuel path contents in
  exists s, value_of m d = Some s /\
    atomic_outcome path contents d s (state_after m d) (effects_of m d).
Proof.
  intros Hfuel m.
  destruct (atomicWriteFile_triple path contents d fuel Hfuel d) as [Hpts Hout];
    [intros q _; apply same_file_refl|]. fold m in Hpts, Hout.
  assert (forall x, crash_point path (path +:+ ".tmp") contents d x ->
    (visible x path = visible d path \/ visible x path = Some contents) /\
    (forall y, survives x path y -> survives d path y \/ y = Some contents)) as Hpt.
  { intros x [Hx|(Hx & Hy & _)].
    - destruct (Hx path (tmp_ne path)) as [Hv Hs]. auto.
    - auto. }
  assert (forall q x, q <> path -> q <> path +:+ ".tmp" -> crash_point path (path +:+ ".tmp") contents d x ->
    same_file q d x) as Hq.
  { intros q x ?? [Hx|(_ & _ & Hx)]; by apply Hx. }
  assert (forall s, (status_ok s = true -> visible (state_after m d) path = Some contents) ->
    (status_ok s = false -> same_file path d (state_after m d)) ->
    crash_point path (path +:+ ".tmp") contents d (state_after m d) ->
    atomic_outcome path contents d s (state_after m d) (effects_of m d)) as Hmk.
  { intros s Hok Herr Hend. split; [done|done| |by apply Hpt|].
    - by eapply Forall_impl; [exact Hpts|].
    - intros q ??. constructor; [by apply Hq|]. eapply Forall_impl; [exact Hpts|].
      intros x Hx. by apply Hq. }
  destruct Hout as [(s & Hs & Herr & Hd)|[Hs Hd]].
  - exists s. split; [done|]. apply Hmk; [congruence| |by left].
    intros _. apply Hd, tmp_ne.
  - exists success. split; [done|]. apply Hmk; [|done|by right].
    intros _. apply Hd.
Qed.

(** ** The implementation of the interface *)

(** [atomicWriteFile] with enough fuel for its loop: one round per byte at most. *)
Definition posix_write `{FileSystem} (path contents : string) : SW Disk Disk Status :=
  fun d =>
    let m := atomicWriteFile (String.length contents) path contents in
    (default (error ErrorCode.Unknown "") (value_of m d), state_after m d, effects_of m d).

#[global] Instance posix_writer {F : FileSystem} {FL : FileSystemLaws F} : AtomicWriter F.
Proof.
  refine {| atomic_write := posix_write |}. intros path contents d.
  destruct (outcome_of_run (String.length contents) path contents d) as (s & Hs & Hout); [done|].
  unfold value_of, state_after, effects_of, posix_write. simpl. rewrite Hs. exact Hout.
Defined.

(** ** A concrete disk *)

(** A disk with a script of faults: each call takes the next number of the script, a
    negative one makes it fail, and a positive one bounds the bytes a [write] takes. *)
Record MDisk := mk_disk
  { names : gmap string (string * bool);
    media : gmap string (list (option string));
    fds : gmap Z string;
    script : list Z }.

(** What may be at a path after a power cut: nothing where nothing was ever written. *)
Definition remains (d : MDisk) (p : string) : list (option string) := default [None] (media d !! p).

Definition next (d : MDisk) : Z * MDisk :=
  match script d with
  | [] => (0%Z, d)
  | n :: r => (n, mk_disk (names d) (media d) (fds d) r)
  end.

Definition set_name (p : string) (x : option (string * bool)) (d : MDisk) : MDisk :=
  mk_disk (partial_alter (fun _ => x) p (names d))
    (<[p := (fst <$> x) :: remains d p]> (media d)) (fds d) (script d).

Definition set_fd (fd : Z) (p : string) (d : MDisk) : MDisk :=
  mk_disk (names d) (media d) (<[fd := p]> (fds d)) (script d).

Definition m_open (p : string) (d : MDisk) : Z * MDisk :=
  let (n, d) := next d in
  if (n <? 0)%Z then (-1, d)%Z
  else (3%Z, set_fd 3 p (set_name p (Some (""%string, false)) d)).

Definition m_write (fd : Z) (s : string) (d : MDisk) : Z * MDisk :=
  let (n, d) := next d in
  match fds d !! fd with
  | None => (-1, d)%Z
  | Some p =>
      if (n <? 0)%Z then (-1, d)%Z
      else
        let k := if (n =? 0)%Z then String.length s else Z.to_nat n `min` String.length s in
        (Z.of_nat k,
         match names d !! p with
         | Some (c, _) => set_name p (Some (c +:+ str_take k s, false)) d
         | None => d
         end)
  end.

Definition m_fsync (fd : Z) (d : MDisk) : Z * MDisk :=
  let (n, d) := next d in
  if (n <? 0)%Z then (-1, d)%Z
  else
    (0%Z, match fds d !! fd with
          | Some p => mk_disk (alter (fun c => (c.1, true)) p (names d)) (media d)
                        (fds d) (script d)
          | None => d
          end).

Definition m_rename (p q : string) (d : MDisk) : Z * MDisk :=
  let (n, d) := next d in
  match names d !! p with
  | None => (-1, d)%Z
  | Some (c, synced) =>
      if (n <? 0)%Z then (-1, d)%Z
      else
        let d' := set_name p None (set_name q (Some (c, synced)) d) in
        (0%Z, if synced then d'
              else mk_disk (names d') (<[q := Some ""%string :: remains d' q]> (media d')) (fds d')
                     (script d'))
  end.

#[global] Instance mdisk_system : FileSystem := {|
  Disk := MDisk;
  visible d p := fst <$> names d !! p;
  survives d p x := x ∈ remains d p;
  data_synced d p := forall c b, names d !! p = Some (c, b) -> b = true;
  fd_path d fd := fds d !! fd;
  reboot d d' := map_Forall (fun p l => fst <$> names d' !! p ∈ l) (media d) /\
    map_Forall (fun p _ => is_Some (media d !! p)) (names d');
  create_directories _ d := ((), d);
  open_trunc := m_open;
  open_dir _ d := let (n, d) := next d in (n, d);
  write := m_write;
  fsync := m_fsync;
  close _ d := ((), d);
  unlink p d := ((), set_name p None d);
  rename := m_rename;
  copy_file p q d := match names d !! p with
                     | Some (c, _) => (0%Z, set_name q (Some (c, false)) d)
                     | None => (1%Z, d)
                     end;
  strerror _ := "Input/output error"
|}.

Lemma set_name_eq p x d :
  names (set_name p x d) !! p = x /\ remains (set_name p x d) p = (fst <$> x) :: remains d p.
Proof. unfold remains. simpl. split; [apply lookup_partial_alter_eq|].
  by rewrite lookup_insert_eq. Qed.

Lemma set_name_ne p x d q : q <> p ->
  names (set_name p x d) !! q = names d !! q /\ remains (set_name p x d) q = remains d q.
Proof.
  intros Hq. unfold remains. simpl. by rewrite lookup_partial_alter_ne, lookup_insert_ne.
Qed.

Lemma same_parts q (d d' : MDisk) :
  names d' !! q = names d !! q -> remains d' q = remains d q -> same_file q d d'.
Proof. intros Hn Hm. split; simpl; congruence. Qed.

Lemma set_name_same p x d q : q <> p -> same_file q d (set_name p x d).
Proof. intros Hq. destruct (set_name_ne p x d q Hq). by apply same_parts. Qed.

Lemma next_parts d :
  names (next d).2 = names d /\ media (next d).2 = media d /\ fds (next d).2 = fds d.
Proof. unfold next. by destruct (script d). Qed.

Lemma next_same d q : same_file q d (next d).2.
Proof. destruct (next_parts d) as (? & ? & _). apply same_parts; unfold remains; congruence. Qed.
#[local] Hint Resolve next_same : nexus.

(** Take the next number of the script, in a goal about one call. *)
Ltac take_next d n :=
  let E1 := fresh in let E2 := fresh in let E3 := fresh in
  let E4 := fresh in let d1 := fresh "d" in
  destruct (next_parts d) as (E1 & E2 & E3); pose proof (next_same d) as E4;
  destruct (next d) as [n d1]; simpl in E1, E2, E3, E4 |- *.

Lemma m_write_spec fd s d p q :
  fds d !! fd = Some p -> q <> p -> same_file q d (m_write fd s d).2.
Proof.
  intros Hfd Hq. unfold m_write. take_next d n. rewrite H1, Hfd.
  destruct (n <? 0)%Z; simpl; [done|].
  destruct (names _ !! p) as [[c ?]|]; [|done].
  by eapply same_file_trans; [|apply set_name_same].
Qed.

Lemma m_rename_spec p q d r :
  (m_rename p q d).1 <> 0%Z \/ r <> p /\ r <> q -> same_file r d (m_rename p q d).2.
Proof.
  unfold m_rename. take_next d n. rewrite H.
  destruct (names d !! p) as [[c b]|]; simpl; [|done].
  destruct (n <? 0)%Z; simpl; [done|]. intros [?|[Hp Hq]]; [done|].
  destruct (set_name_ne q (Some (c, b)) d0 r Hq) as [E1 E2].
  destruct (set_name_ne p None (set_name q (Some (c, b)) d0) r Hp) as [E3 E4].
  eapply same_file_trans; [done|].
  destruct b; apply same_parts; try congruence.
  - simpl. rewrite !lookup_partial_alter_ne by done. congruence.
  - rewrite <- E2, <- E4. unfold remains at 1. simpl. by rewrite lookup_insert_ne.
Qed.

#[global] Instance mdisk_laws : FileSystemLaws mdisk_system.
Proof.
  split; simpl.
  - auto with nexus.
  - intros p d q Hq. unfold m_open. take_next d n. destruct (n <? 0)%Z; simpl; [done|].
    eapply same_file_trans; [done|]. eapply same_file_trans; [by apply set_name_same|].
    by apply same_parts.
  - intros p d. unfold m_open. take_next d n. destruct (n <? 0)%Z; simpl; [lia|].
    rewrite lookup_partial_alter_eq. split; [done|]. apply lookup_insert_eq.
  - intros p d q. by take_next d n.
  - intros. by eapply m_write_spec.
  - intros fd s d fd'. unfold m_write. take_next d n. rewrite H1.
    destruct (fds d !! fd) as [p|]; [|simpl; congruence].
    destruct (n <? 0)%Z; simpl; [congruence|].
    destruct (names _ !! p) as [[c ?]|]; simpl; congruence.
  - intros fd s d p c Hfd Hv. unfold m_write. take_next d n. rewrite H1, Hfd.
    destruct (Z.ltb_spec n 0); simpl; [lia|]. intros _. rewrite Nat2Z.id.
    split; [destruct (n =? 0)%Z; lia|]. rewrite H.
    destruct (names d !! p) as [[c' ?]|]; simplify_eq/=. by rewrite lookup_partial_alter_eq.
  - intros fd s d p Hfd Hs. unfold m_write. take_next d n. rewrite H1, Hfd.
    assert (0 < String.length s) by (destruct s; [done|simpl; lia]).
    destruct (Z.ltb_spec n 0); simpl; [lia|]. destruct (Z.eqb_spec n 0); lia.
  - intros fd d q. unfold m_fsync. take_next d n. rewrite H1.
    destruct (n <? 0)%Z; simpl; [done|].
    destruct (fds d !! fd) as [p|]; simpl; [|done].
    eapply same_file_trans; [done|]. split; [|done]. simpl.
    destruct (decide (q = p)) as [->|Hq].
    + rewrite lookup_alter_eq. by destruct (names d0 !! p) as [[??]|].
    + by rewrite lookup_alter_ne.
  - intros fd d fd'. unfold m_fsync. take_next d n. rewrite H1.
    destruct (n <? 0)%Z; simpl; [congruence|].
    destruct (fds d !! fd) as [p|]; simpl; congruence.
  - intros fd d p Hfd. unfold m_fsync. take_next d n. rewrite H1, Hfd.
    destruct (n <? 0)%Z; simpl; [lia|]. intros _ c b.
    rewrite lookup_alter_eq, H. by destruct (names d !! p) as [[??]|]; intros [= _ <-].
  - auto with nexus.
  - done.
  - intros. by apply set_name_same.
  - intros. apply m_rename_spec. by right.
  - intros. apply m_rename_spec. by left.
  - intros p q d c Hr Hpq Hv. revert Hr. unfold m_rename. take_next d n. rewrite H.
    destruct (names d !! p) as [[c' b]|] eqn:Ep; simplify_eq/=.
    destruct (n <? 0)%Z; simpl; [done|]. intros _.
    destruct (set_name_eq q (Some (c, b)) d0) as [E1 E2].
    destruct (set_name_eq p None (set_name q (Some (c, b)) d0)) as [E3 _].
    destruct (set_name_ne p None (set_name q (Some (c, b)) d0) q) as [E4 E5]; [done|].
    destruct b; [|split_and!;
      [by simpl; rewrite lookup_partial_alter_ne, lookup_partial_alter_eq
      |by simpl; rewrite lookup_partial_alter_eq|]].
    + rewrite E4, E1, E3, E5, E2. split_and!; [done..|]. intros _ x.
      unfold remains. rewrite H0, elem_of_cons. intros [->|?]; auto.
    + intros Hs. by specialize (Hs _ _ eq_refl).
  - intros p q d r Hr. destruct (names d !! p) as [[c ?]|]; [|apply same_file_refl].
    by apply set_name_same.
  - intros p q d c Hr Hv. destruct (names d !! p) as [[c' ?]|]; simplify_eq/=.
    by rewrite lookup_partial_alter_eq.
  - intros d d' p [Hm Hn]. unfold remains. destruct (media d !! p) as [l|] eqn:E; simpl.
    + by apply (Hm p l).
    + destruct (names d' !! p) as [[c b]|] eqn:En; simpl; [|by apply list_elem_of_singleton].
      destruct (Hn p (c, b) En). congruence.
Qed.

(** ** Property *)

(** C8: Replacing a file is atomic under power cuts.  [atomicWriteFile] always returns
    when its loop has a round per byte, and at every point between two system calls the
    target holds its old contents or the new ones, both as a process reads it and as a
    reboot after a power cut may find it; on success it holds the new contents, on an
    error it is untouched; no file but the target and its temporary sibling changes. *)
Theorem atomic_write_crash_safe (F : FileSystem) (FL : FileSystemLaws F) fuel path contents d :
  String.length contents <= fuel ->
  let m := atomicWriteFile fuel path contents in
  exists s, value_of m d = Some s /\
    atomic_outcome path contents d s (state_after m d) (effects_of m d) /\
    Forall (fun x => forall x', reboot x x' ->
      visible x' path = Some contents \/ survives d path (visible x' path)) (effects_of m d).
Proof.
  intros Hfuel m. destruct (outcome_of_run fuel path contents d Hfuel) as (s & Hs & Hout).
  exists s. split; [done|]. split; [done|].
  eapply Forall_impl; [apply (outcome_points _ _ _ _ _ _ Hout)|].
  intros x [_ Hx] x' Hr. destruct (Hx _ (reboot_survives x x' path Hr)); auto.
Qed.

(** A disk whose second write and later calls succeed, and one whose [fsync] fails. *)
Definition demo_disk (faults : list Z) : @Disk mdisk_system :=
  mk_disk {["/etc/c.json" := ("old"%string, true)]} {["/etc/c.json" := [Some "old"%string]]} ∅
    faults.

Lemma atomic_write_crash_safe_witness :
  value_of (atomicWriteFile 3 "/etc/c.json" "new") (demo_disk [0; 2; 1; 0; -1]%Z)
    = Some (error ErrorCode.ConfigWriteFailed "rename failed: Input/output error") /\
  exists s, value_of (atomicWriteFile 3 "/etc/c.json" "new") (demo_disk [0; 2]%Z) = Some s /\
    status_ok s = true /\
    visible (state_after (atomicWriteFile 3 "/etc/c.json" "new") (demo_disk [0; 2]%Z))
      "/etc/c.json" = Some "new"%string.
Proof.
  split; [vm_compute; reflexivity|].
  destruct (atomic_write_crash_safe mdisk_system mdisk_laws 3 "/etc/c.json" "new"
              (demo_disk [0; 2]%Z)) as (s & Hs & Hout & _); [simpl; lia|].
  exists s. split; [exact Hs|].
  assert (Hok : status_ok s = true); [|split; [exact Hok|exact (outcome_ok _ _ _ _ _ _ Hout Hok)]].
  revert Hs. vm_compute. by intros [= <-].
Defined.
