(* ===== verification/Config.v ===== *)
(** * Config: the speaker's persisted configuration

    Models [src/src/config]: the configuration record and its defaults, the
    validator, the JSON (de)serialisation and the [ConfigManager] that loads,
    recovers, validates and atomically persists it.  The disk is the interface of
    [Files], replaced through its [AtomicWriter]; JSON is the interface of [Json].
    Calls are sequential: the source's mutex protects single accesses. *)

From stdpp Require Import pretty.
From S2P Require Import Prelude Core Json Files.

(** ** The configuration *)

(* [src/src/config/SpeakerConfig.h:12-19] DeviceConfig *)
Record DeviceConfig := mk_device
  { device_id : string; name : string; serial_number : string; model : string;
    hardware_version : string; software_version : string }.

(* [src/src/config/SpeakerConfig.h:21-25] PairingConfig *)
Record PairingConfig := mk_pairing
  { paired : bool; streamer_id : string; streamer_public_key : string }.

(* [src/src/config/SpeakerConfig.h:27-30] NetworkConfig *)
Record NetworkConfig := mk_network { wifi_configured : bool; connection_mode : string }.

(* [src/src/config/SpeakerConfig.h:32-56] AudioConfig *)
Record AudioConfig := mk_audio
  { volume : Z; muted : bool; delay_ms : Z; eq_profile : string; gain_db : spec_float;
    phase_invert : bool; output_device : string; input_device : string }.

(* [src/src/config/SpeakerConfig.h:58-61] SystemConfig *)
Record SystemConfig := mk_system { auto_update : bool; log_level : string }.

(* [src/src/config/SpeakerConfig.h:63-70] SpeakerConfig *)
Record SpeakerConfig := mk_config
  { schema_version : Z; device : DeviceConfig; pairing : PairingConfig;
    network : NetworkConfig; audio : AudioConfig; system : SystemConfig }.

(* [src/src/config/SpeakerConfig.h:12-70] member initialisers *)
Definition initial_config : SpeakerConfig :=
  mk_config 1
    (mk_device "" "" "" "" "" "1.0.0")
    (mk_pairing false "" "")
    (mk_network false "wifi")
    (mk_audio 30 true 0 "default" (S754_zero false) false "default" "default")
    (mk_system true "info").

(* [src/src/config/DefaultConfig.cpp:7-12] defaults *)
Definition defaults : SpeakerConfig :=
  mk_config 1
    (mk_device "" "" "" "NEXUS-SPEAKER-3" "1.0" "1.0.0")
    (pairing initial_config) (network initial_config) (audio initial_config)
    (system initial_config).

(** ** Validation *)

(* [src/src/config/ConfigValidator.cpp:9-11] invalid *)
Definition invalid (msg : string) : Status := error ErrorCode.ConfigValidationFailed msg.

(* [src/src/config/ConfigValidator.cpp:14-48] ConfigValidator::validate *)
Definition validate (c : SpeakerConfig) : Status :=
  if negb (schema_version c =? 1)%Z then
    invalid ("unsupported schema_version " +:+ pretty (schema_version c))
  else if (volume (audio c) <? 0)%Z || (100 <? volume (audio c))%Z then
    invalid ("audio.volume out of range [0,100]: " +:+ pretty (volume (audio c)))
  else if (delay_ms (audio c) <? 0)%Z then
    invalid ("audio.delay_ms must be >= 0: " +:+ pretty (delay_ms (audio c)))
  else if String.eqb (eq_profile (audio c)) "" then
    invalid "audio.eq_profile must not be empty"
  else if negb (String.eqb (connection_mode (network c)) "wifi") &&
          negb (String.eqb (connection_mode (network c)) "ethernet") then
    invalid ("network.connection_mode must be 'wifi' or 'ethernet': " +:+ connection_mode (network c))
  else
    let lvl := log_level (system c) in
    if negb (String.eqb lvl "debug") && negb (String.eqb lvl "info") &&
       negb (String.eqb lvl "warning") && negb (String.eqb lvl "error") &&
       negb (String.eqb lvl "critical") then
      invalid ("system.log_level invalid: " +:+ lvl)
    else if paired (pairing c) && String.eqb (streamer_id (pairing c)) "" then
      invalid "pairing.paired is true but streamer_id is empty"
    else success.

Definition is_valid (c : SpeakerConfig) : bool := status_ok (validate c).

(** What a valid configuration satisfies. *)
Definition well_formed (c : SpeakerConfig) : Prop :=
  schema_version c = 1%Z /\ (0 <= volume (audio c) <= 100)%Z /\ (0 <= delay_ms (audio c))%Z /\
  eq_profile (audio c) <> "" /\
  connection_mode (network c) ∈ ["wifi"; "ethernet"] /\
  log_level (system c) ∈ ["debug"; "info"; "warning"; "error"; "critical"] /\
  (paired (pairing c) = true -> streamer_id (pairing c) <> "").

Lemma eqb_in (s : string) l : s ∈ l <-> existsb (String.eqb s) l = true.
Proof.
  rewrite existsb_exists. setoid_rewrite String.eqb_eq. setoid_rewrite list_elem_of_In.
  split; [by exists s|by intros (? & ? & <-)].
Qed.

Lemma validate_well_formed c : is_valid c = true <-> well_formed c.
Proof.
  unfold is_valid, validate, well_formed. rewrite !eqb_in. simpl.
  destruct (Z.eqb_spec (schema_version c) 1); simpl; [|by split; [|intros []]].
  destruct (Z.ltb_spec (volume (audio c)) 0); simpl; [split; [done|lia]|].
  destruct (Z.ltb_spec 100 (volume (audio c))); simpl; [split; [done|lia]|].
  destruct (Z.ltb_spec (delay_ms (audio c)) 0); simpl; [split; [done|lia]|].
  destruct (String.eqb_spec (eq_profile (audio c)) ""); simpl; [by split; [|intros (?&?&?&?&?)]|].
  destruct (String.eqb (connection_mode (network c)) "wifi"),
    (String.eqb (connection_mode (network c)) "ethernet"); simpl;
    try (by split; [|intros (?&?&?&?&?&?)]);
    (destruct (String.eqb (log_level (system c)) "debug"),
       (String.eqb (log_level (system c)) "info"), (String.eqb (log_level (system c)) "warning"),
       (String.eqb (log_level (system c)) "error"), (String.eqb (log_level (system c)) "critical");
     simpl; try (by split; [|intros (?&?&?&?&?&?&?)]));
    destruct (paired (pairing c)), (String.eqb_spec (streamer_id (pairing c)) ""); simpl;
    split; try done; try (intros (?&?&?&?&?&?&Hs); by destruct (Hs eq_refl));
    intros _; split_and!; try done; lia.
Qed.

Lemma defaults_valid : is_valid defaults = true.
Proof. reflexivity. Qed.
#[export] Hint Resolve defaults_valid : nexus.

(** ** JSON *)

Section Serialization.
Context {J : JsonLib}.

(** [if (j.contains(k)) field = j.at(k).get<T>()]. *)
Definition section_or {A} (read : json -> Try A) (j : json) (k : string) (d : A) : Try A :=
  match jfind j k with Some v => read v | None => Done d end.

(* [src/src/config/ConfigSerialization.h:12-18] to_json(DeviceConfig) *)
Definition device_to_json (d : DeviceConfig) : json :=
  jobj [("device_id", jstr (device_id d));
        ("serial_number", jstr (serial_number d));
        ("model", jstr (model d));
        ("hardware_version", jstr (hardware_version d));
        ("software_version", jstr (software_version d))].

(* [src/src/config/ConfigSerialization.h:19-25] from_json(DeviceConfig) *)
Definition device_from_json (j : json) : Try DeviceConfig :=
  let d := device initial_config in
  id ← value_string j "device_id" (device_id d);
  sn ← value_string j "serial_number" (serial_number d);
  mo ← value_string j "model" (model d);
  hw ← value_string j "hardware_version" (hardware_version d);
  sw ← value_string j "software_version" (software_version d);
  mret (mk_device id (name d) sn mo hw sw).

(* [src/src/config/ConfigSerialization.h:27-31] to_json(PairingConfig) *)
Definition pairing_to_json (p : PairingConfig) : json :=
  jobj [("paired", jbool (paired p));
        ("streamer_id", jstr (streamer_id p));
        ("streamer_public_key", jstr (streamer_public_key p))].

(* [src/src/config/ConfigSerialization.h:32-36] from_json(PairingConfig) *)
Definition pairing_from_json (j : json) : Try PairingConfig :=
  let p := pairing initial_config in
  b ← value_bool j "paired" (paired p);
  id ← value_string j "streamer_id" (streamer_id p);
  key ← value_string j "streamer_public_key" (streamer_public_key p);
  mret (mk_pairing b id key).

(* [src/src/config/ConfigSerialization.h:38-40] to_json(NetworkConfig) *)
Definition network_to_json (n : NetworkConfig) : json :=
  jobj [("wifi_configured", jbool (wifi_configured n));
        ("connection_mode", jstr (connection_mode n))].

(* [src/src/config/ConfigSerialization.h:41-44] from_json(NetworkConfig) *)
Definition network_from_json (j : json) : Try NetworkConfig :=
  let n := network initial_config in
  w ← value_bool j "wifi_configured" (wifi_configured n);
  m ← value_string j "connection_mode" (connection_mode n);
  mret (mk_network w m).

(* [src/src/config/ConfigSerialization.h:46-55] to_json(AudioConfig) *)
Definition audio_to_json (a : AudioConfig) : json :=
  jobj [("volume", jint (volume a));
        ("muted", jbool (muted a));
        ("delay_ms", jint (delay_ms a));
        ("eq_profile", jstr (eq_profile a));
        ("gain_db", jdbl (gain_db a));
        ("phase_invert", jbool (phase_invert a));
        ("output_device", jstr (output_device a));
        ("input_device", jstr (input_device a))].

(* [src/src/config/ConfigSerialization.h:56-65] from_json(AudioConfig) *)
Definition audio_from_json (j : json) : Try AudioConfig :=
  let a := audio initial_config in
  v ← value_int j "volume" (volume a);
  m ← value_bool j "muted" (muted a);
  d ← value_int j "delay_ms" (delay_ms a);
  e ← value_string j "eq_profile" (eq_profile a);
  g ← value_double j "gain_db" (gain_db a);
  p ← value_bool j "phase_invert" (phase_invert a);
  o ← value_string j "output_device" (output_device a);
  i ← value_string j "input_device" (input_device a);
  mret (mk_audio v m d e g p o i).

(* [src/src/config/ConfigSerialization.h:67-69] to_json(SystemConfig) *)
Definition system_to_json (s : SystemConfig) : json :=
  jobj [("auto_update", jbool (auto_update s)); ("log_level", jstr (log_level s))].

(* [src/src/config/ConfigSerialization.h:70-73] from_json(SystemConfig) *)
Definition system_from_json (j : json) : Try SystemConfig :=
  let s := system initial_config in
  a ← value_bool j "auto_update" (auto_update s);
  l ← value_string j "log_level" (log_level s);
  mret (mk_system a l).

(* [src/src/config/ConfigSerialization.h:75-82] to_json(SpeakerConfig) *)
Definition to_json (c : SpeakerConfig) : json :=
  jobj [("schema_version", jint (schema_version c));
        ("device", device_to_json (device c));
        ("pairing", pairing_to_json (pairing c));
        ("network", network_to_json (network c));
        ("audio", audio_to_json (audio c));
        ("system", system_to_json (system c))].

(* [src/src/config/ConfigSerialization.h:83-90] from_json(SpeakerConfig) *)
Definition from_json (j : json) : Try SpeakerConfig :=
  let c := initial_config in
  v ← value_int j "schema_version" (schema_version c);
  d ← section_or device_from_json j "device" (device c);
  p ← section_or pairing_from_json j "pairing" (pairing c);
  n ← section_or network_from_json j "network" (network c);
  a ← section_or audio_from_json j "audio" (audio c);
  s ← section_or system_from_json j "system" (system c);
  mret (mk_config v d p n a s).

(** The integers of the record are C [int]s. *)
Definition int_fields (c : SpeakerConfig) : Prop :=
  in_signed 32 (schema_version c) /\ in_signed 32 (volume (audio c)) /\
  in_signed 32 (delay_ms (audio c)).

(** What the file keeps of a configuration: the display name is not written. *)
Definition stored (c : SpeakerConfig) : SpeakerConfig :=
  let d := device c in
  mk_config (schema_version c)
    (mk_device (device_id d) "" (serial_number d) (model d) (hardware_version d)
       (software_version d))
    (pairing c) (network c) (audio c) (system c).

Context {L : JsonLaws J}.

Ltac read_fields :=
  unfold value_string, value_bool, value_int, value_double, section_or;
  rewrite ?value_or_obj, ?jfind_obj; cbn [assoc String.eqb Ascii.eqb Bool.eqb];
  rewrite ?get_string_str, ?get_bool_bool, ?get_double_dbl.

Lemma device_round_trip d :
  device_from_json (device_to_json d) =
    Done (mk_device (device_id d) "" (serial_number d) (model d) (hardware_version d)
            (software_version d)).
Proof. unfold device_from_json, device_to_json. by read_fields. Qed.

Lemma pairing_round_trip p : pairing_from_json (pairing_to_json p) = Done p.
Proof. unfold pairing_from_json, pairing_to_json. read_fields. by destruct p. Qed.

Lemma network_round_trip n : network_from_json (network_to_json n) = Done n.
Proof. unfold network_from_json, network_to_json. read_fields. by destruct n. Qed.

Lemma audio_round_trip a :
  in_signed 32 (volume a) -> in_signed 32 (delay_ms a) ->
  audio_from_json (audio_to_json a) = Done a.
Proof.
  intros Hv Hd. unfold audio_from_json, audio_to_json. read_fields.
  rewrite !get_int_int by done. by destruct a.
Qed.

Lemma system_round_trip s : system_from_json (system_to_json s) = Done s.
Proof. unfold system_from_json, system_to_json. read_fields. by destruct s. Qed.

Lemma to_json_round_trip c : int_fields c -> from_json (to_json c) = Done (stored c).
Proof.
  intros (Hs & Hv & Hd). unfold from_json, to_json. read_fields.
  rewrite get_int_int, device_round_trip, pairing_round_trip, network_round_trip,
    audio_round_trip, system_round_trip by done. reflexivity.
Qed.
End Serialization.

Lemma stored_valid c : validate (stored c) = validate c.
Proof. reflexivity. Qed.

(** ** The manager *)

Section Manager.
Context {J : JsonLib} {F : FileSystem} {AW : AtomicWriter F}.

(** The manager and the disk it works on. *)
(* [src/src/config/ConfigManager.h:26-57] ConfigManager *)
Record ConfigManager := mk_config_manager
  { disk : Disk; path_ : string; has_bus : bool; config_ : SpeakerConfig;
    state_ : ServiceState }.

(** What a call does besides changing the state: a point where the power may be cut,
    an event on the bus. *)
Inductive CEffect :=
| CrashPoint (d : Disk)
| CPublish (e : Event Payload).

Abbreviation M := (SW ConfigManager CEffect).

Definition set_disk (d : Disk) (m : ConfigManager) : ConfigManager :=
  mk_config_manager d (path_ m) (has_bus m) (config_ m) (state_ m).
Definition set_config (c : SpeakerConfig) (m : ConfigManager) : ConfigManager :=
  mk_config_manager (disk m) (path_ m) (has_bus m) c (state_ m).
Definition set_state (s : ServiceState) (m : ConfigManager) : ConfigManager :=
  mk_config_manager (disk m) (path_ m) (has_bus m) (config_ m) s.

(** Run a disk operation. *)
Definition on_disk {A} (f : SW Disk Disk A) : M A := fun m =>
  (value_of f (disk m), set_disk (state_after f (disk m)) m, CrashPoint <$> effects_of f (disk m)).

Definition publish_config (t : EventType) : M unit :=
  m ← get; when (has_bus m) (tell [CPublish (event t "config" [])]).

(* [src/src/config/ConfigManager.cpp:25-26] ConfigManager::ConfigManager *)
Definition new_config_manager (d : Disk) (path : string) (bus : bool) : ConfigManager :=
  mk_config_manager d path bus defaults ServiceState.Stopped.

(* [src/src/config/ConfigManager.cpp:62-73] ConfigManager::load *)
Definition tryParse (d : Disk) (file : string) : Result SpeakerConfig :=
  match visible d file with
  | None => Failure (error ErrorCode.ConfigNotFound ("cannot open " +:+ file))
  | Some text =>
      match (j ← parse_stream text; from_json j) with
      | Throw what => Failure (error ErrorCode.ConfigParseError what)
      | Done out => if is_valid out then Value out else Failure (validate out)
      end
  end.

(* [src/src/config/ConfigManager.cpp:118-130] ConfigManager::persist *)
Definition persist (cfg : SpeakerConfig) : M Status :=
  let v := validate cfg in
  if negb (status_ok v) then mret v
  else
    m ← get;
    (if exists_file (disk m) (path_ m)
     then on_disk (sys (copy_file (path_ m) (path_ m +:+ ".bak")));; mret ()
     else mret ());;
    on_disk (atomic_write (path_ m) (dump_indented (to_json cfg))).

(** Keep the unreadable file for diagnostics and put a configuration in its place. *)
(* [src/src/config/ConfigManager.cpp:91-97] ConfigManager::load *)
Definition replace_corrupt (cfg : SpeakerConfig) : M unit :=
  m ← get;
  on_disk (sys (rename (path_ m) (path_ m +:+ ".corrupt")));;
  persist cfg;;
  modify (set_config cfg);;
  publish_config EventType.ConfigInvalid.

(* [src/src/config/ConfigManager.cpp:51-114] ConfigManager::load *)
Definition load : M Status :=
  m ← get;
  if negb (exists_file (disk m) (path_ m)) then
    w ← persist defaults;
    modify (set_config defaults);;
    mret w
  else
    match tryParse (disk m) (path_ m) with
    | Value parsed => modify (set_config parsed);; mret success
    | Failure _ =>
        let bak := path_ m +:+ ".bak" in
        match (if exists_file (disk m) bak then tryParse (disk m) bak else Failure success) with
        | Value fromBak => replace_corrupt fromBak;; mret success
        | Failure _ =>
            replace_corrupt defaults;;
            mret (error ErrorCode.ConfigCorrupt "config was corrupt; reverted to defaults")
        end
    end.

(* [src/src/config/ConfigManager.cpp:116-116] ConfigManager::reloadFromDisk *)
Definition reloadFromDisk : M Status := load.

(* [src/src/config/ConfigManager.cpp:33-38] ConfigManager::start *)
Definition start : M Status :=
  s ← load;
  modify (set_state (if status_ok s then ServiceState.Running else ServiceState.Degraded));;
  mret s.

(* [src/src/config/ConfigManager.cpp:40-44] ConfigManager::stop *)
Definition stop : M Status := modify (set_state ServiceState.Stopped);; mret success.

(* [src/src/config/ConfigManager.cpp:132-154] ConfigManager::update *)
Definition update (mutator : SpeakerConfig -> SpeakerConfig) : M Status :=
  m ← get;
  let candidate := mutator (config_ m) in
  let v := validate candidate in
  if negb (status_ok v) then mret v
  else
    w ← persist candidate;
    if negb (status_ok w) then mret w
    else
      modify (set_config candidate);;
      publish_config EventType.ConfigChanged;;
      mret success.

(* [src/src/config/ConfigManager.cpp:156-166] ConfigManager::resetToDefaults *)
Definition resetToDefaults : M Status :=
  let def := defaults in
  w ← persist def;
  if negb (status_ok w) then mret w
  else
    modify (set_config def);;
    publish_config EventType.ConfigChanged;;
    mret success.

(** ** The runs of the manager *)

Definition published (es : list CEffect) : list (Event Payload) :=
  omap (fun e => match e with CPublish e => Some e | CrashPoint _ => None end) es.

Definition crash_points (es : list CEffect) : list Disk :=
  omap (fun e => match e with CPublish _ => None | CrashPoint d => Some d end) es.

Lemma published_app a b : published (a ++ b) = published a ++ published b.
Proof. apply omap_app. Qed.

Lemma crash_points_app a b : crash_points (a ++ b) = crash_points a ++ crash_points b.
Proof. apply omap_app. Qed.

Lemma published_points l : published (CrashPoint <$> l) = [].
Proof. by induction l. Qed.

Lemma crash_points_points l : crash_points (CrashPoint <$> l) = l.
Proof.
  induction l as [|x l IH]; [done|].
  change (x :: crash_points (CrashPoint <$> l) = x :: l). by rewrite IH.
Qed.

(** The file at the path is the old one or holds [new], on the disk and after a power
    cut. *)
Definition old_or_new (path new : string) (d x : Disk) : Prop :=
  (visible x path = visible d path \/ visible x path = Some new) /\
  (forall y, survives x path y -> survives d path y \/ y = Some new).

(** Everything but the disk is as before. *)
Definition same_memory (m m' : ConfigManager) : Prop :=
  path_ m' = path_ m /\ has_bus m' = has_bus m /\ config_ m' = config_ m /\ state_ m' = state_ m.

Lemma same_memory_trans m1 m2 m3 : same_memory m1 m2 -> same_memory m2 m3 -> same_memory m1 m3.
Proof. unfold same_memory. intros (?&?&?&?) (?&?&?&?). split_and!; congruence. Qed.

Lemma on_disk_memory {A} (f : SW Disk Disk A) m : same_memory m (state_after (on_disk f) m).
Proof. by repeat split. Qed.

Lemma same_file_old_or_new path new d x : same_file path d x -> old_or_new path new d x.
Proof. intros [Hv Hs]. split; auto. Qed.

Lemma old_or_new_from path new d d1 x :
  same_file path d d1 -> old_or_new path new d1 x -> old_or_new path new d x.
Proof.
  intros [Hv Hs] [H1 H2]. split; [by rewrite <- Hv|].
  intros y Hy. destruct (H2 y Hy); auto.
Qed.

Record persist_outcome (text : string) (m : ConfigManager) (r : Status) (m' : ConfigManager)
    (es : list CEffect) : Prop := mk_persist
  { persist_memory : same_memory m m';
    persist_silent : published es = [];
    persist_ok : status_ok r = true -> visible (disk m') (path_ m) = Some text;
    persist_error : status_ok r = false -> same_file (path_ m) (disk m) (disk m');
    persist_end : old_or_new (path_ m) text (disk m) (disk m');
    persist_points : Forall (old_or_new (path_ m) text (disk m)) (crash_points es);
    persist_others : forall q, q <> path_ m -> q <> path_ m +:+ ".bak" ->
      q <> path_ m +:+ ".tmp" -> same_file q (disk m) (disk m') }.

(** [persist] after its backup step. *)
Lemma write_outcome text m m1 es1 :
  same_memory m m1 -> same_file (path_ m) (disk m) (disk m1) ->
  published es1 = [] -> Forall (same_file (path_ m) (disk m)) (crash_points es1) ->
  (forall q, q <> path_ m +:+ ".bak" -> same_file q (disk m) (disk m1)) ->
  let w := on_disk (atomic_write (path_ m) text) in
  persist_outcome text m (value_of w m1) (state_after w m1) (es1 ++ effects_of w m1).
Proof.
  intros Hm Hf Hp Hc Ho w.
  destruct (atomic_write_spec (path_ m) text (disk m1)) as [Hok Herr Hpts Hlast Hoth].
  change (value_of w m1) with (value_of (atomic_write (path_ m) text) (disk m1)).
  change (effects_of w m1) with (CrashPoint <$> effects_of (atomic_write (path_ m) text) (disk m1)).
  assert (disk (state_after w m1) = state_after (atomic_write (path_ m) text) (disk m1)) as Hd
    by done.
  split; rewrite ?Hd, ?published_app, ?crash_points_app, ?published_points, ?crash_points_points.
  - eapply same_memory_trans; [done|apply on_disk_memory].
  - by rewrite Hp.
  - done.
  - intros Hr. eapply same_file_trans; [done|by apply Herr].
  - eapply old_or_new_from; [done|]. split; [|done].
    destruct (status_ok (value_of (atomic_write (path_ m) text) (disk m1))) eqn:E.
    + right. by apply Hok.
    + left. by destruct (Herr eq_refl).
  - apply Forall_app. split.
    + eapply Forall_impl; [done|]. intros x. apply same_file_old_or_new.
    + eapply Forall_impl; [done|]. intros x Hx. by eapply old_or_new_from.
  - intros q Hq Hb Ht. specialize (Hoth q Hq Ht). apply Forall_cons in Hoth as [Hlast' _].
    eapply same_file_trans; [by apply Ho|exact Hlast'].
Qed.

Lemma persist_spec `{!FileSystemLaws F} cfg m :
  is_valid cfg = true ->
  persist_outcome (dump_indented (to_json cfg)) m
    (value_of (persist cfg) m) (state_after (persist cfg) m) (effects_of (persist cfg) m).
Proof.
  intros Hv. unfold persist. unfold is_valid in Hv. rewrite Hv. cbn [negb].
  rewrite value_of_bind, state_after_bind, effects_of_bind.
  change (value_of get m) with m. change (state_after get m) with m. cbv beta.
  change (effects_of get m) with (@nil CEffect). rewrite app_nil_l.
  rewrite value_of_bind, state_after_bind, effects_of_bind.
  destruct (exists_file (disk m) (path_ m)).
  - assert (same_file (path_ m) (disk m) (copy_file (path_ m) (path_ m +:+ ".bak") (disk m)).2)
      as Hs by (by apply copy_file_same, suffix_ne).
    apply write_outcome; [apply on_disk_memory|done|done|by apply Forall_singleton|].
    intros q Hq. by apply copy_file_same.
  - apply (write_outcome _ m m []); [by repeat split|apply same_file_refl|done|constructor|auto with nexus].
Qed.
(** [update] with a mutator whose result the validator accepts. *)
Lemma update_run `{!FileSystemLaws F} f m :
  let c := f (config_ m) in
  is_valid c = true ->
  exists r m1 es,
    persist_outcome (dump_indented (to_json c)) m r m1 es /\
    update f m =
      (if status_ok r then
         (success, set_config c m1,
          es ++ if has_bus m then [CPublish (event EventType.ConfigChanged "config" [])] else [])
       else (r, m1, es)).
Proof.
  intros c Hv. pose proof (persist_spec c m Hv) as Hp.
  unfold value_of, state_after, effects_of in Hp. unfold update, publish_config, mbind, SW_bind, get. fold c.
  unfold is_valid in Hv. rewrite Hv. cbn [negb].
  destruct (persist c m) as [[r m1] es]. exists r, m1, es. split; [done|].
  destruct Hp as [(_ & Hb & _) _ _ _ _ _]. simpl in Hb.
  destruct (status_ok r); simpl; [|by rewrite app_nil_r].
  rewrite Hb. by destruct (has_bus m).
Qed.
(** Resetting is an update to the defaults. *)
Lemma resetToDefaults_update m : resetToDefaults m = update (fun _ => defaults) m.
Proof.
  unfold resetToDefaults, update, publish_config, mbind, SW_bind, get. simpl.
  destruct (persist defaults m) as [[r m1] es]. destruct (status_ok r); simpl; [|done].
  by destruct (has_bus m1).
Qed.

(** Where [load] takes the configuration from. *)
Inductive LoadSource :=
| FirstBoot
| Primary (c : SpeakerConfig)
| Backup (c : SpeakerConfig)
| Lost.

Definition load_source (d : Disk) (path : string) : LoadSource :=
  if negb (exists_file d path) then FirstBoot
  else
    match tryParse d path with
    | Value c => Primary c
    | Failure _ =>
        match (if exists_file d (path +:+ ".bak") then tryParse d (path +:+ ".bak")
               else Failure success) with
        | Value c => Backup c
        | Failure _ => Lost
        end
    end.

Definition loaded (src : LoadSource) : SpeakerConfig :=
  match src with FirstBoot | Lost => defaults | Primary c | Backup c => c end.

Lemma tryParse_valid d file c : tryParse d file = Value c -> is_valid c = true.
Proof.
  unfold tryParse. intros H. cases_in H.
Qed.

Lemma loaded_valid d path : is_valid (loaded (load_source d path)) = true.
Proof.
  unfold load_source. destruct (exists_file d path); simpl; [|done].
  destruct (tryParse d path) eqn:E; simpl; [by eapply tryParse_valid|].
  destruct (exists_file d (path +:+ ".bak")); [|done].
  destruct (tryParse d (path +:+ ".bak")) eqn:E'; simpl; [by eapply tryParse_valid|done].
Qed.
Definition lost_primary (src : LoadSource) : bool :=
  match src with Backup _ | Lost => true | FirstBoot | Primary _ => false end.

Definition invalid_event (m : ConfigManager) : list (Event Payload) :=
  if has_bus m then [event EventType.ConfigInvalid "config" []] else [].

Lemma app_ne (p s t : string) : s <> t -> p +:+ s <> p +:+ t.
Proof. intros Hst Heq. by apply String.app_inj in Heq. Qed.

Lemma replace_corrupt_spec `{!FileSystemLaws F} cfg m :
  is_valid cfg = true ->
  let m' := state_after (replace_corrupt cfg) m in
  let es := effects_of (replace_corrupt cfg) m in
  config_ m' = cfg /\ path_ m' = path_ m /\ published es = invalid_event m /\
  (exists_file (disk m) (path_ m) = true ->
   (rename (path_ m) (path_ m +:+ ".corrupt") (disk m)).1 = 0%Z ->
   visible (disk m') (path_ m +:+ ".corrupt") = visible (disk m) (path_ m)).
Proof.
  intros Hv. cbv zeta. unfold replace_corrupt.
  rewrite state_after_bind, effects_of_bind.
  change (value_of get m) with m. change (state_after get m) with m. cbv beta.
  change (effects_of get m) with (@nil CEffect). rewrite app_nil_l.
  rewrite state_after_bind, effects_of_bind.
  set (f := sys (rename (path_ m) (path_ m +:+ ".corrupt"))).
  set (m1 := state_after (on_disk f) m).
  destruct (persist_spec cfg m1 Hv) as [(Hpath & Hbus & _ & _) Hsilent _ _ _ _ Hothers].
  rewrite state_after_bind, effects_of_bind.
  set (m2 := state_after (persist cfg) m1) in *.
  change (path_ m1) with (path_ m) in *. change (has_bus m1) with (has_bus m) in *.
  assert (exists_file (disk m) (path_ m) = true ->
    (rename (path_ m) (path_ m +:+ ".corrupt") (disk m)).1 = 0%Z ->
    visible (disk m2) (path_ m +:+ ".corrupt") = visible (disk m) (path_ m)) as Hkept.
  { unfold exists_file. intros Hex Hr. destruct (visible (disk m) (path_ m)) as [c|] eqn:Ev; [|done].
    destruct (rename_ok _ _ _ c Hr) as [Hc _]; [by apply suffix_ne|done|].
    rewrite <- Hc. apply Hothers; [by apply not_eq_sym, suffix_ne|by apply app_ne..]. }
  unfold publish_config, mbind, SW_bind, get, modify, when, invalid_event.
  unfold effects_of in Hsilent. unfold state_after, effects_of. simpl. rewrite Hbus.
  destruct (has_bus m); simpl; rewrite published_app, Hsilent; by split_and!.
Qed.

Lemma load_run m :
  load m =
    match load_source (disk m) (path_ m) with
    | FirstBoot =>
        (value_of (persist defaults) m, set_config defaults (state_after (persist defaults) m),
         effects_of (persist defaults) m)
    | Primary c => (success, set_config c m, [])
    | Backup c =>
        (success, state_after (replace_corrupt c) m, effects_of (replace_corrupt c) m)
    | Lost =>
        (error ErrorCode.ConfigCorrupt "config was corrupt; reverted to defaults",
         state_after (replace_corrupt defaults) m, effects_of (replace_corrupt defaults) m)
    end.
Proof.
  unfold load, load_source, mbind, SW_bind, get, value_of, state_after, effects_of.
  destruct (exists_file (disk m) (path_ m)); cbn [negb].
  - destruct (tryParse (disk m) (path_ m)) as [c|s]; [done|].
    destruct (if exists_file (disk m) (path_ m +:+ ".bak") then _ else _) as [c|s'];
      [destruct (replace_corrupt c m) as [[[] ?] ?]|destruct (replace_corrupt defaults m) as [[[] ?] ?]];
      simpl; by rewrite app_nil_r.
  - destruct (persist defaults m) as [[? ?] ?]. simpl. by rewrite app_nil_r.
Qed.

(** What [load] leaves, by where the configuration came from. *)
Record load_outcome (src : LoadSource) (m : ConfigManager) (r : Status) (m' : ConfigManager)
    (es : list CEffect) : Prop := mk_load
  { load_config : config_ m' = loaded src;
    load_path : path_ m' = path_ m;
    load_events : published es = if lost_primary src then invalid_event m else [];
    load_status : match src with
                  | Primary _ | Backup _ => r = success
                  | Lost => r = error ErrorCode.ConfigCorrupt
                                  "config was corrupt; reverted to defaults"
                  | FirstBoot => status_ok r = true ->
                      visible (disk m') (path_ m) = Some (dump_indented (to_json defaults))
                  end;
    load_quiet : (exists c, src = Primary c) -> disk m' = disk m /\ es = [];
    load_kept : lost_primary src = true ->
      (rename (path_ m) (path_ m +:+ ".corrupt") (disk m)).1 = 0%Z ->
      visible (disk m') (path_ m +:+ ".corrupt") = visible (disk m) (path_ m) }.

Lemma lost_primary_exists d path :
  lost_primary (load_source d path) = true -> exists_file d path = true.
Proof. unfold load_source. by destruct (exists_file d path). Qed.

Lemma load_spec `{!FileSystemLaws F} m :
  let src := load_source (disk m) (path_ m) in
  load_outcome src m (value_of load m) (state_after load m) (effects_of load m).
Proof.
  intros src. pose proof (loaded_valid (disk m) (path_ m)) as Hv. fold src in Hv.
  pose proof (lost_primary_exists (disk m) (path_ m)) as Hex. fold src in Hex.
  unfold value_of, state_after, effects_of. rewrite load_run. fold src.
  destruct src as [|c|c|]; simpl in Hv |- *.
  - destruct (persist_spec defaults m defaults_valid) as [(Hp & _) Hs Hok _ _ _ _].
    by split; try (intros (? & ?)).
  - by split.
  - destruct (replace_corrupt_spec c m Hv) as (Hc & Hp & He & Hk).
    split; auto. by intros (? & ?).
  - destruct (replace_corrupt_spec defaults m Hv) as (Hc & Hp & He & Hk).
    split; auto. by intros (? & ?).
Qed.
(** The calls a client makes, in any order. *)
Inductive Call :=
| CStart
| CStop
| CReload
| CReset
| CUpdate (mutator : SpeakerConfig -> SpeakerConfig).

Definition call (c : Call) : M Status :=
  match c with
  | CStart => start
  | CStop => stop
  | CReload => reloadFromDisk
  | CReset => resetToDefaults
  | CUpdate f => update f
  end.

Fixpoint calls (l : list Call) : M unit :=
  match l with [] => mret () | c :: r => call c;; calls r end.

Lemma update_rejected f m :
  is_valid (f (config_ m)) = false -> update f m = (validate (f (config_ m)), m, []).
Proof.
  unfold is_valid. intros Hv. unfold update, mbind, SW_bind, get. by rewrite Hv.
Qed.

(** What an update leaves in memory, and when it can succeed. *)
Lemma update_memory `{!FileSystemLaws F} f m :
  config_ (state_after (update f) m) =
    (if status_ok (value_of (update f) m) then f (config_ m) else config_ m) /\
  has_bus (state_after (update f) m) = has_bus m /\
  path_ (state_after (update f) m) = path_ m /\
  (status_ok (value_of (update f) m) = true ->
     is_valid (f (config_ m)) = true /\
     visible (disk (state_after (update f) m)) (path_ m) =
       Some (dump_indented (to_json (f (config_ m))))) /\
  published (effects_of (update f) m) =
    (if status_ok (value_of (update f) m) && has_bus m
     then [event EventType.ConfigChanged "config" []] else []).
Proof.
  unfold state_after, value_of, effects_of. destruct (is_valid (f (config_ m))) eqn:E.
  - destruct (update_run f m E) as (r & m1 & es & [(Hp & Hb & Hc & _) Hs Hok _ _ _ _] & ->).
    destruct (status_ok r) eqn:Hr; simpl; rewrite ?Hr; split_and!; auto; try done;
      by destruct (has_bus m); rewrite ?published_app, ?app_nil_r, ?Hs.
  - rewrite update_rejected by done. unfold is_valid in E. simpl. rewrite E. split_and!; done.
Qed.

Lemma start_run m :
  state_after start m =
    set_state (if status_ok (value_of load m) then ServiceState.Running else ServiceState.Degraded)
      (state_after load m).
Proof. unfold start, mbind, SW_bind, value_of, state_after. by destruct (load m) as [[? ?] ?]. Qed.

Lemma update_valid `{!FileSystemLaws F} f m :
  is_valid (config_ m) = true -> is_valid (config_ (state_after (update f) m)) = true.
Proof.
  intros Hv. destruct (is_valid (f (config_ m))) eqn:E.
  - destruct (update_run f m E) as (r & m1 & es & [(_ & _ & Hc & _) _ _ _ _ _ _] & Hu).
    unfold state_after. rewrite Hu. destruct (status_ok r); simpl; [done|congruence].
  - unfold state_after. by rewrite update_rejected.
Qed.

Lemma call_valid `{!FileSystemLaws F} c m :
  is_valid (config_ m) = true -> is_valid (config_ (state_after (call c) m)) = true.
Proof.
  assert (Hl : is_valid (config_ (state_after load m)) = true).
  { destruct (load_spec m) as [Hc _ _ _ _ _]. rewrite Hc. apply loaded_valid. }
  intros Hv. destruct c; simpl; [by rewrite start_run|done|done| |by apply update_valid].
  unfold state_after. rewrite resetToDefaults_update. by apply update_valid.
Qed.

Lemma calls_valid `{!FileSystemLaws F} l m :
  is_valid (config_ m) = true -> is_valid (config_ (state_after (calls l) m)) = true.
Proof.
  revert m. induction l as [|c l IH]; intros m Hv; [done|].
  simpl. rewrite state_after_bind. by apply IH, call_valid.
Qed.

(** The text of a configuration reads back as what the file keeps of it. *)
Lemma tryParse_text {L : JsonLaws J} d file c :
  is_valid c = true -> int_fields c -> dumpable (to_json c) ->
  visible d file = Some (dump_indented (to_json c)) -> tryParse d file = Value (stored c).
Proof.
  intros Hv Hi Hd Hf. unfold tryParse. rewrite Hf, parse_stream_dump_indented by done.
  simpl. rewrite to_json_round_trip by done. unfold is_valid in *.
  by rewrite stored_valid, Hv.
Qed.
End Manager.

(** ** Properties *)

(** An update is all or nothing.  A mutation whose result the validator rejects
    returns the validator's status and changes neither memory nor disk; otherwise a
    successful [update] holds the new configuration in memory, its text in the file, and
    announces exactly one [ConfigChanged]; a failed one leaves memory and the file as
    they were and announces nothing; at every crash point the file is the old one or the
    new text. *)
Theorem update_all_or_nothing (J : JsonLib) (F : FileSystem) (FL : FileSystemLaws F)
    (AW : AtomicWriter F) f m :
  let c := f (config_ m) in
  let r := value_of (update f) m in
  let m' := state_after (update f) m in
  let es := effects_of (update f) m in
  if negb (is_valid c) then r = validate c /\ m' = m /\ es = []
  else
    Forall (old_or_new (path_ m) (dump_indented (to_json c)) (disk m)) (crash_points es) /\
    if status_ok r then
      config_ m' = c /\ visible (disk m') (path_ m) = Some (dump_indented (to_json c)) /\
      published es = (if has_bus m then [event EventType.ConfigChanged "config" []] else [])
    else
      config_ m' = config_ m /\ same_file (path_ m) (disk m) (disk m') /\ published es = [].
Proof.
  cbv zeta. unfold value_of, state_after, effects_of.
  destruct (is_valid (f (config_ m))) eqn:E; simpl; [|by rewrite update_rejected].
  destruct (update_run f m E) as (r & m1 & es & [(_ & _ & Hc & _) Hs Hok Herr _ Hpts _] & ->).
  destruct (status_ok r) eqn:Er; simpl.
  - rewrite published_app, crash_points_app, Hs.
    destruct (has_bus m); simpl; rewrite ?app_nil_r; auto.
  - rewrite Er. auto.
Qed.

(** C9: The configuration in memory is valid after any sequence of starts, reloads,
    updates, resets and stops on any disk, whatever the files hold. *)
Theorem config_always_valid (J : JsonLib) (F : FileSystem) (FL : FileSystemLaws F)
    (AW : AtomicWriter F) d path bus l :
  well_formed (config_ (state_after (calls l) (new_config_manager d path bus))).
Proof. by apply validate_well_formed, calls_valid. Qed.

(** [load] recovers.  It takes the configuration from the file when that parses and
    validates (and then touches nothing), else from the backup, else from the defaults;
    the last two keep the unreadable file under [.corrupt] when the rename works and
    announce [ConfigInvalid] exactly once; only the last is an error. *)
Theorem load_recovers (J : JsonLib) (F : FileSystem) (FL : FileSystemLaws F)
    (AW : AtomicWriter F) m :
  load_outcome (load_source (disk m) (path_ m)) m (value_of load m) (state_after load m)
    (effects_of load m).
Proof. apply load_spec. Qed.

(** C10: A power cut during an update loses nothing.  When the file holds the
    configuration in memory, the next boot, from whatever a cut at any point of the
    update leaves, loads the old configuration or the new one (without the display name,
    which the file does not keep), successfully and without raising [ConfigInvalid]. *)
Theorem power_cut_during_update (J : JsonLib) (L : JsonLaws J) (F : FileSystem)
    (FL : FileSystemLaws F) (AW : AtomicWriter F) f m x x' bus :
  let c := config_ m in
  let c' := f c in
  is_valid c = true -> int_fields c -> dumpable (to_json c) ->
  is_valid c' = true -> int_fields c' -> dumpable (to_json c') ->
  visible (disk m) (path_ m) = Some (dump_indented (to_json c)) ->
  (forall y, survives (disk m) (path_ m) y -> y = visible (disk m) (path_ m)) ->
  x ∈ crash_points (effects_of (update f) m) ->
  reboot x x' ->
  let boot := new_config_manager x' (path_ m) bus in
  value_of load boot = success /\ effects_of load boot = [] /\
  (config_ (state_after load boot) = stored c \/ config_ (state_after load boot) = stored c').
Proof.
  cbv zeta. intros Hv Hi Hd Hv' Hi' Hd' Hfile Hdur Hx Hr.
  assert (exists c, (c = config_ m \/ c = f (config_ m)) /\
            visible x' (path_ m) = Some (dump_indented (to_json c))) as (c & Hc & Hvis).
  { destruct (update_run f m Hv') as (r & m1 & es & [_ _ _ _ _ Hpts _] & Hu).
    assert (x ∈ crash_points es) as Hx1.
    { revert Hx. unfold effects_of. rewrite Hu. destruct (status_ok r); [|done]. simpl.
      rewrite crash_points_app. destruct (has_bus m); simpl; by rewrite app_nil_r. }
    eapply Forall_forall in Hpts as [_ Hpt]; [|exact Hx1].
    destruct (Hpt _ (reboot_survives x x' (path_ m) Hr)) as [Hold|Hnew]; [|by eauto].
    exists (config_ m). split; [by left|]. by rewrite (Hdur _ Hold). }
  assert (tryParse x' (path_ m) = Value (stored c)) as Hparse
    by (destruct Hc as [->| ->]; by apply tryParse_text).
  unfold value_of, effects_of, state_after. rewrite load_run. unfold load_source, exists_file.
  simpl. rewrite Hvis, Hparse. simpl. split_and!; [done..|].
  destruct Hc as [->| ->]; auto.
Qed.

(** Writing a configuration and reading it back gives every field but the device's
    display name, for which the file has no entry. *)
Theorem config_round_trip (J : JsonLib) (L : JsonLaws J) c :
  int_fields c -> dumpable (to_json c) ->
  (j ← parse (dump_indented (to_json c)); from_json j) = Done (stored c) /\
  (stored c = c <-> name (device c) = "").
Proof.
  intros Hi Hd. rewrite parse_dump_indented by done. simpl.
  split; [by apply to_json_round_trip|]. destruct c as [v [] p n a s]. unfold stored. simpl.
  split; [by intros [=]|by intros ->].
Qed.

(** ** Witnesses *)

Section Witnesses.
#[local] Existing Instance mdisk_laws.
#[local] Existing Instance posix_writer.

Definition set_volume (v : Z) (c : SpeakerConfig) : SpeakerConfig :=
  let a := audio c in
  mk_config (schema_version c) (device c) (pairing c) (network c)
    (mk_audio v (muted a) (delay_ms a) (eq_profile a) (gain_db a) (phase_invert a)
       (output_device a) (input_device a)) (system c).

(** A disk that holds the text of a configuration at ["c"]. *)
Definition disk_with (text : string) : @Disk mdisk_system :=
  mk_disk {["c"%string := (text, true)]} {["c"%string := [Some text]]} ∅ [].

Definition demo_manager : ConfigManager :=
  mk_config_manager (disk_with (dump_indented (to_json defaults))) "c" true defaults
    ServiceState.Running.

Lemma update_all_or_nothing_witness :
  status_ok (value_of (update (set_volume 101)) demo_manager) = false /\
  config_ (state_after (update (set_volume 101)) demo_manager) = defaults /\
  config_ (state_after (update (set_volume 45)) demo_manager) = set_volume 45 defaults /\
  published (effects_of (update (set_volume 45)) demo_manager) =
    [event EventType.ConfigChanged "config" []].
Proof.
  pose proof (update_all_or_nothing jvalue_lib mdisk_system mdisk_laws posix_writer
                (set_volume 101) demo_manager) as H1.
  pose proof (update_all_or_nothing jvalue_lib mdisk_system mdisk_laws posix_writer
                (set_volume 45) demo_manager) as H2.
  cbv zeta in H1, H2.
  replace (is_valid (set_volume 101 (config_ demo_manager))) with false in H1 by reflexivity.
  replace (is_valid (set_volume 45 (config_ demo_manager))) with true in H2 by reflexivity.
  cbn [negb] in H1, H2. destruct H1 as (Hr & Hm & _). destruct H2 as [_ H2].
  assert (status_ok (value_of (update (set_volume 45)) demo_manager) = true) as Hok
    by (vm_compute; reflexivity).
  rewrite Hok in H2. destruct H2 as (Hc & _ & He).
  split_and!; [by rewrite Hr|by rewrite Hm|exact Hc|exact He].
Defined.

Lemma config_always_valid_witness :
  well_formed (config_ (state_after (calls [CStart; CUpdate (set_volume 45); CUpdate (set_volume (-3))])
    (new_config_manager (disk_with "{") "c" true))).
Proof.
  apply (config_always_valid jvalue_lib mdisk_system mdisk_laws posix_writer).
Defined.

Lemma load_recovers_witness :
  load_source (disk_with "{") "c" = Lost /\
  config_ (state_after load (new_config_manager (disk_with "{") "c" true)) = defaults.
Proof.
  split; [vm_compute; reflexivity|].
  destruct (load_recovers jvalue_lib mdisk_system mdisk_laws posix_writer
              (new_config_manager (disk_with "{") "c" true)) as [Hc _ _ _ _ _].
  rewrite Hc. vm_compute. reflexivity.
Defined.

(** The power is cut after the rename and the machine restarts on the new file. *)
Lemma power_cut_during_update_witness :
  let boot := new_config_manager
                (disk_with (dump_indented (to_json (set_volume 45 defaults)))) "c" true in
  value_of load boot = success /\
  (config_ (state_after load boot) = defaults \/
   config_ (state_after load boot) = set_volume 45 defaults).
Proof.
  set (x := nth 6 (crash_points (effects_of (update (set_volume 45)) demo_manager)) (disk_with "")).
  set (x' := disk_with (dump_indented (to_json (set_volume 45 defaults)))).
  assert (int_fields defaults /\ int_fields (set_volume 45 defaults)) as [Hi Hi'].
  { unfold int_fields, in_signed. simpl. lia. }
  assert (x ∈ crash_points (effects_of (update (set_volume 45)) demo_manager)) as Hx.
  { apply list_elem_of_In. apply nth_In. vm_compute. lia. }
  assert (reboot x x') as Hr.
  { split; (match goal with |- ?P => apply (bool_decide_unpack P) end); vm_compute; exact I. }
  destruct (power_cut_during_update jvalue_lib jvalue_laws mdisk_system mdisk_laws
    posix_writer (set_volume 45) demo_manager x x' true eq_refl Hi I eq_refl Hi' I)
    as (Hs & _ & Hc).
  - vm_compute. reflexivity.
  - intros y Hy. apply list_elem_of_singleton in Hy. rewrite Hy. vm_compute. reflexivity.
  - exact Hx.
  - exact Hr.
  - split; [exact Hs|exact Hc].
Defined.

Lemma config_round_trip_witness :
  (j ← parse (dump_indented (to_json defaults)); from_json j) = Done defaults.
Proof.
  apply (config_round_trip jvalue_lib jvalue_laws defaults); [|exact I].
  unfold int_fields, in_signed. simpl. lia.
Defined.
End Witnesses.
