(* ===== verification/Storage.v ===== *)
(** * Storage: device secrets and the installed binary

    Models [src/src/storage/SecureStorage.cpp] and the file half of
    [src/src/updater] ([Installer], [RollbackManager]).  Both write a temporary
    sibling and rename it over the target, without looking at the result of [fsync];
    file modes are not part of the model. *)

From Stdlib Require Import Ascii.
From S2P Require Import Prelude Core Files.

(** ** Write and swap *)

Section Swap.
Context {F : FileSystem}.

(** From the open temporary file to the renamed target, as both writers do it. *)
(* [src/src/updater/Installer.cpp:27-45] Installer::install *)
Definition write_and_swap (code : ErrorCode) (fuel : nat) (fd : Z) (tmp target contents : string) :
  SW Disk Disk (option Status) :=
  w ← write_all code fuel fd tmp contents;
  match w with
  | None => mret None
  | Some w =>
      if negb (status_ok w) then mret (Some w)
      else
        sys (fsync fd);;
        sys (close fd);;
        r ← sys (rename tmp target);
        if bool_decide (r <> 0%Z) then
          sys (unlink tmp);;
          write_failed code "rename failed: "
        else mret (Some success)
  end.

(* [src/src/updater/Installer.cpp:17-46] Installer::install *)
Definition install (fuel : nat) (target payload : string) : SW Disk Disk (option Status) :=
  if bool_decide (payload = "") then mret (Some (error ErrorCode.InvalidArg "empty payload"))
  else
    let tmp := target +:+ ".new" in
    fd ← sys (open_trunc tmp);
    if (fd <? 0)%Z then write_failed ErrorCode.IoError "open failed: "
    else write_and_swap ErrorCode.IoError fuel fd tmp target payload.

(* [src/src/updater/RollbackManager.h:13-26] RollbackManager *)
Definition backup_path (target : string) : string := target +:+ ".prev".

(* [src/src/updater/RollbackManager.cpp:11-17] RollbackManager::backup *)
Definition backup (target : string) : SW Disk Disk Status :=
  d ← get;
  if negb (exists_file d target) then
    mret (error ErrorCode.NotFound ("target missing: " +:+ target))
  else
    ec ← sys (copy_file target (backup_path target));
    d ← get;
    if bool_decide (ec <> 0%Z)
    then mret (error ErrorCode.IoError ("backup failed: " +:+ strerror d))
    else mret success.

(* [src/src/updater/RollbackManager.cpp:19-25] RollbackManager::restore *)
Definition restore (target : string) : SW Disk Disk Status :=
  d ← get;
  if negb (exists_file d (backup_path target)) then
    mret (error ErrorCode.NotFound "no backup to restore")
  else
    ec ← sys (copy_file (backup_path target) target);
    d ← get;
    if bool_decide (ec <> 0%Z)
    then mret (error ErrorCode.IoError ("restore failed: " +:+ strerror d))
    else mret success.

(* [src/src/updater/RollbackManager.cpp:27-27] RollbackManager::hasBackup *)
Definition hasBackup (target : string) (d : Disk) : bool := exists_file d (backup_path target).

(** ** Secrets *)

(** [std::isalnum] in the C locale. *)
Definition isalnum (c : ascii) : bool :=
  let n := nat_of_ascii c in
  ((48 <=? n) && (n <=? 57) || (65 <=? n) && (n <=? 90) || (97 <=? n) && (n <=? 122))%nat.

Fixpoint all_chars (p : ascii -> bool) (s : string) : bool :=
  match s with EmptyString => true | String c s => p c && all_chars p s end.

(* [src/src/storage/SecureStorage.cpp:23-31] validKey *)
Definition validKey (key : string) : bool :=
  match key with
  | EmptyString => false
  | String front _ =>
      all_chars (fun c => isalnum c || bool_decide (c ∈ ["_"; "-"; "."]%char)) key &&
      negb (bool_decide (front = "."%char))
  end.

(* [src/src/storage/SecureStorage.cpp:36-36] SecureStorage::pathFor *)
Definition pathFor (dir key : string) : string := dir +:+ "/" +:+ key.

(* [src/src/storage/SecureStorage.cpp:38-75] SecureStorage::put *)
Definition put (fuel : nat) (dir key value : string) : SW Disk Disk (option Status) :=
  if negb (validKey key) then mret (Some (error ErrorCode.InvalidArg "invalid secret key"))
  else
    sys (create_directories dir);;
    let target := pathFor dir key in
    let tmp := target +:+ ".tmp" in
    fd ← sys (open_trunc tmp);
    if (fd <? 0)%Z then write_failed ErrorCode.SecureStoreError "open failed: "
    else write_and_swap ErrorCode.SecureStoreError fuel fd tmp target value.

(* [src/src/storage/SecureStorage.cpp:77-85] SecureStorage::get *)
Definition get_secret (dir key : string) (d : Disk) : Result string :=
  if negb (validKey key) then Failure (error ErrorCode.InvalidArg "invalid secret key")
  else
    match visible d (pathFor dir key) with
    | None => Failure (error ErrorCode.NotFound ("secret not found: " +:+ key))
    | Some s => Value s
    end.

(* [src/src/storage/SecureStorage.cpp:87-89] SecureStorage::has *)
Definition has_secret (dir key : string) (d : Disk) : bool :=
  validKey key && exists_file d (pathFor dir key).

(* [src/src/storage/SecureStorage.cpp:91-96] SecureStorage::erase *)
Definition erase (dir key : string) : SW Disk Disk Status :=
  if negb (validKey key) then mret (error ErrorCode.InvalidArg "invalid secret key")
  else sys (unlink (pathFor dir key));; mret success.
End Swap.

(** ** What a swap leaves *)

(** [swapped path tmp new d r d' points]: a run from [d] to [d'] that returned [r] and
    passed through [points], as a process sees the files. *)
Record swapped `{FileSystem} (path tmp new : string) (d : Disk) (r : Status) (d' : Disk)
    (points : list Disk) : Prop := mk_swapped
  { swapped_ok : status_ok r = true -> visible d' path = Some new;
    swapped_error : status_ok r = false -> visible d' path = visible d path;
    swapped_points : Forall (fun x => visible x path = visible d path \/
                                      visible x path = Some new) points;
    swapped_others : forall q, q <> path -> q <> tmp ->
      Forall (fun x => visible x q = visible d q) (d' :: points) }.

Section SwapProofs.
Context {F : FileSystem} {FL : FileSystemLaws F}.
Variables (path tmp contents : string) (d0 : Disk).
Hypothesis Htmp : path <> tmp.

(** The target as a process sees it has been replaced. *)
Definition seen_replaced (d : Disk) : Prop :=
  visible d path = Some contents /\
  (forall q, q <> path -> q <> tmp -> same_file q d0 d).

Definition seen_point (d : Disk) : Prop := quiet tmp d0 d \/ seen_replaced d.

Definition swap_outcome (r : option Status) (d : Disk) : Prop :=
  failed tmp d0 r d \/ r = Some success /\ seen_replaced d.

Lemma point_seen d : crash_point path tmp contents d0 d -> seen_point d.
Proof. intros [Hd|(Hv & _ & Hq)]; [by left|by right]. Qed.

Lemma triple_seen {A} P (m : SW Disk Disk A) Q :
  triple (crash_point path tmp contents d0) P m Q -> triple seen_point P m Q.
Proof.
  intros Hm d Hd. destruct (Hm d Hd) as [Hp Hq]. split; [|done].
  eapply Forall_impl; [exact Hp|]. apply point_seen.
Qed.

Lemma quiet_seen {A} (f : Disk -> A * Disk) :
  (forall d q, q <> tmp -> same_file q d (f d).2) ->
  triple seen_point (quiet tmp d0) (sys f) (fun _ => quiet tmp d0).
Proof. intros Hf. apply triple_seen, sys_quiet, Hf. Qed.

(** The temporary file is closed and complete. *)
Definition written (d : Disk) : Prop := quiet tmp d0 d /\ visible d tmp = Some contents.

Lemma written_seen {A} (f : Disk -> A * Disk) :
  (forall d q, same_file q d (f d).2) ->
  triple seen_point written (sys f) (fun _ => written).
Proof.
  intros Hf d [Hq Hv].
  assert (quiet tmp d0 (f d).2) as Hq' by (by eapply quiet_step; eauto).
  split; [constructor; [by left|constructor]|]. split; [done|].
  change (state_after (sys f) d) with (f d).2. by destruct (Hf d tmp) as [-> _].
Qed.

Lemma swap_triple code fuel fd :
  code <> ErrorCode.Ok -> String.length contents <= fuel ->
  triple seen_point (writing tmp d0 fd "") (write_and_swap code fuel fd tmp path contents)
    swap_outcome.
Proof.
  intros Hc Hfuel. eapply triple_bind; [by apply triple_seen, write_all_triple|].
  intros w d [Hw|[-> Hw]].
  - destruct Hw as (s & -> & Hs & Hq). rewrite Hs. split; [constructor|]. left. by exists s.
  - rewrite status_ok_success. assert (written d) as Hd by (by destruct Hw as (? & ? & ?)).
    clear Hw. revert d Hd.
    eapply triple_bind; [apply written_seen; auto with nexus|]. intros ?.
    eapply triple_bind; [apply written_seen; auto with nexus|]. intros ?.
    eapply (triple_bind _ _ _ _ (fun r d => if bool_decide (r <> 0%Z) then quiet tmp d0 d
                                            else seen_replaced d)).
    + intros d [Hq Hv]. destruct (bool_decide_reflect ((rename tmp path d).1 <> 0%Z)) as [Hr|Hr].
      * assert (quiet tmp d0 (rename tmp path d).2) as Hq'.
        { eapply quiet_step; [done|]. intros. by apply rename_failed. }
        split; [constructor; [by left|constructor]|].
        change (value_of (sys (rename tmp path)) d) with (rename tmp path d).1.
        by rewrite bool_decide_eq_true_2.
      * assert (seen_replaced (rename tmp path d).2) as Hs'.
        { destruct (rename_ok tmp path d contents) as (Hv' & _ & _); [lia|by apply not_eq_sym|done|].
          split; [done|]. intros q Hqp Hqt.
          eapply same_file_trans; [by apply Hq|by apply rename_same]. }
        split; [constructor; [by right|constructor]|].
        change (value_of (sys (rename tmp path)) d) with (rename tmp path d).1.
        by rewrite bool_decide_eq_false_2 by lia.
    + intros r. destruct (bool_decide (r <> 0%Z)).
      * eapply triple_bind; [apply quiet_seen; intros; by apply unlink_same|]. intros ?.
        eapply triple_weaken; [by apply triple_seen, write_failed_triple|done|by left].
      * intros d Hd. split; [constructor|]. by right.
Qed.

(** Opening the temporary file. *)
Lemma open_triple :
  triple seen_point (quiet tmp d0) (sys (open_trunc tmp))
    (fun fd d => quiet tmp d0 d /\ ((0 <= fd)%Z -> writing tmp d0 fd "" d)).
Proof.
  intros d Hd. assert (quiet tmp d0 (open_trunc tmp d).2) as Hq.
  { eapply quiet_step; [done|]. intros. by apply open_trunc_same. }
  split; [constructor; [by left|constructor]|]. split; [done|].
  intros Hfd. by destruct (open_trunc_ok tmp d Hfd).
Qed.

Lemma open_and_swap_triple code fuel what :
  code <> ErrorCode.Ok -> String.length contents <= fuel ->
  triple seen_point (quiet tmp d0)
    (fd ← sys (open_trunc tmp);
     if (fd <? 0)%Z then write_failed code what
     else write_and_swap code fuel fd tmp path contents) swap_outcome.
Proof.
  intros Hc Hfuel. eapply triple_bind; [apply open_triple|]. intros fd.
  destruct (Z.ltb_spec fd 0).
  - eapply triple_weaken; [by apply triple_seen, write_failed_triple|by intros ? []|by left].
  - eapply triple_weaken; [by apply swap_triple| |done]. intros d [_ Hd]. by apply Hd.
Qed.

Lemma outcome_swapped (m : SW Disk Disk (option Status)) :
  triple seen_point (quiet tmp d0) m swap_outcome ->
  exists s, value_of m d0 = Some s /\
    swapped path tmp contents d0 s (state_after m d0) (effects_of m d0).
Proof.
  intros Hm. destruct (Hm d0) as [Hpts Hout]; [intros q _; apply same_file_refl|].
  assert (forall x, seen_point x -> visible x path = visible d0 path \/
            visible x path = Some contents) as Hpt.
  { intros x [Hx|[Hx _]]; [left; by destruct (Hx path Htmp)|by right]. }
  assert (forall q x, q <> path -> q <> tmp -> seen_point x -> visible x q = visible d0 q) as Hq.
  { intros q x ?? [Hx|[_ Hx]]; by apply Hx. }
  assert (forall s, (status_ok s = true -> visible (state_after m d0) path = Some contents) ->
    (status_ok s = false -> visible (state_after m d0) path = visible d0 path) ->
    seen_point (state_after m d0) ->
    swapped path tmp contents d0 s (state_after m d0) (effects_of m d0)) as Hmk.
  { intros s Hok Herr Hend. split; [done|done| |].
    - by eapply Forall_impl; [exact Hpts|].
    - intros q ??. constructor; [by apply Hq|]. eapply Forall_impl; [exact Hpts|].
      intros x Hx. by apply Hq. }
  destruct Hout as [(s & Hs & Herr & Hd)|[Hs Hd]].
  - exists s. split; [done|]. apply Hmk; [congruence| |by left]. intros _. by apply Hd.
  - exists success. split; [done|]. apply Hmk; [|done|by right]. intros _. apply Hd.
Qed.
End SwapProofs.

Lemma install_spec {F : FileSystem} {FL : FileSystemLaws F} fuel target payload d :
  String.length payload <= fuel ->
  exists s, value_of (install fuel target payload) d = Some s /\
    swapped target (target +:+ ".new") payload d s (state_after (install fuel target payload) d)
      (effects_of (install fuel target payload) d).
Proof.
  intros Hfuel. unfold install. destruct (bool_decide_reflect (payload = "")) as [->|Hne].
  - eexists. split; [done|]. split; [done|done|constructor|].
    intros. by apply Forall_singleton.
  - apply outcome_swapped; [by apply suffix_ne|]. apply open_and_swap_triple; [by apply suffix_ne|done|done].
Qed.

Lemma app_inj_r (p s t : string) : p +:+ s = p +:+ t -> s = t.
Proof. intros H. by apply String.app_inj in H. Qed.

Lemma put_spec {F : FileSystem} {FL : FileSystemLaws F} fuel dir key value d :
  validKey key = true -> String.length value <= fuel ->
  let d1 := (create_directories dir d).2 in
  exists s, value_of (put fuel dir key value) d = Some s /\
    swapped (pathFor dir key) (pathFor dir key +:+ ".tmp") value d1 s
      (state_after (put fuel dir key value) d)
      (tail (effects_of (put fuel dir key value) d)).
Proof.
  intros Hk Hfuel d1. unfold put. rewrite Hk. cbn [negb].
  rewrite value_of_bind, state_after_bind, effects_of_bind.
  change (state_after (sys (create_directories dir)) d) with d1.
  apply outcome_swapped; [by apply suffix_ne|].
  apply open_and_swap_triple; [by apply suffix_ne|done|done].
Qed.

(** ** Property *)

(** The secret store keeps what it is given.  [put] of a valid key always returns;
    after a success [get] gives the value back, after a failure it gives what it gave
    before, at no point between does a process read anything but the old or the new
    value, and the secrets of all other keys read as before, except the one key that
    names the temporary file, [key.tmp]; an invalid key, which could name a file outside
    the directory, is refused without touching the disk. *)
Theorem secret_put_get (F : FileSystem) (FL : FileSystemLaws F) fuel dir key value d :
  String.length value <= fuel ->
  let r := value_of (put fuel dir key value) d in
  let d' := state_after (put fuel dir key value) d in
  if validKey key then
    exists s, r = Some s /\
      get_secret dir key d' =
        (if status_ok s then Value value else get_secret dir key d) /\
      Forall (fun x => get_secret dir key x = get_secret dir key d \/
                       get_secret dir key x = Value value)
        (effects_of (put fuel dir key value) d) /\
      (forall key', key' <> key -> key' <> key +:+ ".tmp" ->
         get_secret dir key' d' = get_secret dir key' d)
  else r = Some (error ErrorCode.InvalidArg "invalid secret key") /\ d' = d.
Proof.
  intros Hfuel. cbv zeta. destruct (validKey key) eqn:Hk; [|unfold put; by rewrite Hk].
  destruct (put_spec fuel dir key value d Hk Hfuel) as (s & Hs & [Hok Herr Hpts Hoth]).
  exists s. split; [done|].
  assert (forall q, visible (create_directories dir d).2 q = visible d q) as Hd1.
  { intros q. by destruct (create_directories_same dir d q). }
  assert (forall d1 d2 k, visible d1 (pathFor dir k) = visible d2 (pathFor dir k) ->
            get_secret dir k d1 = get_secret dir k d2) as Hget.
  { intros d1 d2 k Heq. unfold get_secret. by rewrite Heq. }
  assert (forall d1, visible d1 (pathFor dir key) = Some value ->
            get_secret dir key d1 = Value value) as Hval.
  { intros d1 Heq. unfold get_secret. by rewrite Hk, Heq. }
  rewrite Hd1 in Herr. split_and!.
  - destruct (status_ok s); [by apply Hval, Hok|by apply Hget, Herr].
  - assert (effects_of (put fuel dir key value) d =
      (create_directories dir d).2 :: tail (effects_of (put fuel dir key value) d)) as ->.
    { unfold put. rewrite Hk. cbn [negb]. by rewrite effects_of_bind. }
    constructor; [left; apply Hget, Hd1|]. eapply Forall_impl; [exact Hpts|].
    intros x [Hx|Hx]; [left; apply Hget; by rewrite Hx, Hd1|right; by apply Hval].
  - intros key' Hne Htmp. apply Hget. rewrite <- Hd1.
    assert (pathFor dir key' <> pathFor dir key) as H1.
    { intros Heq. by repeat apply app_inj_r in Heq. }
    assert (pathFor dir key' <> pathFor dir key +:+ ".tmp") as H2.
    { unfold pathFor. rewrite !str_app_assoc. intros Heq. by repeat apply app_inj_r in Heq. }
    specialize (Hoth _ H1 H2). by apply Forall_cons in Hoth as [-> _].
Qed.

(** The temporary file of one key is the file of another. *)
Lemma secret_put_get_witness :
  let d := state_after (put 3 "s" "k" "old") (demo_disk []) in
  let d' := state_after (put 3 "s" "k" "new") d in
  get_secret "s" "k" d = Value "old"%string /\ get_secret "s" "k" d' = Value "new"%string.
Proof.
  set (d := state_after (put 3 "s" "k" "old") (demo_disk [])).
  split; [vm_compute; reflexivity|].
  destruct (secret_put_get mdisk_system mdisk_laws 3 "s" "k" "new" d) as (s & Hs & Hg & _);
    [simpl; lia|].
  rewrite Hg. assert (status_ok s = true) as ->; [|reflexivity].
  revert Hs. vm_compute. by intros [= <-].
Defined.
