(* ===== verification/Control.v ===== *)
(** * Control: the signed command channel of the speaker

    Models [src/src/control]: the command record and its canonical text, the
    bounded history of executed commands, the validator, the executor, the router
    and the server.  Ed25519 is a parameter ([Crypto]); the configuration is the
    manager of [Config]; what the executor reads from elsewhere (clock, telemetry,
    measurement) is the record [Env], given anew to every request. *)

From stdpp Require Import pretty.
From S2P Require Import Prelude Core Json Files Config.

(** ** Signatures *)

(** The module [identity/Crypto.h] is not part of the repository's sources. *)
Class Crypto := {
  toBase64 : string -> string;
  (** over the base64 text of a message, a signature and a public key *)
  verifyEd25519Base64 : string -> string -> string -> bool;
  (** over a message and the base64 text of a secret key *)
  signEd25519Base64 : string -> string -> Result string;
  public_key_of : string -> string
}.

Class CryptoLaws (C : Crypto) := {
  verify_sign msg key sig :
    signEd25519Base64 msg key = Value sig ->
    sig <> "" /\ verifyEd25519Base64 (toBase64 msg) sig (public_key_of key) = true
}.

(** ** Commands *)

Section Commands.
Context {J : JsonLib}.

(* [src/src/control/Command.h:23-42] Command *)
Record Command := mk_command
  { c_command_id : string; c_target_id : string; c_command : string; c_payload : json;
    c_expires_at : Z; c_timestamp : Z; c_signature_b64 : string }.

#[global] Instance Command_eq_dec : EqDecision Command.
Proof. solve_decision. Defined.

Definition newline : string := String (Ascii.ascii_of_nat 10) "".

(* [src/src/control/Command.h:34-38] Command::canonicalString *)
Definition canonicalString (c : Command) : string :=
  c_command_id c +:+ newline +:+ c_target_id c +:+ newline +:+ c_command c +:+ newline +:+
  dump (c_payload c) +:+ newline +:+
  pretty (c_expires_at c) +:+ newline +:+ pretty (c_timestamp c).

(* [src/src/control/Command.cpp:5-15] Command::fromJson *)
Definition fromJson (j : json) : Try Command :=
  id ← value_string j "command_id" "";
  target ← value_string j "target_id" "";
  command ← value_string j "command" "";
  let payload :=
    match jfind j "payload" with
    | Some p => if is_object p then p else jobj []
    | None => jobj []
    end in
  expires ← value_int64 j "expires_at" 0;
  timestamp ← value_int64 j "timestamp" 0;
  signature ← value_string j "signature" "";
  mret (mk_command id target command payload expires timestamp signature).

(* [src/src/control/Command.cpp:17-21] Command::toJson *)
Definition toJson (c : Command) : json :=
  jobj [("type", jstr "command"); ("command_id", jstr (c_command_id c));
        ("target_id", jstr (c_target_id c)); ("command", jstr (c_command c));
        ("payload", c_payload c); ("expires_at", jint (c_expires_at c));
        ("timestamp", jint (c_timestamp c)); ("signature", jstr (c_signature_b64 c))].

(* [src/src/control/Command.h:45-56] CommandResult *)
Record CommandResult := mk_result
  { r_command_id : string; r_ok : bool; r_message : string; r_error_code : Z; r_data : json }.

#[global] Instance CommandResult_eq_dec : EqDecision CommandResult.
Proof. solve_decision. Defined.

(* [src/src/control/Command.h:52-55] CommandResult::toJson *)
Definition result_to_json (r : CommandResult) : json :=
  jobj [("type", jstr "command_result"); ("command_id", jstr (r_command_id r));
        ("ok", jbool (r_ok r)); ("message", jstr (r_message r));
        ("error_code", jint (r_error_code r)); ("data", r_data r)].

(** [fromJson] undoes [toJson] on what a sender can hold. *)
Lemma command_round_trip {L : JsonLaws J} c :
  is_object (c_payload c) = true -> in_signed 64 (c_expires_at c) ->
  in_signed 64 (c_timestamp c) -> fromJson (toJson c) = Done c.
Proof.
  intros Hp He Ht. unfold fromJson, toJson, value_string, value_int64.
  rewrite !value_or_obj, jfind_obj. cbn [assoc String.eqb Ascii.eqb Bool.eqb].
  rewrite !get_string_str, !get_int64_int, Hp by done. simpl. by destruct c.
Qed.
End Commands.

(** ** The command names *)

(* [src/src/control/Command.h:61-89] cmd *)
Inductive Verb :=
| GET_STATUS | SET_VOLUME | SET_MUTE | SET_EQ | SET_DELAY | SET_GAIN | SET_PHASE_INVERT
| START_AUDIO | STOP_AUDIO | PAUSE_AUDIO | RESUME_AUDIO | RUN_CALIBRATION | RUN_MEASUREMENT
| RUN_SELF_TEST | RUN_AUDIO_TEST | REBOOT | UPDATE_SOFTWARE | RESET_NETWORK | FACTORY_RESET
| REPORT_LINK.

#[export] Instance Verb_eq_dec : EqDecision Verb.
Proof. solve_decision. Defined.

(* [src/src/control/Command.h:61-89] cmd *)
Definition verb_names : list (string * Verb) :=
  [("GET_STATUS", GET_STATUS); ("SET_VOLUME", SET_VOLUME); ("SET_MUTE", SET_MUTE);
   ("SET_EQ", SET_EQ); ("SET_DELAY", SET_DELAY); ("SET_GAIN", SET_GAIN);
   ("SET_PHASE_INVERT", SET_PHASE_INVERT); ("START_AUDIO", START_AUDIO);
   ("STOP_AUDIO", STOP_AUDIO); ("PAUSE_AUDIO", PAUSE_AUDIO); ("RESUME_AUDIO", RESUME_AUDIO);
   ("RUN_CALIBRATION", RUN_CALIBRATION); ("RUN_MEASUREMENT", RUN_MEASUREMENT);
   ("RUN_SELF_TEST", RUN_SELF_TEST); ("RUN_AUDIO_TEST", RUN_AUDIO_TEST); ("REBOOT", REBOOT);
   ("UPDATE_SOFTWARE", UPDATE_SOFTWARE); ("RESET_NETWORK", RESET_NETWORK);
   ("FACTORY_RESET", FACTORY_RESET); ("REPORT_LINK", REPORT_LINK)].

(** The branch of the executor's chain of comparisons that a name selects. *)
Definition verb_of (name : string) : option Verb := assoc name verb_names.

(** ** The history of commands *)

Section History.
Context {J : JsonLib}.

(* [src/src/control/CommandHistory.h:16-35] CommandHistory *)
Record CommandHistory := mk_history
  { capacity_ : nat; order_ : list string; results_ : gmap string CommandResult }.

(* [src/src/control/CommandHistory.h:18-18] CommandHistory::CommandHistory *)
Definition new_history (capacity : nat) : CommandHistory := mk_history capacity [] ∅.

(* [src/src/control/CommandHistory.cpp:5-8] CommandHistory::seen *)
Definition seen (id : string) (h : CommandHistory) : bool :=
  match results_ h !! id with Some _ => true | None => false end.

(** The front of the deque, removed when the history is full; a full history of
    capacity zero has no front, which the source does not guard against. *)
(* [src/src/control/CommandHistory.cpp:16-20] CommandHistory::record *)
Definition evict (h : CommandHistory) : CommandHistory :=
  if (capacity_ h <=? length (order_ h))%nat then
    match order_ h with
    | oldest :: rest => mk_history (capacity_ h) rest (delete oldest (results_ h))
    | [] => h
    end
  else h.

(* [src/src/control/CommandHistory.cpp:10-23] CommandHistory::record *)
Definition record (id : string) (result : CommandResult) (h : CommandHistory) : CommandHistory :=
  if seen id h then mk_history (capacity_ h) (order_ h) (<[id := result]> (results_ h))
  else
    let h := evict h in
    mk_history (capacity_ h) (order_ h ++ [id]) (<[id := result]> (results_ h)).

(* [src/src/control/CommandHistory.cpp:25-31] CommandHistory::tryGet *)
Definition tryGet (id : string) (h : CommandHistory) : option CommandResult := results_ h !! id.

(* [src/src/control/CommandHistory.cpp:33-36] CommandHistory::size *)
Definition history_size (h : CommandHistory) : nat := length (order_ h).

(** The deque lists exactly the keys of the map, once each, and respects the bound. *)
Record history_ok (h : CommandHistory) : Prop := mk_history_ok
  { history_nodup : NoDup (order_ h);
    history_keys : forall id, id ∈ order_ h <-> is_Some (results_ h !! id);
    history_bound : length (order_ h) <= capacity_ h;
    history_positive : 0 < capacity_ h }.

Lemma new_history_ok n : 0 < n -> history_ok (new_history n).
Proof.
  intros Hn. split; simpl; [constructor| |lia|done].
  intros id. rewrite lookup_empty. split; [by intros ?%not_elem_of_nil|intros []; congruence].
Qed.

Lemma seen_true id h : seen id h = true <-> is_Some (results_ h !! id).
Proof. unfold seen. destruct (results_ h !! id); [by split; eauto|]. split; [done|by intros [? ?]]. Qed.

Lemma evict_ok h : history_ok h ->
  NoDup (order_ (evict h)) /\
  (forall id, id ∈ order_ (evict h) <-> is_Some (results_ (evict h) !! id)) /\
  length (order_ (evict h)) < capacity_ h /\ capacity_ (evict h) = capacity_ h.
Proof.
  intros [Hnd Hk Hb Hp]. unfold evict. destruct (Nat.leb_spec (capacity_ h) (length (order_ h))).
  - destruct (order_ h) as [|old rest] eqn:E; simpl in *; [lia|].
    apply NoDup_cons in Hnd as [Hold Hnd]. split_and!; [done| |lia|done].
    intros id. destruct (decide (id = old)) as [->|Hne].
    + rewrite lookup_delete_eq. split; [done|by intros [? ?]].
    + rewrite lookup_delete_ne by done. rewrite <- Hk, elem_of_cons. intuition congruence.
  - by split_and!.
Qed.

Lemma record_ok id r h : history_ok h -> history_ok (record id r h).
Proof.
  intros Hh. unfold record. destruct (seen id h) eqn:Hs.
  - apply seen_true in Hs. destruct Hh as [Hnd Hk Hb Hp]. split; simpl; [done| |done|done].
    intros id'. rewrite Hk. destruct (decide (id = id')) as [<-|Hne].
    + rewrite lookup_insert_eq. split; eauto.
    + by rewrite lookup_insert_ne.
  - destruct (evict_ok h Hh) as (Hnd & Hk & Hb & Hcap).
    assert (id ∉ order_ (evict h)) as Hnew.
    { rewrite Hk. intros [x Hx]. assert (is_Some (results_ h !! id)) as Hi%seen_true; [|congruence].
      unfold evict in Hx. destruct (capacity_ h <=? length (order_ h)), (order_ h); simpl in *;
        try by rewrite Hx. apply lookup_delete_Some in Hx as [_ Hx]. by rewrite Hx. }
    split; simpl.
    + by apply NoDup_snoc.
    + intros id'. rewrite elem_of_app, list_elem_of_singleton, Hk.
      destruct (decide (id' = id)) as [->|Hne].
      * rewrite lookup_insert_eq. split; eauto.
      * rewrite lookup_insert_ne by done. intuition congruence.
    + rewrite length_app. simpl. lia.
    + rewrite Hcap. apply Hh.
Qed.

Lemma tryGet_record id r h : tryGet id (record id r h) = Some r.
Proof. unfold tryGet, record. destruct (seen id h); simpl; apply lookup_insert_eq. Qed.

(** [id] is in the history and survives [n] more records. *)
Definition retained (id : string) (n : nat) (h : CommandHistory) : Prop :=
  exists pre post, order_ h = pre ++ id :: post /\ length post + n < capacity_ h.

Lemma retained_weaken id n n' h : n' <= n -> retained id n h -> retained id n' h.
Proof. intros Hn (pre & post & Ho & Hl). exists pre, post. split; [done|lia]. Qed.

Lemma record_retained id r h : history_ok h -> seen id h = false ->
  retained id (capacity_ h - 1) (record id r h).
Proof.
  intros Hh Hs. destruct (evict_ok h Hh) as (_ & _ & _ & Hcap).
  exists (order_ (evict h)), []. unfold record. rewrite Hs. simpl. rewrite Hcap.
  split; [done|]. destruct Hh. lia.
Qed.

(** One more record, of another command. *)
Lemma retained_record id n id' r h :
  history_ok h -> id' <> id -> retained id (S n) h ->
  retained id n (record id' r h) /\ tryGet id (record id' r h) = tryGet id h.
Proof.
  intros Hh Hne (pre & post & Ho & Hl). unfold tryGet, record. destruct (seen id' h); simpl.
  - split; [exists pre, post; split; [done|simpl; lia]|by rewrite lookup_insert_ne].
  - unfold evict. destruct (Nat.leb_spec (capacity_ h) (length (order_ h))); simpl.
    + rewrite Ho. rewrite Ho, length_app in H. simpl in H.
      destruct pre as [|old pre]; simpl; [simpl in H; lia|].
      destruct Hh as [Hnd _ _ _]. rewrite Ho in Hnd. simpl in Hnd. apply NoDup_cons in Hnd as [Hold _].
      split.
      * exists pre, (post ++ [id']). rewrite <- app_assoc. split; [done|].
        rewrite length_app. simpl. lia.
      * rewrite lookup_insert_ne by done. apply lookup_delete_ne. intros ->.
        apply Hold. set_solver.
    + rewrite Ho. split; [|by rewrite lookup_insert_ne].
      exists pre, (post ++ [id']). rewrite <- app_assoc. split; [done|].
      rewrite length_app. simpl. lia.
Qed.
End History.

(** ** Link telemetry *)

(* [src/src/control/LinkState.h:19-24] LinkState::Snapshot *)
Record Snapshot := mk_snapshot
  { valid : bool; wifi_signal_dbm : Z; s_streamer_id : string; reported_at : Z }.

(* [src/src/control/LinkState.h:20-23] LinkState::Snapshot *)
Definition new_link : Snapshot := mk_snapshot false 0 "" 0.

(* [src/src/control/LinkState.h:26-32] LinkState::report *)
Definition report (dbm : Z) (streamer : string) (epoch_now : Z) (_ : Snapshot) : Snapshot :=
  mk_snapshot true dbm streamer epoch_now.

(** ** The executor *)

Section Executor.
Context {J : JsonLib} {F : FileSystem} {AW : AtomicWriter F} {Cr : Crypto}.

(** What the executor reads from outside at one request: the clock when one is set,
    the telemetry provider's answer, the measurement runner. *)
(* [src/src/control/CommandExecutor.h:33-62] CommandExecutor *)
Record Env := mk_env
  { now_ : option Z; telemetry_ : option json; measurement_ : option (json -> Try json) }.

(** The server with the objects its executor and router work on. *)
(* [src/src/control/CommandServer.h:65-78] CommandServer *)
Record Server := mk_server
  { config_mgr : ConfigManager; history_ : CommandHistory; link_state_ : Snapshot;
    bus_ : bool }.

(** What a request does besides changing the state. *)
Inductive XEffect :=
| Execute (c : Command)
| XPublish (e : Event Payload)
| XConfig (e : CEffect)
| Measure (params : json).

Abbreviation X := (SW Server XEffect).

Definition set_mgr (m : ConfigManager) (s : Server) : Server :=
  mk_server m (history_ s) (link_state_ s) (bus_ s).
Definition set_history (h : CommandHistory) (s : Server) : Server :=
  mk_server (config_mgr s) h (link_state_ s) (bus_ s).
Definition set_link (l : Snapshot) (s : Server) : Server :=
  mk_server (config_mgr s) (history_ s) l (bus_ s).

(** A call of the configuration manager. *)
Definition on_config {A} (f : SW ConfigManager CEffect A) : X A := fun s =>
  (value_of f (config_mgr s), set_mgr (state_after f (config_mgr s)) s,
   XConfig <$> effects_of f (config_mgr s)).

Definition publish (e : Event Payload) : X unit :=
  s ← get; when (bus_ s) (tell [XPublish e]).

(** Continue with the value of an expression, or let its exception escape. *)
Definition try_ {A B} (m : Try A) (k : A -> X (Try B)) : X (Try B) :=
  match m with Done a => k a | Throw w => mret (Throw w) end.

(* [src/src/control/CommandExecutor.cpp:15-22] CommandExecutor::ok *)
Definition ok (c : Command) (data : json) : CommandResult :=
  mk_result (c_command_id c) true "ok" 0 data.

(* [src/src/control/CommandExecutor.cpp:24-31] CommandExecutor::fail *)
Definition fail (c : Command) (code : ErrorCode) (msg : string) : CommandResult :=
  mk_result (c_command_id c) false msg (toInt code) (jobj []).

(* [src/src/control/CommandExecutor.cpp:43-50] emit_executed *)
Definition emit_executed (c : Command) (extra : Payload) : X unit :=
  let d := fold_left (fun d kv => set_key kv.1 kv.2 d) extra [("command", SStr (c_command c))] in
  publish (mk_event EventType.CommandExecuted "control" (c_command_id c) d).

(** The doubles 20.0 and -20.0. *)
Definition double_of_Z (z : Z) : spec_float := binary_normalize 53 1024 z 0 false.

(* [src/src/control/CommandExecutor.cpp:152-155] CommandExecutor::execute *)
Definition clamp_gain (gain : spec_float) : spec_float :=
  let gain := if SFltb (double_of_Z 20) gain then double_of_Z 20 else gain in
  if SFltb gain (double_of_Z (-20)) then double_of_Z (-20) else gain.

(** Change one field of the audio section. *)
Definition with_audio (f : AudioConfig -> AudioConfig) (c : SpeakerConfig) : SpeakerConfig :=
  mk_config (schema_version c) (device c) (pairing c) (network c) (f (audio c)) (system c).
Definition with_volume (v : Z) (a : AudioConfig) : AudioConfig :=
  mk_audio v (muted a) (delay_ms a) (eq_profile a) (gain_db a) (phase_invert a)
    (output_device a) (input_device a).
Definition with_muted (b : bool) (a : AudioConfig) : AudioConfig :=
  mk_audio (volume a) b (delay_ms a) (eq_profile a) (gain_db a) (phase_invert a)
    (output_device a) (input_device a).
Definition with_delay (d : Z) (a : AudioConfig) : AudioConfig :=
  mk_audio (volume a) (muted a) d (eq_profile a) (gain_db a) (phase_invert a)
    (output_device a) (input_device a).
Definition with_eq (e : string) (a : AudioConfig) : AudioConfig :=
  mk_audio (volume a) (muted a) (delay_ms a) e (gain_db a) (phase_invert a)
    (output_device a) (input_device a).
Definition with_gain (g : spec_float) (a : AudioConfig) : AudioConfig :=
  mk_audio (volume a) (muted a) (delay_ms a) (eq_profile a) g (phase_invert a)
    (output_device a) (input_device a).
Definition with_phase (b : bool) (a : AudioConfig) : AudioConfig :=
  mk_audio (volume a) (muted a) (delay_ms a) (eq_profile a) (gain_db a) b
    (output_device a) (input_device a).

(** The common end of the setters: update the configuration, report, acknowledge. *)
(* [src/src/control/CommandExecutor.cpp:90-93] CommandExecutor::execute *)
Definition apply_setting (c : Command) (f : AudioConfig -> AudioConfig) (k : string)
    (v : Scalar) : X (Try CommandResult) :=
  s ← on_config (update (with_audio f));
  if negb (status_ok s) then mret (Done (fail c (code s) (message s)))
  else
    emit_executed c [(k, v)];;
    mret (Done (ok c (jobj [(k, of_scalar v)]))).

(* [src/src/control/CommandExecutor.cpp:52-83] CommandExecutor::execute *)
Definition get_status (env : Env) (c : Command) : X (Try CommandResult) :=
  s ← get;
  let cfg := config_ (config_mgr s) in
  let status :=
    jobj [("volume", jint (volume (audio cfg))); ("muted", jbool (muted (audio cfg)));
          ("delay_ms", jint (delay_ms (audio cfg))); ("eq_profile", jstr (eq_profile (audio cfg)));
          ("gain_db", jdbl (gain_db (audio cfg)));
          ("phase_invert", jbool (phase_invert (audio cfg)));
          ("paired", jbool (paired (pairing cfg)))] in
  let status :=
    match telemetry_ env with
    | Some t => if is_object t && negb (jempty t) then jset status "telemetry" t else status
    | None => status
    end in
  let link := link_state_ s in
  let status :=
    if valid link then
      let status := jset status "wifi_signal_dbm" (jint (wifi_signal_dbm link)) in
      let now := default 0%Z (now_ env) in
      if (0 <? now)%Z && (0 <? reported_at link)%Z
      then jset status "link_age_s" (jint (now - reported_at link)) else status
    else status in
  mret (Done (ok c status)).

(** [if (!payload.contains(k) || !payload[k].is_T()) return fail(...)], then the value. *)
Definition required {A} (c : Command) (k : string) (is_T : json -> bool) (get_T : json -> Try A)
    (msg : string) (cont : A -> X (Try CommandResult)) : X (Try CommandResult) :=
  match jfind (c_payload c) k with
  | Some v =>
      if is_T v then try_ (get_T v) cont
      else mret (Done (fail c ErrorCode.InvalidArg msg))
  | None => mret (Done (fail c ErrorCode.InvalidArg msg))
  end.

(* [src/src/control/CommandExecutor.cpp:133-144] CommandExecutor::execute *)
Definition run_measurement (env : Env) (c : Command) : X (Try CommandResult) :=
  match measurement_ env with
  | None =>
      mret (Done (fail c ErrorCode.NotImplemented
        "this speaker has no measurement capability (no microphone configured)"))
  | Some runner =>
      tell [Measure (c_payload c)];;
      try_ (runner (c_payload c)) (fun result =>
        emit_executed c [];;
        mret (Done (ok c result)))
  end.

(* [src/src/control/CommandExecutor.cpp:192-203] CommandExecutor::execute *)
Definition report_link (env : Env) (c : Command) : X (Try CommandResult) :=
  match jfind (c_payload c) "wifi_signal_dbm" with
  | Some v =>
      if is_number_integer v then
        try_ (get_int v) (fun dbm =>
        try_ (value_string (c_payload c) "streamer_id" "") (fun sid =>
          modify (fun s => set_link (report dbm sid (default 0%Z (now_ env)) (link_state_ s)) s);;
          mret (Done (ok c (jobj [("recorded", jbool true); ("wifi_signal_dbm", jint dbm)])))))
      else mret (Done (ok c (jobj [("recorded", jbool false)])))
  | None => mret (Done (ok c (jobj [("recorded", jbool false)])))
  end.

(* [src/src/control/CommandExecutor.cpp:33-206] CommandExecutor::execute *)
Definition execute (env : Env) (c : Command) : X (Try CommandResult) :=
  tell [Execute c];;
  publish (event EventType.CommandReceived "control" [("command", SStr (c_command c))]);;
  match verb_of (c_command c) with
  | Some GET_STATUS => get_status env c
  | Some SET_VOLUME =>
      required c "volume" is_number_integer get_int "SET_VOLUME requires integer 'volume'"
        (fun vol => apply_setting c (with_volume vol) "volume" (SInt vol))
  | Some SET_MUTE =>
      required c "muted" is_boolean get_bool "SET_MUTE requires boolean 'muted'"
        (fun b => apply_setting c (with_muted b) "muted" (SBool b))
  | Some SET_DELAY =>
      required c "delay_ms" is_number_integer get_int "SET_DELAY requires integer 'delay_ms'"
        (fun delay => apply_setting c (with_delay delay) "delay_ms" (SInt delay))
  | Some SET_EQ =>
      try_ (value_string (c_payload c) "eq_profile" "default") (fun profile =>
        apply_setting c (with_eq profile) "eq_profile" (SStr profile))
  | Some RUN_MEASUREMENT => run_measurement env c
  | Some SET_GAIN =>
      required c "gain_db" is_number get_double "SET_GAIN requires numeric 'gain_db'"
        (fun g => let gain := clamp_gain g in
                  apply_setting c (with_gain gain) "gain_db" (SDouble gain))
  | Some SET_PHASE_INVERT =>
      required c "phase_invert" is_boolean get_bool
        "SET_PHASE_INVERT requires boolean 'phase_invert'"
        (fun inv => apply_setting c (with_phase inv) "phase_invert" (SBool inv))
  | Some (START_AUDIO | STOP_AUDIO | PAUSE_AUDIO | RESUME_AUDIO | RUN_CALIBRATION
         | RUN_SELF_TEST | RUN_AUDIO_TEST | UPDATE_SOFTWARE) =>
      emit_executed c [];;
      mret (Done (ok c (jobj [("accepted", jbool true); ("deferred", jbool true)])))
  | Some REBOOT =>
      emit_executed c [];;
      publish (event EventType.ShutdownRequested "control" []);;
      mret (Done (ok c (jobj [("accepted", jbool true)])))
  | Some (RESET_NETWORK | FACTORY_RESET) =>
      emit_executed c [];;
      mret (Done (ok c (jobj [("accepted", jbool true)])))
  | Some REPORT_LINK => report_link env c
  | None => mret (Done (fail c ErrorCode.NotFound ("unknown command: " +:+ c_command c)))
  end.

(** ** Validator and router *)

(* [src/src/control/CommandValidator.cpp:10-41] CommandValidator::validate *)
Definition validate_command (c : Command) (device_id public_key : string) (now : Z) : Status :=
  if String.eqb (c_command_id c) "" then
    error ErrorCode.InvalidArg "command missing command_id"
  else if String.eqb (c_command c) "" then
    error ErrorCode.InvalidArg "command missing command name"
  else if negb (String.eqb (c_target_id c) "") && negb (String.eqb (c_target_id c) device_id) then
    error ErrorCode.PermissionDenied "command target mismatch"
  else if negb (c_expires_at c =? 0)%Z && (c_expires_at c <? now)%Z then
    error ErrorCode.Timeout "command expired"
  else if String.eqb public_key "" then
    error ErrorCode.PermissionDenied "device not paired to a streamer"
  else if String.eqb (c_signature_b64 c) "" then
    error ErrorCode.PermissionDenied "command not signed"
  else if negb (verifyEd25519Base64 (toBase64 (canonicalString c)) (c_signature_b64 c) public_key)
  then error ErrorCode.CryptoError "command signature invalid"
  else success.

(** What a command must satisfy to be accepted. *)
Definition acceptable (c : Command) (device_id public_key : string) (now : Z) : Prop :=
  c_command_id c <> "" /\ c_command c <> "" /\
  (c_target_id c = "" \/ c_target_id c = device_id) /\
  (c_expires_at c = 0%Z \/ (now <= c_expires_at c)%Z) /\
  public_key <> "" /\ c_signature_b64 c <> "" /\
  verifyEd25519Base64 (toBase64 (canonicalString c)) (c_signature_b64 c) public_key = true.

Lemma validate_command_ok c device_id public_key now :
  status_ok (validate_command c device_id public_key now) = true <->
  acceptable c device_id public_key now.
Proof.
  unfold validate_command, acceptable.
  destruct (String.eqb_spec (c_command_id c) ""); [by split; [|intros []]|].
  destruct (String.eqb_spec (c_command c) ""); [by split; [|intros (?&?&?)]|].
  destruct (String.eqb_spec (c_target_id c) ""), (String.eqb_spec (c_target_id c) device_id);
    simpl; try (split; [done|intros (?&?&[]&?); congruence]);
  destruct (Z.eqb_spec (c_expires_at c) 0), (Z.ltb_spec (c_expires_at c) now); simpl;
    try (split; [done|intros (?&?&?&[]&?); lia]);
  (destruct (String.eqb_spec public_key ""); [by split; [|intros (?&?&?&?&?&?)]|]);
  (destruct (String.eqb_spec (c_signature_b64 c) ""); [by split; [|intros (?&?&?&?&?&?&?)]|]);
  destruct (verifyEd25519Base64 _ _ _); simpl;
    (split; [intros ?; split_and!; auto; done|intros (?&?&?&?&?&?&?); done]).
Qed.

(* [src/src/control/CommandRouter.cpp:17-61] CommandRouter::handle *)
Definition handle (env : Env) (now : Z) (raw device_id public_key : string) :
  X (Try CommandResult) :=
  match (j ← parse raw; fromJson j) with
  | Throw what =>
      mret (Done (mk_result "" false ("malformed command json: " +:+ what)
                    (toInt ErrorCode.InvalidArg) (jobj [])))
  | Done c =>
      s ← get;
      match tryGet (c_command_id c) (history_ s) with
      | Some prior => mret (Done prior)
      | None =>
          let v := validate_command c device_id public_key now in
          if negb (status_ok v) then
            mret (Done (mk_result (c_command_id c) false (message v) (toInt (code v)) (jobj [])))
          else
            result ← execute env c;
            match result with
            | Throw w => mret (Throw w)
            | Done r =>
                when (negb (String.eqb (c_command c) "REPORT_LINK"))
                  (modify (fun s => set_history (record (c_command_id c) r (history_ s)) s));;
                mret (Done r)
            end
      end
  end.
(** The server's request handler; [pairing_handler_] is the pairing module's, whose
    exceptions are swallowed. *)
(* [src/src/control/CommandServer.cpp:45-63] CommandServer::handleRaw *)
Definition handleRaw (env : Env) (now : Z) (pairing_handler_ : option (string -> Try string))
    (device_id raw : string) : X (Try string) :=
  s ← get;
  let pairing_reply :=
    match pairing_handler_ with
    | None => None
    | Some handler =>
        match (j ← parse raw; value_string j "type" "") with
        | Done t =>
            if String.eqb t "pairing" then
              match handler raw with Done reply => Some reply | Throw _ => None end
            else None
        | Throw _ => None
        end
    end in
  match pairing_reply with
  | Some reply => mret (Done reply)
  | None =>
      let streamer_key := streamer_public_key (pairing (config_ (config_mgr s))) in
      r ← handle env now raw device_id streamer_key;
      mret (match r with Done r => Done (dump (result_to_json r)) | Throw w => Throw w end)
  end.

(** ** What a request may do *)

Definition executed (es : list XEffect) : list Command :=
  omap (fun e => match e with Execute c => Some c | _ => None end) es.

(** The events published, by the executor and by the configuration manager, in order. *)
Definition events (es : list XEffect) : list (Event Payload) :=
  omap (fun e => match e with
                 | XPublish e => Some e | XConfig (CPublish e) => Some e | _ => None end) es.

Lemma executed_app a b : executed (a ++ b) = executed a ++ executed b.
Proof. apply omap_app. Qed.

Lemma events_app a b : events (a ++ b) = events a ++ events b.
Proof. apply omap_app. Qed.

Lemma executed_config l : executed (XConfig <$> l) = [].
Proof. by induction l. Qed.

Lemma events_config l : events (XConfig <$> l) = published l.
Proof.
  induction l as [|[d|e] l IH]; [done|exact IH|].
  change (e :: events (XConfig <$> l) = e :: published l). by rewrite IH.
Qed.

(** A run that executes no command and leaves the history alone. *)
Definition inner (s : Server) (es : list XEffect) (s' : Server) : Prop :=
  history_ s' = history_ s /\ bus_ s' = bus_ s /\ executed es = [].

#[local] Instance inner_run : RunRel inner.
Proof.
  split; unfold inner; [done|].
  intros s1 e1 s2 e2 s3 (? & ? & E1) (? & ? & E2).
  rewrite executed_app, E1, E2. split_and!; [congruence..|done].
Qed.

Lemma inner_config {A} (f : SW ConfigManager CEffect A) : respects inner (on_config f).
Proof. intros s. split_and!; [done|done|]. apply executed_config. Qed.

Lemma inner_publish e : respects inner (publish e).
Proof.
  apply respects_bind; [exact _|apply respects_get; exact _|]. intros s.
  apply respects_when; [exact _|]. by apply respects_tell.
Qed.

Lemma inner_try {A B} (m : Try A) (k : A -> X (Try B)) :
  (forall a, respects inner (k a)) -> respects inner (try_ m k).
Proof. intros Hk. destruct m; [apply Hk|apply respects_ret; exact _]. Qed.

Lemma inner_ret {A} (a : A) : respects inner (mret a : X A).
Proof. apply respects_ret. exact _. Qed.

Lemma inner_bind {A B} (m : X A) (k : A -> X B) :
  respects inner m -> (forall a, respects inner (k a)) -> respects inner (mbind k m).
Proof. intros. by apply respects_bind; [exact _| |]. Qed.

Create HintDb inner.
#[local] Hint Resolve inner_config inner_publish inner_try inner_ret inner_bind : inner.

Lemma inner_emit c extra : respects inner (emit_executed c extra).
Proof. apply inner_publish. Qed.
#[local] Hint Resolve inner_emit : inner.

Lemma inner_setting c f k v : respects inner (apply_setting c f k v).
Proof.
  apply inner_bind; [auto with inner|]. intros s.
  destruct (negb (status_ok s)); auto with inner.
Qed.
#[local] Hint Resolve inner_setting : inner.

Lemma inner_required {A} c k is_T (get_T : json -> Try A) msg cont :
  (forall a, respects inner (cont a)) -> respects inner (required c k is_T get_T msg cont).
Proof.
  intros Hk. unfold required. destruct (jfind (c_payload c) k) as [v|]; [|auto with inner].
  destruct (is_T v); auto with inner.
Qed.
#[local] Hint Resolve inner_required : inner.

Lemma inner_report env c : respects inner (report_link env c).
Proof.
  unfold report_link. destruct (jfind _ _) as [v|]; [|auto with inner].
  destruct (is_number_integer v); [|auto with inner].
  apply inner_try. intros dbm. apply inner_try. intros sid.
  apply inner_bind; [|auto with inner]. apply respects_modify. by intros.
Qed.

Lemma inner_measure env c : respects inner (run_measurement env c).
Proof.
  unfold run_measurement. destruct (measurement_ env) as [runner|]; [|auto with inner].
  apply inner_bind; [by apply respects_tell|auto 6 with inner].
Qed.

Lemma inner_status env c : respects inner (get_status env c).
Proof. apply inner_bind; [apply respects_get; exact _|auto with inner]. Qed.
#[local] Hint Resolve inner_report inner_measure inner_status : inner.

(** [execute] runs exactly the command it is given and never touches the history. *)
Lemma execute_inner env c s :
  history_ (state_after (execute env c) s) = history_ s /\
  bus_ (state_after (execute env c) s) = bus_ s /\
  executed (effects_of (execute env c) s) = [c].
Proof.
  unfold execute. rewrite state_after_bind, effects_of_bind, executed_app.
  cut (forall (k : X (Try CommandResult)), respects inner k ->
    history_ (state_after k s) = history_ s /\ bus_ (state_after k s) = bus_ s /\
    executed [Execute c] ++ executed (effects_of k s) = [c]).
  - intros Hcut. apply Hcut. apply inner_bind; [auto with inner|]. intros _.
    destruct (verb_of (c_command c)) as [[]|]; auto 6 with inner.
  - intros k Hk. destruct (Hk s) as (H1 & H2 & H3). by rewrite H3.
Qed.
(** ** Requests *)

Definition decode (raw : string) : Try Command := j ← parse raw; fromJson j.

(** The history after a command has been executed with an outcome. *)
Definition remember (c : Command) (v : Try CommandResult) (s : Server) : Server :=
  match v with
  | Done r =>
      if String.eqb (c_command c) "REPORT_LINK" then s
      else set_history (record (c_command_id c) r (history_ s)) s
  | Throw _ => s
  end.

(** Whether a request gets through to the executor. *)
Definition accepted (now : Z) (raw device_id public_key : string) (s : Server) : option Command :=
  match decode raw with
  | Throw _ => None
  | Done c =>
      if seen (c_command_id c) (history_ s) then None
      else if status_ok (validate_command c device_id public_key now) then Some c else None
  end.

Lemma handle_accepted env now raw device_id public_key s c :
  accepted now raw device_id public_key s = Some c ->
  let m := execute env c in
  handle env now raw device_id public_key s =
    (value_of m s, remember c (value_of m s) (state_after m s), effects_of m s).
Proof.
  unfold accepted, handle, decode. destruct (j ← parse raw; fromJson j) as [c'|]; [|done].
  unfold seen, tryGet, mbind, SW_bind, get, value_of, state_after, effects_of.
  destruct (results_ (history_ s) !! c_command_id c') eqn:E; [done|].
  destruct (status_ok (validate_command c' device_id public_key now)); [|done].
  intros [= ->]. simpl. rewrite ?E. destruct (execute env c s) as [[[r|w] s1] es]; simpl.
  - destruct (String.eqb (c_command c) "REPORT_LINK"); simpl; by rewrite ?app_nil_r.
  - by rewrite app_nil_r.
Qed.

Lemma handle_refused env now raw device_id public_key s :
  accepted now raw device_id public_key s = None ->
  exists r, handle env now raw device_id public_key s = (Done r, s, []).
Proof.
  unfold accepted, handle, decode. destruct (j ← parse raw; fromJson j) as [c'|]; [|by eauto].
  unfold seen, tryGet, mbind, SW_bind, get.
  destruct (results_ (history_ s) !! c_command_id c') eqn:E; simpl; rewrite ?E; [by eauto|].
  destruct (status_ok (validate_command c' device_id public_key now)); [done|by eauto].
Qed.

(** A command already in the history is answered from it. *)
Lemma handle_duplicate env now raw device_id public_key s c r :
  decode raw = Done c -> tryGet (c_command_id c) (history_ s) = Some r ->
  handle env now raw device_id public_key s = (Done r, s, []).
Proof.
  unfold handle, decode, mbind, SW_bind, get. intros Hc Hr. unfold mbind in Hc. rewrite Hc.
  by rewrite Hr.
Qed.

(** A request, with what it finds: the environment, the clock, the identity and the key
    of the paired streamer at that moment. *)
Record Request := mk_request
  { q_env : Env; q_now : Z; q_raw : string; q_device : string; q_key : string }.

Definition serve (q : Request) : X (Try CommandResult) :=
  handle (q_env q) (q_now q) (q_raw q) (q_device q) (q_key q).

Fixpoint serve_all (l : list Request) : X unit :=
  match l with [] => mret () | q :: l => serve q;; serve_all l end.

Lemma serve_history q s :
  history_ok (history_ s) ->
  history_ok (history_ (state_after (serve q) s)) /\
  forall id n, retained id (S n) (history_ s) ->
    retained id n (history_ (state_after (serve q) s)) /\
    tryGet id (history_ (state_after (serve q) s)) = tryGet id (history_ s) /\
    id ∉ c_command_id <$> executed (effects_of (serve q) s).
Proof.
  intros Hh. unfold serve, state_after, effects_of.
  destruct (accepted (q_now q) (q_raw q) (q_device q) (q_key q) s) as [c|] eqn:Ha.
  - rewrite (handle_accepted _ _ _ _ _ _ _ Ha). simpl.
    destruct (execute_inner (q_env q) c s) as (Hs & _ & He). rewrite He. simpl.
    assert (seen (c_command_id c) (history_ s) = false) as Hnew.
    { unfold accepted in Ha. destruct (decode (q_raw q)) as [c'|]; [|done].
      destruct (seen (c_command_id c') (history_ s)) eqn:E; [done|].
      destruct (status_ok _); [|done]. by injection Ha as ->. }
    assert (forall id n, retained id (S n) (history_ s) -> c_command_id c <> id) as Hne.
    { intros id n (pre & post & Ho & _) Heq. destruct Hh as [_ Hk _ _].
      assert (is_Some (results_ (history_ s) !! id)) as Hid by (apply Hk; rewrite Ho, elem_of_app, elem_of_cons; auto).
      apply seen_true in Hid. congruence. }
    destruct (value_of (execute (q_env q) c) s) as [r|w]; simpl;
      [destruct (String.eqb (c_command c) "REPORT_LINK"); simpl|]; rewrite Hs.
    + split; [done|]. intros id n Hid. split_and!; [by eapply retained_weaken; [|exact Hid]; lia|done|].
      rewrite list_elem_of_singleton. by apply not_eq_sym, (Hne id n).
    + split; [by apply record_ok|]. intros id n Hid.
      destruct (retained_record id n (c_command_id c) r (history_ s)) as [H1 H2]; [done|by eauto|done|].
      split_and!; [done|done|]. rewrite list_elem_of_singleton. by apply not_eq_sym, (Hne id n).
    + split; [done|]. intros id n Hid. split_and!; [by eapply retained_weaken; [|exact Hid]; lia|done|].
      rewrite list_elem_of_singleton. by apply not_eq_sym, (Hne id n).
  - destruct (handle_refused (q_env q) _ _ _ _ _ Ha) as [r ->]. simpl. split; [done|].
    intros id n Hid. split_and!; [by eapply retained_weaken; [|exact Hid]; lia|done|set_solver].
Qed.

Lemma serve_all_history l s :
  history_ok (history_ s) ->
  history_ok (history_ (state_after (serve_all l) s)) /\
  forall id n, retained id (length l + n) (history_ s) ->
    tryGet id (history_ (state_after (serve_all l) s)) = tryGet id (history_ s) /\
    id ∉ c_command_id <$> executed (effects_of (serve_all l) s).
Proof.
  revert s. induction l as [|q l IH]; intros s Hh; simpl.
  - split; [done|]. intros. split; [done|set_solver].
  - rewrite state_after_bind, effects_of_bind, executed_app, fmap_app.
    destruct (serve_history q s Hh) as [Hh' Hq]. destruct (IH _ Hh') as [Hl Hr].
    split; [done|]. intros id n Hid. destruct (Hq id _ Hid) as (H1 & H2 & H3).
    destruct (Hr id n H1) as [H4 H5]. split; [by rewrite H4|].
    rewrite elem_of_app. by intros [?|?].
Qed.
(** ** Settings *)

(** The field of a payload with a type check, as the setters read it. *)
Definition field {A} (c : Command) (k : string) (is_T : json -> bool) (get_T : json -> Try A) :
  option A :=
  v ← jfind (c_payload c) k;
  if is_T v then match get_T v with Done a => Some a | Throw _ => None end else None.

(** What a setting command asks for: the change of the audio section, and the key and
    value it reports. *)
Definition setting (c : Command) : option ((AudioConfig -> AudioConfig) * string * Scalar) :=
  match verb_of (c_command c) with
  | Some SET_VOLUME =>
      v ← field c "volume" is_number_integer get_int; Some (with_volume v, "volume"%string, SInt v)
  | Some SET_MUTE =>
      b ← field c "muted" is_boolean get_bool; Some (with_muted b, "muted"%string, SBool b)
  | Some SET_DELAY =>
      d ← field c "delay_ms" is_number_integer get_int;
      Some (with_delay d, "delay_ms"%string, SInt d)
  | Some SET_EQ =>
      match value_string (c_payload c) "eq_profile" "default" with
      | Done e => Some (with_eq e, "eq_profile"%string, SStr e)
      | Throw _ => None
      end
  | Some SET_GAIN =>
      g ← field c "gain_db" is_number get_double;
      Some (with_gain (clamp_gain g), "gain_db"%string, SDouble (clamp_gain g))
  | Some SET_PHASE_INVERT =>
      b ← field c "phase_invert" is_boolean get_bool;
      Some (with_phase b, "phase_invert"%string, SBool b)
  | _ => None
  end.

Definition received (c : Command) : Event Payload :=
  event EventType.CommandReceived "control" [("command", SStr (c_command c))].

Lemma required_field {A} c k is_T (get_T : json -> Try A) msg cont a :
  field c k is_T get_T = Some a -> required c k is_T get_T msg cont = cont a.
Proof.
  unfold field, required. destruct (jfind (c_payload c) k) as [v|]; simpl; [|done].
  destruct (is_T v); [|done]. destruct (get_T v); [|done]. by intros [= ->].
Qed.

(** A setting command runs [apply_setting] after its announcement. *)
Lemma execute_setting env c f k v :
  setting c = Some (f, k, v) ->
  execute env c = (tell [Execute c];; publish (received c);; apply_setting c f k v).
Proof.
  unfold setting, execute. intros Hs.
  destruct (verb_of (c_command c)) as [[]|]; try done;
  try (match type of Hs with
       | (mbind _ (field ?c ?k ?is_T ?get_T)) = _ =>
           destruct (field c k is_T get_T) as [a|] eqn:E; simplify_eq/=;
           by rewrite (required_field _ _ _ _ _ _ _ E)
       end).
  destruct (value_string _ _ _); simplify_eq/=. done.
Qed.

Lemma publish_run e s :
  publish e s = ((), s, if bus_ s then [XPublish e] else []).
Proof. unfold publish, mbind, SW_bind, get. by destruct (bus_ s). Qed.

(** The run of [apply_setting], from the run of the configuration manager. *)
Lemma apply_setting_run c f k v s :
  let u := update (with_audio f) (config_mgr s) in
  apply_setting c f k v s =
    (if status_ok u.1.1 then
       (Done (ok c (jobj [(k, of_scalar v)])), set_mgr u.1.2 s,
        (XConfig <$> u.2) ++
        if bus_ s then [XPublish (mk_event EventType.CommandExecuted "control" (c_command_id c)
                                    (set_key k v [("command", SStr (c_command c))]))] else [])
     else (Done (fail c (code u.1.1) (message u.1.1)), set_mgr u.1.2 s, XConfig <$> u.2)).
Proof.
  intros u. unfold apply_setting, emit_executed, mbind, SW_bind, on_config.
  unfold value_of, state_after, effects_of. fold u.
  destruct (status_ok u.1.1); simpl; [|by rewrite app_nil_r].
  rewrite publish_run. simpl. by rewrite app_nil_r.
Qed.
(** ** Escaping exceptions *)

Definition throws {A} (m : Try A) : Prop := exists w, m = Throw w.

(** The commands whose execution lets an exception of the JSON library or of the
    measurement escape. *)
Definition may_throw (env : Env) (c : Command) : Prop :=
  match verb_of (c_command c) with
  | Some SET_EQ => throws (value_string (c_payload c) "eq_profile" "default")
  | Some REPORT_LINK =>
      (exists dbm, field c "wifi_signal_dbm" is_number_integer get_int = Some dbm) /\
      throws (value_string (c_payload c) "streamer_id" "")
  | Some RUN_MEASUREMENT =>
      exists runner, measurement_ env = Some runner /\ throws (runner (c_payload c))
  | _ => False
  end.

Lemma value_try {A B} (m : Try A) (k : A -> X (Try B)) s :
  (forall a, m = Done a -> ~ throws (value_of (k a) s)) ->
  (throws (value_of (try_ m k) s) <-> throws m).
Proof.
  intros Hk. destruct m as [a|w]; simpl.
  - split; [by intros ?%(Hk a)|by intros [? ?]].
  - unfold throws. split; intros _; by eexists.
Qed.

Lemma done_no_throw {A} (a : A) s : ~ throws (value_of (mret (Done a) : X (Try A)) s).
Proof. by intros [w ?]. Qed.

Lemma bind_no_throw {A B} (m : X A) (k : A -> X (Try B)) s :
  (forall a s, ~ throws (value_of (k a) s)) -> ~ throws (value_of (mbind k m) s).
Proof. intros Hk. rewrite value_of_bind. apply Hk. Qed.

Lemma setting_no_throw c f k v s : ~ throws (value_of (apply_setting c f k v) s).
Proof.
  unfold value_of. rewrite apply_setting_run. cbv zeta.
  destruct (status_ok _); simpl; by intros [w ?].
Qed.

Lemma required_no_throw {A} c k is_T (get_T : json -> Try A) msg cont s :
  (forall j, is_T j = true -> exists a, get_T j = Done a) ->
  (forall a, ~ throws (value_of (cont a) s)) ->
  ~ throws (value_of (required c k is_T get_T msg cont) s).
Proof.
  intros Ht Hk. unfold required. destruct (jfind _ _) as [v|]; [|apply done_no_throw].
  destruct (is_T v) eqn:E; [|apply done_no_throw]. destruct (Ht v E) as [a ->]. apply Hk.
Qed.
(** Every result the executor gives carries the id of its command and a code of the
    enumeration. *)
Definition answers (c : Command) (m : X (Try CommandResult)) : Prop :=
  forall s r, value_of m s = Done r ->
    r_command_id r = c_command_id c /\ in_signed 32 (r_error_code r).

Lemma answers_ok c data : answers c (mret (Done (ok c data))).
Proof. intros s r [= <-]. by split. Qed.

Lemma answers_fail c code msg : answers c (mret (Done (fail c code msg))).
Proof. intros s r [= <-]. split; [done|]. simpl. by destruct code. Qed.

Lemma answers_throw c w : answers c (mret (Throw w)).
Proof. by intros s r ?. Qed.

Lemma answers_bind {A} c (m : X A) k : (forall a, answers c (k a)) -> answers c (mbind k m).
Proof. intros Hk s r. rewrite value_of_bind. apply Hk. Qed.

Lemma answers_try {A} c (m : Try A) k : (forall a, answers c (k a)) -> answers c (try_ m k).
Proof. intros Hk. destruct m; [apply Hk|apply answers_throw]. Qed.

Create HintDb answers.
#[local] Hint Resolve answers_ok answers_fail answers_bind answers_try : answers.

Lemma answers_setting c f k v : answers c (apply_setting c f k v).
Proof. apply answers_bind. intros s. destruct (negb (status_ok s)); auto with answers. Qed.
#[local] Hint Resolve answers_setting : answers.

Lemma answers_required {A} c k is_T (get_T : json -> Try A) msg cont :
  (forall a, answers c (cont a)) -> answers c (required c k is_T get_T msg cont).
Proof.
  intros Hk. unfold required. destruct (jfind _ _) as [v|]; [|auto with answers].
  destruct (is_T v); auto with answers.
Qed.
#[local] Hint Resolve answers_required : answers.

Lemma execute_answers env c : answers c (execute env c).
Proof.
  apply answers_bind. intros _. apply answers_bind. intros _.
  destruct (verb_of (c_command c)) as [[]|]; auto 6 with answers.
  - apply answers_bind. auto with answers.
  - unfold run_measurement. destruct (measurement_ env); auto 6 with answers.
  - unfold report_link. destruct (jfind _ _) as [v|]; [|auto with answers].
    destruct (is_number_integer v); auto 8 with answers.
Qed.
End Executor.

(** ** Gain *)

Lemma SFcompare_antisym x y c :
  SFcompare x y = Some c -> SFcompare y x = Some (CompOpp c).
Proof.
  destruct x as [[]|[]| |[] mx ex], y as [[]|[]| |[] my ey]; simpl; try done;
    try (by intros [= <-]);
    rewrite ?(Z.compare_antisym ex ey), ?(Pos.compare_cont_antisym mx my);
    destruct (Z.compare ex ey); simpl; intros [= <-]; try done;
    by rewrite (Pos.compare_cont_antisym mx my).
Qed.

Lemma SFcompare_total x y : x <> S754_nan -> y <> S754_nan -> exists c, SFcompare x y = Some c.
Proof.
  intros Hx Hy. destruct x as [[]|[]| |[] mx ex], y as [[]|[]| |[] my ey]; simpl; try done; eauto;
    destruct (Z.compare ex ey); eauto.
Qed.

(** Not less is greater or equal. *)
Lemma SFltb_false x y :
  x <> S754_nan -> y <> S754_nan -> SFltb x y = false -> SFleb y x = true.
Proof.
  intros Hx Hy. unfold SFltb, SFleb. destruct (SFcompare_total x y Hx Hy) as [c Hc].
  rewrite Hc, (SFcompare_antisym _ _ _ Hc). by destruct c.
Qed.

Lemma SFleb_true x y : SFleb x y = true -> SFltb y x = false.
Proof.
  unfold SFltb, SFleb. destruct (SFcompare x y) as [c|] eqn:Hc; [|done].
  rewrite (SFcompare_antisym _ _ _ Hc). by destruct c.
Qed.

(** ** Properties *)

(** C11: Only authentic commands run.  A request makes the executor run at most one
    command; that command was parsed from the request, has not run before as far as the
    history knows, addresses this speaker, has not expired, and carries a signature that
    verifies under the paired streamer's key; a request that runs no command changes
    nothing and publishes nothing. *)
Theorem router_runs_only_authentic (J : JsonLib) (F : FileSystem) (AW : AtomicWriter F)
    (Cr : Crypto) env now raw device_id public_key s :
  let es := effects_of (handle env now raw device_id public_key) s in
  match executed es with
  | [] => es = [] /\ state_after (handle env now raw device_id public_key) s = s
  | [c] => decode raw = Done c /\ seen (c_command_id c) (history_ s) = false /\
           acceptable c device_id public_key now
  | _ => False
  end.
Proof.
  cbv zeta. unfold state_after, effects_of.
  destruct (accepted now raw device_id public_key s) as [c|] eqn:Ha.
  - rewrite (handle_accepted _ _ _ _ _ _ _ Ha). simpl.
    destruct (execute_inner env c s) as (_ & _ & ->). revert Ha. unfold accepted.
    destruct (decode raw) as [c'|]; [|done]. destruct (seen _ _) eqn:Es; [done|].
    destruct (status_ok _) eqn:Ev; [|done]. intros [= ->].
    split; [done|]. split; [done|]. by apply validate_command_ok.
  - by destruct (handle_refused env _ _ _ _ _ Ha) as [r ->].
Qed.

(** C12: At most once, with the same answer.  After a command other than REPORT_LINK has
    run and answered [r], no sequence of fewer requests than the history's capacity, from
    whatever sender and in whatever environment, runs a command with that id again, and
    a retry of the id is answered with [r], without running anything or changing any
    state. *)
Theorem command_runs_at_most_once (J : JsonLib) (F : FileSystem) (AW : AtomicWriter F)
    (Cr : Crypto) env now raw device_id public_key s c r l q c' :
  history_ok (history_ s) ->
  accepted now raw device_id public_key s = Some c ->
  c_command c <> "REPORT_LINK" ->
  value_of (handle env now raw device_id public_key) s = Done r ->
  length l < capacity_ (history_ s) ->
  decode (q_raw q) = Done c' -> c_command_id c' = c_command_id c ->
  let s1 := state_after (handle env now raw device_id public_key) s in
  let s2 := state_after (serve_all l) s1 in
  (c_command_id c ∉ (c_command_id <$> executed (effects_of (serve_all l) s1))) /\
  serve q s2 = (Done r, s2, []).
Proof.
  intros Hh Ha Hc Hv Hl Hq Hid s1 s2. set (id := c_command_id c).
  assert (history_ s1 = record id r (history_ s)) as Hs1.
  { unfold s1, state_after, value_of in *. rewrite (handle_accepted _ _ _ _ _ _ _ Ha) in *.
    simpl in *. rewrite Hv. simpl. destruct (String.eqb_spec (c_command c) "REPORT_LINK"); [done|].
    simpl. by destruct (execute_inner env c s) as (-> & _ & _). }
  assert (seen id (history_ s) = false) as Hnew.
  { revert Ha. unfold accepted. destruct (decode raw) as [c1|]; [|done].
    destruct (seen (c_command_id c1) (history_ s)) eqn:E; [done|].
    destruct (status_ok _); [|done]. by intros [= ->]. }
  pose proof (record_retained id r _ Hh Hnew) as Hret.
  destruct (serve_all_history l s1) as [_ Hall]; [rewrite Hs1; by apply record_ok|].
  destruct (Hall id 0) as [Ht He].
  { rewrite Hs1. eapply retained_weaken; [|exact Hret]. lia. }
  split; [exact He|]. eapply handle_duplicate; [exact Hq|].
  rewrite Hid. fold id. unfold s2. rewrite Ht, Hs1. apply tryGet_record.
Qed.

(** C13: Settings take effect exactly when they are acknowledged.  For a well-formed
    SET_VOLUME, SET_MUTE, SET_DELAY, SET_EQ, SET_GAIN or SET_PHASE_INVERT the reply is
    positive only when the requested configuration is valid, held in memory and written
    to the file, and then ConfigChanged and CommandExecuted with the reported value are
    published in that order; a negative reply leaves memory and file as they were and
    publishes only the announcement. *)
Theorem settings_applied_iff_acknowledged (J : JsonLib) (F : FileSystem) (FL : FileSystemLaws F)
    (AW : AtomicWriter F) (Cr : Crypto) env c f k v s :
  setting c = Some (f, k, v) ->
  let m := config_mgr s in
  let m' := config_mgr (state_after (execute env c) s) in
  let es := effects_of (execute env c) s in
  let cand := with_audio f (config_ m) in
  exists r, value_of (execute env c) s = Done r /\ r_command_id r = c_command_id c /\
    (is_valid cand = false -> r_ok r = false) /\
    if r_ok r then
      config_ m' = cand /\
      visible (disk m') (path_ m) = Some (dump_indented (to_json cand)) /\
      r_data r = jobj [(k, of_scalar v)] /\
      (bus_ s = true -> has_bus m = true ->
       events es =
         [received c; event EventType.ConfigChanged "config" [];
          mk_event EventType.CommandExecuted "control" (c_command_id c)
            (set_key k v [("command", SStr (c_command c))])])
    else
      config_ m' = config_ m /\ same_file (path_ m) (disk m) (disk m') /\
      (bus_ s = true -> events es = [received c]).
Proof.
  intros Hset. cbv zeta. rewrite (execute_setting _ _ _ _ _ Hset).
  unfold value_of, state_after, effects_of, mbind, SW_bind, tell. rewrite publish_run.
  rewrite apply_setting_run. cbv zeta. set (m := config_mgr s).
  destruct (is_valid (with_audio f (config_ m))) eqn:Hv.
  - destruct (update_run (with_audio f) m Hv)
      as (w & m1 & es & [(Hp & _ & Hc & _) Hsil Hok Herr _ _ _] & ->).
    destruct (status_ok w) eqn:Hw; cbn [fst snd]; rewrite ?status_ok_success, ?Hw; simpl;
      eexists; (split; [done|]); (split; [done|]); (split; [done|]); simpl.
    + split_and!; [done|by apply Hok|done|]. intros Hb Hb'. fold m. rewrite Hb, Hb'. simpl.
      unfold received. rewrite fmap_app, !events_app, events_config, Hsil. done.
    + split_and!; [done|by apply Herr|]. intros Hb. rewrite Hb. simpl.
      by rewrite events_config, Hsil.
  - rewrite update_rejected by done. simpl. unfold is_valid in Hv. rewrite Hv. simpl.
    eexists. split_and!; [done..|]. split_and!; [done|apply same_file_refl|].
    intros Hb. by rewrite Hb.
Qed.

(** The gain a speaker applies is within 20 dB of unity for every number that a
    SET_GAIN can carry, and a gain in that range is applied as it is. *)
Theorem clamp_gain_range x :
  x <> S754_nan ->
  (SFleb (double_of_Z (-20)) (clamp_gain x) = true /\
   SFleb (clamp_gain x) (double_of_Z 20) = true) /\
  (SFleb (double_of_Z (-20)) x = true -> SFleb x (double_of_Z 20) = true -> clamp_gain x = x).
Proof.
  intros Hx. unfold clamp_gain. split.
  - destruct (SFltb (double_of_Z 20) x) eqn:E; [split; vm_compute; reflexivity|].
    destruct (SFltb x (double_of_Z (-20))) eqn:E'; [split; vm_compute; reflexivity|].
    split; by apply SFltb_false.
  - intros Hlo Hhi. apply SFleb_true in Hlo, Hhi. by rewrite Hhi, Hlo.
Qed.

(** The commands that can take the server down.  An exception escapes the executor
    exactly for a SET_EQ whose [eq_profile] is not a string, a REPORT_LINK whose
    [streamer_id] is not a string, and a measurement that throws; every other command
    returns a result. *)
Theorem executor_throws_iff (J : JsonLib) (L : JsonLaws J) (F : FileSystem)
    (AW : AtomicWriter F) (Cr : Crypto) env c s :
  throws (value_of (execute env c) s) <-> may_throw env c.
Proof.
  unfold execute, may_throw. rewrite value_of_bind, value_of_bind.
  set (s1 := state_after (publish _) _). generalize s1. clear s1. intros s1.
  assert (forall P : Prop, ~ P -> (P <-> False)) as Hno by tauto.
  destruct (verb_of (c_command c)) as [[]|]; try (apply Hno, done_no_throw);
    try (apply Hno; apply required_no_throw;
         [intros j Hj; eauto using get_int_total, get_bool_total, get_double_total
         |intros; apply setting_no_throw]);
    try (apply Hno, bind_no_throw; intros; apply done_no_throw).
  - apply value_try. intros e _. apply setting_no_throw.
  - unfold run_measurement. destruct (measurement_ env) as [runner|].
    + rewrite value_of_bind, value_try; [|intros; apply bind_no_throw; intros; apply done_no_throw].
      split; [eauto|]. intros (r' & Hr & Ht). by simplify_eq.
    + split; [by intros ?%done_no_throw|by intros (? & ? & _)].
  - apply Hno, bind_no_throw. intros. apply bind_no_throw. intros. apply done_no_throw.
  - unfold report_link, field. destruct (jfind _ _) as [j|]; simpl.
    + destruct (is_number_integer j) eqn:E; simpl.
      * destruct (get_int_total j E) as [z Hz]. rewrite Hz. simpl.
        rewrite value_try; [|intros; apply bind_no_throw; intros; apply done_no_throw].
        split; [eauto|by intros [_ ?]].
      * split; [by intros ?%done_no_throw|by intros [[? ?] _]].
    + split; [by intros ?%done_no_throw|by intros [[? ?] _]].
Qed.

(** ** Witnesses *)

(** A signature scheme for the witnesses: the signature names the key and the message. *)
#[global] Instance demo_crypto : Crypto := {|
  toBase64 m := m;
  verifyEd25519Base64 m sig key := String.eqb sig ("sig:" +:+ key +:+ ":" +:+ m);
  signEd25519Base64 m key := Value ("sig:" +:+ key +:+ ":" +:+ m);
  public_key_of key := key
|}.

#[global] Instance demo_crypto_laws : CryptoLaws demo_crypto.
Proof.
  split. intros msg key sig [= <-]. split; [done|]. simpl. by apply String.eqb_refl.
Qed.

Section Witnesses.
#[local] Existing Instance mdisk_laws.
#[local] Existing Instance posix_writer.

Definition demo_command (id verb : string) (payload : json) : Command :=
  let c := mk_command id "SPK-1" verb payload 2000 1000 "" in
  mk_command id "SPK-1" verb payload 2000 1000 ("sig:key:" +:+ canonicalString c).

Definition demo_env : Env := mk_env (Some 1500%Z) None None.

Definition demo_server : Server :=
  mk_server demo_manager (new_history 200) new_link true.

Definition demo_request (c : Command) : Request :=
  mk_request demo_env 1500 (dump (toJson c)) "SPK-1" "key".

Definition volume_command : Command :=
  demo_command "cmd-1" "SET_VOLUME" (jobj [("volume", jint 45)]).

Lemma command_runs_at_most_once_witness :
  let s1 := state_after (serve (demo_request volume_command)) demo_server in
  let other := demo_request (demo_command "cmd-2" "SET_VOLUME" (jobj [("volume", jint 60)])) in
  let s2 := state_after (serve_all [other; other]) s1 in
  volume (audio (config_ (config_mgr s2))) = 60%Z /\
  serve (demo_request volume_command) s2 =
    (Done (mk_result "cmd-1" true "ok" 0 (jobj [("volume", jint 45)])), s2, []).
Proof.
  cbv zeta. split; [vm_compute; reflexivity|].
  apply (command_runs_at_most_once jvalue_lib mdisk_system posix_writer demo_crypto demo_env 1500
           (dump (toJson volume_command)) "SPK-1" "key" demo_server volume_command
           (mk_result "cmd-1" true "ok" 0 (jobj [("volume", jint 45)]))
           [demo_request (demo_command "cmd-2" "SET_VOLUME" (jobj [("volume", jint 60)]));
            demo_request (demo_command "cmd-2" "SET_VOLUME" (jobj [("volume", jint 60)]))]
           (demo_request volume_command) volume_command).
  - apply new_history_ok. lia.
  - by_decision.
  - by intros [=].
  - by_decision.
  - apply Nat.ltb_lt. reflexivity.
  - by_decision.
  - reflexivity.
Defined.

Lemma settings_applied_iff_acknowledged_witness :
  let s1 := state_after (execute demo_env volume_command) demo_server in
  volume (audio (config_ (config_mgr s1))) = 45%Z /\
  exists r, value_of (execute demo_env volume_command) demo_server = Done r /\ r_ok r = true.
Proof.
  cbv zeta.
  destruct (settings_applied_iff_acknowledged jvalue_lib mdisk_system mdisk_laws posix_writer
              demo_crypto demo_env volume_command (with_volume 45) "volume" (SInt 45) demo_server)
    as (r & Hr & _ & _ & Hok); [vm_compute; reflexivity|].
  assert (r_ok r = true) as Ht.
  { assert (Hv : value_of (execute demo_env volume_command) demo_server =
                 Done (mk_result "cmd-1" true "ok" 0 (jobj [("volume", jint 45)])))
      by by_decision.
    rewrite Hv in Hr. by injection Hr as <-. }
  rewrite Ht in Hok. destruct Hok as [Hc _]. rewrite Hc. split; [reflexivity|eauto].
Defined.

Lemma clamp_gain_range_witness :
  clamp_gain (double_of_Z 500) = double_of_Z 20 /\
  SFleb (clamp_gain (double_of_Z 500)) (double_of_Z 20) = true.
Proof.
  split; [vm_compute; reflexivity|].
  apply (clamp_gain_range (double_of_Z 500)). vm_compute. discriminate.
Defined.

(** A signed SET_EQ with a number for its profile name. *)
Lemma executor_throws_iff_witness :
  throws (value_of (execute demo_env (demo_command "cmd-3" "SET_EQ" (jobj [("eq_profile", jint 5)])))
            demo_server).
Proof.
  apply (executor_throws_iff jvalue_lib jvalue_laws mdisk_system posix_writer demo_crypto).
  exists "type must be string"%string. vm_compute. reflexivity.
Defined.
End Witnesses.
