(* ===== verification/Updater.v ===== *)
(** * Updater: signed updates with rollback

    Models [src/src/updater]: the package and its canonical text, the signature
    check and [UpdateManager::runUpdate].  The download, SHA-256 and the health check
    are arguments; the files are those of [Storage]. *)

From stdpp Require Import pretty.
From S2P Require Import Prelude Core Json Files Storage Config Control.

(** ** Packages *)

(* [src/src/updater/UpdatePackage.h:12-23] UpdateManifest *)
Record UpdateManifest := mk_manifest
  { version : string; min_hardware_version : string; payload_sha256 : string; size_bytes : Z }.

(* [src/src/updater/UpdatePackage.h:19-22] UpdateManifest::canonicalString *)
Definition manifest_text (m : UpdateManifest) : string :=
  version m +:+ newline +:+ min_hardware_version m +:+ newline +:+ payload_sha256 m +:+
  newline +:+ pretty (size_bytes m).

(* [src/src/updater/UpdatePackage.h:25-29] UpdatePackage *)
Record UpdatePackage := mk_package
  { manifest : UpdateManifest; payload : string; signature_b64 : string }.

(** [std::string]'s order: lexicographic on unsigned bytes. *)
Fixpoint string_lt (a b : string) : bool :=
  match a, b with
  | _, EmptyString => false
  | EmptyString, String _ _ => true
  | String x a, String y b =>
      let x := Ascii.nat_of_ascii x in
      let y := Ascii.nat_of_ascii y in
      (x <? y)%nat || ((x =? y)%nat && string_lt a b)
  end.

Section Updater.
Context {F : FileSystem} {Cr : Crypto}.
(** [crypto::sha256Hex]. *)
Variable sha256Hex : string -> string.

(* [src/src/updater/SignatureValidator.cpp:10-27] SignatureValidator::verify *)
Definition verify (vendor_key_ : string) (p : UpdatePackage) : Status :=
  if String.eqb vendor_key_ "" then
    error ErrorCode.PermissionDenied "no vendor key configured"
  else if negb (String.eqb (sha256Hex (payload p)) (payload_sha256 (manifest p))) then
    error ErrorCode.Corrupt "payload hash mismatch"
  else if negb (verifyEd25519Base64 (toBase64 (manifest_text (manifest p))) (signature_b64 p)
                  vendor_key_) then
    error ErrorCode.CryptoError "manifest signature invalid"
  else success.

(** What the update needs from outside: what the source answers, and the health check
    after the restart. *)
(* [src/src/updater/UpdateManager.h:24-56] UpdateManager *)
Record UpdateManager := mk_update_manager
  { vendor_key : string; target : string; fetch : string -> Result UpdatePackage;
    health_check_ : option (Disk -> bool); updates_allowed_ : bool; u_bus : bool }.

Inductive UEffect :=
| UPoint (d : Disk)
| UPublish (e : Event Payload).

Abbreviation U := (SW Disk UEffect).

Definition on_files {A} (f : SW Disk Disk A) : U A := fun d =>
  (value_of f d, state_after f d, UPoint <$> effects_of f d).

Definition u_publish (m : UpdateManager) (t : EventType) (p : Payload) : U unit :=
  when (u_bus m) (tell [UPublish (event t "updater" p)]).

(* [src/src/updater/UpdateManager.cpp:41-45] fail *)
Definition u_fail (m : UpdateManager) (s : Status) : U Status :=
  u_publish m EventType.UpdateFailed [("error", SStr (message s))];; mret s.

(** From the backup on, once the package is accepted. *)
(* [src/src/updater/UpdateManager.cpp:67-94] UpdateManager::runUpdate *)
Definition apply_package (m : UpdateManager) (p : UpdatePackage) : U Status :=
  b ← on_files (backup (target m));
  if negb (status_ok b) then u_fail m b
  else
    i ← on_files (install (String.length (payload p)) (target m) (payload p));
    match i with
    | None => mret (error ErrorCode.Unknown "")
    | Some i =>
        if negb (status_ok i) then u_fail m i
        else
          d ← get;
          let healthy := match health_check_ m with Some check => check d | None => true end in
          if negb healthy then
            u_publish m EventType.RollbackTriggered [];;
            r ← on_files (restore (target m));
            if negb (status_ok r) then
              u_fail m (error ErrorCode.IoError ("rollback failed: " +:+ message r))
            else
              u_fail m (error ErrorCode.ServiceStartFailed "health check failed, rolled back")
          else
            u_publish m EventType.UpdateCompleted [("version", SStr (version (manifest p)))];;
            mret success
    end.

(* [src/src/updater/UpdateManager.cpp:35-94] UpdateManager::runUpdate *)
Definition runUpdate (m : UpdateManager) (location current_hardware_version : string) : U Status :=
  if negb (updates_allowed_ m) then
    mret (error ErrorCode.PermissionDenied "updates not allowed right now")
  else
    u_publish m EventType.UpdateStarted [];;
    match fetch m location with
    | Failure s => u_fail m s
    | Value p =>
        let v := verify (vendor_key m) p in
        if negb (status_ok v) then u_fail m v
        else
          let min := min_hardware_version (manifest p) in
          if negb (String.eqb min "") && string_lt current_hardware_version min then
            u_fail m (error ErrorCode.InvalidArg
                        ("hardware " +:+ current_hardware_version +:+ " < required " +:+ min))
          else apply_package m p
    end.
End Updater.

Section UpdaterProofs.
Context {F : FileSystem} {FL : FileSystemLaws F} {Cr : Crypto}.
Variable sha256Hex : string -> string.

(** The package an update goes on with, if any. *)
Definition accepted_package (m : UpdateManager) (location hw : string) : option UpdatePackage :=
  if negb (updates_allowed_ m) then None
  else
    match fetch m location with
    | Failure _ => None
    | Value p =>
        if status_ok (verify sha256Hex (vendor_key m) p) &&
           (String.eqb (min_hardware_version (manifest p)) "" ||
            negb (string_lt hw (min_hardware_version (manifest p))))
        then Some p else None
    end.

(** What an accepted package satisfies. *)
Lemma accepted_package_verified m location hw p :
  accepted_package m location hw = Some p ->
  fetch m location = Value p /\ vendor_key m <> "" /\
  sha256Hex (payload p) = payload_sha256 (manifest p) /\
  verifyEd25519Base64 (toBase64 (manifest_text (manifest p))) (signature_b64 p) (vendor_key m) = true.
Proof.
  unfold accepted_package, verify. intros H. cases_in H.
  destruct (String.eqb_spec (vendor_key m) ""); [done|].
  destruct (String.eqb_spec (sha256Hex (payload p)) (payload_sha256 (manifest p))); [|done].
  destruct (verifyEd25519Base64 _ _ _); done.
Qed.

Definition u_events (es : list UEffect) : list (Event Payload) :=
  omap (fun e => match e with UPublish e => Some e | UPoint _ => None end) es.

Definition u_points (es : list UEffect) : list Disk :=
  omap (fun e => match e with UPublish _ => None | UPoint d => Some d end) es.

Lemma u_events_app a b : u_events (a ++ b) = u_events a ++ u_events b.
Proof. apply omap_app. Qed.

Lemma u_events_points l : u_events (UPoint <$> l) = [].
Proof. by induction l. Qed.

(** A backup leaves the target alone and, when it succeeds, holds its contents. *)
Lemma backup_spec target d :
  let b := backup target in
  visible (state_after b d) target = visible d target /\
  (status_ok (value_of b d) = true -> exists c,
     visible d target = Some c /\ visible (state_after b d) (backup_path target) = Some c).
Proof.
  cbv zeta. unfold backup, mbind, SW_bind, get, sys, exists_file, value_of, state_after.
  destruct (visible d target) as [c|] eqn:Ev; simpl; [|by split; [rewrite ?Ev|]].
  destruct (copy_file_same target (backup_path target) d target) as [Hsame _];
    [by apply suffix_ne|].
  destruct (bool_decide_reflect ((copy_file target (backup_path target) d).1 <> 0%Z)); simpl;
    (split; [by rewrite Hsame, ?Ev|]); [done|].
  intros _. exists c. split; [done|]. apply copy_file_ok; [lia|done].
Qed.

Lemma restore_spec target d c :
  visible d (backup_path target) = Some c ->
  let r := restore target in
  status_ok (value_of r d) = true -> visible (state_after r d) target = Some c.
Proof.
  intros Hc. cbv zeta. unfold restore, mbind, SW_bind, get, sys, exists_file, value_of, state_after.
  rewrite Hc. simpl.
  destruct (bool_decide_reflect ((copy_file (backup_path target) target d).1 <> 0%Z)); simpl; [done|].
  intros _. apply copy_file_ok; [lia|done].
Qed.

(** What applying an accepted package leaves. *)
Record applied (m : UpdateManager) (p : UpdatePackage) (d : Disk) (r : Status) (d' : Disk)
    (es : list (Event Payload)) : Prop := mk_applied
  { applied_ok : status_ok r = true ->
      visible d' (target m) = Some (payload p) /\
      (u_bus m = true -> es = [event EventType.UpdateCompleted "updater"
                                 [("version", SStr (version (manifest p)))]]);
    applied_failed : status_ok r = false ->
      code r = ErrorCode.ServiceStartFailed \/ of_type EventType.RollbackTriggered es = [] ->
      u_bus m = true -> visible d' (target m) = visible d (target m);
    applied_reported : status_ok r = false -> u_bus m = true ->
      exists es0, es = es0 ++ [event EventType.UpdateFailed "updater"
                                 [("error", SStr (message r))]] }.

Ltac u_simpl :=
  repeat (progress (rewrite ?app_nil_r, ?u_events_app, ?u_events_points; simpl)).

Lemma apply_package_spec m p d :
  let a := apply_package m p in
  applied m p d (value_of a d) (state_after a d) (u_events (effects_of a d)).
Proof.
  cbv zeta. unfold value_of, state_after, effects_of.
  destruct (backup_spec (target m) d) as [Hb1 Hb2].
  set (d1 := state_after (backup (target m)) d) in *.
  destruct (install_spec (String.length (payload p)) (target m) (payload p) d1)
    as (i & Hi & [Hiok Hierr _ Hioth]); [done|].
  set (d2 := state_after (install (String.length (payload p)) (target m) (payload p)) d1) in *.
  assert (backup_path (target m) <> target m) as Hne1 by (apply not_eq_sym; by apply suffix_ne).
  assert (backup_path (target m) <> target m +:+ ".new") as Hne2 by by apply app_ne.
  assert (status_ok (value_of (backup (target m)) d) = true ->
    exists c, visible d (target m) = Some c /\ visible d2 (backup_path (target m)) = Some c) as Hprev.
  { intros Hok. destruct (Hb2 Hok) as (c & Hc & Hp). exists c. split; [done|].
    specialize (Hioth _ Hne1 Hne2). apply Forall_cons in Hioth as [Hx _]. by rewrite Hx. }
  unfold apply_package, u_fail, u_publish, when, on_files, mbind, SW_bind, tell, get.
  fold d1. destruct (status_ok (value_of (backup (target m)) d)) eqn:Eb; cbn [negb].
  2: { destruct (u_bus m) eqn:Hbus; simpl; u_simpl;
       split; rewrite ?Eb; try done; intros; first [done|congruence|by exists []]. }
  rewrite Hi. fold d2. destruct (status_ok i) eqn:Ei; cbn [negb].
  2: { rewrite Hb1 in Hierr. destruct (u_bus m) eqn:Hbus; simpl;
       u_simpl;
       split; rewrite ?Ei; try done; intros; first [by apply Hierr|congruence|by exists []]. }
  destruct (Hprev eq_refl) as (c & Hc & Hp).
  pose proof (restore_spec (target m) d2 c Hp) as Hrestore. cbv zeta in Hrestore.
  destruct (match health_check_ m with Some check => check d2 | None => true end); cbn [negb].
  - destruct (u_bus m) eqn:Hbus; simpl; u_simpl;
      split; rewrite ?Hbus; try done; intros _; split; auto; done.
  - destruct (status_ok (value_of (restore (target m)) d2)) eqn:Er;
      destruct (u_bus m) eqn:Hbus; simpl; rewrite ?Er; simpl;
      u_simpl;
      (split; rewrite ?Hbus; try done; intros; try congruence).
    all: first [by exists [event EventType.RollbackTriggered "updater" []]
               |rewrite Hc; by apply Hrestore
               |match goal with H : _ \/ _ |- _ => by destruct H end].
Qed.
End UpdaterProofs.

(** ** Properties *)

(** C17: Nothing unverified is installed.  An update that is not allowed now, or whose
    package is not what the source announced (payload digest, vendor signature, hardware
    version), touches no file at all and fails, with UpdateStarted and UpdateFailed as its
    only events; and an update that goes on has a package whose digest and signature were
    checked. *)
Theorem update_needs_verified_package (F : FileSystem) (Cr : Crypto) sha256Hex m location hw d :
  (forall s, fetch m location = Failure s -> status_ok s = false) ->
  let u := runUpdate sha256Hex m location hw in
  match accepted_package sha256Hex m location hw with
  | None =>
      state_after u d = d /\ u_points (effects_of u d) = [] /\ status_ok (value_of u d) = false /\
      u_events (effects_of u d) =
        (if updates_allowed_ m && u_bus m
         then [event EventType.UpdateStarted "updater" [];
               event EventType.UpdateFailed "updater"
                 [("error", SStr (message (value_of u d)))]]
         else [])
  | Some p =>
      fetch m location = Value p /\ vendor_key m <> "" /\
      sha256Hex (payload p) = payload_sha256 (manifest p) /\
      verifyEd25519Base64 (toBase64 (manifest_text (manifest p))) (signature_b64 p)
        (vendor_key m) = true
  end.
Proof.
  intros Hf. cbv zeta. destruct (accepted_package _ _ _ _) as [p|] eqn:Ha.
  { by eapply accepted_package_verified. }
  revert Ha. unfold accepted_package, runUpdate, u_fail, u_publish, when, mbind, SW_bind, tell,
    value_of, state_after, effects_of.
  destruct (updates_allowed_ m); simpl; [|done]. destruct (fetch m location) as [p|s] eqn:Ef.
  - destruct (status_ok (verify sha256Hex (vendor_key m) p)) eqn:Ev; simpl.
    + destruct (String.eqb (min_hardware_version (manifest p)) ""); simpl; [done|].
      destruct (string_lt hw (min_hardware_version (manifest p))); simpl; [|done].
      intros _. by destruct (u_bus m).
    + intros _. by destruct (u_bus m).
  - intros _. specialize (Hf s eq_refl). by destruct (u_bus m).
Qed.

(** C18: An accepted update completes or leaves the old binary.  After success the target
    is the payload and UpdateCompleted is the last event; after a failure without a
    rollback, and after one whose rollback worked, the target holds exactly what it held
    before; every failure ends in UpdateFailed. *)
Theorem update_completes_or_restores (F : FileSystem) (FL : FileSystemLaws F) (Cr : Crypto)
    sha256Hex m location hw p d :
  accepted_package sha256Hex m location hw = Some p -> u_bus m = true ->
  let u := runUpdate sha256Hex m location hw in
  let d' := state_after u d in
  exists es,
    u_events (effects_of u d) = event EventType.UpdateStarted "updater" [] :: es /\
    if status_ok (value_of u d) then
      visible d' (target m) = Some (payload p) /\
      es = [event EventType.UpdateCompleted "updater" [("version", SStr (version (manifest p)))]]
    else
      (code (value_of u d) = ErrorCode.ServiceStartFailed \/
       of_type EventType.RollbackTriggered es = [] ->
       visible d' (target m) = visible d (target m)) /\
      exists es0, es = es0 ++ [event EventType.UpdateFailed "updater"
                                 [("error", SStr (message (value_of u d)))]].
Proof.
  intros Ha Hbus. cbv zeta. destruct (apply_package_spec m p d) as [Hok Hfail Hrep].
  assert (runUpdate sha256Hex m location hw =
    (u_publish m EventType.UpdateStarted [];; apply_package m p)) as ->.
  { revert Ha. unfold accepted_package, runUpdate.
    destruct (updates_allowed_ m); simpl; [|done]. destruct (fetch m location) as [q|]; [|done].
    destruct (status_ok (verify sha256Hex (vendor_key m) q)); simpl; [|done].
    destruct (String.eqb (min_hardware_version (manifest q)) ""); simpl; [by intros [= ->]|].
    destruct (string_lt hw (min_hardware_version (manifest q))); simpl; [done|by intros [= ->]]. }
  rewrite value_of_bind, state_after_bind, effects_of_bind, u_events_app.
  unfold u_publish. rewrite Hbus. cbn [when].
  change (state_after (tell _) d) with d. change (effects_of (tell ?l) d) with l. simpl.
  eexists. split; [done|].
  destruct (status_ok (value_of (apply_package m p) d)); [|by split; auto].
  destruct (Hok eq_refl) as [Hv He]. auto.
Qed.

(** The hardware gate compares version numbers as text. *)
Lemma hardware_gate_is_textual : string_lt "10.0" "9.0" = true.
Proof. reflexivity. Qed.

(** ** Witnesses *)

Definition demo_update_package : UpdatePackage :=
  let man := mk_manifest "1.1" "1.0" "new" 3 in
  mk_package man "new" ("sig:vendor:" +:+ manifest_text man).

Definition demo_updater (healthy : bool) : UpdateManager :=
  @mk_update_manager mdisk_system "vendor" "/etc/c.json" (fun _ => Value demo_update_package)
    (Some (fun _ => healthy)) true true.

Lemma update_needs_verified_package_witness :
  let m := @mk_update_manager mdisk_system "vendor" "/etc/c.json"
             (fun _ => Value (mk_package (manifest demo_update_package) "evil"
                                (signature_b64 demo_update_package))) None true true in
  state_after (runUpdate (fun s => s) m "url" "1.0") (demo_disk []) = demo_disk [].
Proof.
  intros m.
  apply (update_needs_verified_package mdisk_system demo_crypto (fun s => s) m "url" "1.0").
  discriminate.
Defined.

Lemma update_completes_or_restores_witness :
  let u := runUpdate (fun s => s) (demo_updater false) "url" "1.0" in
  status_ok (value_of u (demo_disk [])) = false /\
  visible (state_after u (demo_disk [])) "/etc/c.json" = Some "old"%string.
Proof.
  intros u. assert (status_ok (value_of u (demo_disk [])) = false) as Hs
    by (vm_compute; reflexivity).
  split; [exact Hs|].
  destruct (update_completes_or_restores mdisk_system mdisk_laws demo_crypto (fun s => s)
              (demo_updater false) "url" "1.0" demo_update_package (demo_disk []) eq_refl eq_refl)
    as (es & _ & H).
  fold u in H. rewrite Hs in H. destruct H as [H _].
  transitivity (visible (demo_disk []) "/etc/c.json"); [apply H; left; vm_compute; reflexivity|].
  reflexivity.
Defined.
