(* ===== verification/Pairing.v ===== *)
(** * Pairing: onboarding a speaker to a streamer

    Models [src/src/identity/ApCredentials.cpp], [src/src/pairing/PairingValidator.cpp],
    [PairingService.cpp] and [ProvisioningController.cpp].  SHA-256 and the device's
    sealed-box key are arguments; secrets are the files of [Storage] on the disk of the
    configuration manager. *)

From Stdlib Require Import Ascii.
From S2P Require Import Prelude Core Json Files Config Storage Control.

(** ** Streamer identities and access points *)

(** The part of a string after a prefix. *)
Fixpoint strip_prefix (p s : string) : option string :=
  match p, s with
  | EmptyString, _ => Some s
  | String a p, String b s => if bool_decide (a = b) then strip_prefix p s else None
  | String _ _, EmptyString => None
  end.

Lemma strip_prefix_app p s : strip_prefix p (p +:+ s) = Some s.
Proof.
  induction p as [|c p IH]; [done|]. rewrite str_app_cons. simpl.
  by rewrite bool_decide_eq_true_2.
Qed.

Lemma strip_prefix_Some p s r : strip_prefix p s = Some r -> s = p +:+ r.
Proof.
  revert s. induction p as [|a p IH]; intros [|b s] H; simplify_eq/=; try done.
  case_bool_decide as Hab; [|done]. subst. rewrite str_app_cons. f_equal. by apply IH.
Qed.

Definition is_hex (c : ascii) : bool :=
  let n := nat_of_ascii c in
  ((48 <=? n) && (n <=? 57) || (97 <=? n) && (n <=? 102))%nat.

(* [src/src/identity/ApCredentials.cpp:38-47] isWellFormedStreamerId *)
Definition isWellFormedStreamerId (id : string) : bool :=
  if negb (String.length id =? 12)%nat then false
  else
    match strip_prefix "STR-" id with
    | Some rest => all_chars is_hex rest
    | None => false
    end.

Definition kApSsidPrefix : string := "Nexus-".
Definition kPassphraseSalt : string := "nexus-audio-ap-v1:".

(* [src/src/identity/ApCredentials.h:12-15] ApCredentials *)
Record ApCredentials := mk_ap { ssid : string; passphrase : string }.

(* [src/src/identity/ApCredentials.cpp:19-28] deriveApCredentials *)
Definition deriveApCredentials (sha256Hex : string -> string) (id : string) : ApCredentials :=
  let hex := sha256Hex (kPassphraseSalt +:+ id) in
  mk_ap (kApSsidPrefix +:+ id) (str_take 24 hex).

(* [src/src/identity/ApCredentials.cpp:30-36] streamerIdFromApSsid *)
Definition streamerIdFromApSsid (s : string) : option string :=
  id ← strip_prefix kApSsidPrefix s;
  match strip_prefix "STR-" id with Some _ => Some id | None => None end.

(** A joining speaker recovers the id the access point was named after. *)
Lemma ap_ssid_round_trip sha id :
  isWellFormedStreamerId id = true -> streamerIdFromApSsid (ssid (deriveApCredentials sha id)) = Some id.
Proof.
  unfold isWellFormedStreamerId, streamerIdFromApSsid, deriveApCredentials. cbn [ssid].
  rewrite strip_prefix_app. cbn [mbind option_bind]. destruct (negb _); [done|].
  by destruct (strip_prefix "STR-" id).
Qed.

(** ** Requests *)

(* [src/src/pairing/PairingTypes.h:9-12] WifiCredentials *)
Record WifiCredentials := mk_wifi { w_ssid : string; w_psk : string }.

(* [src/src/pairing/PairingTypes.h:18-32] PairingRequest *)
Record PairingRequest := mk_pairing_request
  { q_streamer_id : string; q_streamer_public_key : string; q_site_id : string;
    q_initial_speaker_name : string; q_setup_code : string; q_sealed_wifi_b64 : string;
    q_signature_b64 : string }.

(* [src/src/pairing/PairingTypes.h:28-31] PairingRequest::canonicalString *)
Definition request_text (q : PairingRequest) : string :=
  q_streamer_id q +:+ newline +:+ q_streamer_public_key q +:+ newline +:+ q_site_id q +:+
  newline +:+ q_initial_speaker_name q +:+ newline +:+ q_setup_code q +:+ newline +:+
  q_sealed_wifi_b64 q.

(* [src/src/pairing/PairingTypes.h:35-41] PairingResult *)
Record PairingResult := mk_pairing_result
  { p_streamer_id : string; p_streamer_public_key : string; p_site_id : string;
    p_speaker_name : string; p_wifi : WifiCredentials }.

Section Pairing.
Context {J : JsonLib} {F : FileSystem} {AW : AtomicWriter F} {Cr : Crypto}.
(** [keys_->openSealed]: the sealed box opened with the device's secret key. *)
Variable openSealed : string -> Result string.
(** The directory of the secret store. *)
Variable secrets_dir : string.

(* [src/src/pairing/PairingValidator.cpp:11-45] PairingValidator::validate *)
Definition validate_request (q : PairingRequest) (expected : string) (now expiry : Z) : Status :=
  if String.eqb (q_streamer_id q) "" || String.eqb (q_streamer_public_key q) "" then
    error ErrorCode.InvalidArg "missing streamer identity"
  else if negb (isWellFormedStreamerId (q_streamer_id q)) then
    error ErrorCode.InvalidArg "malformed streamer_id"
  else if String.eqb expected "" then
    error ErrorCode.PermissionDenied "no active setup code"
  else if (expiry <? now)%Z then error ErrorCode.Timeout "setup code expired"
  else if negb (String.eqb (q_setup_code q) expected) then
    error ErrorCode.PermissionDenied "setup code mismatch"
  else if String.eqb (q_sealed_wifi_b64 q) "" then
    error ErrorCode.InvalidArg "missing sealed wifi credentials"
  else if negb (verifyEd25519Base64 (toBase64 (request_text q)) (q_signature_b64 q)
                  (q_streamer_public_key q)) then
    error ErrorCode.CryptoError "pairing request signature invalid"
  else success.

(** What an accepted request satisfies. *)
Definition proven (q : PairingRequest) (expected : string) (now expiry : Z) : Prop :=
  isWellFormedStreamerId (q_streamer_id q) = true /\ q_streamer_public_key q <> "" /\
  expected <> "" /\ q_setup_code q = expected /\ (now <= expiry)%Z /\
  verifyEd25519Base64 (toBase64 (request_text q)) (q_signature_b64 q) (q_streamer_public_key q)
    = true.

Lemma validate_request_ok q expected now expiry :
  status_ok (validate_request q expected now expiry) = true -> proven q expected now expiry.
Proof.
  unfold validate_request, proven. intros H.
  destruct (String.eqb_spec (q_streamer_id q) ""), (String.eqb_spec (q_streamer_public_key q) "");
    try done; simpl in H.
  destruct (isWellFormedStreamerId (q_streamer_id q)); [|done].
  destruct (String.eqb_spec expected ""); [done|]. destruct (Z.ltb_spec expiry now); [done|].
  destruct (String.eqb_spec (q_setup_code q) expected); [|done].
  destruct (String.eqb_spec (q_sealed_wifi_b64 q) ""); [done|].
  destruct (verifyEd25519Base64 _ _ _); done.
Qed.

(** ** The service *)

(* [src/src/pairing/PairingService.h:28-68] PairingService *)
Record PairingService := mk_pairing_service
  { mgr : ConfigManager; setup_mode_ : bool; setup_code_ : string; code_expiry_epoch_ : Z;
    p_state : ServiceState; p_bus : bool }.

Inductive PairEffect :=
| PairPublish (e : Event Payload)
| PairConfig (e : CEffect).

Abbreviation P := (SW PairingService PairEffect).

Definition set_setup (on : bool) (setup_code : string) (s : PairingService) : PairingService :=
  mk_pairing_service (mgr s) on setup_code (code_expiry_epoch_ s) (p_state s) (p_bus s).

Definition on_mgr {A} (f : SW ConfigManager CEffect A) : P A := fun s =>
  (value_of f (mgr s),
   mk_pairing_service (state_after f (mgr s)) (setup_mode_ s) (setup_code_ s)
     (code_expiry_epoch_ s) (p_state s) (p_bus s),
   PairConfig <$> effects_of f (mgr s)).

Definition pair_publish (t : EventType) (d : Payload) : P unit :=
  s ← get; when (p_bus s) (tell [PairPublish (event t "pairing" d)]).

(* [src/src/pairing/PairingService.cpp:25-31] PairingService::stop *)
Definition pairing_stop : P Status :=
  modify (fun s => mk_pairing_service (mgr s) false "" (code_expiry_epoch_ s)
                     ServiceState.Stopped (p_bus s));;
  mret success.

(* [src/src/pairing/PairingService.cpp:40-52] PairingService::beginSetupMode *)
Definition beginSetupMode (setup_code : string) (now ttl : Z) : P Status :=
  if String.eqb setup_code "" then mret (error ErrorCode.InvalidArg "empty setup code")
  else
    modify (fun s => mk_pairing_service (mgr s) true setup_code (now + ttl) (p_state s) (p_bus s));;
    pair_publish EventType.PairingStarted [];;
    mret success.

(* [src/src/pairing/PairingService.cpp:66-70] fail *)
Definition pair_fail (s : Status) : P (Result PairingResult) :=
  pair_publish EventType.PairingFailed [];; mret (Failure s).

(** [secrets_->put], with a round of its loop per byte. *)
Definition put_secret (key value : string) : P Status :=
  r ← on_mgr (on_disk (put (String.length value) secrets_dir key value));
  mret (default (error ErrorCode.Unknown "") r).

(** The configuration a pairing records: public values only. *)
(* [src/src/pairing/PairingService.cpp:124-129] PairingService::persistPairing *)
Definition with_pairing (r : PairingResult) (c : SpeakerConfig) : SpeakerConfig :=
  mk_config (schema_version c) (device c)
    (mk_pairing true (p_streamer_id r) (p_streamer_public_key r))
    (mk_network true (connection_mode (network c))) (audio c) (system c).

(* [src/src/pairing/PairingService.cpp:114-132] PairingService::persistPairing *)
Definition persistPairing (r : PairingResult) : P Status :=
  s1 ← put_secret "wifi_ssid" (w_ssid (p_wifi r));
  s2 ← put_secret "wifi_psk" (w_psk (p_wifi r));
  if negb (status_ok s1) then mret s1
  else if negb (status_ok s2) then mret s2
  else on_mgr (update (with_pairing r)).

(* [src/src/pairing/PairingService.cpp:81-88] PairingService::processRequest *)
Definition wifi_of (opened : string) : Try WifiCredentials :=
  j ← parse opened;
  s ← at_ j "ssid"; s ← get_string s;
  p ← at_ j "psk"; p ← get_string p;
  mret (mk_wifi s p).

(* [src/src/pairing/PairingService.cpp:54-112] PairingService::processRequest *)
Definition processRequest (q : PairingRequest) (now : Z) : P (Result PairingResult) :=
  s ← get;
  if negb (setup_mode_ s) then
    pair_fail (error ErrorCode.PermissionDenied "not in setup mode")
  else
    let v := validate_request q (setup_code_ s) now (code_expiry_epoch_ s) in
    if negb (status_ok v) then pair_fail v
    else
      match openSealed (q_sealed_wifi_b64 q) with
      | Failure _ => pair_fail (error ErrorCode.CryptoError "cannot open sealed wifi")
      | Value opened =>
          match wifi_of opened with
          | Throw what => pair_fail (error ErrorCode.Corrupt ("bad wifi payload: " +:+ what))
          | Done wifi =>
              let result := mk_pairing_result (q_streamer_id q) (q_streamer_public_key q)
                              (q_site_id q) (q_initial_speaker_name q) wifi in
              p ← persistPairing result;
              if negb (status_ok p) then pair_fail p
              else
                modify (set_setup false "");;
                pair_publish EventType.PairingCompleted
                  [("streamer_id", SStr (p_streamer_id result))];;
                mret (Value result)
          end
      end.
End Pairing.

Section PairingProofs.
Context {J : JsonLib} {F : FileSystem} {FL : FileSystemLaws F} {AW : AtomicWriter F} {Cr : Crypto}.
Variable openSealed : string -> Result string.
Variable secrets_dir : string.

Definition pair_events (es : list PairEffect) : list (Event Payload) :=
  omap (fun e => match e with
                 | PairPublish e | PairConfig (CPublish e) => Some e | _ => None end) es.

Lemma pair_events_app a b : pair_events (a ++ b) = pair_events a ++ pair_events b.
Proof. apply omap_app. Qed.

Lemma pair_events_config l : pair_events (PairConfig <$> l) = published l.
Proof.
  induction l as [|[d|e] l IH]; [done|exact IH|].
  change (e :: pair_events (PairConfig <$> l) = e :: published l). by rewrite IH.
Qed.

(** A run that changes the disk at most. *)
Definition disk_only (s : PairingService) (es : list PairEffect) (s' : PairingService) : Prop :=
  same_memory (mgr s) (mgr s') /\ setup_mode_ s' = setup_mode_ s /\ setup_code_ s' = setup_code_ s /\
  code_expiry_epoch_ s' = code_expiry_epoch_ s /\ p_bus s' = p_bus s /\ pair_events es = [].

#[local] Instance disk_only_run : RunRel disk_only.
Proof.
  split; unfold disk_only.
  - intros s. by split_and!.
  - intros s1 e1 s2 e2 s3 (M1 & ? & ? & ? & ? & E1) (M2 & ? & ? & ? & ? & E2).
    rewrite pair_events_app, E1, E2.
    split_and!; [by eapply same_memory_trans|congruence..|done].
Qed.

Lemma put_secret_disk_only key value : respects disk_only (put_secret secrets_dir key value).
Proof.
  apply respects_bind; [exact _| |intros r; apply respects_ret; exact _].
  intros s. split_and!; try done.
  unfold on_mgr, effects_of. simpl. rewrite pair_events_config. apply published_points.
Qed.

(** What recording a pairing does besides writing the secrets. *)
Lemma persistPairing_spec r s :
  let m := persistPairing secrets_dir r in
  let s' := state_after m s in
  setup_mode_ s' = setup_mode_ s /\ setup_code_ s' = setup_code_ s /\
  code_expiry_epoch_ s' = code_expiry_epoch_ s /\ p_bus s' = p_bus s /\
  (status_ok (value_of m s) = true -> config_ (mgr s') = with_pairing r (config_ (mgr s))) /\
  (status_ok (value_of m s) = false ->
     config_ (mgr s') = config_ (mgr s) /\ pair_events (effects_of m s) = []).
Proof.
  cbv zeta. unfold persistPairing.
  destruct (put_secret_disk_only "wifi_ssid" (w_ssid (p_wifi r)) s) as ((_ & Hb1 & Hc1 & _) & M1 & K1 & X1 & B1 & E1).
  rewrite !state_after_bind, !value_of_bind, !effects_of_bind.
  set (s1 := state_after (put_secret secrets_dir "wifi_ssid" (w_ssid (p_wifi r))) s) in *.
  destruct (put_secret_disk_only "wifi_psk" (w_psk (p_wifi r)) s1) as ((_ & Hb2 & Hc2 & _) & M2 & K2 & X2 & B2 & E2).
  set (s2 := state_after (put_secret secrets_dir "wifi_psk" (w_psk (p_wifi r))) s1) in *.
  set (r1 := value_of (put_secret secrets_dir "wifi_ssid" (w_ssid (p_wifi r))) s).
  set (r2 := value_of (put_secret secrets_dir "wifi_psk" (w_psk (p_wifi r))) s1).
  rewrite !pair_events_app, E1, E2.
  destruct (status_ok r1) eqn:Er1; cbn [negb].
  2: { change (state_after (mret r1) s2) with s2. change (value_of (mret r1) s2) with r1.
       rewrite Er1. split_and!; try congruence. intros _. split; [congruence|done]. }
  destruct (status_ok r2) eqn:Er2; cbn [negb].
  2: { change (state_after (mret r2) s2) with s2. change (value_of (mret r2) s2) with r2.
       rewrite Er2. split_and!; try congruence. intros _. split; [congruence|done]. }
  unfold on_mgr, value_of, state_after, effects_of.
  cbn [fst snd mgr setup_mode_ setup_code_ code_expiry_epoch_ p_bus].
  split_and!; try congruence.
  - intros Hok. rewrite <- Hc1, <- Hc2.
    destruct (is_valid (with_pairing r (config_ (mgr s2)))) eqn:Hv.
    + destruct (update_run _ _ Hv) as (w & m1 & es & _ & Hu). rewrite Hu in Hok |- *.
      destruct (status_ok w) eqn:Hw; [done|]. simpl in Hok. congruence.
    + rewrite update_rejected in Hok by done. simpl in Hok. unfold is_valid in Hv. congruence.
  - intros Hbad. rewrite <- Hc1, <- Hc2. rewrite pair_events_config.
    destruct (is_valid (with_pairing r (config_ (mgr s2)))) eqn:Hv.
    + destruct (update_run _ _ Hv) as (w & m1 & es & [(_ & _ & Hc & _) Hsil _ _ _ _ _] & Hu).
      rewrite Hu in Hbad |- *. destruct (status_ok w) eqn:Hw; [done|]. done.
    + by rewrite update_rejected.
Qed.

Lemma pair_publish_run t d s :
  pair_publish t d s = ((), s, if p_bus s then [PairPublish (event t "pairing" d)] else []).
Proof. unfold pair_publish, mbind, SW_bind, get. by destruct (p_bus s). Qed.
End PairingProofs.

(** ** Properties *)

(** C20: Pairing needs proof, happens once, and fails without a trace in the
    configuration.  A request succeeds only in setup mode, with the displayed code before
    it expires, a well-formed streamer id, a signature of the request under the key it
    presents and a sealed box this device can open; the configuration then names exactly
    that streamer and key, and every further request is refused.  A refused request
    leaves the configuration and setup mode as they were and publishes PairingFailed
    only. *)
Theorem pairing_needs_proof (J : JsonLib) (F : FileSystem) (FL : FileSystemLaws F)
    (AW : AtomicWriter F) (Cr : Crypto) openSealed secrets_dir q now s :
  p_bus s = true ->
  let m := processRequest openSealed secrets_dir q now in
  let s' := state_after m s in
  match value_of m s with
  | Value r =>
      setup_mode_ s = true /\ proven q (setup_code_ s) now (code_expiry_epoch_ s) /\
      (exists opened, openSealed (q_sealed_wifi_b64 q) = Value opened /\
                      wifi_of opened = Done (p_wifi r)) /\
      config_ (mgr s') = with_pairing r (config_ (mgr s)) /\
      p_streamer_id r = q_streamer_id q /\ p_streamer_public_key r = q_streamer_public_key q /\
      forall q2 now2, processRequest openSealed secrets_dir q2 now2 s' =
        (Failure (error ErrorCode.PermissionDenied "not in setup mode"), s',
         [PairPublish (event EventType.PairingFailed "pairing" [])])
  | Failure _ =>
      config_ (mgr s') = config_ (mgr s) /\ setup_mode_ s' = setup_mode_ s /\
      setup_code_ s' = setup_code_ s /\
      pair_events (effects_of m s) = [event EventType.PairingFailed "pairing" []]
  end.
Proof.
  intros Hbus. cbv zeta. unfold processRequest, pair_fail, mbind, SW_bind, get, modify,
    value_of, state_after, effects_of.
  destruct (setup_mode_ s) eqn:Hset; cbn [negb]; [|by rewrite pair_publish_run, Hbus].
  destruct (status_ok (validate_request q (setup_code_ s) now (code_expiry_epoch_ s))) eqn:Hv;
    cbn [negb]; [|by rewrite pair_publish_run, Hbus].
  apply validate_request_ok in Hv.
  destruct (openSealed (q_sealed_wifi_b64 q)) as [opened|st] eqn:Ho;
    [|by rewrite pair_publish_run, Hbus].
  destruct (wifi_of opened) as [wifi|what] eqn:Hw; [|by rewrite pair_publish_run, Hbus].
  set (r := mk_pairing_result (q_streamer_id q) (q_streamer_public_key q) (q_site_id q)
              (q_initial_speaker_name q) wifi).
  destruct (persistPairing_spec secrets_dir r s) as (Hm & Hk & _ & Hb & Hok & Hbad).
  unfold value_of, state_after, effects_of in Hm, Hk, Hb, Hok, Hbad.
  destruct (persistPairing secrets_dir r s) as [[st s1] es]. cbn [fst snd] in *.
  destruct (status_ok st) eqn:Est; cbn [negb].
  - rewrite pair_publish_run. simpl. split_and!; [done|done|by exists opened|by apply Hok|done|done|].
    intros q2 now2. rewrite pair_publish_run. simpl. by rewrite Hb, Hbus.
  - rewrite pair_publish_run. rewrite Hb, Hbus. destruct (Hbad eq_refl) as [Hc He]. simpl.
    rewrite pair_events_app, He, Hm, Hk. by split_and!.
Qed.

(** ** The onboarding channels *)

(* [src/src/pairing/ProvisioningController.h:33-33] ProvisioningController::Channel *)
Inductive Channel := Ble | Hotspot.

#[export] Instance Channel_eq_dec : EqDecision Channel.
Proof. solve_decision. Defined.

(* [src/src/pairing/ProvisioningController.h:66-82] ProvisioningController *)
Record ProvisioningController := mk_provisioning
  { ble_on_ : bool; hotspot_on_ : bool; v_state : ServiceState }.

(** A call of the actuator. *)
Definition Actuation : Type := Channel * bool.

Abbreviation V := (SW ProvisioningController Actuation).

Definition channel_on (ch : Channel) (c : ProvisioningController) : bool :=
  match ch with Ble => ble_on_ c | Hotspot => hotspot_on_ c end.

Definition set_channel (ch : Channel) (on : bool) (c : ProvisioningController) :
  ProvisioningController :=
  match ch with
  | Ble => mk_provisioning on (hotspot_on_ c) (v_state c)
  | Hotspot => mk_provisioning (ble_on_ c) on (v_state c)
  end.

(* [src/src/pairing/ProvisioningController.cpp:84-98] ProvisioningController::setChannel *)
Definition setChannel (ch : Channel) (on enforce : bool) : V unit :=
  c ← get;
  let changed := negb (Bool.eqb on (channel_on ch c)) in
  if negb changed && negb enforce then mret ()
  else modify (set_channel ch on);; tell [(ch, on)].

(* [src/src/pairing/ProvisioningController.cpp:71-82] ProvisioningController::applyConnectivity *)
Definition applyConnectivity (have_any_uplink on_wifi : bool) : V unit :=
  setChannel Ble (negb on_wifi) false;;
  let hotspot_desired := negb have_any_uplink in
  setChannel Hotspot hotspot_desired (negb hotspot_desired).

(** The two subscriptions made by [start]. *)
(* [src/src/pairing/ProvisioningController.cpp:42-50] ProvisioningController::start *)
Definition on_network_event (e : Event Payload) : V unit :=
  if bool_decide (type e = EventType.NetworkConnected) then
    let mode := match assoc "mode" (data e) with Some (SStr m) => m | _ => EmptyString end in
    applyConnectivity true (String.eqb mode "wifi")
  else if bool_decide (type e = EventType.NetworkDisconnected) then
    applyConnectivity false false
  else mret ().

(* [src/src/pairing/ProvisioningController.cpp:34-62] ProvisioningController::start *)
Definition provisioning_start (have_uplink on_wifi : bool) : V Status :=
  modify (fun c => mk_provisioning (ble_on_ c) (hotspot_on_ c) ServiceState.Running);;
  applyConnectivity have_uplink on_wifi;;
  mret success.

(* [src/src/pairing/ProvisioningController.cpp:64-69] ProvisioningController::stop *)
Definition provisioning_stop : V Status :=
  setChannel Hotspot false false;;
  setChannel Ble false false;;
  modify (fun c => mk_provisioning (ble_on_ c) (hotspot_on_ c) ServiceState.Stopped);;
  mret success.

Fixpoint network_events (l : list (Event Payload)) : V unit :=
  match l with [] => mret () | e :: r => on_network_event e;; network_events r end.

(** The last thing the actuator was told about a channel. *)
Definition last_told (ch : Channel) (l : list Actuation) : option bool :=
  last ((fun a => a.2) <$> filter (fun a => a.1 = ch) l).

(** Whether there is an uplink, and whether it is Wi-Fi, after a sequence of events. *)
Definition uplink (initial : bool * bool) (l : list (Event Payload)) : bool * bool :=
  fold_left (fun u e =>
    if bool_decide (type e = EventType.NetworkConnected) then
      (true, String.eqb (match assoc "mode" (data e) with Some (SStr m) => m | _ => EmptyString end)
               "wifi")
    else if bool_decide (type e = EventType.NetworkDisconnected) then (false, false)
    else u) l initial.

(** The controller's flags follow the connectivity [u], and the actuator was told so. *)
Definition follows (u : bool * bool) (c : ProvisioningController) : Prop :=
  ble_on_ c = negb u.2 /\ hotspot_on_ c = negb u.1.

Lemma applyConnectivity_run up wifi c :
  let p := applyConnectivity up wifi c in
  follows (up, wifi) p.1.2 /\
  p.2 = (if Bool.eqb (negb wifi) (ble_on_ c) then [] else [(Ble, negb wifi)]) ++
        (if up || negb (hotspot_on_ c) then [(Hotspot, negb up)] else []).
Proof.
  unfold applyConnectivity, setChannel, follows, mbind, SW_bind, get, modify, tell.
  destruct c as [b h st]. by destruct up, wifi, b, h.
Qed.

Lemma provisioning_start_follows up wifi c :
  follows (up, wifi) (state_after (provisioning_start up wifi) c).
Proof.
  unfold provisioning_start. rewrite !state_after_bind. apply (applyConnectivity_run up wifi).
Qed.

(** The flags follow the connectivity through any sequence of events. *)
Lemma network_events_follow l u c :
  follows u c -> follows (uplink u l) (state_after (network_events l) c).
Proof.
  revert u c. induction l as [|e l IH]; intros u c H; [done|].
  simpl. rewrite state_after_bind. apply IH. unfold on_network_event. cbv beta.
  destruct (decide (type e = EventType.NetworkConnected)) as [E|E].
  { rewrite !(bool_decide_eq_true_2 _ E). apply applyConnectivity_run. }
  rewrite !(bool_decide_eq_false_2 _ E).
  destruct (decide (type e = EventType.NetworkDisconnected)) as [E'|E'].
  { rewrite !(bool_decide_eq_true_2 _ E'). apply (applyConnectivity_run false false). }
  by rewrite !(bool_decide_eq_false_2 _ E').
Qed.

(** The setup hotspot never stays up beside an uplink.  After the start-up probe and
    any sequence of network events, Bluetooth advertising is on exactly when the uplink
    is not Wi-Fi and the hotspot exactly when there is no uplink, and every event that
    reports an uplink tells the actuator to take the hotspot down, even when the
    controller believes it is down already. *)
Theorem hotspot_yields_to_uplink have_uplink on_wifi l c0 :
  let c := state_after (network_events l)
             (state_after (provisioning_start have_uplink on_wifi) c0) in
  follows (uplink (have_uplink, on_wifi) l) c /\
  forall e, type e = EventType.NetworkConnected ->
    (Hotspot, false) ∈ effects_of (on_network_event e) c /\
    (Hotspot, true) ∉ effects_of (on_network_event e) c.
Proof.
  cbv zeta. split; [apply network_events_follow, provisioning_start_follows|].
  - intros e He. unfold on_network_event, effects_of. rewrite bool_decide_eq_true_2 by done.
    match goal with |- context [applyConnectivity true ?w] =>
      destruct (applyConnectivity_run true w (state_after (network_events l)
        (state_after (provisioning_start have_uplink on_wifi) c0))) as [_ ->] end.
    cbn [orb negb]. destruct (Bool.eqb _ _); simpl; split; set_solver.
Qed.

(** ** Witness *)

Section Witnesses.
#[local] Existing Instance mdisk_laws.
#[local] Existing Instance posix_writer.

Definition demo_sealed : string := dump (jobj [("ssid", jstr "home"); ("psk", jstr "secret")]).

Definition demo_pairing_request : PairingRequest :=
  let q := mk_pairing_request "STR-0123abcd" "key" "site" "Kitchen" "4711" demo_sealed "" in
  mk_pairing_request "STR-0123abcd" "key" "site" "Kitchen" "4711" demo_sealed
    ("sig:key:" +:+ request_text q).

Definition demo_service : PairingService :=
  mk_pairing_service demo_manager true "4711" 2000 ServiceState.Running true.

Lemma pairing_needs_proof_witness :
  let m := processRequest (fun s => Value s) "secrets" demo_pairing_request 1500 in
  (exists r, value_of m demo_service = Value r) /\
  streamer_id (pairing (config_ (mgr (state_after m demo_service)))) = "STR-0123abcd"%string.
Proof.
  intros m.
  pose proof (pairing_needs_proof jvalue_lib mdisk_system mdisk_laws posix_writer demo_crypto
    (fun s => Value s) "secrets" demo_pairing_request 1500 demo_service eq_refl) as H.
  cbv zeta in H. fold m in H.
  assert (match value_of m demo_service with Value _ => true | Failure _ => false end = true) as Hok
    by (vm_compute; reflexivity).
  destruct (value_of m demo_service) as [r|st]; [|discriminate].
  destruct H as (_ & _ & _ & Hc & Hid & _). split; [by exists r|]. rewrite Hc. exact Hid.
Defined.
End Witnesses.
