(* ===== verification/Network.v ===== *)
(** * Network: the speaker's uplink

    Models [src/network]: the interface to the operating system ([INetworkHal], the class
    [NetworkHal]), its implementation over the [nmcli] program ([NmcliNetworkHal.cpp]: the
    command lines, their quoting, the parsing of the output), the manager that tracks and
    announces connectivity ([NetworkManager.cpp]) and the join of the streamer's access
    point ([StreamerApJoin.cpp]).  What a command prints and returns is an argument. *)

From Stdlib Require Import Ascii.
From stdpp Require Import pretty.
From S2P Require Import Prelude Core Json Files Config Storage Control Pairing.

(** ** The interface *)

(* [src/src/network/INetworkHal.h:10-13] WifiNetwork *)
Record WifiNetwork := mk_wifi_network { wn_ssid : string; signal_dbm : Z }.

(* [src/src/network/INetworkHal.h:15-20] NetworkStatus *)
Record NetworkStatus := mk_net_status { ns_connected : bool; ns_mode : string; ns_ip : string; ns_signal : Z }.

(* [src/src/network/INetworkHal.h:25-39] WifiConnectParams *)
Record WifiConnectParams := mk_connect
  { c_ssid : string; c_psk : string; c_hidden : bool; c_band : string; c_static_ip : string;
    c_gateway : string; c_dns : string }.

(* [src/src/network/INetworkHal.h:44-57] INetworkHal *)
Class NetworkHal (W E : Type) := {
  scanWifi : SW W E (Result (list WifiNetwork));
  hal_connect : WifiConnectParams -> SW W E Status;
  hal_disconnect : SW W E Status;
  hal_status : SW W E (Result NetworkStatus)
}.

(** ** The manager *)

Section Manager.
Context {W E : Type} {Hal : NetworkHal W E}.

(** The manager with the hardware it owns. *)
(* [src/src/network/NetworkManager.h:68-81] NetworkManager *)
Record NetworkManager := mk_network_manager
  { hal_ : W; connected_ : bool; ip_ : string; mode_ : string; n_bus : bool; n_state : ServiceState }.

(* [src/src/network/NetworkManager.cpp:33-34] NetworkManager::NetworkManager *)
Definition new_network (hal : W) (bus : bool) : NetworkManager :=
  mk_network_manager hal false "" "" bus ServiceState.Stopped.

Inductive NEffect := NPublish (e : Event Payload) | NOut (e : E).

Abbreviation N := (SW NetworkManager NEffect).

Definition on_hal {A} (f : SW W E A) : N A := fun n =>
  (value_of f (hal_ n),
   mk_network_manager (state_after f (hal_ n)) (connected_ n) (ip_ n) (mode_ n) (n_bus n) (n_state n),
   NOut <$> effects_of f (hal_ n)).

Definition set_uplink (connected : bool) (ip mode : string) (n : NetworkManager) : NetworkManager :=
  mk_network_manager (hal_ n) connected ip mode (n_bus n) (n_state n).
Definition set_n_state (s : ServiceState) (n : NetworkManager) : NetworkManager :=
  mk_network_manager (hal_ n) (connected_ n) (ip_ n) (mode_ n) (n_bus n) s.

Definition net_publish (t : EventType) (d : Payload) : N unit :=
  n ← get; when (n_bus n) (tell [NPublish (event t "network" d)]).

(* [src/src/network/NetworkManager.cpp:149-168] NetworkManager::publishConnected *)
Definition publishConnected (st : NetworkStatus) (periodic : bool) : N unit :=
  n ← get;
  let was_connected := connected_ n in
  let ip_changed := was_connected && negb (String.eqb (ns_ip st) (ip_ n)) in
  let mode_changed := was_connected && negb (String.eqb (ns_mode st) (mode_ n)) in
  let changed := negb was_connected || ip_changed || mode_changed in
  if negb changed && negb periodic then mret ()
  else
    modify (set_uplink true (ns_ip st) (ns_mode st));;
    net_publish EventType.NetworkConnected [("mode", SStr (ns_mode st)); ("ip", SStr (ns_ip st))];;
    when ip_changed (net_publish EventType.IpChanged [("ip", SStr (ns_ip st))]).

(* [src/src/network/NetworkManager.cpp:170-185] NetworkManager::publishDisconnected *)
Definition publishDisconnected (force : bool) : N unit :=
  n ← get;
  modify (set_uplink false "" "");;
  if negb (connected_ n) && negb force then mret ()
  else net_publish EventType.NetworkDisconnected [].

(* [src/src/network/NetworkManager.cpp:137-144] NetworkManager::applyStatus *)
Definition applyStatus (st : NetworkStatus) (periodic : bool) : N unit :=
  if ns_connected st then publishConnected st periodic else publishDisconnected false.

(* [src/src/network/NetworkManager.cpp:127-135] NetworkManager::refresh *)
Definition refresh : N unit :=
  st ← on_hal hal_status;
  match st with Failure _ => mret () | Value st => applyStatus st true end.

(* [src/src/network/NetworkManager.cpp:78-98] NetworkManager::connectWifi *)
Definition connectWifi (params : WifiConnectParams) : N Status :=
  s ← on_hal (hal_connect params);
  if negb (status_ok s) then publishDisconnected true;; mret s
  else
    st ← on_hal hal_status;
    let failed := publishDisconnected true;;
                  mret (error ErrorCode.Timeout "connect command succeeded but no IP") in
    match st with
    | Value st => if ns_connected st then applyStatus st false;; mret success else failed
    | Failure _ => failed
    end.

(* [src/src/network/NetworkManager.cpp:74-76] NetworkManager::connectWifi *)
Definition connectWifi_simple (ssid psk : string) : N Status :=
  connectWifi (mk_connect ssid psk false "" "" "" "").

(** The monitor's thread repeats [refresh]; starting it is not part of the state here. *)
(* [src/src/network/NetworkManager.cpp:38-49] NetworkManager::start *)
Definition network_start : N Status :=
  modify (set_n_state ServiceState.Running);; refresh;; mret success.

(* [src/src/network/NetworkManager.cpp:51-65] NetworkManager::stop *)
Definition network_stop : N Status := modify (set_n_state ServiceState.Stopped);; mret success.

(* [src/src/network/NetworkManager.cpp:67-70] NetworkManager::healthCheck *)
Definition network_health (n : NetworkManager) : Status :=
  if bool_decide (n_state n = ServiceState.Running) then success
  else error ErrorCode.Unknown "network not running".

(* [src/src/network/StreamerApJoin.cpp:8-33] joinStreamerAp *)
Definition joinStreamerAp (sha256Hex : string -> string) (streamer_id : string) : N Status :=
  if String.eqb streamer_id "" then mret (error ErrorCode.InvalidArg "no paired streamer_id")
  else
    n ← get;
    if connected_ n then mret success
    else
      let creds := deriveApCredentials sha256Hex streamer_id in
      scan ← on_hal scanWifi;
      match scan with
      | Failure s => mret s
      | Value l =>
          if existsb (fun w => String.eqb (wn_ssid w) (ssid creds)) l
          then connectWifi_simple (ssid creds) (passphrase creds)
          else mret (error ErrorCode.NotFound ("streamer AP not in range: " +:+ ssid creds))
      end.

(** ** Histories *)

Inductive NetOp := ORefresh | OConnect (p : WifiConnectParams) | OJoin (id : string).

Definition run_op (sha : string -> string) (o : NetOp) : N unit :=
  match o with
  | ORefresh => refresh
  | OConnect p => connectWifi p;; mret ()
  | OJoin id => joinStreamerAp sha id;; mret ()
  end.

Fixpoint run_ops (sha : string -> string) (l : list NetOp) : N unit :=
  match l with [] => mret () | o :: l => run_op sha o;; run_ops sha l end.

Definition announced (es : list NEffect) : list (Event Payload) :=
  omap (fun e => match e with NPublish e => Some e | NOut _ => None end) es.

Lemma announced_app a b : announced (a ++ b) = announced a ++ announced b.
Proof. apply omap_app. Qed.

Lemma announced_out l : announced (NOut <$> l) = [].
Proof. by induction l. Qed.

(** What the manager holds, as the controller of the setup channels sees it. *)
Definition view (n : NetworkManager) : bool * bool := (connected_ n, String.eqb (mode_ n) "wifi").

(** A run whose announcements lead from the view before to the view after. *)
Definition tracks (n : NetworkManager) (es : list NEffect) (n' : NetworkManager) : Prop :=
  n_bus n' = n_bus n /\
  (n_bus n = true -> (connected_ n = false -> mode_ n = "") ->
   uplink (view n) (announced es) = view n' /\ (connected_ n' = false -> mode_ n' = "")).

Lemma uplink_app u a b : uplink u (a ++ b) = uplink (uplink u a) b.
Proof. apply fold_left_app. Qed.

#[export] Instance tracks_run : RunRel tracks.
Proof.
  split; unfold tracks; [intros n; split; [done|by intros]|].
  intros n1 e1 n2 e2 n3 [B1 H1] [B2 H2]. split; [congruence|]. intros Hb Hm.
  destruct (H1 Hb Hm) as [U1 M1]. destruct (H2 ltac:(congruence) M1) as [U2 M2].
  split; [|done]. by rewrite announced_app, uplink_app, U1.
Qed.

Lemma tracks_hal {A} (f : SW W E A) : respects tracks (on_hal f).
Proof.
  intros n. split; [done|]. intros Hb Hm. unfold on_hal, effects_of, state_after. cbn [fst snd].
  by rewrite announced_out.
Qed.

Lemma tracks_connected st periodic : respects tracks (publishConnected st periodic).
Proof.
  intros n. unfold publishConnected, net_publish, when, respects, tracks, effects_of, state_after,
    mbind, SW_bind, get, modify, tell.
  destruct n as [w c i m b s]. cbn [fst snd n_bus connected_ ip_ mode_ set_uplink].
  set (ipc := c && negb (ns_ip st =? i)%string). set (mc := c && negb (ns_mode st =? m)%string).
  destruct (negb (negb c || ipc || mc) && negb periodic) eqn:Hq; cbn [fst snd].
  { split; [done|]. intros _ Hm. by split. }
  destruct b, ipc; (split; [done|]); intros ? Hm; try done; by split.
Qed.

Lemma tracks_disconnected force : respects tracks (publishDisconnected force).
Proof.
  intros n. unfold publishDisconnected, net_publish, when, tracks, effects_of, state_after,
    mbind, SW_bind, get, modify, tell.
  destruct n as [w c i m b s]. cbn [fst snd n_bus connected_ mode_ set_uplink].
  destruct (negb c && negb force) eqn:Hq; cbn [fst snd n_bus set_uplink].
  - split; [done|]. intros _ Hm. apply andb_true_iff in Hq as [Hc _]. destruct c; [done|].
    cbn in Hm. rewrite (Hm eq_refl). by split.
  - destruct b; (split; [done|]); intros Hb Hm; [by split|done].
Qed.

#[local] Hint Resolve tracks_hal tracks_connected tracks_disconnected : runs.

Lemma tracks_refresh : respects tracks refresh.
Proof.
  apply respects_bind; [exact _|apply tracks_hal|]. intros [st|s]; [|apply respects_ret; exact _].
  unfold applyStatus. destruct (ns_connected st); [apply tracks_connected|apply tracks_disconnected].
Qed.

Lemma tracks_connect p : respects tracks (connectWifi p).
Proof.
  apply respects_bind; [exact _|apply tracks_hal|]. intros s.
  assert (forall a : Status, respects tracks (publishDisconnected true;; mret a)) as Hd.
  { intros a. apply respects_bind; [exact _|apply tracks_disconnected|]. intros _. apply respects_ret. exact _. }
  destruct (negb (status_ok s)); [apply Hd|].
  apply respects_bind; [exact _|apply tracks_hal|]. intros [st|s']; [|apply Hd].
  unfold applyStatus. destruct (ns_connected st); [|apply Hd].
  apply respects_bind; [exact _|apply tracks_connected|]. intros _. apply respects_ret. exact _.
Qed.

Lemma tracks_join sha id : respects tracks (joinStreamerAp sha id).
Proof.
  unfold joinStreamerAp. destruct (String.eqb id ""); [apply respects_ret; exact _|].
  apply respects_bind; [exact _|apply respects_get; exact _|]. intros n.
  destruct (connected_ n); [apply respects_ret; exact _|].
  apply respects_bind; [exact _|apply tracks_hal|]. intros [l|s]; [|apply respects_ret; exact _].
  destruct (existsb _ _); [apply tracks_connect|apply respects_ret; exact _].
Qed.

Lemma tracks_op sha o : respects tracks (run_op sha o).
Proof.
  destruct o as [|p|id]; [apply tracks_refresh|..]; (apply respects_bind; [exact _| |]);
    try (intros _; apply respects_ret; exact _); [apply tracks_connect|apply tracks_join].
Qed.

Lemma tracks_ops sha l : respects tracks (run_ops sha l).
Proof.
  induction l as [|o l IH]; [apply respects_ret; exact _|].
  apply respects_bind; [exact _|apply tracks_op|by intros _].
Qed.
End Manager.
Arguments NetworkManager : clear implicits.

(** ** The [nmcli] implementation *)

Definition quote : ascii := ascii_of_nat 39.
Definition backslash : ascii := ascii_of_nat 92.
Definition space : ascii := ascii_of_nat 32.
Definition colon : ascii := ascii_of_nat 58.
Definition line_feed : ascii := ascii_of_nat 10.
Definition carriage_return : ascii := ascii_of_nat 13.

(** The text between the quotes. *)
(* [src/src/network/NmcliNetworkHal.cpp:32-37] shq *)
Fixpoint shq_body (s : string) : string :=
  match s with
  | EmptyString => EmptyString
  | String c s =>
      if bool_decide (c = quote)
      then String quote (String backslash (String quote (String quote (shq_body s))))
      else String c (shq_body s)
  end.

(* [src/src/network/NmcliNetworkHal.cpp:30-40] shq *)
Definition shq (s : string) : string := String quote (shq_body s +:+ String quote "").

(** The reading of a simple command by a POSIX shell: how the next byte is read, and the
    word begun, if any. *)
Inductive ShMode := Plain | Quoted | Escaped.

(** Bytes that mean something to the shell where they are not quoted. *)
Definition shell_special (c : ascii) : bool :=
  existsb (fun n => (nat_of_ascii c =? n)%nat)
    [9; 10; 33; 34; 35; 36; 38; 40; 41; 42; 59; 60; 62; 63; 91; 93; 96; 123; 124; 125; 126].

(** The words of a text without NUL bytes; [None] where a quote stays open or an unquoted
    byte would make the shell do more than pass words. *)
Fixpoint sh_split (m : ShMode) (cur : option string) (s : string) : option (list string) :=
  match s with
  | EmptyString => match m with Plain => Some (option_list cur) | _ => None end
  | String c s =>
      let add := default EmptyString cur +:+ String c EmptyString in
      match m with
      | Quoted => if bool_decide (c = quote) then sh_split Plain cur s else sh_split Quoted (Some add) s
      | Escaped => sh_split Plain (Some add) s
      | Plain =>
          if bool_decide (c = quote) then sh_split Quoted (Some (default EmptyString cur)) s
          else if bool_decide (c = backslash) then sh_split Escaped cur s
          else if bool_decide (c = space) then app (option_list cur) <$> sh_split Plain None s
          else if shell_special c then None
          else sh_split Plain (Some add) s
      end
  end.

Definition sh_words (s : string) : option (list string) := sh_split Plain None s.

Lemma sh_split_app a m cur ws b :
  sh_split m cur a = Some ws -> sh_split m cur (a +:+ String space b) = app ws <$> sh_words b.
Proof.
  revert m cur ws. induction a as [|c a IH]; intros m cur ws H.
  { destruct m; [|done|done]. injection H as [= <-]. done. }
  rewrite str_app_cons. cbn [sh_split] in H |- *.
  destruct m; [destruct (bool_decide (c = quote)); [by apply IH|];
               destruct (bool_decide (c = backslash)); [by apply IH|];
               destruct (bool_decide (c = space));
                 [|destruct (shell_special c); [done|by apply IH]] |
               destruct (bool_decide (c = quote)); by apply IH | by apply IH].
  apply fmap_Some in H as (l & Hl & ->). rewrite (IH _ _ _ Hl). destruct (sh_words b); [|done].
  cbn. by rewrite app_assoc.
Qed.

Lemma sh_words_app a ws b :
  sh_words a = Some ws -> sh_words (a +:+ String space b) = app ws <$> sh_words b.
Proof. apply sh_split_app. Qed.

Lemma sh_body s w : sh_split Quoted (Some w) (shq_body s +:+ String quote "") = Some [w +:+ s].
Proof.
  revert w. induction s as [|c s IH]; intros w; [cbn; by rewrite str_app_nil|]. cbn [shq_body].
  assert (w +:+ String c s = (w +:+ String c "") +:+ s) as -> by (by rewrite str_app_assoc).
  rewrite <- IH. destruct (bool_decide_reflect (c = quote)) as [->|Hc].
  - change (String ?a (String ?b (String ?c (String ?d ?x))) +:+ ?y)
      with (String a (String b (String c (String d (x +:+ y))))).
    cbn [sh_split default]. rewrite !(bool_decide_eq_true_2 (quote = quote)) by done.
    rewrite (bool_decide_eq_false_2 (backslash = quote)) by done.
    by rewrite (bool_decide_eq_true_2 (backslash = backslash)) by done.
  - rewrite str_app_cons. cbn [sh_split]. by rewrite bool_decide_eq_false_2 by done.
Qed.

(** A quoted argument is read back as one word, whatever it holds. *)
Lemma sh_words_shq s : sh_words (shq s) = Some [s].
Proof.
  unfold sh_words, shq. cbn [sh_split]. rewrite bool_decide_eq_true_2 by done. apply sh_body.
Qed.

(* [src/src/network/NmcliNetworkHal.cpp:82-83] NmcliNetworkHal::connectWifi *)
Definition connect_command (p : WifiConnectParams) : string :=
  "nmcli device wifi connect " +:+ shq (c_ssid p) +:+ " password " +:+ shq (c_psk p) +:+
  " ifname wlan0 >/dev/null 2>&1".

Definition profile : string := "nexus-wifi".

(* [src/src/network/NmcliNetworkHal.cpp:95-99] NmcliNetworkHal::connectWifi *)
Definition add_command (p : WifiConnectParams) : string :=
  "nmcli connection add type wifi ifname wlan0 con-name " +:+ shq profile +:+ " ssid " +:+ shq (c_ssid p) +:+
  (if c_hidden p then " 802-11-wireless.hidden yes" else "") +:+
  (if String.eqb (c_band p) "" then "" else " 802-11-wireless.band " +:+ shq (c_band p)) +:+
  " >/dev/null 2>&1".

(* [src/src/network/NmcliNetworkHal.cpp:108-111] NmcliNetworkHal::connectWifi *)
Definition psk_command (p : WifiConnectParams) : string :=
  "nmcli connection modify " +:+ shq profile +:+
  " 802-11-wireless-security.key-mgmt wpa-psk 802-11-wireless-security.psk " +:+ shq (c_psk p) +:+
  " >/dev/null 2>&1".

(* [src/src/network/NmcliNetworkHal.cpp:121-125] NmcliNetworkHal::connectWifi *)
Definition ip_command (p : WifiConnectParams) : string :=
  "nmcli connection modify " +:+ shq profile +:+ " ipv4.method manual ipv4.addresses " +:+ shq (c_static_ip p) +:+
  (if String.eqb (c_gateway p) "" then "" else " ipv4.gateway " +:+ shq (c_gateway p)) +:+
  (if String.eqb (c_dns p) "" then "" else " ipv4.dns " +:+ shq (c_dns p)) +:+ " >/dev/null 2>&1".

(** [std::getline]. *)
Fixpoint lines_from (acc s : string) : list string :=
  match s with
  | EmptyString => if String.eqb acc "" then [] else [acc]
  | String c s => if bool_decide (c = line_feed) then acc :: lines_from "" s
                  else lines_from (acc +:+ String c "") s
  end.
Definition lines (s : string) : list string := lines_from "" s.

(** The text before the first [c] and the text after it. *)
Fixpoint split_at (c : ascii) (s : string) : option (string * string) :=
  match s with
  | EmptyString => None
  | String d s =>
      if bool_decide (d = c) then Some ("", s)
      else match split_at c s with Some (a, b) => Some (String d a, b) | None => None end
  end.

(** One line of [nmcli device]: device, type, state, connection. *)
(* [src/src/network/NmcliNetworkHal.cpp:162-171] NmcliNetworkHal::status *)
Definition device_line (line : string) : option (string * string * string * string) :=
  '(device, r) ← split_at colon line;
  '(ty, r) ← split_at colon r;
  '(state, conn) ← split_at colon r;
  Some (device, ty, state, conn).

(** Whether a line names a genuine uplink. *)
(* [src/src/network/NmcliNetworkHal.cpp:172-175] NmcliNetworkHal::status *)
Definition is_uplink (d : string * string * string * string) : bool :=
  let '(device, ty, state, conn) := d in
  String.eqb state "connected" &&
  negb (String.eqb ty "wifi-p2p" || match strip_prefix "p2p-" device with Some _ => true | None => false end) &&
  negb (String.eqb conn "nexus-setup-ap") &&
  (String.eqb ty "ethernet" || String.eqb ty "wifi").

(** The device and the type held when the loop ends: a wired uplink stops it. *)
(* [src/src/network/NmcliNetworkHal.cpp:160-180] NmcliNetworkHal::status *)
Fixpoint choose_uplink (l : list string) (best : string * string) : string * string :=
  match l with
  | [] => best
  | line :: l =>
      match device_line line with
      | Some (device, ty, state, conn) =>
          if is_uplink (device, ty, state, conn)
          then if String.eqb ty "ethernet" then (device, ty) else choose_uplink l (device, ty)
          else choose_uplink l best
      | None => choose_uplink l best
      end
  end.

(** [while (!s.empty() && ...) s.pop_back()]. *)
Fixpoint strip_end (s : string) : string :=
  match s with
  | EmptyString => EmptyString
  | String c s =>
      let r := strip_end s in
      if String.eqb r "" && (bool_decide (c = line_feed) || bool_decide (c = carriage_return)) then ""
      else String c r
  end.

(* [src/src/network/NmcliNetworkHal.cpp:188-196] NmcliNetworkHal::status *)
Definition address_of (out : string) : string :=
  match split_at colon out with
  | None => ""
  | Some (_, v) =>
      strip_end (match split_at (ascii_of_nat 47) v with Some (a, _) => a | None => v end)
  end.

Section Nmcli.
Context {W E : Type}.
(** [popen], reading to the end, [pclose]: [None] when the process cannot be made, else
    what it printed and its status. *)
Variable popen : string -> SW W E (option (string * Z)).
(** [std::stoi], 0 where it throws. *)
Variable stoi_or_0 : string -> Z.

(** The status variable keeps its value when the process cannot be made. *)
(* [src/src/network/NmcliNetworkHal.cpp:18-26] run *)
Definition run (cmd : string) (rc : Z) : SW W E (Result string * Z) :=
  r ← popen cmd;
  mret (match r with
        | None => (Failure (error ErrorCode.IoError "popen failed"), rc)
        | Some (out, rc) => (Value out, rc)
        end).

(* [src/src/network/NmcliNetworkHal.cpp:51-62] NmcliNetworkHal::scanWifi *)
Definition scan_line (line : string) : option WifiNetwork :=
  match split_at colon line with
  | None => None
  | Some (ssid, v) => if String.eqb ssid "" then None else Some (mk_wifi_network ssid (stoi_or_0 v))
  end.

(* [src/src/network/NmcliNetworkHal.cpp:44-64] NmcliNetworkHal::scanWifi *)
Definition nmcli_scan : SW W E (Result (list WifiNetwork)) :=
  r ← run "nmcli -t -f SSID,SIGNAL device wifi list 2>/dev/null" 0;
  mret (match r.1 with Failure s => Failure s | Value out => Value (omap scan_line (lines out)) end).

Definition remove_profile (rc : Z) : SW W E Z :=
  r ← run ("nmcli connection delete " +:+ shq profile +:+ " >/dev/null 2>&1") rc; mret r.2.

(** From the password on. *)
(* [src/src/network/NmcliNetworkHal.cpp:107-135] NmcliNetworkHal::connectWifi *)
Definition configure_profile (p : WifiConnectParams) (rc : Z) : SW W E Status :=
  k ← (if String.eqb (c_psk p) "" then mret None else r ← run (psk_command p) rc; mret (Some r.2));
  let rc := default rc k in
  if match k with Some k => negb (k =? 0)%Z | None => false end then
    remove_profile rc;; mret (error ErrorCode.InvalidArg "wifi password rejected")
  else
    i ← (if String.eqb (c_static_ip p) "" then mret None else r ← run (ip_command p) rc; mret (Some r.2));
    let rc := default rc i in
    if match i with Some i => negb (i =? 0)%Z | None => false end then
      remove_profile rc;; mret (error ErrorCode.InvalidArg "invalid static IP settings")
    else
      r ← run ("nmcli connection up " +:+ shq profile +:+ " >/dev/null 2>&1") rc;
      mret (if negb (r.2 =? 0)%Z then error ErrorCode.IoError "nmcli connect failed" else success).

(* [src/src/network/NmcliNetworkHal.cpp:66-101] NmcliNetworkHal::connectWifi *)
Definition nmcli_connect (p : WifiConnectParams) : SW W E Status :=
  if String.eqb (c_ssid p) "" then mret (error ErrorCode.InvalidArg "ssid required")
  else
    r ← run "nmcli connection down nexus-setup-ap >/dev/null 2>&1" 0;
    r ← run "nmcli connection delete nexus-setup-ap >/dev/null 2>&1" r.2;
    let advanced := c_hidden p || negb (String.eqb (c_band p) "") || negb (String.eqb (c_static_ip p) "") in
    if negb advanced then
      r ← run (connect_command p) r.2;
      mret (if negb (r.2 =? 0)%Z then error ErrorCode.IoError "nmcli connect failed" else success)
    else
      r ← run ("nmcli connection delete " +:+ profile +:+ " >/dev/null 2>&1") r.2;
      r ← run (add_command p) r.2;
      if negb (r.2 =? 0)%Z then mret (error ErrorCode.IoError "nmcli profile add failed")
      else configure_profile p r.2.

(* [src/src/network/NmcliNetworkHal.cpp:138-142] NmcliNetworkHal::disconnect *)
Definition nmcli_disconnect : SW W E Status :=
  run "nmcli device disconnect wlan0 >/dev/null 2>&1" 0;; mret success.

(* [src/src/network/NmcliNetworkHal.cpp:144-202] NmcliNetworkHal::status *)
Definition nmcli_status : SW W E (Result NetworkStatus) :=
  devs ← run "nmcli -t -f DEVICE,TYPE,STATE,CONNECTION device 2>/dev/null" 0;
  let '(device, ty) := match devs.1 with Value out => choose_uplink (lines out) ("", "") | Failure _ => ("", "") end in
  ip ← (if String.eqb device "" then mret ""
        else
          r ← run ("nmcli -t -f IP4.ADDRESS device show " +:+ device +:+ " 2>/dev/null | head -1") devs.2;
          mret (match r.1 with Value out => address_of out | Failure _ => "" end));
  let connected := negb (String.eqb ip "") in
  mret (Value (mk_net_status connected
    (if connected then (if String.eqb ty "ethernet" then "ethernet" else "wifi") else "") ip 0)).

(* [src/src/network/NmcliNetworkHal.h:10-17] NmcliNetworkHal *)
Definition nmcli_hal : NetworkHal W E :=
  {| scanWifi := nmcli_scan; hal_connect := nmcli_connect; hal_disconnect := nmcli_disconnect;
     hal_status := nmcli_status |}.
End Nmcli.

(** ** The stub of the development hosts *)

Definition no_network : NetworkStatus := mk_net_status false "" "" 0.

(* [src/src/network/INetworkHal.h:63-82] StubNetworkHal *)
#[global] Instance stub_hal : NetworkHal NetworkStatus unit :=
  {| scanWifi := mret (Value [mk_wifi_network "NexusLab" (-45); mk_wifi_network "Guest" (-70)]);
     hal_connect := fun p =>
       modify (fun _ => mk_net_status true "wifi"
         (if String.eqb (c_static_ip p) "" then "10.0.0.50"
          else match split_at (ascii_of_nat 47) (c_static_ip p) with Some (a, _) => a | None => c_static_ip p end)
         (-45));;
       mret success;
     hal_disconnect := modify (fun _ => no_network);; mret success;
     hal_status := st ← get; mret (Value st) |}.

(** ** Properties *)

(** The shell runs the command with these words, its output thrown away. *)
Definition invokes (cmd : string) (args : list string) : Prop :=
  exists line, cmd = line +:+ " >/dev/null 2>&1" /\ sh_words line = Some args.

Lemma invokes_end w ws : sh_words w = Some ws -> invokes (w +:+ " >/dev/null 2>&1") ws.
Proof. intros H. by exists w. Qed.

Lemma invokes_app a ws b l :
  sh_words a = Some ws -> invokes b l -> invokes (a +:+ String space b) (ws ++ l).
Proof.
  intros Ha (line & -> & Hl). exists (a +:+ String space line).
  rewrite str_app_assoc, str_app_cons, (sh_words_app _ _ _ Ha), Hl. done.
Qed.

(** [literal a]: the command begins with the fixed words [a]. *)
Ltac literal a ws := refine (invokes_app a ws _ _ eq_refl _).
Ltac quoted_argument := refine (invokes_app _ [_] _ _ (sh_words_shq _) _).
Ltac last_argument := exact (invokes_end _ [_] (sh_words_shq _)).

(** What the setup page sends cannot become a command.  Whatever bytes an SSID, a
    password, a band or an address holds - quotes, spaces, dollar signs, semicolons - the
    shell that [run] starts reads each of them as one word, in its place in the argument
    list of [nmcli], and reads no other command. *)
Theorem nmcli_gets_exact_arguments p :
  invokes (connect_command p)
    ["nmcli"; "device"; "wifi"; "connect"; c_ssid p; "password"; c_psk p; "ifname"; "wlan0"] /\
  invokes (add_command p)
    (["nmcli"; "connection"; "add"; "type"; "wifi"; "ifname"; "wlan0"; "con-name"; profile; "ssid"; c_ssid p] ++
     (if c_hidden p then ["802-11-wireless.hidden"; "yes"] else []) ++
     (if String.eqb (c_band p) "" then [] else ["802-11-wireless.band"; c_band p])) /\
  invokes (psk_command p)
    ["nmcli"; "connection"; "modify"; profile; "802-11-wireless-security.key-mgmt"; "wpa-psk";
     "802-11-wireless-security.psk"; c_psk p] /\
  invokes (ip_command p)
    (["nmcli"; "connection"; "modify"; profile; "ipv4.method"; "manual"; "ipv4.addresses"; c_static_ip p] ++
     (if String.eqb (c_gateway p) "" then [] else ["ipv4.gateway"; c_gateway p]) ++
     (if String.eqb (c_dns p) "" then [] else ["ipv4.dns"; c_dns p])).
Proof.
  split_and!.
  - literal "nmcli device wifi connect" ["nmcli"; "device"; "wifi"; "connect"]. quoted_argument.
    literal "password" ["password"]. quoted_argument. by exists "ifname wlan0".
  - literal "nmcli connection add type wifi ifname wlan0 con-name 'nexus-wifi' ssid"
      ["nmcli"; "connection"; "add"; "type"; "wifi"; "ifname"; "wlan0"; "con-name"; profile; "ssid"].
    destruct (c_hidden p), (String.eqb (c_band p) "").
    + quoted_argument. by exists "802-11-wireless.hidden yes".
    + quoted_argument. literal "802-11-wireless.hidden yes 802-11-wireless.band"
        ["802-11-wireless.hidden"; "yes"; "802-11-wireless.band"]. last_argument.
    + last_argument.
    + quoted_argument. literal "802-11-wireless.band" ["802-11-wireless.band"]. last_argument.
  - literal "nmcli connection modify 'nexus-wifi' 802-11-wireless-security.key-mgmt wpa-psk 802-11-wireless-security.psk"
      ["nmcli"; "connection"; "modify"; profile; "802-11-wireless-security.key-mgmt"; "wpa-psk";
       "802-11-wireless-security.psk"]. last_argument.
  - literal "nmcli connection modify 'nexus-wifi' ipv4.method manual ipv4.addresses"
      ["nmcli"; "connection"; "modify"; profile; "ipv4.method"; "manual"; "ipv4.addresses"].
    destruct (String.eqb (c_gateway p) ""), (String.eqb (c_dns p) "");
      first [last_argument | quoted_argument];
      first [literal "ipv4.gateway" ["ipv4.gateway"] | literal "ipv4.dns" ["ipv4.dns"]];
      first [last_argument | quoted_argument]; literal "ipv4.dns" ["ipv4.dns"]; last_argument.
Qed.

Lemma uplink_absorbs l :
  (forall u, uplink u l = u) \/ (exists v, forall u, uplink u l = v).
Proof.
  induction l as [|e l IH]; [by left|]. destruct IH as [IH|[v IH]].
  - unfold uplink in *. cbn [fold_left]. setoid_rewrite IH.
    destruct (bool_decide _); [right; by eexists|]. destruct (bool_decide _); [right; by eexists|by left].
  - right. exists v. intros u. apply IH.
Qed.

(** Events already reflected in a view do not change it. *)
Lemma uplink_suffix u a b v : uplink u (a ++ b) = v -> uplink v b = v.
Proof.
  rewrite uplink_app. intros H. destruct (uplink_absorbs b) as [Hid|[w Hw]]; [apply Hid|].
  rewrite Hw in H |- *. done.
Qed.

Section Composition.
Context {W E : Type} {Hal : NetworkHal W E}.

#[local] Existing Instance tracks_run.

(** An attempt to join succeeds exactly when it leaves the manager connected. *)
Lemma connectWifi_connects p n :
  connected_ (state_after (connectWifi p) n) = status_ok (value_of (connectWifi p) n).
Proof.
  assert (forall f m, connected_ (state_after (publishDisconnected (W:=W) (E:=E) f) m) = false) as Hd.
  { intros f m. unfold publishDisconnected, net_publish, when, state_after, mbind, SW_bind, get, modify, tell.
    cbn [fst snd]. destruct (negb (connected_ m) && negb f); [done|]. cbn [fst snd n_bus set_uplink].
    by destruct (n_bus m). }
  assert (forall st k m, ns_connected st = true -> connected_ (state_after (applyStatus (W:=W) (E:=E) st k) m) = true) as Hc.
  { intros st k m Hst. unfold applyStatus. rewrite Hst.
    unfold publishConnected, net_publish, when, state_after, mbind, SW_bind, get, modify, tell.
    destruct m as [w c i md b s]. cbn [fst snd n_bus connected_ ip_ mode_ set_uplink].
    destruct (negb _ && negb k) eqn:Hq; cbn [fst snd connected_].
    - destruct c; [done|discriminate].
    - destruct b, (c && _); done. }
  unfold connectWifi. rewrite state_after_bind, value_of_bind.
  set (n1 := state_after (on_hal (hal_connect p)) n). set (s := value_of (on_hal (hal_connect p)) n).
  destruct (status_ok s) eqn:Hs; cbn [negb].
  2: { rewrite state_after_bind, value_of_bind. change (value_of (mret s) ?x) with s.
       rewrite Hs. apply Hd. }
  rewrite state_after_bind, value_of_bind.
  set (n2 := state_after (on_hal hal_status) n1).
  destruct (value_of (on_hal hal_status) n1) as [st|e]; cbv zeta.
  2: { rewrite state_after_bind, value_of_bind. apply Hd. }
  destruct (ns_connected st) eqn:Hst; rewrite state_after_bind, value_of_bind; [by apply Hc|apply Hd].
Qed.

Lemma tracks_start : respects tracks network_start.
Proof.
  apply respects_bind; [exact _| |].
  - intros n. split; [done|]. intros _ Hm. by split.
  - intros _. apply respects_bind; [exact _|apply tracks_refresh|]. intros _. apply respects_ret. exact _.
Qed.

(** The setup hotspot follows the uplink through the whole chain.  Whatever the
    operating system reports and whatever is polled or joined between the start of the
    network manager and the probe of the provisioning controller, and after it, the
    controller that has handled the events still queued at the probe and those announced
    since keeps the hotspot up exactly while the manager holds no uplink, and advertises
    over Bluetooth exactly while the uplink is not Wi-Fi. *)
Theorem hotspot_follows_network sha hal l1 l2 handled queued c0 :
  let before := network_start;; run_ops sha l1 in
  let n0 := new_network hal true in
  let n1 := state_after before n0 in
  announced (effects_of before n0) = handled ++ queued ->
  let n2 := state_after (run_ops sha l2) n1 in
  let c1 := state_after (provisioning_start (connected_ n1) (String.eqb (mode_ n1) "wifi")) c0 in
  let c2 := state_after (network_events (queued ++ announced (effects_of (run_ops sha l2) n1))) c1 in
  hotspot_on_ c2 = negb (connected_ n2) /\
  ble_on_ c2 = negb (String.eqb (mode_ n2) "wifi").
Proof.
  intros before n0 n1 Ha n2 c1 c2.
  assert (respects tracks before) as Hb.
  { apply respects_bind; [exact _|apply tracks_start|]. intros _. apply tracks_ops. }
  destruct (Hb n0) as [B1 H1]. destruct (H1 eq_refl (fun _ => eq_refl)) as [U1 M1].
  rewrite Ha in U1. apply uplink_suffix in U1. fold n1 in U1, M1, B1.
  destruct (tracks_ops sha l2 n1) as [_ H2]. destruct (H2 B1 M1) as [U2 _]. fold n2 in U2.
  pose proof (network_events_follow (queued ++ announced (effects_of (run_ops sha l2) n1)) _ c1
                (provisioning_start_follows _ _ c0)) as [Hble Hhot].
  fold (view n1) in Hble, Hhot. rewrite uplink_app, U1, U2 in Hble, Hhot. by split.
Qed.
End Composition.

(** ** Witness and observations *)

Definition idle_provisioning : ProvisioningController := mk_provisioning false false ServiceState.Stopped.
Definition home : WifiConnectParams := mk_connect "home" "secret" false "" "" "" "".

Lemma hotspot_follows_network_witness :
  let n1 := state_after (network_start;; run_ops (fun s => s) []) (new_network no_network true) in
  let r := run_ops (fun s => s) [OConnect home; ORefresh] in
  let c1 := state_after (provisioning_start false false) idle_provisioning in
  hotspot_on_ c1 = true /\
  hotspot_on_ (state_after (network_events (announced (effects_of r n1))) c1) = false.
Proof.
  intros n1 r c1. split; [reflexivity|].
  exact (proj1 (hotspot_follows_network (fun s => s) no_network [] [OConnect home; ORefresh] [] []
                  idle_provisioning eq_refl)).
Defined.

(** A hotspot the controller believes to be up is not brought up again: after a failed join,
    which has taken it down at the operating system, the event of [publishDisconnected] makes
    the controller tell its actuator nothing. *)
Lemma failed_join_leaves_hotspot_down c :
  follows (false, false) c ->
  effects_of (on_network_event (event EventType.NetworkDisconnected "network" [])) c = [].
Proof.
  intros [Hb Hh]. unfold on_network_event, effects_of.
  rewrite bool_decide_eq_false_2, bool_decide_eq_true_2 by done.
  destruct (applyConnectivity_run false false c) as [_ ->]. rewrite Hb, Hh. done.
Qed.

