(* ===== verification/Audio.v ===== *)
(** * Audio: the synchronised stream on the speaker

    Models [src/src/audio]: the datagram format, the jitter buffer, the clock
    tracker, the receiver and the playback step.  Bytes are [Z] below 256, [size_t]
    is 64 bits wide, and a [double] is a [spec_float] of 53 bits of precision; the
    output device and the DSP chain are arguments. *)

From S2P Require Import Prelude Core Json Files Config.

Local Open Scope Z_scope.

(** ** Bytes *)

Definition byte_ok (b : Z) : Prop := in_unsigned 8 b.

(** An or of bit patterns that do not overlap is their sum. *)
Lemma lor_disjoint a b k : 0 <= k -> in_unsigned k b -> Z.lor (a * 2 ^ k) b = a * 2 ^ k + b.
Proof.
  intros Hk [Hb0 Hb]. pose proof (Z.add_lor_land (a * 2 ^ k) b).
  assert (Z.land (a * 2 ^ k) b = 0); [|lia].
  apply Z.bits_inj'. intros n Hn. rewrite Z.land_spec, Z.bits_0.
  destruct (Z.lt_ge_cases n k).
  - by rewrite Z.mul_pow2_bits_low.
  - destruct (decide (b = 0)) as [->|Hb'].
    + by rewrite Z.bits_0, andb_false_r.
    + rewrite (Z.bits_above_log2 b n); [apply andb_false_r|done|].
      apply Z.log2_lt_pow2; [lia|]. eapply Z.lt_le_trans; [exact Hb|].
      apply Z.pow_le_mono_r; lia.
Qed.

Module wire.
Definition kHeaderSize : Z := 24.
Definition kFlagLast : Z := 1.

(* [src/src/audio/AudioPacket.h:30-33] wire::readBE32 *)
Definition readBE32 (p0 p1 p2 p3 : Z) : Z :=
  Z.lor (Z.lor (Z.lor (Z.shiftl p0 24) (Z.shiftl p1 16)) (Z.shiftl p2 8)) p3.

(* [src/src/audio/AudioPacket.h:34-38] wire::readBE64 *)
Definition readBE64 (p : list Z) : Z :=
  fold_left (fun v b => Z.lor (wrap 64 (Z.shiftl v 8)) b) (take 8 p) 0.

(* [src/src/audio/AudioPacket.h:39-44] wire::writeBE32 *)
Definition writeBE32 (v : Z) : list Z :=
  [wrap 8 (Z.shiftr v 24); wrap 8 (Z.shiftr v 16); wrap 8 (Z.shiftr v 8); wrap 8 v].

(** [i] counts down from [n - 1] to 0; the byte written at each step is the last one. *)
Fixpoint write_bytes (n : nat) (v : Z) : list Z :=
  match n with
  | O => []
  | S n => write_bytes n (Z.shiftr v 8) ++ [Z.land v 0xFF]
  end.

(* [src/src/audio/AudioPacket.h:45-50] wire::writeBE64 *)
Definition writeBE64 (v : Z) : list Z := write_bytes 8 v.
End wire.
Import wire.

Lemma land_255 v : Z.land v 0xFF = v mod 256.
Proof. change 0xFF with (Z.ones 8). by rewrite Z.land_ones. Qed.

Lemma write_bytes_length n v : length (write_bytes n v) = n.
Proof. revert v. induction n; intros v; simpl; [done|]. rewrite length_app, IHn. simpl. lia. Qed.

Lemma write_bytes_ok n v : Forall byte_ok (write_bytes n v).
Proof.
  revert v. induction n; intros v; simpl; [constructor|].
  apply Forall_app. split; [apply IHn|]. apply Forall_singleton. rewrite land_255.
  apply Z.mod_pos_bound. lia.
Qed.

(** Reading back a number that fits. *)
Lemma read_write_bytes n v a :
  (n <= 8)%nat -> 0 <= v < 2 ^ (8 * Z.of_nat n) -> 0 <= a ->
  a * 2 ^ (8 * Z.of_nat n) + v < 2 ^ 64 ->
  fold_left (fun v b => Z.lor (wrap 64 (Z.shiftl v 8)) b) (write_bytes n v) a =
    a * 2 ^ (8 * Z.of_nat n) + v.
Proof.
  revert v a. induction n as [|n IH]; intros v a Hn Hv Ha Hlt; simpl write_bytes.
  - simpl in *. change (2 ^ 0) with 1 in *. lia.
  - rewrite fold_left_app. simpl.
    replace (8 * Z.of_nat (S n)) with (8 * Z.of_nat n + 8) in * by lia.
    rewrite Z.pow_add_r in * by lia. change (2 ^ 8) with 256 in *.
    pose proof (Z.div_mod v 256 ltac:(lia)). pose proof (Z.mod_pos_bound v 256 ltac:(lia)).
    set (P := 2 ^ (8 * Z.of_nat n)) in *.
    assert (0 < P) by (apply Z.pow_pos_nonneg; lia).
    assert (Hdiv : 0 <= v / 256 < P)
      by (split; [apply Z.div_pos; lia|apply Z.div_lt_upper_bound; lia]).
    rewrite Z.shiftr_div_pow2 by lia. change (2 ^ 8) with 256.
    change (2 ^ 64) with 18446744073709551616 in *.
    rewrite IH by (try change (2 ^ 64) with 18446744073709551616; nia).
    rewrite land_255, Z.shiftl_mul_pow2 by lia. change (2 ^ 8) with 256.
    unfold wrap. rewrite Z.mod_small by (change (2 ^ 64) with 18446744073709551616; nia).
    pose proof (lor_disjoint (a * P + v / 256) (v mod 256) 8 ltac:(lia)) as Hl.
    unfold in_unsigned in Hl. change (2 ^ 8) with 256 in Hl. rewrite Hl by done. nia.
Qed.

Lemma read_write_BE64 v r : in_unsigned 64 v -> readBE64 (writeBE64 v ++ r) = v.
Proof.
  intros Hv. unfold readBE64. rewrite take_app_length' by (symmetry; apply write_bytes_length).
  unfold writeBE64. rewrite read_write_bytes; [lia|lia|exact Hv|lia|exact (proj2 Hv)].
Qed.

Lemma read_BE32_sum p0 p1 p2 p3 :
  byte_ok p1 -> byte_ok p2 -> byte_ok p3 ->
  readBE32 p0 p1 p2 p3 = p0 * 2 ^ 24 + p1 * 2 ^ 16 + p2 * 2 ^ 8 + p3.
Proof.
  unfold byte_ok, in_unsigned, readBE32. intros H1 H2 H3. rewrite !Z.shiftl_mul_pow2 by lia.
  rewrite (lor_disjoint p0 (p1 * 2 ^ 16) 24) by (unfold in_unsigned; lia).
  replace (p0 * 2 ^ 24 + p1 * 2 ^ 16) with ((p0 * 2 ^ 8 + p1) * 2 ^ 16) by lia.
  rewrite (lor_disjoint _ (p2 * 2 ^ 8) 16) by (unfold in_unsigned; lia).
  replace ((p0 * 2 ^ 8 + p1) * 2 ^ 16 + p2 * 2 ^ 8) with ((p0 * 2 ^ 16 + p1 * 2 ^ 8 + p2) * 2 ^ 8)
    by lia.
  rewrite (lor_disjoint _ p3 8) by (unfold in_unsigned; lia). lia.
Qed.

Lemma wrap_byte v : byte_ok (wrap 8 v).
Proof. apply wrap_bound. lia. Qed.
#[local] Hint Resolve wrap_byte : nexus.

Lemma read_write_BE32 v :
  in_unsigned 32 v ->
  readBE32 (wrap 8 (Z.shiftr v 24)) (wrap 8 (Z.shiftr v 16)) (wrap 8 (Z.shiftr v 8)) (wrap 8 v) = v.
Proof.
  intros Hv. rewrite read_BE32_sum by auto with nexus. unfold wrap, in_unsigned in *.
  rewrite !Z.shiftr_div_pow2 by lia. change (2 ^ 24) with 16777216. change (2 ^ 16) with 65536.
  change (2 ^ 8) with 256. change (2 ^ 32) with 4294967296 in Hv.
  Z.to_euclidean_division_equations. lia.
Qed.

(** ** Packets *)

(** The timestamp is kept as the 64 bits of the double, which [memcpy] moves. *)
(* [src/src/audio/AudioPacket.h:53-58] AudioHeader *)
Record AudioHeader := mk_header
  { timestamp : Z; sequence : Z; frame_count : Z; flags : Z }.

(* [src/src/audio/AudioPacket.h:61-66] AudioPacket *)
Record AudioPacket := mk_packet { header : AudioHeader; samples : list Z }.

(* [src/src/audio/AudioPacket.h:65-65] AudioPacket::isLast *)
Definition isLast (p : AudioPacket) : bool :=
  negb (Z.land (flags (header p)) kFlagLast =? 0).

(** Reinterpreting memory: little-endian 16-bit two's complement samples. *)
Fixpoint bytes_to_samples (n : nat) (b : list Z) : list Z :=
  match n, b with
  | S n, lo :: hi :: b => to_signed 16 (lo + 256 * hi) :: bytes_to_samples n b
  | _, _ => []
  end.

Definition sample_to_bytes (s : Z) : list Z := [wrap 8 s; wrap 8 (Z.shiftr s 8)].

(** [static_cast<std::size_t>] arithmetic wraps at 64 bits. *)
(* [src/src/audio/AudioPacket.cpp:14-16] unpackPacket *)
Definition sample_count (frames channels : Z) : Z := wrap 64 (frames * wrap 64 channels).

(** [n] bytes of the datagram from [off] on; [None]: the read goes outside it. *)
Definition read_bytes (buf : list Z) (off n : nat) : option (list Z) :=
  if (off + n <=? length buf)%nat then Some (take n (drop off buf)) else None.

Definition read_BE64_at (buf : list Z) (off : nat) : option Z := readBE64 <$> read_bytes buf off 8.
Definition read_BE32_at (buf : list Z) (off : nat) : option Z :=
  p ← read_bytes buf off 4;
  match p with [p0; p1; p2; p3] => Some (readBE32 p0 p1 p2 p3) | _ => None end.

(** Every read of memory is checked against the datagram: the outer [None] is a read outside
    it, which C++ leaves undefined; the inner one is the [false] of the code. *)
(* [src/src/audio/AudioPacket.cpp:5-23] unpackPacket *)
Definition decode_packet (buf : list Z) (channels : Z) : option (option AudioPacket) :=
  let len := Z.of_nat (length buf) in
  if len <? kHeaderSize then Some None
  else
    ts_bits ← read_BE64_at buf 0;
    seq ← read_BE64_at buf 8;
    frames ← read_BE32_at buf 16;
    fl ← read_BE32_at buf 20;
    let sample_count := sample_count frames channels in
    let need := wrap 64 (kHeaderSize + wrap 64 (sample_count * 2)) in
    if len <? need then Some None
    else
      payload ← read_bytes buf 24 (Z.to_nat (wrap 64 (sample_count * 2)));
      Some (Some (mk_packet (mk_header ts_bits seq frames fl)
                    (bytes_to_samples (Z.to_nat sample_count) payload))).

(** What the caller gets; that nothing is read outside the datagram is a theorem. *)
(* [src/src/audio/AudioPacket.cpp:5-23] unpackPacket *)
Definition unpackPacket (buf : list Z) (channels : Z) : option AudioPacket :=
  default None (decode_packet buf channels).

(* [src/src/audio/AudioPacket.cpp:25-37] packPacket *)
Definition packPacket (p : AudioPacket) : list Z :=
  writeBE64 (timestamp (header p)) ++ writeBE64 (sequence (header p)) ++
  writeBE32 (frame_count (header p)) ++ writeBE32 (flags (header p)) ++
  concat (sample_to_bytes <$> samples p).

Definition header_ok (h : AudioHeader) : Prop :=
  in_unsigned 64 (timestamp h) /\ in_unsigned 64 (sequence h) /\
  in_unsigned 32 (frame_count h) /\ in_unsigned 32 (flags h).

(** The packets a sender may build: the payload is what the header announces. *)
Definition packet_ok (channels : Z) (p : AudioPacket) : Prop :=
  header_ok (header p) /\
  Z.of_nat (length (samples p)) = frame_count (header p) * channels /\
  Forall (in_signed 16) (samples p).

Lemma wrap_bytes s : wrap 8 s + 256 * wrap 8 (Z.shiftr s 8) = wrap 16 s.
Proof.
  rewrite Z.shiftr_div_pow2 by lia. unfold wrap. change (2 ^ 8) with 256. change (2 ^ 16) with 65536.
  Z.to_euclidean_division_equations. lia.
Qed.

Lemma sample_bytes s : in_signed 16 s ->
  to_signed 16 (wrap 8 s + 256 * wrap 8 (Z.shiftr s 8)) = s.
Proof. intros Hs. rewrite wrap_bytes. apply to_signed_wrap; [lia|done]. Qed.

Lemma samples_round_trip l rest : Forall (in_signed 16) l ->
  bytes_to_samples (length l) (concat (sample_to_bytes <$> l) ++ rest) = l.
Proof.
  induction 1 as [|s l Hs _ IH]; simpl; [done|].
  f_equal; [by apply sample_bytes|exact IH].
Qed.

Lemma sample_bytes_length l : length (concat (sample_to_bytes <$> l)) = (2 * length l)%nat.
Proof. induction l as [|s l IH]; [done|]. rewrite fmap_cons. simpl. rewrite IH. lia. Qed.

Lemma bytes_to_samples_length n b : (2 * n <= length b)%nat -> length (bytes_to_samples n b) = n.
Proof.
  revert b. induction n as [|n IH]; intros [|lo [|hi b]]; simpl; try lia. intros. rewrite IH; lia.
Qed.

Lemma bytes_to_samples_range n b : Forall (in_signed 16) (bytes_to_samples n b).
Proof.
  revert b. induction n as [|n IH]; intros [|lo [|hi b]]; simpl; constructor; auto.
  apply to_signed_bound. lia.
Qed.

(** The size computation cannot wrap at 64 bits for any announced frame count. *)
Lemma sample_count_exact frames channels :
  in_unsigned 32 frames -> 0 <= channels < 2 ^ 16 ->
  sample_count frames channels = frames * channels /\
  wrap 64 (kHeaderSize + wrap 64 (sample_count frames channels * 2)) = 24 + frames * channels * 2.
Proof.
  unfold sample_count, wrap, in_unsigned, kHeaderSize. intros Hf Hc.
  change (2 ^ 16) with 65536 in *. change (2 ^ 32) with 4294967296 in *.
  change (2 ^ 64) with 18446744073709551616.
  assert (0 <= frames * channels < 4294967296 * 65536) by nia.
  rewrite (Z.mod_small channels) by lia. rewrite (Z.mod_small (frames * channels)) by lia.
  rewrite (Z.mod_small (frames * channels * 2)), Z.mod_small by lia. lia.
Qed.

(** ** Reads of the datagram *)

Definition byte_at (buf : list Z) (i : nat) : Z := nth i buf 0.

Lemma read_bytes_within buf off n :
  (off + n <= length buf)%nat -> read_bytes buf off n = Some (take n (drop off buf)).
Proof. intros H. unfold read_bytes. by rewrite (proj2 (Nat.leb_le _ _)). Qed.

Lemma take_4_drop buf off :
  (off + 4 <= length buf)%nat ->
  take 4 (drop off buf) = [byte_at buf off; byte_at buf (off + 1); byte_at buf (off + 2); byte_at buf (off + 3)].
Proof.
  intros H. unfold byte_at. revert off H. induction buf as [|x buf IH]; simpl; intros [|off] H; try lia.
  - destruct buf as [|? [|? [|? buf]]]; simpl in H; try lia. done.
  - apply IH. lia.
Qed.

Lemma read_BE64_within buf off :
  (off + 8 <= length buf)%nat -> read_BE64_at buf off = Some (readBE64 (drop off buf)).
Proof.
  intros H. unfold read_BE64_at. rewrite read_bytes_within by done. simpl. unfold readBE64.
  by rewrite take_take.
Qed.

Lemma read_BE32_within buf off :
  (off + 4 <= length buf)%nat ->
  read_BE32_at buf off
    = Some (readBE32 (byte_at buf off) (byte_at buf (off + 1)) (byte_at buf (off + 2)) (byte_at buf (off + 3))).
Proof. intros H. unfold read_BE32_at. rewrite read_bytes_within by done. simpl. by rewrite take_4_drop. Qed.

Lemma bytes_to_samples_take n m b : (2 * n <= m)%nat -> bytes_to_samples n (take m b) = bytes_to_samples n b.
Proof.
  revert m b. induction n as [|n IH]; intros m b H; [done|].
  destruct m as [|[|m]]; [lia|lia|]. destruct b as [|lo [|hi b]]; simpl; try done. by rewrite IH by lia.
Qed.

(** The decoder without the checks, where no read goes outside the datagram. *)
Lemma decode_packet_run buf channels :
  let h := mk_header (readBE64 buf) (readBE64 (drop 8 buf))
             (readBE32 (byte_at buf 16) (byte_at buf 17) (byte_at buf 18) (byte_at buf 19))
             (readBE32 (byte_at buf 20) (byte_at buf 21) (byte_at buf 22) (byte_at buf 23)) in
  in_unsigned 32 (frame_count h) -> 0 <= channels < 2 ^ 16 ->
  decode_packet buf channels = Some
    (if Z.of_nat (length buf) <? kHeaderSize then None
     else if Z.of_nat (length buf) <? 24 + frame_count h * channels * 2 then None
     else Some (mk_packet h (bytes_to_samples (Z.to_nat (frame_count h * channels)) (drop 24 buf)))).
Proof.
  intros h Hf Hc. destruct (sample_count_exact _ _ Hf Hc) as [Hcount Hneed]. unfold decode_packet.
  destruct (Z.ltb_spec (Z.of_nat (length buf)) kHeaderSize) as [|Hlen]; [done|]. unfold kHeaderSize in Hlen.
  rewrite !read_BE64_within, !read_BE32_within by lia. cbn [mbind option_bind].
  change (readBE32 (byte_at buf 16) (byte_at buf (16 + 1)) (byte_at buf (16 + 2)) (byte_at buf (16 + 3)))
    with (frame_count h).
  rewrite Hneed. destruct (Z.ltb_spec (Z.of_nat (length buf)) (24 + frame_count h * channels * 2)) as [|Hn]; [done|].
  assert (wrap 64 (sample_count (frame_count h) channels * 2) = frame_count h * channels * 2) as ->.
  { rewrite Hcount. unfold wrap. rewrite Z.mod_small; [done|]. unfold in_unsigned in Hf.
    change (2 ^ 16) with 65536 in *. change (2 ^ 32) with 4294967296 in *.
    change (2 ^ 64) with 18446744073709551616. nia. }
  unfold in_unsigned in Hf. rewrite Hcount, read_bytes_within by (rewrite <- (Nat2Z.id (length buf)); nia).
  cbn [mbind option_bind]. do 3 f_equal. apply bytes_to_samples_take. nia.
Qed.

Lemma unpackPacket_run buf channels :
  let h := mk_header (readBE64 buf) (readBE64 (drop 8 buf))
             (readBE32 (byte_at buf 16) (byte_at buf 17) (byte_at buf 18) (byte_at buf 19))
             (readBE32 (byte_at buf 20) (byte_at buf 21) (byte_at buf 22) (byte_at buf 23)) in
  in_unsigned 32 (frame_count h) -> 0 <= channels < 2 ^ 16 ->
  unpackPacket buf channels =
    if Z.of_nat (length buf) <? kHeaderSize then None
    else if Z.of_nat (length buf) <? 24 + frame_count h * channels * 2 then None
    else Some (mk_packet h (bytes_to_samples (Z.to_nat (frame_count h * channels)) (drop 24 buf))).
Proof. intros h Hf Hc. unfold unpackPacket. by rewrite decode_packet_run. Qed.

Lemma bytes_to_samples_lookup n b k :
  (k < n)%nat -> (2 * n <= length b)%nat ->
  bytes_to_samples n b !! k = Some (to_signed 16 (byte_at b (2 * k) + 256 * byte_at b (2 * k + 1))).
Proof.
  unfold byte_at. revert n b. induction k as [|k IH]; intros [|n] [|lo [|hi b]] Hk Hn; simpl in *; try lia; [done|].
  rewrite IH by lia. by replace (k + S (k + 0))%nat with (S (2 * k)) by lia.
Qed.

Lemma byte_at_drop buf off i : byte_at (drop off buf) i = byte_at buf (off + i).
Proof.
  unfold byte_at. revert off. induction buf as [|x buf IH]; intros [|off]; simpl; try done.
  by destruct i.
Qed.

(** ** Doubles *)

Definition fsub : spec_float -> spec_float -> spec_float := SFsub 53 1024.
Definition fadd : spec_float -> spec_float -> spec_float := SFadd 53 1024.
Definition fmul : spec_float -> spec_float -> spec_float := SFmul 53 1024.
Definition fdiv : spec_float -> spec_float -> spec_float := SFdiv 53 1024.
Definition f_of_Z (z : Z) : spec_float := binary_normalize 53 1024 z 0 false.
Definition f0 : spec_float := S754_zero false.

(** The double with the given 64 bits. *)
Definition double_of_bits (b : Z) : spec_float :=
  let s := Z.testbit b 63 in
  let e := Z.land (Z.shiftr b 52) 0x7FF in
  let m := Z.land b 0xFFFFFFFFFFFFF in
  if e =? 0x7FF then (if m =? 0 then S754_infinity s else S754_nan)
  else
    let mant := if e =? 0 then m else m + 2 ^ 52 in
    let ex := if e =? 0 then -1074 else e - 1075 in
    match mant with
    | Zpos p => S754_finite s p ex
    | _ => S754_zero s
    end.

(** [static_cast] of a double to an integer drops the fraction. *)
Definition f_trunc (x : spec_float) : Z :=
  match x with
  | S754_finite s m e =>
      let a := if 0 <=? e then Zpos m * 2 ^ e else Zpos m / 2 ^ (- e) in
      if s then - a else a
  | _ => 0
  end.

(** ** The jitter buffer *)

(* [src/src/audio/AudioBuffer.h:13-20] BufferMetrics *)
Record BufferMetrics := mk_metrics
  { received : Z; dropped_overflow : Z; lost : Z; underflows : Z; last_sequence : Z }.

(* [src/src/audio/AudioBuffer.h:26-70] AudioBuffer *)
Record AudioBuffer := mk_buffer
  { queue_ : list AudioPacket; prefill_ : nat; capacity_ : nat; metrics_ : BufferMetrics;
    have_last_seq_ : bool }.

(* [src/src/audio/AudioBuffer.h:28-29] AudioBuffer::AudioBuffer *)
Definition new_buffer (prefill capacity : nat) : AudioBuffer :=
  mk_buffer [] prefill capacity (mk_metrics 0 0 0 0 0) false.

Definition incr (x : Z) : Z := wrap 64 (x + 1).

(* [src/src/audio/AudioBuffer.cpp:7-16] AudioBuffer::push *)
Definition note_sequence (have : bool) (seq : Z) (m : BufferMetrics) : BufferMetrics :=
  let lost' :=
    if have && (incr (last_sequence m) <? seq)
    then wrap 64 (lost m + (seq - last_sequence m - 1)) else lost m in
  let last' := if negb have || (last_sequence m <? seq) then seq else last_sequence m in
  mk_metrics (incr (received m)) (dropped_overflow m) lost' (underflows m) last'.

(* [src/src/audio/AudioBuffer.cpp:5-23] AudioBuffer::push *)
Definition push (p : AudioPacket) (b : AudioBuffer) : AudioBuffer :=
  let m := note_sequence (have_last_seq_ b) (sequence (header p)) (metrics_ b) in
  if (capacity_ b <=? length (queue_ b))%nat then
    mk_buffer (tail (queue_ b) ++ [p]) (prefill_ b) (capacity_ b)
      (mk_metrics (received m) (incr (dropped_overflow m)) (lost m) (underflows m)
         (last_sequence m)) true
  else mk_buffer (queue_ b ++ [p]) (prefill_ b) (capacity_ b) m true.

(* [src/src/audio/AudioBuffer.cpp:25-34] AudioBuffer::pop *)
Definition pop (b : AudioBuffer) : option AudioPacket * AudioBuffer :=
  match queue_ b with
  | [] =>
      let m := metrics_ b in
      (None, mk_buffer [] (prefill_ b) (capacity_ b)
               (mk_metrics (received m) (dropped_overflow m) (lost m) (incr (underflows m))
                  (last_sequence m)) (have_last_seq_ b))
  | p :: r => (Some p, mk_buffer r (prefill_ b) (capacity_ b) (metrics_ b) (have_last_seq_ b))
  end.

(* [src/src/audio/AudioBuffer.cpp:36-40] AudioBuffer::peekTimestamp *)
Definition peekTimestamp (b : AudioBuffer) : option spec_float :=
  match queue_ b with [] => None | p :: _ => Some (double_of_bits (timestamp (header p))) end.

(* [src/src/audio/AudioBuffer.cpp:42-46] AudioBuffer::nearlyFull *)
Definition nearlyFull (b : AudioBuffer) : bool :=
  (capacity_ b * 4 <=? length (queue_ b) * 5)%nat.

(* [src/src/audio/AudioBuffer.cpp:48-51] AudioBuffer::ready *)
Definition ready (b : AudioBuffer) : bool := (prefill_ b <=? length (queue_ b))%nat.

(* [src/src/audio/AudioBuffer.cpp:53-56] AudioBuffer::depth *)
Definition depth (b : AudioBuffer) : nat := length (queue_ b).

(* [src/src/audio/AudioBuffer.cpp:65-70] AudioBuffer::reset *)
Definition reset (b : AudioBuffer) : AudioBuffer := new_buffer (prefill_ b) (capacity_ b).

(** A sequence of pushes and pops; [Some p] pushes. *)
Fixpoint buffer_run (ops : list (option AudioPacket)) (b : AudioBuffer) :
  list (option AudioPacket) * AudioBuffer :=
  match ops with
  | [] => ([], b)
  | Some p :: r => buffer_run r (push p b)
  | None :: r => let '(o, b) := pop b in let '(os, b) := buffer_run r b in (o :: os, b)
  end.

(** ** Clock tracking *)

(* [src/src/audio/StreamSync.h:8-13] SyncStats *)
Record SyncStats := mk_stats
  { clock_offset_ms : spec_float; drift_ppm : spec_float; latency_ms : spec_float;
    observations : Z }.

(* [src/src/audio/StreamSync.h:21-44] StreamSync *)
Record StreamSync := mk_sync
  { target_buffer_ms_ : spec_float; stats_ : SyncStats; last_offset_ms_ : spec_float;
    have_offset_ : bool }.

(* [src/src/audio/StreamSync.h:23-23] StreamSync::StreamSync *)
Definition new_sync (target : spec_float) : StreamSync :=
  mk_sync target (mk_stats f0 f0 f0 0) f0 false.

(** The double nearest to 0.1. *)
(* [src/src/audio/StreamSync.cpp:6-6] kSmoothing *)
Definition kSmoothing : spec_float := S754_finite false 7205759403792794 (-56).

(* [src/src/audio/StreamSync.cpp:9-29] StreamSync::observe *)
Definition observe (ts now : spec_float) (s : StreamSync) : StreamSync :=
  let offset_ms := fmul (fsub ts now) (f_of_Z 1000) in
  let prev := clock_offset_ms (stats_ s) in
  let off := if have_offset_ s then fadd prev (fmul kSmoothing (fsub offset_ms prev)) else offset_ms in
  let drift := if have_offset_ s then fmul (fsub off prev) (f_of_Z 1000) else drift_ppm (stats_ s) in
  let latency := if SFltb offset_ms f0 then SFopp offset_ms else f0 in
  mk_sync (target_buffer_ms_ s)
    (mk_stats off drift latency (incr (observations (stats_ s)))) offset_ms true.

(* [src/src/audio/StreamSync.cpp:31-34] StreamSync::msUntilDue *)
Definition msUntilDue (s : StreamSync) (ts now : spec_float) : spec_float :=
  fsub (fmul (fsub ts now) (f_of_Z 1000)) (target_buffer_ms_ s).

(* [src/src/audio/StreamSync.cpp:36-38] StreamSync::due *)
Definition due (s : StreamSync) (ts now : spec_float) : bool := SFleb (msUntilDue s ts now) f0.

(* [src/src/audio/StreamSync.cpp:45-50] StreamSync::reset *)
Definition sync_reset (s : StreamSync) : StreamSync := new_sync (target_buffer_ms_ s).

(** ** The receiver *)

(* [src/src/audio/AudioReceiver.h:20-49] AudioReceiver *)
Record AudioReceiver := mk_receiver
  { r_buffer : AudioBuffer; r_sync : StreamSync; channels_ : Z; streaming_ : bool;
    r_bus : bool; r_state : ServiceState }.

Definition set_streaming (s : bool) (r : AudioReceiver) : AudioReceiver :=
  mk_receiver (r_buffer r) (r_sync r) (channels_ r) s (r_bus r) (r_state r).

(** [streaming_.exchange(on)], and the event when the value changed. *)
Definition set_stream (on : bool) (t : EventType) : SW AudioReceiver (Event Payload) unit :=
  r ← get;
  modify (set_streaming on);;
  when (negb (Bool.eqb (streaming_ r) on) && r_bus r) (tell [event t "audio" []]).

(* [src/src/audio/AudioReceiver.cpp:55-75] AudioReceiver::onDatagram *)
Definition onDatagram (buf : list Z) (now : spec_float) :
  SW AudioReceiver (Event Payload) unit :=
  r ← get;
  match unpackPacket buf (channels_ r) with
  | None => mret ()
  | Some pkt =>
      modify (fun r => mk_receiver (push pkt (r_buffer r))
                         (observe (double_of_bits (timestamp (header pkt))) now (r_sync r))
                         (channels_ r) (streaming_ r) (r_bus r) (r_state r));;
      set_stream true EventType.AudioStarted;;
      when (isLast pkt) (set_stream false EventType.AudioStopped)
  end.

(* [src/src/audio/AudioReceiver.cpp:46-53] AudioReceiver::stop *)
Definition receiver_stop : SW AudioReceiver (Event Payload) Status :=
  set_stream false EventType.AudioStopped;;
  modify (fun r => mk_receiver (r_buffer r) (r_sync r) (channels_ r) (streaming_ r) (r_bus r)
                     ServiceState.Stopped);;
  mret success.

(** ** Playback *)

(** What one playback step finds: the clock when one is set, the configuration, the DSP
    hook when one is set, and what the output device answers to a write. *)
(* [src/src/audio/PlaybackManager.h:48-55] PlaybackManager *)
Record PlayEnv := mk_play_env
  { clock_ : option spec_float; cfg_ : AudioConfig;
    dsp_hook_ : option (list Z -> Z -> Z -> list Z); write_out : list Z -> Z -> Result Z }.

(* [src/src/audio/PlaybackManager.h:21-56] PlaybackManager *)
Record Player := mk_player
  { buffer_ : AudioBuffer; sync_ : option StreamSync; started_ : bool; frames_played_ : Z }.

(** A block written to the device. *)
Inductive PEffect := OutputWrite (pcm : list Z) (frames : Z).

Definition set_started (s : bool) (p : Player) : Player :=
  mk_player (buffer_ p) (sync_ p) s (frames_played_ p).
Definition set_buffer (b : AudioBuffer) (p : Player) : Player :=
  mk_player b (sync_ p) (started_ p) (frames_played_ p).
Definition add_frames (n : Z) (p : Player) : Player :=
  mk_player (buffer_ p) (sync_ p) (started_ p) (wrap 64 (frames_played_ p + n)).

(** [std::clamp] on doubles. *)
Definition f_clamp (x lo hi : spec_float) : spec_float :=
  if SFltb x lo then lo else if SFltb hi x then hi else x.

(** One sample through the gain; the conversion to 16 bits drops the fraction. *)
(* [src/src/audio/PlaybackManager.cpp:28-31] PlaybackManager::applyGain *)
Definition scale_sample (gain : spec_float) (s : Z) : Z :=
  to_signed 16 (f_trunc (f_clamp (fmul (f_of_Z s) gain) (f_of_Z (-32768)) (f_of_Z 32767))).

(* [src/src/audio/PlaybackManager.cpp:20-32] PlaybackManager::applyGain *)
Definition applyGain (a : AudioConfig) (pcm : list Z) : list Z :=
  if muted a then (fun _ => 0) <$> pcm
  else
    let vol := if volume a <? 0 then 0 else if 100 <? volume a then 100 else volume a in
    if vol =? 100 then pcm
    else scale_sample (fdiv (f_of_Z vol) (f_of_Z 100)) <$> pcm.

(** Whether the packet at the front is held back: its time has not come and the buffer
    can still hold what arrives meanwhile. *)
(* [src/src/audio/PlaybackManager.cpp:58-75] PlaybackManager::step *)
Definition hold_back (env : PlayEnv) (p : Player) : bool :=
  match sync_ p, clock_ env, peekTimestamp (buffer_ p) with
  | Some sync, Some now, Some ts =>
      SFltb f0 ts && negb (due sync ts now) && negb (nearlyFull (buffer_ p))
  | _, _, _ => false
  end.

(** The block of a packet: its size as the device sees it, and the samples after DSP and
    volume. *)
(* [src/src/audio/PlaybackManager.cpp:83-90] PlaybackManager::step *)
Definition render (env : PlayEnv) (pkt : AudioPacket) : list Z * Z :=
  let size := Z.of_nat (length (samples pkt)) in
  let frames := if frame_count (header pkt) =? 0 then size / 2 else frame_count (header pkt) in
  let channels := if frames =? 0 then 2 else to_signed 32 (size / frames) in
  let pcm := match dsp_hook_ env with
             | Some hook => hook (samples pkt) frames channels
             | None => samples pkt
             end in
  (applyGain (cfg_ env) pcm, frames).

(* [src/src/audio/PlaybackManager.cpp:34-95] PlaybackManager::step *)
Definition step (env : PlayEnv) : SW Player PEffect Z :=
  p ← get;
  if negb (started_ p) && negb (ready (buffer_ p)) then mret 0
  else
    modify (set_started true);;
    p ← get;
    if hold_back env p then mret 0
    else
      let '(o, b) := pop (buffer_ p) in
      modify (set_buffer b);;
      match o with
      | None => modify (set_started false);; mret 0
      | Some pkt =>
          let '(pcm, frames) := render env pkt in
          tell [OutputWrite pcm frames];;
          match write_out env pcm frames with
          | Value n => modify (add_frames n);; mret n
          | Failure _ => mret 0
          end
      end.

(** One round of the playback thread: a block of silence when the step wrote nothing. *)
(* [src/src/audio/PlaybackEngine.cpp:83-91] PlaybackEngine::loop *)
Definition loop_round (env : PlayEnv) (sample_rate channels : Z) : SW Player PEffect unit :=
  frames ← step env;
  let silence_frames := sample_rate / 100 in
  when (negb (0 <? frames))
    (tell [OutputWrite (replicate (Z.to_nat (silence_frames * channels)) 0) silence_frames]).

(** ** The run of a step *)

(** What a step returns and leaves, by cases. *)
Definition step_result (env : PlayEnv) (p : Player) : Z * Player * list PEffect :=
  if negb (started_ p) && negb (ready (buffer_ p)) then (0, p, [])
  else if hold_back env p then (0, set_started true p, [])
  else
    match queue_ (buffer_ p) with
    | [] => (0, set_started false (set_buffer (pop (buffer_ p)).2 p), [])
    | pkt :: _ =>
        let '(pcm, frames) := render env pkt in
        let p' := set_started true (set_buffer (pop (buffer_ p)).2 p) in
        match write_out env pcm frames with
        | Value n => (n, add_frames n p', [OutputWrite pcm frames])
        | Failure _ => (0, p', [OutputWrite pcm frames])
        end
    end.

Lemma step_run env p : step env p = step_result env p.
Proof.
  unfold step, step_result, mbind, SW_bind, get, modify, tell.
  destruct (negb (started_ p) && negb (ready (buffer_ p))); [done|].
  change (hold_back env (set_started true p)) with (hold_back env p).
  destruct (hold_back env p); [done|]. change (buffer_ (set_started true p)) with (buffer_ p).
  unfold pop. destruct (queue_ (buffer_ p)) as [|pkt r]; [done|].
  destruct (render env pkt) as [pcm frames]. simpl.
  by destruct (write_out env pcm frames).
Qed.

(** ** The buffer's bookkeeping *)

Definition pushed (ops : list (option AudioPacket)) : list AudioPacket := omap id ops.

(** After a run from [b]: what was removed from the front, in order, contains what was
    popped, and the rest was dropped. *)
Record buffer_account (ops : list (option AudioPacket)) (b b' : AudioBuffer)
    (out : list (option AudioPacket)) : Prop := mk_account
  { acc_bound : (depth b' <= capacity_ b')%nat;
    acc_config : capacity_ b' = capacity_ b /\ prefill_ b' = prefill_ b;
    acc_fifo : exists removed,
      queue_ b ++ pushed ops = removed ++ queue_ b' /\
      sublist (omap id out) removed /\
      dropped_overflow (metrics_ b') =
        wrap 64 (dropped_overflow (metrics_ b) + Z.of_nat (length removed)
                 - Z.of_nat (length (omap id out)));
    acc_received : received (metrics_ b') =
      wrap 64 (received (metrics_ b) + Z.of_nat (length (pushed ops)));
    acc_underflows : underflows (metrics_ b') =
      wrap 64 (underflows (metrics_ b) + Z.of_nat (length (filter (fun o => o = None) out))) }.

Definition counters_ok (b : AudioBuffer) : Prop :=
  in_unsigned 64 (received (metrics_ b)) /\ in_unsigned 64 (dropped_overflow (metrics_ b)) /\
  in_unsigned 64 (underflows (metrics_ b)) /\ (0 < capacity_ b)%nat /\ (depth b <= capacity_ b)%nat.

Lemma wrap_add w a b : 0 <= w -> wrap w (wrap w a + b) = wrap w (a + b).
Proof. intros Hw. unfold wrap. by rewrite Zplus_mod_idemp_l. Qed.

Lemma push_spec p b : counters_ok b ->
  counters_ok (push p b) /\ capacity_ (push p b) = capacity_ b /\ prefill_ (push p b) = prefill_ b /\
  received (metrics_ (push p b)) = incr (received (metrics_ b)) /\
  underflows (metrics_ (push p b)) = underflows (metrics_ b) /\
  exists dropped, queue_ b ++ [p] = dropped ++ queue_ (push p b) /\
    dropped_overflow (metrics_ (push p b)) =
      wrap 64 (dropped_overflow (metrics_ b) + Z.of_nat (length dropped)).
Proof.
  intros (Hr & Hd & Hu & Hc & Hb). unfold push, counters_ok, depth in *.
  destruct (Nat.leb_spec (capacity_ b) (length (queue_ b))) as [Hfull|Hfree]; simpl.
  - destruct (queue_ b) as [|old rest]; simpl in *; [lia|].
    split_and!; try (apply wrap_bound; lia); try done; [by rewrite length_app; simpl; lia|].
    by exists [old].
  - split_and!; try (apply wrap_bound; lia); try done; [by rewrite length_app; simpl; lia|].
    exists []. split; [done|]. simpl. rewrite Z.add_0_r. by rewrite wrap_small.
Qed.

Lemma buffer_run_account ops b out b' :
  counters_ok b -> buffer_run ops b = (out, b') -> buffer_account ops b b' out /\ counters_ok b'.
Proof.
  revert b out. induction ops as [|[p|] ops IH]; intros b out Hok Hrun; simpl in Hrun.
  - simplify_eq. split; [|done]. destruct Hok as (Hr & Hd & Hu & Hc & Hb). split; [done|done| | |].
    + exists []. rewrite app_nil_r. simpl. split_and!; [done|constructor|].
      by rewrite Z.add_0_r, Z.sub_0_r, wrap_small.
    + simpl. by rewrite Z.add_0_r, wrap_small.
    + simpl. by rewrite Z.add_0_r, wrap_small.
  - destruct (push_spec p b Hok) as (Hok' & Hcap & Hpre & Hrec & Hund & dropped & Hq & Hdrop).
    destruct (IH _ _ Hok' Hrun) as [[Hb [Hc1 Hc2] (removed & Hf & Hsub & Hd) Hr Hu] Hok''].
    split; [|done]. split; [done|by rewrite Hc1, Hc2| | |].
    + exists (dropped ++ removed). split_and!.
      * change (pushed (Some p :: ops)) with (p :: pushed ops).
        rewrite cons_middle, app_assoc, Hq, <- !app_assoc. f_equal. exact Hf.
      * by apply sublist_inserts_l.
      * rewrite Hd, Hdrop, length_app. rewrite <- Z.add_sub_assoc, wrap_add by lia.
        f_equal. lia.
    + rewrite Hr, Hrec. unfold incr. rewrite wrap_add by lia. f_equal.
      change (pushed (Some p :: ops)) with (p :: pushed ops). simpl. lia.
    + by rewrite Hu, Hund.
  - destruct (pop b) as [o b1] eqn:Hpop. destruct (buffer_run ops b1) as [os b2] eqn:Hr1.
    simplify_eq. unfold pop in Hpop. destruct Hok as (Hr & Hd & Hu & Hc & Hb).
    destruct (queue_ b) as [|p r] eqn:Eq; simplify_eq.
    + assert (counters_ok (pop b).2) as Hok1.
      { unfold pop. rewrite Eq. split_and!; try done; [by apply wrap_bound|simpl; unfold depth; simpl; lia]. }
      unfold pop in Hok1. rewrite Eq in Hok1.
      destruct (IH _ _ Hok1 Hr1) as [[Hb1 [Hc1 Hc2] (removed & Hf & Hsub & Hd1) Hr2 Hu1] Hok''].
      split; [|done]. split; [done|done| |done|].
      * exists removed. rewrite Eq. by split_and!.
      * rewrite Hu1, filter_cons_True by done. simpl. unfold incr. rewrite wrap_add by lia.
        f_equal. lia.
    + assert (counters_ok (pop b).2) as Hok1.
      { unfold pop. rewrite Eq. unfold depth in Hb. rewrite Eq in Hb. simpl in Hb.
        split_and!; try done. unfold depth. simpl. lia. }
      unfold pop in Hok1. rewrite Eq in Hok1.
      destruct (IH _ _ Hok1 Hr1) as [[Hb1 [Hc1 Hc2] (removed & Hf & Hsub & Hd1) Hr2 Hu1] Hok''].
      split; [|done]. split; [done|done| |done|by rewrite Hu1, filter_cons_False].
      exists (p :: removed). rewrite Eq. split_and!.
      * simpl. f_equal. exact Hf.
      * simpl. by constructor.
      * rewrite Hd1. change (omap id (Some p :: os)) with (p :: omap id os). simpl. f_equal. lia.
Qed.

(** ** Properties *)

(** The wire format round trips: a packet whose payload is what its header announces
    is read back, from the datagram alone or with bytes after it, exactly as sent. *)
Theorem packet_round_trip channels p rest :
  packet_ok channels p -> 0 <= channels < 2 ^ 16 ->
  unpackPacket (packPacket p ++ rest) channels = Some p.
Proof.
  intros ((Ht & Hs & Hf & Hfl) & Hlen & Hsm) Hc.
  destruct (sample_count_exact _ _ Hf Hc) as [Hcount Hneed].
  destruct p as [[ts seq frames fl] sm]. simpl in Ht, Hs, Hf, Hfl, Hlen, Hsm, Hcount, Hneed.
  unfold packPacket. cbn [header samples timestamp sequence frame_count flags].
  assert (Htl : forall v, length (writeBE64 v) = 8%nat) by (intros; apply write_bytes_length).
  set (body := concat (sample_to_bytes <$> sm)).
  assert (length body = (2 * length sm)%nat) as Hbl by apply sample_bytes_length.
  rewrite <- !app_assoc.
  assert (forall l, drop 8 (writeBE64 ts ++ l) = l) as Hd1 by (intros; by rewrite drop_app_length').
  assert (forall l, drop 24 (writeBE64 ts ++ writeBE64 seq ++ writeBE32 frames ++ writeBE32 fl ++ l)
                    = l) as Hd24.
  { intros l. rewrite !app_assoc. apply drop_app_length'. by rewrite !length_app, !Htl. }
  assert (forall l i, byte_at (writeBE64 ts ++ writeBE64 seq ++ l) (16 + i) = byte_at l i) as Hat.
  { intros l i. unfold byte_at. rewrite !app_nth2; rewrite !Htl; [f_equal; lia|lia|lia]. }
  assert (forall l, byte_at (writeBE64 ts ++ writeBE64 seq ++ l) 16 = byte_at l 0) as Hat0
    by (intros; by apply (Hat _ 0%nat)).
  unfold writeBE32 in *.
  match goal with |- unpackPacket ?b _ = _ => pose proof (unpackPacket_run b channels) as Hr end.
  cbv zeta in Hr. rewrite Hd24, Hd1, !read_write_BE64 in Hr by done.
  change 17%nat with (16 + 1)%nat in Hr. change 18%nat with (16 + 2)%nat in Hr.
  change 19%nat with (16 + 3)%nat in Hr. change 20%nat with (16 + 4)%nat in Hr.
  change 21%nat with (16 + 5)%nat in Hr. change 22%nat with (16 + 6)%nat in Hr.
  change 23%nat with (16 + 7)%nat in Hr.
  rewrite !Hat0, !Hat in Hr. unfold byte_at in Hr. simpl nth in Hr.
  rewrite !read_write_BE32 in Hr by done. cbn [frame_count] in Hr. rewrite Hr by done. clear Hr.
  rewrite !length_app, !Htl, Hbl. unfold kHeaderSize. cbn [length].
  rewrite !(proj2 (Z.ltb_ge _ _)) by lia.
  do 2 f_equal. rewrite <- Hlen, Nat2Z.id. by apply samples_round_trip.
Qed.

(** C15: Decoding never reads outside the datagram and never invents samples.  Whatever the
    bytes are, every read of memory the decoder makes lies within them, and it ends with a
    packet or a refusal.  A datagram is accepted exactly when it holds the 24 bytes of the
    header and the payload the header announces; the packet then has exactly that many
    samples, each the 16 bits at its place in the datagram, whatever the 64-bit size
    arithmetic does. *)
Theorem unpack_within_bounds buf channels :
  Forall byte_ok buf -> 0 <= channels < 2 ^ 16 ->
  let len := Z.of_nat (length buf) in
  let announced := byte_at buf 16 * 2 ^ 24 + byte_at buf 17 * 2 ^ 16 + byte_at buf 18 * 2 ^ 8 + byte_at buf 19 in
  exists r, decode_packet buf channels = Some r /\ unpackPacket buf channels = r /\
  match r with
  | Some p =>
      24 + announced * channels * 2 <= len /\ frame_count (header p) = announced /\
      Z.of_nat (length (samples p)) = announced * channels /\
      (forall k, (k < length (samples p))%nat ->
         samples p !! k = Some (to_signed 16 (byte_at buf (24 + 2 * k) + 256 * byte_at buf (25 + 2 * k))))
  | None => len < 24 \/ len < 24 + announced * channels * 2
  end.
Proof.
  intros Hb Hc. cbv zeta. eexists. split; [|split].
  2: reflexivity.
  all: assert (Hat : forall i, byte_ok (byte_at buf i)) by
    (intros i; unfold byte_at; destruct (nth_in_or_default i buf 0) as [Hin| ->]; [|done];
     eapply Forall_forall in Hb; [done|]; by apply list_elem_of_In).
  all: assert (in_unsigned 32 (readBE32 (byte_at buf 16) (byte_at buf 17) (byte_at buf 18) (byte_at buf 19))) as Hf by
    (rewrite read_BE32_sum by done; unfold byte_ok, in_unsigned in Hat;
     pose proof (Hat 16%nat); pose proof (Hat 17%nat); pose proof (Hat 18%nat);
     pose proof (Hat 19%nat); unfold in_unsigned; lia).
  { rewrite unpackPacket_run by done. by apply decode_packet_run. }
  rewrite unpackPacket_run by done. cbn [frame_count]. rewrite <- read_BE32_sum by done.
  set (frames := readBE32 (byte_at buf 16) (byte_at buf 17) (byte_at buf 18) (byte_at buf 19)) in *.
  unfold kHeaderSize, in_unsigned in *.
  destruct (Z.ltb_spec (Z.of_nat (length buf)) 24); [by left|].
  destruct (Z.ltb_spec (Z.of_nat (length buf)) (24 + frames * channels * 2)); [by right|].
  cbn [samples header frame_count]. rewrite bytes_to_samples_length by (rewrite length_drop; nia).
  split_and!; [done|done|nia|]. intros k Hk.
  rewrite bytes_to_samples_lookup; [|done|rewrite length_drop; nia].
  rewrite !byte_at_drop. by replace (24 + (2 * k + 1))%nat with (25 + 2 * k)%nat by lia.
Qed.

(** The jitter buffer accounts for every packet.  Over any sequence of pushes and
    pops from a fresh buffer, the depth stays within the capacity, packets leave in the
    order of arrival, each is popped, dropped from the front on overflow, or still
    queued, and the received, overflow and underflow counters are exact modulo 2^64. *)
Theorem buffer_accounts prefill capacity ops out b :
  (0 < capacity)%nat ->
  buffer_run ops (new_buffer prefill capacity) = (out, b) ->
  (depth b <= capacity)%nat /\
  (exists removed,
     pushed ops = removed ++ queue_ b /\ sublist (omap id out) removed /\
     dropped_overflow (metrics_ b) =
       wrap 64 (Z.of_nat (length removed) - Z.of_nat (length (omap id out)))) /\
  received (metrics_ b) = wrap 64 (Z.of_nat (length (pushed ops))) /\
  underflows (metrics_ b) = wrap 64 (Z.of_nat (length (filter (fun o => o = None) out))).
Proof.
  intros Hc Hrun. destruct (buffer_run_account ops (new_buffer prefill capacity) out b)
    as [[Hb [Hcap _] Hf Hr Hu] _]; [|done|].
  - by split_and!; simpl; try (by unfold in_unsigned); unfold depth; simpl; lia.
  - simpl in *. rewrite Hcap in Hb. by split_and!.
Qed.

(** A network thread that pushes a packet and a playback thread that steps, in turn. *)
Fixpoint rounds (l : list (AudioPacket * PlayEnv)) : SW Player PEffect unit :=
  match l with
  | [] => mret ()
  | (pkt, env) :: r =>
      modify (fun p => set_buffer (push pkt (buffer_ p)) p);; step env;; rounds r
  end.

(** Room for one more packet below the release threshold. *)
Definition roomy (p : Player) : Prop :=
  (depth (buffer_ p) * 5 < capacity_ (buffer_ p) * 4)%nat /\
  (prefill_ (buffer_ p) * 5 <= capacity_ (buffer_ p) * 4)%nat /\
  dropped_overflow (metrics_ (buffer_ p)) = 0.

Lemma push_roomy pkt p : roomy p ->
  let b := push pkt (buffer_ p) in
  depth b = S (depth (buffer_ p)) /\ capacity_ b = capacity_ (buffer_ p) /\
  prefill_ b = prefill_ (buffer_ p) /\ dropped_overflow (metrics_ b) = 0.
Proof.
  intros (Hd & Hp & Hz). unfold push, depth in *.
  destruct (Nat.leb_spec (capacity_ (buffer_ p)) (length (queue_ (buffer_ p)))); [lia|]. simpl.
  by rewrite length_app, Nat.add_1_r.
Qed.

Lemma step_roomy env p pkt : roomy p ->
  roomy (state_after (step env) (set_buffer (push pkt (buffer_ p)) p)).
Proof.
  intros Hroom. destruct (push_roomy pkt p Hroom) as (Hd & Hc & Hp & Hz).
  destruct Hroom as (Hd0 & Hp0 & _). unfold state_after. rewrite step_run. unfold step_result.
  cbn [started_ buffer_ set_buffer]. set (b := push pkt (buffer_ p)) in *.
  destruct (negb (started_ p)), (ready b) eqn:Hr; cbn [andb negb];
    try (apply Nat.leb_gt in Hr; unfold roomy; simpl; unfold depth in *; rewrite ?Hc; lia).
  all: destruct (hold_back env (set_buffer b p)) eqn:Hh;
    [ unfold roomy; simpl; split_and!; [|lia|done];
      unfold hold_back in Hh; simpl in Hh; destruct (sync_ p), (clock_ env), (peekTimestamp b);
      try done; apply andb_true_iff in Hh as [_ Hh]; apply negb_true_iff, Nat.leb_gt in Hh;
      unfold depth in *; lia
    | unfold pop, depth in *; destruct (queue_ b) as [|q r]; simpl in Hd; [lia|];
      destruct (render env q) as [pcm frames]; destruct (write_out env pcm frames);
      unfold roomy, depth; simpl; split_and!; (lia || done) ].
Qed.

(** C16: Waiting for the schedule never costs audio.  However early the packets are
    stamped, whatever the clock does and whatever the device answers, a playback thread
    that steps once per packet received never lets the buffer overflow, provided the
    prefill is at most four fifths of the capacity. *)
Theorem playback_never_overflows prefill capacity sync l :
  (0 < capacity)%nat -> (prefill * 5 <= capacity * 4)%nat ->
  let p := state_after (rounds l) (mk_player (new_buffer prefill capacity) sync false 0) in
  dropped_overflow (metrics_ (buffer_ p)) = 0 /\
  (depth (buffer_ p) * 5 < capacity_ (buffer_ p) * 4)%nat.
Proof.
  intros Hc Hp. cbv zeta.
  assert (roomy (mk_player (new_buffer prefill capacity) sync false 0)) as H0
    by (unfold roomy, depth; simpl; split_and!; (lia || done)).
  revert H0. generalize (mk_player (new_buffer prefill capacity) sync false 0).
  induction l as [|[pkt env] l IH]; intros p Hroom.
  - by destruct Hroom as (? & _ & ?).
  - simpl. rewrite state_after_bind. change (state_after (modify _) p) with
      (set_buffer (push pkt (buffer_ p)) p).
    rewrite state_after_bind. by apply IH, step_roomy.
Qed.

(** A packet is written at its time.  A step writes at most one block, the rendered
    packet at the front; when the front packet carries a timestamp, the player has a
    clock and the packet is not yet due, it is written only from a nearly full buffer,
    and otherwise stays at the front with nothing written and nothing counted. *)
Theorem step_honours_timestamp env p pkt rest :
  queue_ (buffer_ p) = pkt :: rest ->
  let s := step env p in
  (s.2 = [] \/ s.2 = [OutputWrite (render env pkt).1 (render env pkt).2]) /\
  (s.2 = [] -> queue_ (buffer_ s.1.2) = pkt :: rest /\ s.1.1 = 0) /\
  (s.2 <> [] -> queue_ (buffer_ s.1.2) = rest) /\
  forall sync now,
    sync_ p = Some sync -> clock_ env = Some now ->
    SFltb f0 (double_of_bits (timestamp (header pkt))) = true ->
    due sync (double_of_bits (timestamp (header pkt))) now = false ->
    s.2 <> [] -> nearlyFull (buffer_ p) = true.
Proof.
  intros Hq. cbv zeta. rewrite step_run. unfold step_result.
  destruct (negb (started_ p) && negb (ready (buffer_ p))); [simpl; by split_and!; auto|].
  destruct (hold_back env p) eqn:Hh; [simpl; by split_and!; auto|].
  assert (forall sync now, sync_ p = Some sync -> clock_ env = Some now ->
    SFltb f0 (double_of_bits (timestamp (header pkt))) = true ->
    due sync (double_of_bits (timestamp (header pkt))) now = false ->
    nearlyFull (buffer_ p) = true) as Hfull.
  { intros sync now Hs Hn Ht Hd. revert Hh. unfold hold_back, peekTimestamp.
    rewrite Hs, Hn, Hq, Ht, Hd. simpl. by destruct (nearlyFull (buffer_ p)). }
  unfold pop. rewrite Hq. destruct (render env pkt) as [pcm frames].
  destruct (write_out env pcm frames); simpl; split_and!; eauto; done.
Qed.

(** ** Witnesses *)

Definition demo_packet (seq ts : Z) : AudioPacket :=
  mk_packet (mk_header ts seq 2 0) [1; -2; 32767; -32768].

(** The 64 bits of the double 1000.0. *)
Definition bits_1000 : Z := 0x408F400000000000.

Definition demo_env (now : Z) : PlayEnv :=
  mk_play_env (Some (f_of_Z now)) (audio defaults) None (fun _ frames => Value frames).

Lemma packet_round_trip_witness :
  unpackPacket (packPacket (demo_packet 7 bits_1000) ++ [1; 2; 3]) 2 =
    Some (demo_packet 7 bits_1000).
Proof.
  apply (packet_round_trip 2 (demo_packet 7 bits_1000) [1; 2; 3]); [|lia].
  split; [|split; [reflexivity|]].
  - unfold header_ok, in_unsigned, bits_1000. simpl. lia.
  - unfold in_signed. repeat constructor; simpl; lia.
Defined.

Lemma unpack_within_bounds_witness :
  exists r, decode_packet (packPacket (demo_packet 7 bits_1000)) 2 = Some r /\
    r = unpackPacket (packPacket (demo_packet 7 bits_1000)) 2 /\
    match r with Some p => samples p !! 3%nat = Some (-32768) | None => False end.
Proof.
  assert (Forall byte_ok (packPacket (demo_packet 7 bits_1000))) as Hb.
  { unfold byte_ok, in_unsigned. vm_compute packPacket. repeat constructor; lia. }
  destruct (unpack_within_bounds (packPacket (demo_packet 7 bits_1000)) 2 Hb ltac:(lia)) as (r & Hd & Hu & Hr).
  exists r. split; [exact Hd|]. split; [exact (eq_sym Hu)|]. destruct r as [p|].
  - destruct Hr as (_ & _ & Hl & Hs).
    rewrite Hs; [vm_compute; reflexivity|]. apply Nat2Z.inj_lt. rewrite Hl. vm_compute. reflexivity.
  - revert Hu. vm_compute. discriminate.
Defined.

(** Packets leave in the order of arrival, not of their sequence numbers. *)
Lemma buffer_accounts_witness :
  let ops := [Some (demo_packet 2 0); Some (demo_packet 1 0); None; None; None] in
  (fst (buffer_run ops (new_buffer 10 50)) = [Some (demo_packet 2 0); Some (demo_packet 1 0); None]) /\
  underflows (metrics_ (snd (buffer_run ops (new_buffer 10 50)))) = 1.
Proof.
  cbv zeta. split; [vm_compute; reflexivity|].
  destruct (buffer_run [Some (demo_packet 2 0); Some (demo_packet 1 0); None; None; None]
              (new_buffer 10 50)) as [out b] eqn:E.
  destruct (buffer_accounts 10 50 _ out b ltac:(lia) E) as (_ & _ & _ & Hu).
  cbn [snd]. rewrite Hu. vm_compute in E. injection E as <- <-. vm_compute. reflexivity.
Defined.

(** Twelve packets stamped far ahead: the player waits, then plays from the full buffer. *)
Lemma playback_never_overflows_witness :
  let l := (fun n => (demo_packet (Z.of_nat n) bits_1000, demo_env 0)) <$> seq 0 12 in
  let p := state_after (rounds l) (mk_player (new_buffer 2 10) (Some (new_sync (f_of_Z 80))) false 0) in
  dropped_overflow (metrics_ (buffer_ p)) = 0 /\ frames_played_ p = 10.
Proof.
  intros l. split; [|vm_compute; reflexivity].
  apply (playback_never_overflows 2 10 (Some (new_sync (f_of_Z 80))) l); lia.
Defined.

Lemma step_honours_timestamp_witness :
  let p := mk_player (push (demo_packet 1 bits_1000) (new_buffer 1 50))
             (Some (new_sync (f_of_Z 80))) true 0 in
  effects_of (step (demo_env 0)) p = [] /\
  queue_ (buffer_ (state_after (step (demo_env 0)) p)) = [demo_packet 1 bits_1000].
Proof.
  intros p. assert ((step (demo_env 0) p).2 = []) as He by (vm_compute; reflexivity).
  split; [exact He|].
  apply (step_honours_timestamp (demo_env 0) p (demo_packet 1 bits_1000) [] eq_refl).
  exact He.
Defined.
