(* ===== verification/Amplifier.v ===== *)
(** * Amplifier: the power amplifier's protection state machine

    Models [src/src/amplifier/AmplifierManager.cpp].  The hardware is an argument of
    each call ([Hal]: what the driver would answer); the values last driven on the mute
    line and on the supply are part of the state. *)

From S2P Require Import Prelude Core.

Module AmpState.
(* [src/src/amplifier/AmplifierManager.h:13-21] AmpState *)
Inductive AmpState := Off | Starting | Ready | Muted | Protection | Overheated | Fault.

#[global] Instance AmpState_eq_dec : EqDecision AmpState.
Proof. solve_decision. Defined.
End AmpState.
Abbreviation AmpState := AmpState.AmpState.

(* [src/src/amplifier/AmplifierManager.cpp:28-39] toString *)
Definition amp_toString (s : AmpState) : string :=
  match s with
  | AmpState.Off => "OFF"
  | AmpState.Starting => "STARTING"
  | AmpState.Ready => "READY"
  | AmpState.Muted => "MUTED"
  | AmpState.Protection => "PROTECTION"
  | AmpState.Overheated => "OVERHEATED"
  | AmpState.Fault => "FAULT"
  end.

(* [src/src/amplifier/IAmplifierHal.h:8-12] AmplifierFlags *)
Record AmplifierFlags := mk_flags { fault : bool; protection : bool; clipping : bool }.

(** What the driver answers to the calls of one operation. *)
(* [src/src/amplifier/IAmplifierHal.h:17-25] IAmplifierHal *)
Record Hal := mk_hal
  { powerOn : Status; powerOff : Status; hal_mute : bool -> Status;
    readTemperatureCelsius : Result spec_float; readFlags : Result AmplifierFlags }.

(** The manager; [line_] is what the manager last drove on the mute line, [supply_]
    whether it last asked for power on or off. *)
(* [src/src/amplifier/AmplifierManager.h:30-65] AmplifierManager *)
Record AmplifierManager := mk_amp
  { warn_celsius_ : spec_float; shutdown_celsius_ : spec_float; amp_bus : bool;
    amp_state_ : AmpState; warned_ : bool; no_hardware_ : bool; svc_state_ : ServiceState;
    line_ : bool; supply_ : bool }.

(** The line is high (muted) until it is driven. *)
(* [src/src/amplifier/AmplifierManager.cpp:41-46] AmplifierManager::AmplifierManager *)
Definition new_amp (bus : bool) (warn shutdown : spec_float) : AmplifierManager :=
  mk_amp warn shutdown bus AmpState.Off false false ServiceState.Stopped true false.

Abbreviation A := (SW AmplifierManager (Event Payload)).

Definition set_amp (s : AmpState) (a : AmplifierManager) : AmplifierManager :=
  mk_amp (warn_celsius_ a) (shutdown_celsius_ a) (amp_bus a) s (warned_ a) (no_hardware_ a)
    (svc_state_ a) (line_ a) (supply_ a).
Definition set_warned (b : bool) (a : AmplifierManager) : AmplifierManager :=
  mk_amp (warn_celsius_ a) (shutdown_celsius_ a) (amp_bus a) (amp_state_ a) b (no_hardware_ a)
    (svc_state_ a) (line_ a) (supply_ a).
Definition set_no_hardware (b : bool) (a : AmplifierManager) : AmplifierManager :=
  mk_amp (warn_celsius_ a) (shutdown_celsius_ a) (amp_bus a) (amp_state_ a) (warned_ a) b
    (svc_state_ a) (line_ a) (supply_ a).
Definition set_svc (s : ServiceState) (a : AmplifierManager) : AmplifierManager :=
  mk_amp (warn_celsius_ a) (shutdown_celsius_ a) (amp_bus a) (amp_state_ a) (warned_ a)
    (no_hardware_ a) s (line_ a) (supply_ a).
Definition set_line (b : bool) (a : AmplifierManager) : AmplifierManager :=
  mk_amp (warn_celsius_ a) (shutdown_celsius_ a) (amp_bus a) (amp_state_ a) (warned_ a)
    (no_hardware_ a) (svc_state_ a) b (supply_ a).
Definition set_supply (b : bool) (a : AmplifierManager) : AmplifierManager :=
  mk_amp (warn_celsius_ a) (shutdown_celsius_ a) (amp_bus a) (amp_state_ a) (warned_ a)
    (no_hardware_ a) (svc_state_ a) (line_ a) b.

(* [src/src/amplifier/AmplifierManager.cpp:48-54] AmplifierManager::transition *)
Definition transition (to : AmpState) : A unit := modify (set_amp to).

(** [hal_->mute(on)]. *)
Definition drive (h : Hal) (on : bool) : A Status := modify (set_line on);; mret (hal_mute h on).

(** [hal_->powerOn()] and [hal_->powerOff()]. *)
Definition switch (h : Hal) (on : bool) : A Status :=
  modify (set_supply on);; mret (if on then powerOn h else powerOff h).

Definition amp_publish (t : EventType) (p : Payload) : A unit :=
  a ← get; when (amp_bus a) (tell [event t "amplifier" p]).

(* [src/src/amplifier/AmplifierManager.cpp:56-74] AmplifierManager::start *)
Definition amp_start (h : Hal) : A Status :=
  p ← switch h true;
  if negb (status_ok p) then
    modify (set_no_hardware true);;
    transition AmpState.Ready;;
    modify (set_svc ServiceState.Running);;
    mret success
  else
    drive h true;;
    transition AmpState.Starting;;
    modify (set_svc ServiceState.Running);;
    mret success.

(* [src/src/amplifier/AmplifierManager.cpp:76-85] AmplifierManager::stop *)
Definition amp_stop (h : Hal) : A Status :=
  a ← get;
  (if negb (no_hardware_ a) then drive h true;; switch h false else mret success);;
  transition AmpState.Off;;
  modify (set_svc ServiceState.Stopped);;
  mret success.

Definition unhealthy (s : AmpState) : bool :=
  bool_decide (s ∈ [AmpState.Fault; AmpState.Overheated; AmpState.Protection]).

(* [src/src/amplifier/AmplifierManager.cpp:92-103] AmplifierManager::unmute *)
Definition unmute (h : Hal) : A Status :=
  a ← get;
  if no_hardware_ a then mret success
  else if unhealthy (amp_state_ a) then
    mret (error ErrorCode.PermissionDenied "cannot unmute: amp not healthy")
  else
    s ← drive h false;
    if negb (status_ok s) then mret s
    else transition AmpState.Ready;; mret success.

(* [src/src/amplifier/AmplifierManager.cpp:105-114] AmplifierManager::mute *)
Definition mute (h : Hal) : A Status :=
  a ← get;
  if no_hardware_ a then mret success
  else
    s ← drive h true;
    if negb (status_ok s) then mret s
    else
      a ← get;
      when (bool_decide (amp_state_ a ∈ [AmpState.Ready; AmpState.Starting]))
        (transition AmpState.Muted);;
      mret success.

(* [src/src/amplifier/AmplifierManager.cpp:120-134] AmplifierManager::poll *)
Definition poll_flags (h : Hal) (f : AmplifierFlags) : A unit :=
  a ← get;
  (if fault f && negb (bool_decide (amp_state_ a = AmpState.Fault)) then
     drive h true;;
     transition AmpState.Fault;;
     amp_publish EventType.AmplifierFault []
   else if protection f && negb (bool_decide (amp_state_ a = AmpState.Protection)) &&
           negb (bool_decide (amp_state_ a = AmpState.Fault)) then
     drive h true;;
     transition AmpState.Protection;;
     amp_publish EventType.AmplifierProtection []
   else mret ());;
  if clipping f then amp_publish EventType.OutputClipping [] else mret ().

(* [src/src/amplifier/AmplifierManager.cpp:141-157] AmplifierManager::poll *)
Definition poll_temperature (h : Hal) (t : spec_float) : A unit :=
  a ← get;
  if SFleb (shutdown_celsius_ a) t then
    if negb (bool_decide (amp_state_ a = AmpState.Overheated)) then
      drive h true;;
      transition AmpState.Overheated;;
      amp_publish EventType.AmplifierOverheat [("temperature", SDouble t)]
    else mret ()
  else if SFleb (warn_celsius_ a) t then
    if negb (warned_ a) then
      modify (set_warned true);;
      amp_publish EventType.TempWarning [("temperature", SDouble t)]
    else mret ()
  else
    modify (set_warned false);;
    when (bool_decide (amp_state_ a = AmpState.Overheated)) (transition AmpState.Muted).

(* [src/src/amplifier/AmplifierManager.cpp:116-158] AmplifierManager::poll *)
Definition poll (h : Hal) : A (Result spec_float) :=
  a ← get;
  if no_hardware_ a then mret (Value (S754_zero false))
  else
    (match readFlags h with Value f => poll_flags h f | Failure _ => mret () end);;
    match readTemperatureCelsius h with
    | Failure s => mret (Failure s)
    | Value t => poll_temperature h t;; mret (Value t)
    end.

(* [src/src/amplifier/AmplifierManager.cpp:160-166] AmplifierManager::healthCheck *)
Definition healthCheck (a : AmplifierManager) : Status :=
  if bool_decide (amp_state_ a = AmpState.Fault)
  then error ErrorCode.Unknown "amplifier fault" else success.

(** ** Safety *)

(** The calls, each with what the driver answers. *)
Inductive AmpCall :=
| CallStart (h : Hal)
| CallStop (h : Hal)
| CallUnmute (h : Hal)
| CallMute (h : Hal)
| CallPoll (h : Hal).

Definition amp_call (c : AmpCall) : A unit :=
  match c with
  | CallStart h => amp_start h;; mret ()
  | CallStop h => amp_stop h;; mret ()
  | CallUnmute h => unmute h;; mret ()
  | CallMute h => mute h;; mret ()
  | CallPoll h => poll h;; mret ()
  end.

Fixpoint amp_calls (l : list AmpCall) : A unit :=
  match l with [] => mret () | c :: r => amp_call c;; amp_calls r end.

(** In every unhealthy state the last thing driven on the mute line is mute, unless
    there is no line to drive. *)
Definition silenced (a : AmplifierManager) : Prop :=
  unhealthy (amp_state_ a) = true -> line_ a = true.

(** The events each call may publish are about the state it leaves. *)
Lemma amp_publish_run t p a :
  amp_publish t p a = ((), a, if amp_bus a then [event t "amplifier" p] else []).
Proof. unfold amp_publish, mbind, SW_bind, get. by destruct (amp_bus a). Qed.

Lemma poll_flags_silenced h f a : silenced a -> silenced (state_after (poll_flags h f) a).
Proof.
  unfold poll_flags, drive, transition, mbind, SW_bind, get, modify, state_after. simpl.
  intros Ha.
  destruct (fault f && negb (bool_decide (amp_state_ a = AmpState.Fault))); simpl;
    rewrite ?amp_publish_run; simpl;
    [destruct (clipping f); simpl; rewrite ?amp_publish_run; done|].
  destruct (protection f && negb (bool_decide (amp_state_ a = AmpState.Protection)) &&
            negb (bool_decide (amp_state_ a = AmpState.Fault))); simpl;
    rewrite ?amp_publish_run; simpl; destruct (clipping f); simpl; rewrite ?amp_publish_run; done.
Qed.

Lemma poll_temperature_silenced h t a :
  silenced a -> silenced (state_after (poll_temperature h t) a).
Proof.
  unfold poll_temperature, drive, transition, mbind, SW_bind, get, modify, state_after. simpl.
  intros Ha. destruct (SFleb (shutdown_celsius_ a) t).
  - destruct (negb _); simpl; [rewrite amp_publish_run|]; done.
  - destruct (SFleb (warn_celsius_ a) t).
    + destruct (negb (warned_ a)); simpl; [rewrite amp_publish_run|]; done.
    + destruct (bool_decide (amp_state_ a = AmpState.Overheated)); done.
Qed.

Lemma amp_call_silenced c a : silenced a -> silenced (state_after (amp_call c) a).
Proof.
  intros Ha. destruct c as [h|h|h|h|h]; unfold amp_call; rewrite state_after_bind;
    change (state_after (mret ()) ?s) with s.
  - unfold amp_start. rewrite state_after_bind. change (value_of (switch h true) a) with (powerOn h).
    by destruct (negb (status_ok (powerOn h))).
  - unfold amp_stop. rewrite state_after_bind. change (value_of get a) with a.
    by destruct (negb (no_hardware_ a)).
  - unfold unmute. rewrite state_after_bind. change (value_of get a) with a.
    change (state_after get a) with a.
    destruct (no_hardware_ a); [done|]. destruct (unhealthy (amp_state_ a)) eqn:Hu; [done|].
    rewrite state_after_bind. change (value_of (drive h false) a) with (hal_mute h false).
    change (state_after (drive h false) a) with (set_line false a).
    destruct (negb (status_ok (hal_mute h false))); [|done].
    intros Hbad. change (amp_state_ (state_after (mret (hal_mute h false)) (set_line false a)))
      with (amp_state_ a) in Hbad. congruence.
  - unfold mute. rewrite state_after_bind. change (value_of get a) with a.
    change (state_after get a) with a. destruct (no_hardware_ a); [done|].
    rewrite state_after_bind. change (state_after (drive h true) a) with (set_line true a).
    destruct (negb (status_ok (value_of (drive h true) a))); [done|].
    rewrite state_after_bind. change (value_of get (set_line true a)) with (set_line true a).
    by destruct (bool_decide _).
  - unfold poll. rewrite state_after_bind. change (value_of get a) with a.
    change (state_after get a) with a. destruct (no_hardware_ a); [done|].
    rewrite state_after_bind.
    set (a1 := state_after (match readFlags h with Value f => poll_flags h f | Failure _ => mret () end) a).
    assert (silenced a1) as Ha1.
    { unfold a1. destruct (readFlags h); [by apply poll_flags_silenced|done]. }
    destruct (readTemperatureCelsius h) as [t|s]; [|done].
    rewrite state_after_bind. by apply poll_temperature_silenced.
Qed.

(** The state a poll leaves, from what the driver reports. *)
Definition poll_state (a : AmplifierManager) (h : Hal) : AmpState :=
  let s1 :=
    match readFlags h with
    | Value f =>
        if fault f then AmpState.Fault
        else if protection f && negb (bool_decide (amp_state_ a = AmpState.Fault))
        then AmpState.Protection else amp_state_ a
    | Failure _ => amp_state_ a
    end in
  match readTemperatureCelsius h with
  | Value t =>
      if SFleb (shutdown_celsius_ a) t then AmpState.Overheated
      else if SFleb (warn_celsius_ a) t then s1
      else if bool_decide (s1 = AmpState.Overheated) then AmpState.Muted else s1
  | Failure _ => s1
  end.

Lemma poll_flags_state h f a :
  let a' := state_after (poll_flags h f) a in
  amp_state_ a' = (if fault f then AmpState.Fault
                   else if protection f && negb (bool_decide (amp_state_ a = AmpState.Fault))
                   then AmpState.Protection else amp_state_ a) /\
  shutdown_celsius_ a' = shutdown_celsius_ a /\ warn_celsius_ a' = warn_celsius_ a /\
  no_hardware_ a' = no_hardware_ a.
Proof.
  cbv zeta. unfold poll_flags, drive, transition, mbind, SW_bind, get, modify, state_after. simpl.
  destruct (fault f), (protection f), (clipping f), (amp_state_ a) eqn:E;
    simpl; rewrite ?amp_publish_run; simpl; rewrite ?amp_publish_run; simpl; by rewrite ?E.
Qed.

Lemma poll_temperature_state h t a :
  amp_state_ (state_after (poll_temperature h t) a) =
    if SFleb (shutdown_celsius_ a) t then AmpState.Overheated
    else if SFleb (warn_celsius_ a) t then amp_state_ a
    else if bool_decide (amp_state_ a = AmpState.Overheated) then AmpState.Muted else amp_state_ a.
Proof.
  unfold poll_temperature, drive, transition, mbind, SW_bind, get, modify, state_after. simpl.
  destruct (SFleb (shutdown_celsius_ a) t).
  - destruct (bool_decide_reflect (amp_state_ a = AmpState.Overheated)); simpl; [done|].
    by rewrite amp_publish_run.
  - destruct (SFleb (warn_celsius_ a) t).
    + destruct (negb (warned_ a)); simpl; [by rewrite amp_publish_run|done].
    + by destruct (bool_decide_reflect (amp_state_ a = AmpState.Overheated)).
Qed.

Lemma poll_state_after h a :
  no_hardware_ a = false -> amp_state_ (state_after (poll h) a) = poll_state a h.
Proof.
  intros Hh. unfold poll, poll_state. rewrite state_after_bind. change (value_of get a) with a.
  change (state_after get a) with a. rewrite Hh, state_after_bind.
  destruct (readFlags h) as [f|s].
  - destruct (poll_flags_state h f a) as (Hs & Ht & Hw & _).
    destruct (readTemperatureCelsius h) as [t|s]; [|exact Hs].
    rewrite state_after_bind. change (state_after (mret (Value t)) ?s) with s.
    by rewrite poll_temperature_state, Hs, Ht, Hw.
  - destruct (readTemperatureCelsius h) as [t|s']; [|done].
    rewrite state_after_bind. change (state_after (mret (Value t)) ?s) with s.
    by rewrite poll_temperature_state.
Qed.

(** ** Properties *)

(** C19: An unhealthy amplifier is silent.  Whatever sequence of calls is made and
    whatever the driver answers to each, whenever the amplifier is in Fault, Overheated
    or Protection the mute line was last driven to mute, and an unmute in such a state is
    refused without touching the line. *)
Theorem unhealthy_amplifier_is_muted bus warn shutdown l h :
  let a := state_after (amp_calls l) (new_amp bus warn shutdown) in
  unhealthy (amp_state_ a) = true ->
  line_ a = true /\
  (no_hardware_ a = false ->
   unmute h a = (error ErrorCode.PermissionDenied "cannot unmute: amp not healthy", a, [])).
Proof.
  cbv zeta.
  assert (silenced (state_after (amp_calls l) (new_amp bus warn shutdown))) as Hs.
  { assert (silenced (new_amp bus warn shutdown)) as H0 by done. revert H0.
    generalize (new_amp bus warn shutdown). induction l as [|c l IH]; intros a Ha; [done|].
    simpl. rewrite state_after_bind. by apply IH, amp_call_silenced. }
  intros Hu. split; [by apply Hs|]. intros Hh.
  unfold unmute, mbind, SW_bind, get. by rewrite Hh, Hu.
Qed.

(** What a poll decides.  With hardware present the state after a poll is
    Overheated at or above the shutdown temperature, otherwise Fault while the fault line
    is asserted, Protection while only the protection line is (unless a fault was
    recorded), Muted after cooling down below the warning temperature, and otherwise
    unchanged; in particular a recorded fault is left only by overheating. *)
Theorem poll_decides h a :
  no_hardware_ a = false ->
  amp_state_ (state_after (poll h) a) = poll_state a h /\
  (amp_state_ a = AmpState.Fault ->
   amp_state_ (state_after (poll h) a) <> AmpState.Fault ->
   exists t, readTemperatureCelsius h = Value t /\ SFleb (shutdown_celsius_ a) t = true).
Proof.
  intros Hh. rewrite poll_state_after by done. split; [done|]. intros Hf. unfold poll_state.
  rewrite Hf, bool_decide_eq_true_2 by done.
  destruct (readTemperatureCelsius h) as [t|s].
  - destruct (SFleb (shutdown_celsius_ a) t) eqn:E; [by eauto|].
    by destruct (SFleb (warn_celsius_ a) t), (readFlags h) as [[[] [] ?]|].
  - by destruct (readFlags h) as [[[] [] ?]|].
Qed.

(** ** Witnesses *)

Definition hot : Hal :=
  mk_hal success success (fun _ => success) (Value (binary_normalize 53 1024 90 0 false))
    (Value (mk_flags true false false)).
Definition cool : Hal :=
  mk_hal success success (fun _ => success) (Value (binary_normalize 53 1024 40 0 false))
    (Value (mk_flags false false false)).
Definition demo_calls : list AmpCall := [CallStart hot; CallUnmute hot; CallPoll hot].
Definition demo_amp : AmplifierManager :=
  new_amp true (binary_normalize 53 1024 70 0 false) (binary_normalize 53 1024 85 0 false).

Lemma unhealthy_amplifier_is_muted_witness :
  line_ (state_after (amp_calls demo_calls) demo_amp) = true.
Proof.
  apply (unhealthy_amplifier_is_muted true (binary_normalize 53 1024 70 0 false)
           (binary_normalize 53 1024 85 0 false) demo_calls hot).
  vm_compute. reflexivity.
Defined.

(** A recorded fault that overheats and cools is forgotten: the amplifier can be unmuted. *)
Lemma poll_decides_witness :
  let a := state_after (amp_calls demo_calls) demo_amp in
  let a' := state_after (poll cool) a in
  amp_state_ a = AmpState.Overheated /\ amp_state_ a' = AmpState.Muted.
Proof.
  cbv zeta. split; [vm_compute; reflexivity|].
  destruct (poll_decides cool (state_after (amp_calls demo_calls) demo_amp)) as [H _];
    [vm_compute; reflexivity|].
  rewrite H. vm_compute. reflexivity.
Defined.

(** A fault line that stays asserted on a hot amplifier alerts at every poll: each poll
    leaves Fault for Overheated. *)
Lemma hot_fault_alerts_every_poll :
  length (of_type EventType.AmplifierFault
            (effects_of (amp_calls [CallStart hot; CallPoll hot; CallPoll hot; CallPoll hot])
               demo_amp)) = 3%nat.
Proof. vm_compute. reflexivity. Qed.

(** Stopping mutes the amplifier and then takes its power away. *)
Lemma stop_cuts_the_power h a :
  let a' := state_after (amp_stop h) a in
  amp_state_ a' = AmpState.Off /\ svc_state_ a' = ServiceState.Stopped /\
  (no_hardware_ a = false -> line_ a' = true /\ supply_ a' = false) /\
  (no_hardware_ a = true -> line_ a' = line_ a /\ supply_ a' = supply_ a).
Proof.
  cbv zeta. unfold amp_stop. rewrite state_after_bind. change (value_of get a) with a.
  by destruct (no_hardware_ a).
Qed.

(** An amplifier that is switched off accepts an unmute and reports Ready. *)
Lemma unmute_while_off :
  amp_state_ demo_amp = AmpState.Off /\
  value_of (unmute cool) demo_amp = success /\
  amp_state_ (state_after (unmute cool) demo_amp) = AmpState.Ready.
Proof. by split_and!. Qed.
