(* ===== verification/EventBus.v ===== *)
(** * EventBus: the in-process publish/subscribe bus

    Models [src/src/core/EventBus.cpp].  Publishers on any thread append to a
    queue; one worker thread takes events in order, copies the matching handlers
    and runs them, each inside a try/catch.  The bus is a step relation: a step is
    one critical section of the source or one notification, so every interleaving
    the locks allow is a path of the relation.  Both condition variables are
    modelled: a thread that waits is asleep until it is notified (or wakes of its
    own accord), and a notification that finds nobody asleep is lost.  [stop] is
    called from a thread other than the worker's.  Ghost fields record what was
    accepted and delivered. *)

From S2P Require Import Prelude Core.

Section EventBus.
(** A handler is an opaque [std::function]; [D] is the event payload. *)
Context {Handler D : Type}.
Abbreviation Ev := (Event D).

(* [src/src/core/EventBus.h:49-54] EventBus::Subscription *)
Record Subscription := mk_sub
  { sub_token : Z; sub_all : bool; sub_type : EventType; sub_handler : Handler }.

(** How a handler ended.  [dispatch] catches both kinds of exception. *)
Inductive Outcome := Returned | ThrewStd | ThrewOther.

(** Where the worker thread is inside [workerLoop]. *)
(* [src/src/core/EventBus.cpp:124-141] workerLoop *)
Inductive Worker :=
| Testing                                      (* about to test the predicate of the wait *)
| Asleep                                       (* blocked on [queue_cv_] *)
| Taken (e : Ev)                               (* popped, queue lock released *)
| Calling (e : Ev) (snapshot : list Subscription) (todo : list Handler)
                                               (* in the handler loop of dispatch *)
| Exited.

(** The first call of [stop]; the later ones return at once. *)
(* [src/src/core/EventBus.cpp:148-156] EventBus::stop *)
Inductive Stopper := NotStopped | StopNotify | Joining | Joined.

(** A call of [drain]: about to test the predicate, blocked on [idle_cv_], or back. *)
(* [src/src/core/EventBus.cpp:143-146] EventBus::drain *)
Inductive Drainer := DTesting | DAsleep | DReturned.
#[export] Instance Drainer_eq_dec : EqDecision Drainer.
Proof. solve_decision. Defined.

(** A finished dispatch: the event, the subscriptions when it began and the
    handlers that were invoked. *)
Record Delivery := mk_delivery
  { d_event : Ev; d_snapshot : list Subscription; d_ran : list Handler }.

(** The callers that have left their critical section: publishers that have yet to
    notify, the thread in [stop], the threads in [drain]. *)
Record Callers := mk_callers { owed : nat; stopper : Stopper; drainers : list Drainer }.

(* [src/src/core/EventBus.h:59-69] EventBus *)
Record Bus := mk_bus
  { subs : list Subscription;
    next_token : Z;
    queue : list Ev;
    running : bool;
    in_flight : nat;
    worker : Worker;
    callers : Callers;
    accepted : list Ev;           (* ghost: events publish() enqueued *)
    dispatched : list Delivery;   (* ghost: finished dispatches *)
    ran : list Handler            (* ghost: handlers run for the current event *)
  }.

(* [src/src/core/EventBus.cpp:57-60] EventBus::EventBus *)
Definition initial_bus : Bus :=
  mk_bus [] 1 [] true 0 Testing (mk_callers 0 NotStopped []) [] [] [].

Definition with_subs (l : list Subscription) (t : Z) (b : Bus) : Bus :=
  mk_bus l t (queue b) (running b) (in_flight b) (worker b) (callers b) (accepted b)
    (dispatched b) (ran b).

Definition with_worker (w : Worker) (r : list Handler) (b : Bus) : Bus :=
  mk_bus (subs b) (next_token b) (queue b) (running b) (in_flight b) w (callers b)
    (accepted b) (dispatched b) r.

Definition with_callers (w : Worker) (c : Callers) (b : Bus) : Bus :=
  mk_bus (subs b) (next_token b) (queue b) (running b) (in_flight b) w c
    (accepted b) (dispatched b) (ran b).

Definition set_drainers (l : list Drainer) (c : Callers) : Callers :=
  mk_callers (owed c) (stopper c) l.

(** What a notification does to the thread that may wait for it. *)
Definition woken (w : Worker) : Worker := match w with Asleep => Testing | _ => w end.
Definition roused (d : Drainer) : Drainer := match d with DAsleep => DTesting | _ => d end.

(* [src/src/core/EventBus.cpp:64-69] EventBus::subscribe *)
Definition subscribe (ty : EventType) (h : Handler) (b : Bus) : Z * Bus :=
  let token := next_token b in
  (token, with_subs (subs b ++ [mk_sub token false ty h]) (token + 1) b).

(* [src/src/core/EventBus.cpp:71-76] EventBus::subscribeAll *)
Definition subscribeAll (h : Handler) (b : Bus) : Z * Bus :=
  let token := next_token b in
  (token, with_subs (subs b ++ [mk_sub token true EventType.StateChanged h])
            (token + 1) b).

(** The loop erases the first subscription with the token and returns. *)
(* [src/src/core/EventBus.cpp:80-85] EventBus::unsubscribe *)
Fixpoint erase_token (t : Z) (l : list Subscription) : list Subscription :=
  match l with
  | [] => []
  | s :: r => if (sub_token s =? t)%Z then r else s :: erase_token t r
  end.

(* [src/src/core/EventBus.cpp:78-86] EventBus::unsubscribe *)
Definition unsubscribe (t : Z) (b : Bus) : Bus :=
  with_subs (erase_token t (subs b)) (next_token b) b.

(** The critical section; the notification is still to come. *)
(* [src/src/core/EventBus.cpp:88-94] EventBus::publish *)
Definition publish (e : Ev) (b : Bus) : Bus :=
  if running b then
    mk_bus (subs b) (next_token b) (queue b ++ [e]) true (S (in_flight b)) (worker b)
      (mk_callers (S (owed (callers b))) (stopper (callers b)) (drainers (callers b)))
      (accepted b ++ [e]) (dispatched b) (ran b)
  else b.

(** [notify_one] of a publisher: the worker is the only thread that waits for it. *)
(* [src/src/core/EventBus.cpp:95-96] EventBus::publish *)
Definition notify_step (b : Bus) : option Bus :=
  match owed (callers b) with
  | O => None
  | S n => Some (with_callers (woken (worker b))
                   (mk_callers n (stopper (callers b)) (drainers (callers b))) b)
  end.

(** The critical section of [stop]. *)
(* [src/src/core/EventBus.cpp:148-153] EventBus::stop *)
Definition stop (b : Bus) : Bus :=
  if running b then
    mk_bus (subs b) (next_token b) (queue b) false (in_flight b) (worker b)
      (mk_callers (owed (callers b)) StopNotify (drainers (callers b)))
      (accepted b) (dispatched b) (ran b)
  else b.

(** Its [notify_all], and the join. *)
(* [src/src/core/EventBus.cpp:154-156] EventBus::stop *)
Definition stop_step (b : Bus) : option Bus :=
  let go w s := Some (with_callers w (mk_callers (owed (callers b)) s (drainers (callers b))) b) in
  match stopper (callers b) with
  | StopNotify => go (woken (worker b)) Joining
  | Joining => match worker b with Exited => go Exited Joined | _ => None end
  | NotStopped | Joined => None
  end.

(** A call of [drain] begins. *)
(* [src/src/core/EventBus.cpp:143-144] EventBus::drain *)
Definition drain (b : Bus) : Bus :=
  with_callers (worker b) (set_drainers (drainers (callers b) ++ [DTesting]) (callers b)) b.

(** The [i]-th call tests its predicate: it returns or blocks. *)
(* [src/src/core/EventBus.cpp:145-146] EventBus::drain *)
Definition drain_step (i : nat) (b : Bus) : option Bus :=
  match drainers (callers b) !! i with
  | Some DTesting =>
      let d := if (in_flight b =? 0)%nat then DReturned else DAsleep in
      Some (with_callers (worker b) (set_drainers (<[i := d]> (drainers (callers b))) (callers b)) b)
  | _ => None
  end.

(** The handlers [dispatch] copies under the lock, in subscription order. *)
(* [src/src/core/EventBus.cpp:98-107] EventBus::dispatch *)
Definition matching (e : Ev) (l : list Subscription) : list Handler :=
  sub_handler <$> filter (fun s => sub_all s = true \/ sub_type s = type e) l.

(** The worker's turn; [o] is how the handler it calls ends.  Every way of ending
    leads to the next handler.  The last turn of a dispatch notifies the threads in
    [drain] when nothing is left in flight. *)
(* [src/src/core/EventBus.cpp:98-141] EventBus::workerLoop *)
Definition worker_step (o : Outcome) (b : Bus) : option Bus :=
  match worker b with
  | Testing =>
      match queue b with
      | [] => Some (with_worker (if running b then Asleep else Exited) [] b)
      | e :: q => Some (mk_bus (subs b) (next_token b) q (running b) (in_flight b)
                          (Taken e) (callers b) (accepted b) (dispatched b) [])
      end
  | Asleep => None
  | Taken e =>
      Some (with_worker (Calling e (subs b) (matching e (subs b))) [] b)
  | Calling e snap (h :: todo) =>
      let next := with_worker (Calling e snap todo) (ran b ++ [h]) b in
      match o with Returned => Some next | ThrewStd => Some next | ThrewOther => Some next end
  | Calling e snap [] =>
      let n := pred (in_flight b) in
      let c := if (n =? 0)%nat then set_drainers (roused <$> drainers (callers b)) (callers b)
               else callers b in
      Some (mk_bus (subs b) (next_token b) (queue b) (running b) n
              Testing c (accepted b) (dispatched b ++ [mk_delivery e snap (ran b)]) [])
  | Exited => None
  end.

(** What goes on by itself once calls have been made: the worker, the notifications owed,
    the thread in [stop] and those in [drain]. *)
Inductive internal : Bus -> Bus -> Prop :=
| int_worker o b b' : worker_step o b = Some b' -> internal b b'
| int_notify b b' : notify_step b = Some b' -> internal b b'
| int_stop b b' : stop_step b = Some b' -> internal b b'
| int_drain i b b' : drain_step i b = Some b' -> internal b b'.

(** One step of some thread: a call, an internal step, or a wake-up a condition variable
    may have of its own. *)
Inductive bus_step : Bus -> Bus -> Prop :=
| step_subscribe ty h b : bus_step b (subscribe ty h b).2
| step_subscribeAll h b : bus_step b (subscribeAll h b).2
| step_unsubscribe t b : bus_step b (unsubscribe t b)
| step_publish e b : bus_step b (publish e b)
| step_stop b : bus_step b (stop b)
| step_drain b : bus_step b (drain b)
| step_internal b b' : internal b b' -> bus_step b b'
| step_spurious_worker b : bus_step b (with_callers (woken (worker b)) (callers b) b)
| step_spurious_drain i b :
    bus_step b (with_callers (worker b) (set_drainers (alter roused i (drainers (callers b))) (callers b)) b).

Definition bus_reachable : Bus -> Prop := reachable (eq initial_bus) bus_step.

(** ** The invariant *)

(** The event the worker holds, if any. *)
Definition in_hand (w : Worker) : list Ev :=
  match w with Taken e | Calling e _ _ => [e] | _ => [] end.

(** The handlers run so far and those still to run are the snapshot's. *)
Definition calling_ok (w : Worker) (r : list Handler) : Prop :=
  match w with Calling e snap todo => r ++ todo = matching e snap | _ => True end.

Record bus_inv (b : Bus) : Prop := {
  inv_fifo : accepted b = (d_event <$> dispatched b) ++ in_hand (worker b) ++ queue b;
  inv_in_flight : in_flight b = length (in_hand (worker b)) + length (queue b);
  inv_exited : worker b = Exited -> queue b = [] /\ running b = false;
  inv_calling : calling_ok (worker b) (ran b);
  inv_complete : Forall (fun d => d_ran d = matching (d_event d) (d_snapshot d))
                   (dispatched b);
  inv_tokens : Forall (fun s => sub_token s < next_token b)%Z (subs b);
  inv_tokens_nodup : NoDup (sub_token <$> subs b)
}.

Lemma erase_token_sublist t l : sublist (erase_token t l) l.
Proof. induction l as [|s l IH]; simpl; [done|]. case_match; by constructor. Qed.

Lemma bus_inv_initial : bus_inv initial_bus.
Proof. split; try done; by constructor. Qed.

Lemma bus_inv_subscribe all ty h b :
  bus_inv b ->
  bus_inv (with_subs (subs b ++ [mk_sub (next_token b) all ty h]) (next_token b + 1) b).
Proof.
  intros [? ? ? ? ? Htok Hnd]. split; try done; simpl.
  - apply Forall_app; split; [|repeat constructor; simpl; lia].
    eapply Forall_impl; [done|]. simpl. lia.
  - rewrite fmap_app. apply NoDup_snoc; [done|]. simpl.
    intros (s & Hs & Hin)%list_elem_of_fmap.
    eapply Forall_forall in Htok; [|exact Hin]. lia.
Qed.

Lemma bus_inv_unsubscribe t b : bus_inv b -> bus_inv (unsubscribe t b).
Proof.
  intros [? ? ? ? ? Htok Hnd].
  pose proof (erase_token_sublist t (subs b)) as Hs. split; try done; simpl.
  - apply Forall_forall. intros s Hin. eapply Forall_forall in Htok; [done|].
    by eapply sublist_subseteq.
  - eapply sublist_NoDup; [exact Hnd|]. by apply fmap_sublist.
Qed.

Lemma bus_inv_publish e b : bus_inv b -> bus_inv (publish e b).
Proof.
  intros [Hf Hn Hx ? ? ? ?]. unfold publish. destruct (running b) eqn:Hr; [|by split; rewrite ?Hr].
  split; try done; simpl.
  - by rewrite Hf, <- !app_assoc.
  - rewrite Hn, length_app. simpl. lia.
  - intros [_ ?]%Hx. done.
Qed.

(** Steps of the callers, and wake-ups of the worker, do not touch the events. *)
Lemma bus_inv_callers w c b :
  in_hand w = in_hand (worker b) -> (w = Exited -> worker b = Exited) ->
  calling_ok w (ran b) -> bus_inv b -> bus_inv (with_callers w c b).
Proof.
  intros Hh Hw Hc [Hf Hn Hx ? ? ? ?]. split; try done; simpl.
  - by rewrite Hh.
  - by rewrite Hh.
  - auto.
Qed.

Lemma bus_inv_woken c b : bus_inv b -> bus_inv (with_callers (woken (worker b)) c b).
Proof. intros Hb. apply bus_inv_callers; [..|done]; destruct Hb as [? ? ? Hc ? ? ?]; by destruct (worker b). Qed.

Lemma bus_inv_drain l b : bus_inv b -> bus_inv (with_callers (worker b) (set_drainers l (callers b)) b).
Proof. intros Hb. apply bus_inv_callers; try done. apply Hb. Qed.

Lemma bus_inv_worker o b b' : bus_inv b -> worker_step o b = Some b' -> bus_inv b'.
Proof.
  intros [Hf Hn Hx Hc Hd ? ?]. unfold worker_step.
  destruct (worker b) as [| |e|e snap [|h todo]|] eqn:Hw; simpl in *; [|done| | | |done].
  - destruct (queue b) as [|e q] eqn:Hq; simpl in *; intros [= <-].
    + destruct (running b) eqn:Hr; by split; simpl; rewrite ?Hq, ?Hr.
    + split; simpl; done.
  - intros [= <-]. by split.
  - rewrite app_nil_r in Hc. intros [= <-]. split; simpl; try done.
    + by rewrite Hf, fmap_app, <- app_assoc.
    + lia.
    + apply Forall_app; split; [done|]. by repeat constructor.
  - destruct o; intros [= <-]; split; simpl; try done; by rewrite <- app_assoc.
Qed.

Lemma bus_inv_internal b b' : bus_inv b -> internal b b' -> bus_inv b'.
Proof.
  intros Hb Hi. revert Hb. destruct Hi as [o b0 b1 Hs|b0 b1 Hs|b0 b1 Hs|i b0 b1 Hs]; intros Hb.
  - by eapply bus_inv_worker.
  - unfold notify_step in Hs. destruct (owed _); [done|]. injection Hs as <-. by apply bus_inv_woken.
  - unfold stop_step in Hs. destruct (stopper _); [done| | |done].
    + injection Hs as <-. by apply bus_inv_woken.
    + destruct (worker b0) eqn:Hw; try done. injection Hs as <-.
      apply bus_inv_callers; try done. by rewrite Hw.
  - unfold drain_step in Hs. destruct (_ !! i) as [[]|]; try done. injection Hs as <-. by apply bus_inv_drain.
Qed.

Lemma bus_inv_step b b' : bus_inv b -> bus_step b b' -> bus_inv b'.
Proof.
  intros Hb Hs. revert Hb. destruct Hs as [ty h b|h b|t b|e b|b|b|b b' Hs|b|i b]; intros Hb.
  - by apply bus_inv_subscribe.
  - by apply bus_inv_subscribe.
  - by apply bus_inv_unsubscribe.
  - by apply bus_inv_publish.
  - unfold stop. destruct (running b); [|done]. destruct Hb as [? ? Hx ? ? ? ?].
    split; simpl; try done. intros Hw. by destruct (Hx Hw).
  - by apply bus_inv_drain.
  - by eapply bus_inv_internal.
  - by apply bus_inv_woken.
  - by apply bus_inv_drain.
Qed.

Lemma bus_reachable_inv b : bus_reachable b -> bus_inv b.
Proof. apply invariant_reachable; [intros ? <-; apply bus_inv_initial|apply bus_inv_step]. Qed.

(** ** No wake-up is lost *)

(** Who sleeps has nothing to do, or a notification is on its way. *)
Record wake_inv (b : Bus) : Prop := {
  wake_worker : worker b = Asleep ->
    (queue b = [] /\ running b = true) \/ owed (callers b) <> 0 \/ stopper (callers b) = StopNotify;
  wake_drain : DAsleep ∈ drainers (callers b) -> in_flight b <> 0;
  wake_stopper : stopper (callers b) = NotStopped <-> running b = true;
  wake_joined : stopper (callers b) = Joined -> worker b = Exited
}.

Lemma not_asleep_roused (l : list Drainer) : DAsleep ∉ roused <$> l.
Proof. intros (d & Hd & _)%list_elem_of_fmap. by destruct d. Qed.

Lemma asleep_after_insert i d (l : list Drainer) : DAsleep ∈ <[i := d]> l -> d = DAsleep \/ DAsleep ∈ l.
Proof.
  intros (j & Hj)%list_elem_of_lookup. destruct (decide (i = j)) as [<-|Hn].
  - destruct (decide (i < length l)).
    + rewrite list_lookup_insert_eq in Hj by done. left. congruence.
    + rewrite list_insert_ge in Hj by lia. right. by eapply list_elem_of_lookup_2.
  - rewrite list_lookup_insert_ne in Hj by done. right. by eapply list_elem_of_lookup_2.
Qed.

Lemma asleep_after_alter i (l : list Drainer) : DAsleep ∈ alter roused i l -> DAsleep ∈ l.
Proof.
  intros (j & Hj)%list_elem_of_lookup. destruct (decide (i = j)) as [<-|Hn].
  - rewrite list_lookup_alter_eq in Hj. destruct (l !! i) as [[]|]; done.
  - rewrite list_lookup_alter_ne in Hj by done. by eapply list_elem_of_lookup_2.
Qed.

Lemma woken_not_asleep w : woken w <> Asleep.
Proof. by destruct w. Qed.

Lemma wake_inv_internal b b' : wake_inv b -> internal b b' -> wake_inv b'.
Proof.
  intros Hb Hi. revert Hb.
  destruct Hi as [o b0 b1 H|b0 b1 H|b0 b1 H|i b0 b1 H]; intros [Hw Hd Hs Hj].
  - unfold worker_step in H. destruct (worker b0) as [| |e|e snap [|h todo]|] eqn:E; try done.
    + destruct (queue b0) as [|e q] eqn:Eq; injection H as <-.
      * destruct (running b0) eqn:Er; split; simpl; try done; rewrite ?Er; try done.
        -- intros _. by left.
        -- intros ?. by specialize (Hj ltac:(done)).
      * split; simpl; try done. intros ?. by specialize (Hj ltac:(done)).
    + injection H as <-. split; simpl; try done. intros ?. by specialize (Hj ltac:(done)).
    + injection H as <-. destruct (pred (in_flight b0)) as [|n]; split; simpl; try done.
      * intros Hin. by apply not_asleep_roused in Hin.
      * intros ?. by specialize (Hj ltac:(done)).
      * intros ?. by specialize (Hj ltac:(done)).
    + destruct o; injection H as <-; split; simpl; try done; intros ?; by specialize (Hj ltac:(done)).
  - unfold notify_step in H. destruct (owed (callers b0)) eqn:E; [done|]. injection H as <-. split; simpl; try done.
    + by intros ?%woken_not_asleep.
    + intros Hx. by rewrite (Hj Hx).
  - unfold stop_step in H. destruct (stopper (callers b0)) eqn:E; try done.
    + injection H as <-. split; simpl; try done; [by intros ?%woken_not_asleep|]. split; [done|].
      intros Hr. by apply Hs in Hr.
    + destruct (worker b0) eqn:Ew; try done. injection H as <-. split; simpl; try done. split; [done|].
      intros Hr. by apply Hs in Hr.
  - unfold drain_step in H. destruct (_ !! i) as [[]|]; try done. injection H as <-. split; simpl; try done.
    intros [Hx|Hx]%asleep_after_insert; [|by apply Hd]. destruct (Nat.eqb_spec (in_flight b0) 0); [done|done].
Qed.

Lemma wake_inv_step b b' : wake_inv b -> bus_step b b' -> wake_inv b'.
Proof.
  intros Hb Hs. revert Hb. destruct Hs as [ty h b|h b|t b|e b|b|b|b b' Hs|b|i b]; intros Hb;
    try (destruct Hb as [Hw Hd Hst Hj]).
  - by split.
  - by split.
  - by split.
  - unfold publish. destruct (running b) eqn:Hr; [|by split; rewrite ?Hr]. split; simpl; try done.
    intros _. by right; left.
  - unfold stop. destruct (running b) eqn:Hr; [|by split; rewrite ?Hr]. split; simpl; try done.
    intros _. by right; right.
  - split; simpl; try done. intros [Hx|Hx%list_elem_of_singleton]%elem_of_app; [by apply Hd|done].
  - by eapply wake_inv_internal.
  - split; simpl; try done; [by intros ?%woken_not_asleep|]. intros Hx. by rewrite (Hj Hx).
  - split; simpl; try done. intros Hx%asleep_after_alter. by apply Hd.
Qed.

Lemma bus_reachable_wake b : bus_reachable b -> wake_inv b.
Proof.
  apply invariant_reachable; [|apply wake_inv_step]. intros ? <-. split; simpl; try done. by intros ?%elem_of_nil.
Qed.

(** ** The bus settles *)

(** The internal steps still possible, were no call made: at most this many. *)
Definition worker_work (b : Bus) : nat :=
  match worker b with
  | Asleep | Exited => 0
  | Testing => 1
  | Calling _ _ todo => 2 + length todo + length (drainers (callers b))
  | Taken _ => 3 + length (subs b) + length (drainers (callers b))
  end.
Definition stopper_work (s : Stopper) : nat :=
  match s with StopNotify => 3 | Joining => 1 | NotStopped | Joined => 0 end.
Definition testing (l : list Drainer) : nat := length (filter (eq DTesting) l).
Definition bus_work (b : Bus) : nat :=
  length (queue b) * (4 + length (subs b) + length (drainers (callers b))) + worker_work b
  + 2 * owed (callers b) + stopper_work (stopper (callers b)) + testing (drainers (callers b)).

Lemma matching_length e l : length (matching e l) <= length l.
Proof. unfold matching. rewrite length_fmap. apply length_filter. Qed.

Lemma testing_length l : testing l <= length l.
Proof. apply length_filter. Qed.

Lemma testing_insert i d l :
  l !! i = Some DTesting -> d <> DTesting -> S (testing (<[i := d]> l)) = testing l.
Proof.
  unfold testing. revert i. induction l as [|x l IH]; intros [|i] Hl Hd; try done; simpl in *.
  - injection Hl as ->. rewrite filter_cons_False, filter_cons_True by congruence. done.
  - rewrite !filter_cons. destruct (decide (DTesting = x)); simpl; by rewrite IH.
Qed.

Lemma bus_work_internal b b' : internal b b' -> bus_work b' < bus_work b.
Proof.
  intros [o b0 b1 H|b0 b1 H|b0 b1 H|i b0 b1 H]; unfold bus_work, worker_work.
  - unfold worker_step in H. destruct (worker b0) as [| |e|e snap [|h todo]|]; try done.
    + destruct (queue b0) as [|e q] eqn:Eq; injection H as <-; simpl; rewrite ?Eq; [destruct (running b0)|]; simpl; lia.
    + injection H as <-. simpl. pose proof (matching_length e (subs b0)). lia.
    + injection H as <-. simpl. destruct (pred (in_flight b0)); simpl; [|lia].
      pose proof (testing_length (roused <$> drainers (callers b0))) as Ht. rewrite length_fmap in *. lia.
    + destruct o; injection H as <-; simpl; lia.
  - unfold notify_step in H. destruct (owed (callers b0)); [done|]. injection H as <-. simpl.
    destruct (worker b0); simpl; lia.
  - unfold stop_step in H. destruct (stopper (callers b0)); try done.
    + injection H as <-. simpl. destruct (worker b0); simpl; lia.
    + destruct (worker b0) eqn:E; try done. injection H as <-. simpl. rewrite ?E. simpl. lia.
  - unfold drain_step in H. destruct (_ !! i) as [[]|] eqn:E; try done. injection H as <-. simpl.
    rewrite length_insert.
    pose proof (testing_insert i (if (in_flight b0 =? 0)%nat then DReturned else DAsleep) _ E) as Ht.
    rewrite <- Ht by (by case_match). destruct (worker b0); lia.
Qed.

Lemma accepted_internal b b' :
  internal b b' -> accepted b' = accepted b /\ running b' = running b /\
    length (drainers (callers b')) = length (drainers (callers b)).
Proof.
  intros [o b0 b1 H|b0 b1 H|b0 b1 H|i b0 b1 H].
  - unfold worker_step in H. destruct (worker b0) as [| |e|e snap [|h todo]|]; try done.
    + destruct (queue b0); by injection H as <-.
    + by injection H as <-.
    + injection H as <-. simpl. split_and!; [done|done|]. destruct (_ =? 0)%nat; [apply length_fmap|done].
    + destruct o; by injection H as <-.
  - unfold notify_step in H. destruct (owed (callers b0)); [done|]. by injection H as <-.
  - unfold stop_step in H. destruct (stopper (callers b0)); try done; [by injection H as <-|].
    destruct (worker b0); try done. by injection H as <-.
  - unfold drain_step in H. destruct (_ !! i) as [[]|]; try done. injection H as <-. simpl.
    by rewrite length_insert.
Qed.

Definition stuck (b : Bus) : Prop := forall b', ~ internal b b'.

(** A bus at rest owes nothing: the worker sleeps or is gone. *)
Lemma stuck_worker b : stuck b -> worker b = Asleep \/ worker b = Exited.
Proof.
  intros Hb. destruct (worker b) as [| |e|e snap [|h todo]|] eqn:Hw; [|by left| | | |by right];
    (destruct (worker_step Returned b) as [b'|] eqn:Hs;
       [by apply int_worker, Hb in Hs|unfold worker_step in Hs; rewrite Hw in Hs]); try done.
  by destruct (queue b).
Qed.

Lemma stuck_callers b :
  stuck b -> owed (callers b) = 0 /\ stopper (callers b) <> StopNotify /\
    (worker b = Exited -> stopper (callers b) <> Joining) /\ DTesting ∉ drainers (callers b).
Proof.
  intros Hb. split_and!.
  - destruct (owed (callers b)) eqn:E; [done|]. exfalso. eapply Hb, int_notify. unfold notify_step. by rewrite E.
  - intros E. eapply Hb, int_stop. unfold stop_step. by rewrite E.
  - intros Hw E. eapply Hb, int_stop. unfold stop_step. by rewrite E, Hw.
  - intros (i & E)%list_elem_of_lookup. eapply Hb, int_drain. unfold drain_step. by rewrite E.
Qed.

Lemma stuck_settled b :
  bus_inv b -> wake_inv b -> stuck b ->
  queue b = [] /\ in_flight b = 0 /\ Forall (eq DReturned) (drainers (callers b)) /\
  (running b = false -> worker b = Exited /\ stopper (callers b) = Joined) /\
  (running b = true -> worker b = Asleep).
Proof.
  intros [_ Hn Hx _ _ _ _] [Hwk Hdr Hst Hj] Hs.
  destruct (stuck_callers b Hs) as (Ho & Hsn & Hjn & Ht).
  assert (queue b = [] /\ (running b = true <-> worker b = Asleep)) as [Hq Hr].
  { destruct (stuck_worker b Hs) as [Hw|Hw].
    - destruct (Hwk Hw) as [[? ?]|[?|?]]; [|done|done]. by split.
    - destruct (Hx Hw) as [? Hr]. split; [done|]. rewrite Hr, Hw. split; discriminate. }
  assert (in_flight b = 0) as H0.
  { rewrite Hn, Hq. destruct (stuck_worker b Hs) as [Hw|Hw]; by rewrite Hw. }
  split_and!; [done|done| | |apply Hr].
  - apply Forall_forall. intros d Hd. destruct d; [done|by apply Hdr in Hd|done].
  - intros E. assert (worker b = Exited) as Hw.
    { destruct (stuck_worker b Hs) as [Hw|]; [|done]. apply Hr in Hw. congruence. }
    split; [done|]. destruct (stopper (callers b)) eqn:Es; [|done|by apply Hjn in Hw|done].
    rewrite (proj1 Hst eq_refl) in E. done.
Qed.

(** ** Properties *)

(** C5: No event is lost, duplicated or reordered.  In every reachable state the
    events [publish] accepted are, in order, those already dispatched, the one in
    the worker's hand and the queue; [in_flight_] counts the last two; and once
    the worker has exited every accepted event has been dispatched. *)
Theorem bus_fifo b :
  bus_reachable b ->
  accepted b = (d_event <$> dispatched b) ++ in_hand (worker b) ++ queue b /\
  in_flight b = length (in_hand (worker b)) + length (queue b) /\
  (worker b = Exited -> running b = false /\ d_event <$> dispatched b = accepted b).
Proof.
  intros [Hf Hn Hx _ _ _ _]%bus_reachable_inv. split_and!; [done|done|].
  intros Hw. destruct (Hx Hw) as [Hq ?]. split; [done|].
  rewrite Hf, Hw, Hq. simpl. by rewrite app_nil_r.
Qed.

(** Subscribers are isolated.  A finished dispatch has run exactly the handlers of
    the subscriptions that were interested in the event when it began (those to its
    type and those to all types), each once and in subscription order, whichever of
    them threw. *)
Theorem bus_dispatch_complete b d :
  bus_reachable b -> d ∈ dispatched b ->
  exists chosen : list Subscription, sublist chosen (d_snapshot d) /\ d_ran d = sub_handler <$> chosen /\
    forall s, s ∈ d_snapshot d ->
      (s ∈ chosen <-> sub_all s = true \/ sub_type s = type (d_event d)).
Proof.
  intros [_ _ _ _ Hd _ _]%bus_reachable_inv Hin.
  eapply Forall_forall in Hd; [|exact Hin]. exists (filter (fun s => sub_all s = true \/ sub_type s = type (d_event d)) (d_snapshot d)).
  split; [apply sublist_filter|].
  split; [exact Hd|]. intros s Hs. rewrite list_elem_of_filter. tauto.
Qed.

(** C6: [drain] and [stop] return, and no notification is lost on the way.  From any
    reachable state, once no further call is made, the threads of the bus can take only
    finitely many steps, however they interleave; and where none of them can move any more,
    every event accepted has been dispatched in order, nothing is in flight and every call of
    [drain] has returned.  If [stop] was called, the worker has left its loop and [stop] has
    joined it; if not, the worker is asleep until the next [publish]. *)
Theorem bus_drains b :
  bus_reachable b ->
  (exists bound, forall k b', nsteps internal k b b' -> k <= bound) /\
  (forall b', rtc internal b b' -> (forall b'', ~ internal b' b'') ->
     accepted b' = accepted b /\ d_event <$> dispatched b' = accepted b /\ in_flight b' = 0 /\
     length (drainers (callers b')) = length (drainers (callers b)) /\
     Forall (eq DReturned) (drainers (callers b')) /\
     (running b = false -> worker b' = Exited /\ stopper (callers b') = Joined) /\
     (running b = true -> worker b' = Asleep)).
Proof.
  intros Hb. split.
  - exists (bus_work b). intros k b' Hk.
    destruct (measured_runs internal (fun _ => True) bus_work) with (k := k) (s := b) (s' := b') as [_ Hle];
      [intros ? ? _ Hi; split; [done|by apply bus_work_internal]|done|done|lia].
  - intros b' Hr Hstuck.
    assert (bus_reachable b' /\ accepted b' = accepted b /\ running b' = running b /\
      length (drainers (callers b')) = length (drainers (callers b))) as (Hb' & Ha & Hrun & Hl).
    { clear Hstuck. induction Hr as [b|b b1 b2 Hi _ IH]; [done|].
      destruct IH as (? & -> & -> & ->); [by eapply reachable_step, step_internal|].
      split; [done|]. by apply accepted_internal. }
    pose proof (bus_reachable_inv _ Hb') as Hinv.
    destruct (stuck_settled b') as (Hq & H0 & Hd & H1 & H2); [done|by apply bus_reachable_wake|done|].
    rewrite Hrun in H1, H2. split_and!; try done. rewrite <- Ha, (inv_fifo _ Hinv), Hq, app_nil_r.
    destruct (stuck_worker b' Hstuck) as [Hw|Hw]; by rewrite Hw, app_nil_r.
Qed.
End EventBus.

(** ** Witnesses *)

Module EventBusWitness.
Definition ev (t : EventType) : Event unit := mk_event t "audio" "" tt.

(** One subscriber to everything, one event published and dispatched. *)
Definition b1 : @Bus nat unit := (subscribeAll 7 initial_bus).2.
Definition b2 : @Bus nat unit := publish (ev EventType.AudioStarted) b1.

Lemma b2_reachable : bus_reachable b2.
Proof.
  exists initial_bus. split; [done|].
  eapply rtc_l; [apply (step_subscribeAll 7)|]. apply rtc_once, step_publish.
Defined.

Definition after (n : nat) : @Bus nat unit :=
  Nat.iter n (fun b => default b (worker_step ThrewStd b)) b2.

Lemma after_reachable n : bus_reachable (after n).
Proof.
  induction n as [|n IH]; [apply b2_reachable|]. simpl.
  change (bus_reachable (default (after n) (worker_step ThrewStd (after n)))).
  destruct (worker_step ThrewStd (after n)) eqn:E; [|done]. simpl.
  eapply reachable_step; [exact IH|]. by eapply step_internal, int_worker.
Defined.

Definition stopped : @Bus nat unit := drain (stop b2).

Lemma stopped_reachable : bus_reachable stopped.
Proof.
  apply (reachable_step _ _ (stop b2)); [|apply step_drain].
  apply (reachable_step _ _ b2); [apply b2_reachable|apply step_stop].
Defined.

(** The thread in [drain] blocks, the worker dispatches and rouses it, and leaves. *)
Definition settled : @Bus nat unit :=
  let w n b := Nat.iter n (fun b => default b (worker_step Returned b)) b in
  let s b := default b (stop_step b) in
  let d b := default b (drain_step 0 b) in
  s (s (w 1 (d (w 4 (d (default stopped (notify_step stopped))))))).

Lemma stopped_runs : rtc internal stopped settled.
Proof.
  eapply rtc_l; [by apply int_notify|].
  eapply rtc_l; [by apply (int_drain 0)|].
  do 4 (eapply rtc_l; [by apply (int_worker Returned)|]).
  eapply rtc_l; [by apply (int_drain 0)|].
  eapply rtc_l; [by apply (int_worker Returned)|].
  do 2 (eapply rtc_l; [by apply int_stop|]). vm_compute. apply rtc_refl.
Defined.

Lemma settled_stuck : stuck settled.
Proof.
  intros b Hb. remember settled as b0 eqn:E. destruct Hb as [o b b' H|b b' H|b b' H|i b b' H]; subst b; try done.
  destruct i; done.
Qed.
End EventBusWitness.

Lemma bus_fifo_witness :
  bus_reachable (EventBusWitness.after 2) /\
  in_flight (EventBusWitness.after 2) = 1.
Proof.
  split; [apply EventBusWitness.after_reachable|].
  exact (proj1 (proj2 (bus_fifo _ (EventBusWitness.after_reachable 2)))).
Defined.

Lemma bus_dispatch_complete_witness :
  exists d chosen, d ∈ dispatched (EventBusWitness.after 4) /\
    sublist chosen (d_snapshot d) /\ d_ran d = sub_handler <$> chosen /\ d_ran d = [7].
Proof.
  set (d := mk_delivery (EventBusWitness.ev EventType.AudioStarted)
              (subs EventBusWitness.b1) [7]).
  assert (Hin : d ∈ dispatched (EventBusWitness.after 4)) by apply list_elem_of_here.
  destruct (bus_dispatch_complete _ d (EventBusWitness.after_reachable 4) Hin)
    as (chosen & Hsub & Hran & _).
  exists d, chosen. exact (conj Hin (conj Hsub (conj Hran eq_refl))).
Defined.

(** One event is in the queue when [stop] and [drain] are called; the threads then run until
    none can move. *)
Lemma bus_drains_witness :
  exists b', rtc internal EventBusWitness.stopped b' /\ worker b' = Exited /\
    stopper (callers b') = Joined /\ drainers (callers b') = [DReturned] /\
    d_event <$> dispatched b' = [EventBusWitness.ev EventType.AudioStarted].
Proof.
  destruct (bus_drains _ EventBusWitness.stopped_reachable) as [_ Hend].
  destruct (Hend _ EventBusWitness.stopped_runs EventBusWitness.settled_stuck) as (_ & Hd & _ & _ & _ & Hs & _).
  destruct (Hs eq_refl) as [Hw Hj]. exists EventBusWitness.settled.
  exact (conj EventBusWitness.stopped_runs (conj Hw (conj Hj (conj eq_refl Hd)))).
Defined.
