(* ===== verification/StateMachine.v ===== *)
(** * System state machine, safe mode and system manager

    Models [src/src/system/StateMachine.cpp], [SafeMode.h] and [SystemManager.cpp]:
    the table of legal transitions, the operations of the machine, the threads that
    call it (a change is made under the mutex and announced after it), and the handler
    that turns the events of the bus into transitions and escalates to safe mode. *)

From S2P Require Import Prelude Core.

(** ** States *)

Module SystemState.
(* [src/src/system/SystemState.h:6-21] SystemState *)
Inductive SystemState :=
| Booting | Unconfigured | SetupMode | ConnectingNetwork | SearchingStreamer
| Authenticating | Online | Playing | Calibrating | Updating | Degraded | Offline
| Error | ShuttingDown.

#[global] Instance SystemState_eq_dec : EqDecision SystemState.
Proof. solve_decision. Defined.

(* [src/src/system/StateMachine.cpp:12-30] toString *)
Definition toString (s : SystemState) : string :=
  match s with
  | Booting => "BOOTING"
  | Unconfigured => "UNCONFIGURED"
  | SetupMode => "SETUP_MODE"
  | ConnectingNetwork => "CONNECTING_NETWORK"
  | SearchingStreamer => "SEARCHING_STREAMER"
  | Authenticating => "AUTHENTICATING"
  | Online => "ONLINE"
  | Playing => "PLAYING"
  | Calibrating => "CALIBRATING"
  | Updating => "UPDATING"
  | Degraded => "DEGRADED"
  | Offline => "OFFLINE"
  | Error => "ERROR"
  | ShuttingDown => "SHUTTING_DOWN"
  end.
End SystemState.
Import SystemState.
Abbreviation SystemState := SystemState.SystemState.

(** ** The transition table *)

(* [src/src/system/StateMachine.cpp:34-39] contains *)
Fixpoint contains (set : list SystemState) (s : SystemState) : bool :=
  match set with
  | [] => false
  | x :: r => if bool_decide (x = s) then true else contains r s
  end.

(* [src/src/system/StateMachine.cpp:43-95] legalTransition *)
Definition legalTransition (from to : SystemState) : bool :=
  if bool_decide (to = ShuttingDown) then true
  else if bool_decide (to = Error) && negb (bool_decide (from = ShuttingDown)) then true
  else if bool_decide (from = to) then true
  else match from with
  | Booting => contains [Unconfigured; ConnectingNetwork] to
  | Unconfigured => contains [SetupMode] to
  | SetupMode => contains [ConnectingNetwork; Unconfigured] to
  | ConnectingNetwork => contains [SearchingStreamer; Offline; SetupMode] to
  | SearchingStreamer => contains [Authenticating; Online; Offline; ConnectingNetwork] to
  | Authenticating => contains [Online; SearchingStreamer; Offline] to
  | Online => contains [Playing; Calibrating; Updating; Degraded; Offline] to
  | Playing => contains [Online; Calibrating; Degraded; Offline] to
  | Calibrating => contains [Online; Playing; Degraded] to
  | Updating => contains [Online] to
  | Degraded => contains [Online; Offline] to
  | Offline => contains [ConnectingNetwork; SearchingStreamer; Degraded] to
  | Error => contains [Booting; Degraded] to
  | ShuttingDown => false
  end.

(** ** The machine *)

(** What the subsystem does to the outside: it publishes events, calls enter hooks
    and runs the injected action that mutes the amplifier and stops the audio. *)
Inductive Effect :=
| Publish (e : Event Payload)
| FireHook (hook : nat) (from to : SystemState)
| DisableOperation
| SubscribeAll
| Unsubscribe (token : Z).

#[global] Instance Effect_eq_dec : EqDecision Effect.
Proof. solve_decision. Defined.

(** Enter hooks are opaque closures, named by numbers. *)
(* [src/src/system/StateMachine.h:18-39] StateMachine *)
Record StateMachine := mk_machine
  { current : SystemState; hooks : list (SystemState * nat); has_bus : bool }.

(* [src/src/system/StateMachine.cpp:99-99] StateMachine::StateMachine *)
Definition new_machine (bus : bool) : StateMachine := mk_machine Booting [] bus.

(* [src/src/system/StateMachine.cpp:110-113] StateMachine::onEnter *)
Definition onEnter (s : SystemState) (hook : nat) (m : StateMachine) : StateMachine :=
  mk_machine (current m) (hooks m ++ [(s, hook)]) (has_bus m).

Definition set_current (to : SystemState) (m : StateMachine) : StateMachine :=
  mk_machine to (hooks m) (has_bus m).

Definition hooks_for (to : SystemState) (m : StateMachine) : list nat :=
  snd <$> filter (fun p => fst p = to) (hooks m).

(** The event of an accepted change. *)
(* [src/src/system/StateMachine.cpp:142-144] StateMachine::transitionTo *)
Definition state_changed (from to : SystemState) (reason cmd : string) : Event Payload :=
  mk_event EventType.StateChanged "system" cmd
    [("from", SStr (toString from)); ("to", SStr (toString to)); ("reason", SStr reason)].

(** The critical section: the verdict and, for an accepted change, the state left and the
    hooks to fire. *)
(* [src/src/system/StateMachine.cpp:118-139] StateMachine::transitionTo *)
Definition transition_locked (to : SystemState) (m : StateMachine) :
    Status * option (SystemState * list nat) * StateMachine :=
  let from := current m in
  if bool_decide (from = to) then (success, None, m)
  else if negb (legalTransition from to) then
    (error ErrorCode.IllegalStateTransition (toString from +:+ " -> " +:+ toString to), None, m)
  else (success, Some (from, hooks_for to m), set_current to m).

(** What follows once the mutex is released. *)
(* [src/src/system/StateMachine.cpp:141-151] StateMachine::transitionTo *)
Definition announce (bus : bool) (from to : SystemState) (reason cmd : string) (to_fire : list nat) :
    list Effect :=
  (if bus then [Publish (state_changed from to reason cmd)] else []) ++
  ((fun h => FireHook h from to) <$> to_fire).

(** A call whose thread is not interrupted. *)
(* [src/src/system/StateMachine.cpp:115-151] StateMachine::transitionTo *)
Definition transitionTo (to : SystemState) (reason cmd : string) :
    SW StateMachine Effect Status :=
  m ← get;
  match transition_locked to m with
  | (st, None, _) => mret st
  | (st, Some (from, to_fire), m') =>
      modify (fun _ => m');;
      tell (announce (has_bus m) from to reason cmd to_fire);;
      mret st
  end.

(** ** The machine and the threads that call it

    [transitionTo] is called by the worker of the bus, by the main thread and by the
    services.  A step is the critical section of a call, or the next thing a thread does
    after it has released the mutex: publish, or fire one hook.  Hooks are registered before
    the threads start.  Ghost fields record the accepted changes and what was done. *)

Record Accepted := mk_accepted
  { ac_thread : nat; ac_from : SystemState; ac_to : SystemState; ac_reason : string; ac_cmd : string }.

Record Threads := mk_threads
  { shared : StateMachine;
    pending : list (list Effect);     (* per thread: what it has still to do *)
    log : list Accepted;              (* ghost: the accepted changes *)
    trace : list (nat * Effect) }.    (* ghost: what the threads have done *)

Definition threads_of (m : StateMachine) (n : nat) : Threads := mk_threads m (replicate n []) [] [].

(** Thread [i], not in a call, calls [transitionTo]: the critical section. *)
(* [src/src/system/StateMachine.cpp:115-139] StateMachine::transitionTo *)
Definition call_step (i : nat) (to : SystemState) (reason cmd : string) (t : Threads) : option Threads :=
  match pending t !! i with
  | Some [] =>
      match transition_locked to (shared t) with
      | (_, None, m') => Some (mk_threads m' (pending t) (log t) (trace t))
      | (_, Some (from, to_fire), m') =>
          let es := announce (has_bus (shared t)) from to reason cmd to_fire in
          Some (mk_threads m' (<[i := es]> (pending t))
                  (log t ++ [mk_accepted i from to reason cmd]) (trace t))
      end
  | _ => None
  end.

(* [src/src/system/StateMachine.cpp:141-150] StateMachine::transitionTo *)
Definition announce_step (i : nat) (t : Threads) : option Threads :=
  match pending t !! i with
  | Some (e :: rest) =>
      Some (mk_threads (shared t) (<[i := rest]> (pending t)) (log t) (trace t ++ [(i, e)]))
  | _ => None
  end.

Inductive threads_step : Threads -> Threads -> Prop :=
| ts_call i to reason cmd t t' : call_step i to reason cmd t = Some t' -> threads_step t t'
| ts_announce i t t' : announce_step i t = Some t' -> threads_step t t'.

Definition threads_reach (m : StateMachine) (n : nat) : Threads -> Prop :=
  reachable (eq (threads_of m n)) threads_step.

(** ** The system manager *)

(* [src/src/system/SystemManager.h:16-46] SystemManager *)
Record Manager := mk_manager
  { machine : StateMachine;
    safe_active : bool;             (* SafeMode::active_ *)
    has_disable : bool;             (* SafeMode::disable_ is set *)
    error_streak : Z;
    sub : Z;
    svc_state : ServiceState }.

(* [src/src/system/SystemManager.cpp:9-10] SystemManager::SystemManager *)
Definition new_manager (bus disable : bool) : Manager :=
  mk_manager (new_machine bus) false disable 0 0 ServiceState.Stopped.

Definition set_machine (m : StateMachine) (s : Manager) : Manager :=
  mk_manager m (safe_active s) (has_disable s) (error_streak s) (sub s) (svc_state s).
Definition set_safe (s : Manager) : Manager :=
  mk_manager (machine s) true (has_disable s) (error_streak s) (sub s) (svc_state s).
Definition set_streak (n : Z) (s : Manager) : Manager :=
  mk_manager (machine s) (safe_active s) (has_disable s) n (sub s) (svc_state s).
Definition set_service (t : Z) (st : ServiceState) (s : Manager) : Manager :=
  mk_manager (machine s) (safe_active s) (has_disable s) (error_streak s) t st.

(** [machine_.transitionTo(to, reason)], the status dropped as the callers do. *)
Definition transition (to : SystemState) (reason : string) : SW Manager Effect unit :=
  fun s =>
    let '(_, m, es) := transitionTo to reason "" (machine s) in
    ((), set_machine m s, es).

(* [src/src/system/SafeMode.h:30-35] SafeMode::enter *)
Definition safeModeEnter (reason : string) : SW Manager Effect unit :=
  s ← get;
  if safe_active s then mret () else
    modify set_safe;;
    when (has_disable s) (tell [DisableOperation]);;
    when (has_bus (machine s))
      (tell [Publish (event EventType.SafeModeEntered "system" [("reason", SStr reason)])]).

(* [src/src/system/SystemManager.cpp:139-144] SystemManager::enterSafeMode *)
Definition enterSafeMode (reason : string) : SW Manager Effect unit :=
  s ← get;
  if safe_active s then mret () else
    safeModeEnter reason;;
    transition Degraded ("safe mode: " +:+ reason).

(** [if (++error_streak_ >= 3) enterSafeMode(reason)] *)
Definition bumpStreak (reason : string) : SW Manager Effect unit :=
  modify (fun s => set_streak (error_streak s + 1) s);;
  s ← get;
  when (3 <=? error_streak s)%Z (enterSafeMode reason).

(** The current state of the machine, read by the handler's tests. *)
Definition now_in : SW Manager Effect SystemState := s ← get; mret (current (machine s)).

(* [src/src/system/SystemManager.cpp:12-112] SystemManager::handleEvent *)
Definition handleEvent (ev : Event Payload) : SW Manager Effect unit :=
  c ← now_in;
  if bool_decide (c = Booting) &&
     bool_decide (type ev = EventType.NetworkConnected \/
                  type ev = EventType.NetworkDisconnected)
  then mret ()
  else match type ev with
  | EventType.NetworkConnected =>
      when (bool_decide (c = SetupMode))
        (transition ConnectingNetwork "network connected (setup done)");;
      c' ← now_in;
      match c' with
      | Authenticating | Online | Playing | Calibrating | Updating => mret ()
      | _ => transition SearchingStreamer "network connected"
      end
  | EventType.NetworkDisconnected => transition Offline "network lost"
  | EventType.StreamerFound => transition Authenticating "streamer found"
  | EventType.PairingCompleted =>
      (if bool_decide (c = SetupMode) then
         transition ConnectingNetwork "paired, joining network"
       else transition Online "authenticated");;
      modify (set_streak 0)
  | EventType.StreamerDisconnected => transition Offline "streamer disconnected"
  | EventType.AudioStarted =>
      when (bool_decide (c = SearchingStreamer \/ c = Authenticating))
        (transition Online "audio arriving from a streamer");;
      transition Playing "audio started"
  | EventType.AudioStopped => transition Online "audio stopped"
  | EventType.ConfigInvalid =>
      transition Degraded "config invalid";; enterSafeMode "config invalid"
  | EventType.IdentityCorrupt =>
      transition Error "identity corrupt";; enterSafeMode "identity corrupt"
  | EventType.UpdateFailed => bumpStreak "repeated update failures"
  | EventType.WatchdogTimeout =>
      transition Degraded "watchdog timeout";; bumpStreak "repeated watchdog timeouts"
  | EventType.ShutdownRequested => transition ShuttingDown "shutdown requested"
  | _ => mret ()
  end.

(** [token] is what the bus returned for the subscription. *)
(* [src/src/system/SystemManager.cpp:114-119] SystemManager::start *)
Definition start (token : Z) : SW Manager Effect Status :=
  tell [SubscribeAll];;
  modify (set_service token ServiceState.Running);;
  mret success.

(* [src/src/system/SystemManager.cpp:121-129] SystemManager::stop *)
Definition stop : SW Manager Effect Status :=
  s ← get;
  when (negb (sub s =? 0)%Z) (tell [Unsubscribe (sub s)]);;
  transition ShuttingDown "service stop";;
  modify (set_service 0 ServiceState.Stopped);;
  mret success.

(* [src/src/system/SystemManager.cpp:131-137] SystemManager::enterInitialState *)
Definition enterInitialState (configured : bool) : SW Manager Effect unit :=
  if configured then transition ConnectingNetwork "configured at boot"
  else transition Unconfigured "no configuration at boot".

(** A call on the manager, by the bus worker or by the application. *)
Inductive Call :=
| HandleEvent (e : Event Payload)
| EnterInitialState (configured : bool)
| EnterSafeMode (reason : string)
| Start (token : Z)
| Stop.

Definition run_call (c : Call) : SW Manager Effect unit :=
  match c with
  | HandleEvent e => handleEvent e
  | EnterInitialState b => enterInitialState b
  | EnterSafeMode r => enterSafeMode r
  | Start t => start t;; mret ()
  | Stop => stop;; mret ()
  end.

Fixpoint run_calls (cs : list Call) : SW Manager Effect unit :=
  match cs with
  | [] => mret ()
  | c :: r => run_call c;; run_calls r
  end.

(** ** Lemmas *)

Lemma contains_spec l s : contains l s = true <-> s ∈ l.
Proof.
  induction l as [|x l IH]; simpl; [by split; [|intros ?%not_elem_of_nil]|].
  rewrite elem_of_cons. case_bool_decide as Hx.
  - split; [by left|done].
  - rewrite IH. split; [by right|]. by intros [<-|?].
Qed.

(** The effects of an accepted transition. *)
Definition transition_effects (to : SystemState) (reason cmd : string) (m : StateMachine) :
    list Effect :=
  (if has_bus m then [Publish (state_changed (current m) to reason cmd)] else []) ++
  ((fun h => FireHook h (current m) to) <$> hooks_for to m).

Lemma transitionTo_run to reason cmd m :
  transitionTo to reason cmd m =
    if bool_decide (current m = to) then (success, m, [])
    else if legalTransition (current m) to then
      (success, set_current to m, transition_effects to reason cmd m)
    else (error ErrorCode.IllegalStateTransition
            (toString (current m) +:+ " -> " +:+ toString to), m, []).
Proof.
  unfold transitionTo, transition_locked, mbind, SW_bind, get, modify, tell, mret, SW_ret.
  case_bool_decide; [done|]. destruct (legalTransition _ _); [|done]. simpl. by rewrite !app_nil_r.
Qed.

Lemma legal_not_self from to :
  legalTransition from to = true -> from <> to -> from <> ShuttingDown \/ to = ShuttingDown.
Proof. destruct from, to; intros H ?; try done; by left. Qed.

(** The run of the manager's [transition]. *)
Lemma transition_run to reason s :
  transition to reason s =
    let m := machine s in
    if bool_decide (current m = to) then ((), s, [])
    else if legalTransition (current m) to then
      ((), set_machine (set_current to m) s, transition_effects to reason "" m)
    else ((), s, []).
Proof.
  unfold transition. rewrite transitionTo_run. simpl.
  destruct s as [m ? ? ? ? ?]. simpl.
  case_bool_decide; [done|]. by destruct (legalTransition _ _).
Qed.

(** Two runs [R] holds of make it hold of a run of [transition]. *)
Lemma respects_transition (R : Manager -> list Effect -> Manager -> Prop) `{!RunRel R} :
  (forall to reason s, current (machine s) <> to ->
     legalTransition (current (machine s)) to = true ->
     R s (transition_effects to reason "" (machine s))
       (set_machine (set_current to (machine s)) s)) ->
  forall to reason, respects R (transition to reason).
Proof.
  intros HR to reason s. unfold effects_of, state_after. rewrite transition_run. simpl.
  case_bool_decide; [apply run_refl|].
  destruct (legalTransition _ _) eqn:E; [|apply run_refl]. by apply HR.
Qed.

(** ** A relation every call of the manager respects *)

Ltac respects_steps :=
  repeat first
    [ done
    | by apply respects_ret
    | by apply respects_get
    | by apply respects_modify
    | by apply respects_tell
    | apply respects_bind; [done| |intros ?]
    | apply respects_when; [done|]
    | case_match ].

Section ManagerRuns.
Context (R : Manager -> list Effect -> Manager -> Prop) `{!RunRel R}.
Hypothesis R_transition : forall to reason, respects R (transition to reason).
Hypothesis R_safe : forall reason, respects R (safeModeEnter reason).
Hypothesis R_streak : forall n s, R s [] (set_streak n s).
Hypothesis R_service : forall t st s, R s [] (set_service t st s).
Hypothesis R_subscribe : forall s, R s [SubscribeAll] s.
Hypothesis R_unsubscribe : forall t s, R s [Unsubscribe t] s.

Lemma respects_enterSafeMode reason : respects R (enterSafeMode reason).
Proof.
  unfold enterSafeMode. respects_steps.
Qed.

Lemma respects_bumpStreak reason : respects R (bumpStreak reason).
Proof.
  pose proof respects_enterSafeMode. unfold bumpStreak. respects_steps.
Qed.

Lemma respects_handleEvent ev : respects R (handleEvent ev).
Proof.
  pose proof respects_bumpStreak. pose proof respects_enterSafeMode.
  assert (respects R now_in).
  { unfold now_in. respects_steps. }
  apply respects_bind; [done|done|]. intros c. case_match; [by apply respects_ret|].
  destruct (type ev); respects_steps.
Qed.

Lemma respects_run_call c : respects R (run_call c).
Proof.
  pose proof respects_handleEvent. pose proof respects_enterSafeMode.
  destruct c; simpl; unfold enterInitialState, start, stop; respects_steps.
Qed.

Lemma respects_run_calls cs : respects R (run_calls cs).
Proof.
  induction cs; simpl; [by apply respects_ret|].
  apply respects_bind; [done|apply respects_run_call|done].
Qed.
End ManagerRuns.

(** ** Legal walks *)

Definition is_state_change (e : Effect) : bool :=
  match e with
  | Publish ev => bool_decide (type ev = EventType.StateChanged)
  | _ => false
  end.

(** The [StateChanged] events among the effects describe a walk along legal edges,
    each starting where the previous one ended. *)
Inductive legal_walk : SystemState -> list Effect -> SystemState -> Prop :=
| walk_nil s : legal_walk s [] s
| walk_change from mid to reason cmd es :
    from <> mid -> legalTransition from mid = true -> legal_walk mid es to ->
    legal_walk from (Publish (state_changed from mid reason cmd) :: es) to
| walk_other from to e es :
    is_state_change e = false -> legal_walk from es to -> legal_walk from (e :: es) to.

#[export] Hint Constructors legal_walk : nexus.

Lemma legal_walk_app s1 e1 s2 e2 s3 :
  legal_walk s1 e1 s2 -> legal_walk s2 e2 s3 -> legal_walk s1 (e1 ++ e2) s3.
Proof. induction 1; simpl; eauto with nexus. Qed.

Lemma legal_walk_quiet s es : Forall (fun e => is_state_change e = false) es -> legal_walk s es s.
Proof. induction 1; eauto with nexus. Qed.

Lemma legal_walk_shutdown es to :
  legal_walk ShuttingDown es to ->
  to = ShuttingDown /\ Forall (fun e => is_state_change e = false) es.
Proof.
  intros Hw. remember ShuttingDown as from eqn:Hf. revert Hf.
  induction Hw as [|from mid|from to e es He Hw IH]; intros ->.
  - split; [done|constructor].
  - by destruct mid.
  - destruct IH; [done|]. split; [done|by constructor].
Qed.

(** ... of a run of the manager: *)
Definition walks (s : Manager) (es : list Effect) (s' : Manager) : Prop :=
  has_bus (machine s) = true ->
  has_bus (machine s') = true /\ legal_walk (current (machine s)) es (current (machine s')).

#[global] Instance walks_run : RunRel walks.
Proof.
  split; unfold walks; [by eauto with nexus|]. intros s1 e1 s2 e2 s3 H12 H23 H1.
  destruct (H12 H1) as [H2 ?]. destruct (H23 H2). split; [done|]. by eapply legal_walk_app.
Qed.

Lemma walks_transition to reason : respects walks (transition to reason).
Proof.
  apply respects_transition; [apply _|]. intros to' reason' s Hne Hl Hb. split; [done|].
  unfold transition_effects. rewrite Hb. simpl. apply walk_change; [done|done|].
  apply legal_walk_quiet, Forall_fmap, Forall_true. done.
Qed.

Lemma walks_quiet s es s' :
  Forall (fun e => is_state_change e = false) es -> machine s' = machine s -> walks s es s'.
Proof. intros Hes Hm Hb. rewrite Hm. split; [done|by apply legal_walk_quiet]. Qed.

Lemma walks_safeModeEnter reason : respects walks (safeModeEnter reason).
Proof.
  intros s. unfold safeModeEnter. run_simpl. destruct (safe_active s); run_simpl.
  - by apply walks_quiet.
  - destruct (has_disable s), (has_bus (machine s)); by apply walks_quiet; repeat constructor.
Qed.

Lemma walks_run_calls cs : respects walks (run_calls cs).
Proof.
  apply respects_run_calls; [apply _|apply walks_transition|apply walks_safeModeEnter|..];
    intros; apply walks_quiet; by repeat constructor.
Qed.

(** ** Safe mode *)

Definition count_disable (es : list Effect) : nat :=
  length (filter (fun e => e = DisableOperation) es).

Definition is_safe_mode_event (e : Effect) : Prop :=
  match e with Publish ev => type ev = EventType.SafeModeEntered | _ => False end.

#[global] Instance is_safe_mode_event_dec e : Decision (is_safe_mode_event e).
Proof. destruct e; simpl; apply _. Defined.

Definition count_safe_events (es : list Effect) : nat :=
  length (filter is_safe_mode_event es).

(** Did the run enter safe mode? *)
Definition entered (s s' : Manager) : nat :=
  if negb (safe_active s) && safe_active s' then 1 else 0.

Definition safe_run (s : Manager) (es : list Effect) (s' : Manager) : Prop :=
  has_disable s' = has_disable s /\ has_bus (machine s') = has_bus (machine s) /\
  (safe_active s = true -> safe_active s' = true) /\
  count_disable es = (if has_disable s then entered s s' else 0) /\
  count_safe_events es = (if has_bus (machine s) then entered s s' else 0).

#[global] Instance safe_run_run : RunRel safe_run.
Proof.
  split; unfold safe_run, count_disable, count_safe_events, entered.
  - intros s. split_and!; try done; by destruct (safe_active s), (has_disable s), (has_bus (machine s)).
  - intros s1 e1 s2 e2 s3 (Hd1 & Hb1 & Hl1 & Hc1 & Hv1) (Hd2 & Hb2 & Hl2 & Hc2 & Hv2).
    rewrite !filter_app, !length_app, Hc1, Hc2, Hv1, Hv2, Hd2, Hd1, Hb2, Hb1.
    split_and!; try done; [by auto|..];
      destruct (safe_active s1), (safe_active s2), (safe_active s3);
      try (by destruct (has_disable s1)); try (by destruct (has_bus (machine s1)));
      by (discriminate (Hl1 eq_refl) || discriminate (Hl2 eq_refl)).
Qed.

(** Runs that leave safe mode and the wiring alone. *)
Lemma safe_run_quiet s es s' :
  has_disable s' = has_disable s -> has_bus (machine s') = has_bus (machine s) ->
  safe_active s' = safe_active s ->
  Forall (fun e => e <> DisableOperation /\ ~ is_safe_mode_event e) es -> safe_run s es s'.
Proof.
  intros Hd Hb Ha Hes. unfold safe_run, entered, count_disable, count_safe_events.
  assert (filter (fun e => e = DisableOperation) es = [] /\
          filter is_safe_mode_event es = []) as [-> ->].
  { induction Hes as [|e es [He1 He2] _ [IH1 IH2]]; [done|].
    by rewrite !filter_cons_False by done. }
  rewrite Ha. split_and!; try done; by destruct (safe_active s), (has_disable s), (has_bus (machine s)).
Qed.

Lemma safe_run_transition to reason : respects safe_run (transition to reason).
Proof.
  apply respects_transition; [apply _|]. intros to' reason' s _ _.
  apply safe_run_quiet; try done. unfold transition_effects. apply Forall_app. split.
  - destruct (has_bus (machine s)); repeat constructor; simpl; congruence.
  - apply Forall_fmap, Forall_true. intros h. split; simpl; [discriminate|tauto].
Qed.

Lemma safe_run_safeModeEnter reason : respects safe_run (safeModeEnter reason).
Proof.
  intros [[c hs bus] [|] disable n t st].
  - by apply safe_run_quiet.
  - unfold safe_run. by destruct disable, bus; split_and!.
Qed.

Lemma safe_run_calls cs : respects safe_run (run_calls cs).
Proof.
  apply respects_run_calls;
    [apply _|apply safe_run_transition|apply safe_run_safeModeEnter|..];
    intros; apply safe_run_quiet; try done; repeat constructor; simpl; (discriminate || tauto).
Qed.

(** ** The error streak *)

Definition is_fault (ev : Event Payload) : Prop :=
  type ev = EventType.UpdateFailed \/ type ev = EventType.WatchdogTimeout.

#[global] Instance is_fault_dec ev : Decision (is_fault ev).
Proof. unfold is_fault. apply _. Defined.

Definition handle_all (evs : list (Event Payload)) : SW Manager Effect unit :=
  run_calls (HandleEvent <$> evs).

Definition streak_is (n : Z) : Manager -> list Effect -> Manager -> Prop :=
  keeps (fun s => error_streak s = n).

Lemma streak_transition n to reason : respects (streak_is n) (transition to reason).
Proof. apply respects_transition; [apply _|]. by intros ? ? s _ _ ?. Qed.

Lemma streak_enterSafeMode n reason : respects (streak_is n) (enterSafeMode reason).
Proof.
  unfold enterSafeMode, safeModeEnter. pose proof (streak_transition n).
  assert (RunRel (streak_is n)) by apply _. respects_steps; by intros s ?.
Qed.

Lemma streak_after_transition to reason s :
  error_streak (state_after (transition to reason) s) = error_streak s.
Proof. by apply (streak_transition (error_streak s)). Qed.

Lemma streak_after_safe reason s :
  error_streak (state_after (enterSafeMode reason) s) = error_streak s.
Proof. by apply (streak_enterSafeMode (error_streak s)). Qed.

Lemma streak_after_when b to reason s :
  error_streak (state_after (when b (transition to reason)) s) = error_streak s.
Proof. destruct b; [apply streak_after_transition|done]. Qed.

Lemma streak_after_when_safe b reason s :
  error_streak (state_after (when b (enterSafeMode reason)) s) = error_streak s.
Proof. destruct b; [apply streak_after_safe|done]. Qed.

Create Rewrite HintDb streak.
#[local] Hint Rewrite streak_after_transition streak_after_safe streak_after_when
  streak_after_when_safe : streak.

(** What an event adds to the streak. *)
Definition fault_weight (t : EventType) : Z :=
  match t with EventType.UpdateFailed | EventType.WatchdogTimeout => 1 | _ => 0 end.

Lemma fault_weight_spec ev : fault_weight (type ev) = if decide (is_fault ev) then 1%Z else 0%Z.
Proof.
  destruct (decide (is_fault ev)) as [[-> | ->]|Hf]; [done|done|].
  unfold is_fault in Hf. destruct (type ev); tauto.
Qed.

(** A fault event adds one to the streak; every other event but [PairingCompleted]
    leaves it alone. *)
Lemma streak_handleEvent ev s :
  type ev <> EventType.PairingCompleted ->
  error_streak (state_after (handleEvent ev) s) = (error_streak s + fault_weight (type ev))%Z.
Proof.
  intros Hp. unfold handleEvent, now_in. run_simpl.
  destruct (bool_decide (current (machine s) = Booting) && _) eqn:Hb.
  { bool_to_prop. run_simpl. destruct_or!;
      match goal with H : type ev = _ |- _ => rewrite H end; simpl; lia. }
  clear Hb. destruct (type ev); try done; unfold bumpStreak; run_simpl;
    repeat case_match; run_simpl; autorewrite with streak; simpl;
    autorewrite with streak; lia.
Qed.

(** Once safe mode is on it stays on. *)
Lemma safe_latched cs s :
  safe_active s = true -> safe_active (state_after (run_calls cs) s) = true.
Proof. intros Hs. by apply (safe_run_calls cs s). Qed.

(** Entering safe mode turns it on. *)
Lemma safe_on_enter reason s : safe_active (state_after (enterSafeMode reason) s) = true.
Proof.
  unfold enterSafeMode. run_simpl. destruct (safe_active s) eqn:Ha; [done|].
  run_simpl. apply (safe_run_transition Degraded ("safe mode: " +:+ reason)).
  unfold safeModeEnter. run_simpl. rewrite Ha. run_simpl.
  by destruct (has_disable s), (has_bus (machine s)).
Qed.

(** A fault that brings the streak to three turns safe mode on. *)
Lemma fault_escalates ev s :
  is_fault ev -> (3 <= error_streak s + 1)%Z ->
  safe_active (state_after (handleEvent ev) s) = true.
Proof.
  intros Hf Hs. unfold handleEvent, now_in. run_simpl.
  rewrite (bool_decide_eq_false_2 (_ \/ _)), andb_false_r
    by (destruct Hf as [-> | ->]; by intros [?|?]).
  destruct Hf as [-> | ->]; unfold bumpStreak; run_simpl; simpl;
    rewrite ?streak_after_transition;
    rewrite (proj2 (Z.leb_le _ _)) by lia; apply safe_on_enter.
Qed.

(** ** The documented table

    The table of [docs/state-machine.md], kept apart from the code's. *)

Definition documented_targets (from : SystemState) : list SystemState :=
  match from with
  | Booting => [Unconfigured; ConnectingNetwork]
  | Unconfigured => [SetupMode]
  | SetupMode => [ConnectingNetwork; Unconfigured]
  | ConnectingNetwork => [SearchingStreamer; Offline; SetupMode]
  | SearchingStreamer => [Authenticating; Offline; ConnectingNetwork]
  | Authenticating => [Online; SearchingStreamer; Offline]
  | Online => [Playing; Calibrating; Updating; Degraded; Offline]
  | Playing => [Online; Calibrating; Degraded; Offline]
  | Calibrating => [Online; Playing; Degraded]
  | Updating => [Online]
  | Degraded => [Online; Offline]
  | Offline => [ConnectingNetwork; SearchingStreamer; Degraded]
  | Error => [Booting; Degraded]
  | ShuttingDown => []
  end.

(** The changes a caller may make: those of the table, those to [ShuttingDown] and [Error],
    and the one the table leaves out and the code's comment explains: audio may arrive before
    a streamer has been discovered. *)
Definition may_change (from to : SystemState) : Prop :=
  from <> to /\
  (to = ShuttingDown \/ (to = Error /\ from <> ShuttingDown) \/ to ∈ documented_targets from \/
   (from = SearchingStreamer /\ to = Online)).

#[global] Instance may_change_dec from to : Decision (may_change from to).
Proof. unfold may_change. apply _. Defined.

Lemma legal_may_change from to :
  from <> to -> legalTransition from to = true <-> may_change from to.
Proof.
  intros Hne. assert (bool_decide (may_change from to) = legalTransition from to) as <-
    by (destruct from, to; first [done|by vm_compute]).
  by rewrite bool_decide_eq_true.
Qed.

(** The code allows one change more than the documented table, and nothing else differs. *)
Lemma docs_table_misses_one_edge from to :
  from <> to -> to <> ShuttingDown -> to <> Error ->
  (legalTransition from to = true /\ to ∉ documented_targets from <->
   from = SearchingStreamer /\ to = Online) /\
  (to ∈ documented_targets from -> legalTransition from to = true).
Proof.
  intros Hne Hs He. rewrite legal_may_change by done. unfold may_change. split; [|tauto].
  split; [tauto|]. intros [-> ->]. split; [tauto|]. by_decision.
Qed.

(** What an accepted change has its thread do: publish it (when there is a bus), then call the
    hooks of the new state in the order of their registration. *)
Definition announcement (m : StateMachine) (a : Accepted) : list Effect :=
  (if has_bus m then
     [Publish (mk_event EventType.StateChanged "system" (ac_cmd a)
        [("from", SStr (toString (ac_from a))); ("to", SStr (toString (ac_to a)));
         ("reason", SStr (ac_reason a))])]
   else []) ++
  (omap (fun p => if decide (fst p = ac_to a) then Some (FireHook (snd p) (ac_from a) (ac_to a)) else None)
     (hooks m)).

(** A walk: each change starts where the one before it ended. *)
Fixpoint walk (from : SystemState) (l : list Accepted) (to : SystemState) : Prop :=
  match l with
  | [] => from = to
  | a :: r => ac_from a = from /\ walk (ac_to a) r to
  end.

Definition changes_of (i : nat) (l : list Accepted) : list Accepted := filter (fun a => ac_thread a = i) l.
Definition done_by (i : nat) (l : list (nat * Effect)) : list Effect := snd <$> filter (fun p => fst p = i) l.

Lemma walk_snoc from l mid a to :
  walk from l mid -> ac_from a = mid -> ac_to a = to -> walk from (l ++ [a]) to.
Proof. revert from. induction l as [|b l IH]; simpl; [by intros ? -> ? ?|]. intros from [? ?] ? ?. split; [done|by apply IH]. Qed.

Lemma walk_stops l to a post from :
  walk from (l ++ a :: post) to -> Forall (fun a => may_change (ac_from a) (ac_to a)) (l ++ a :: post) ->
  ac_to a = ShuttingDown -> post = [].
Proof.
  revert from. induction l as [|b l IH]; simpl; intros from [_ Hw] Hf Ha; inversion_clear Hf as [|? ? _ Hf'].
  - destruct post as [|c post]; [done|]. destruct Hw as [Hc _]. inversion_clear Hf' as [|? ? [Hne Hm] _].
    rewrite Hc, Ha in Hne, Hm. cbn in Hm. set_solver.
  - by eapply IH.
Qed.

Lemma announce_announcement m to reason cmd i from :
  announce (has_bus m) from to reason cmd (hooks_for to m) = announcement m (mk_accepted i from to reason cmd).
Proof.
  unfold announce, announcement, hooks_for. f_equal. simpl. induction (hooks m) as [|[s h] l IH]; [done|].
  rewrite filter_cons. simpl. destruct (decide (s = to)); [|done]. simpl. by f_equal.
Qed.

Record threads_inv (m : StateMachine) (n : nat) (t : Threads) : Prop := {
  ti_wiring : hooks (shared t) = hooks m /\ has_bus (shared t) = has_bus m;
  ti_threads : length (pending t) = n;
  ti_walk : walk (current m) (log t) (current (shared t));
  ti_legal : Forall (fun a => may_change (ac_from a) (ac_to a)) (log t);
  ti_told i es : pending t !! i = Some es ->
    done_by i (trace t) ++ es = mjoin (announcement m <$> changes_of i (log t))
}.

Lemma threads_inv_init m n : threads_inv m n (threads_of m n).
Proof.
  split; simpl; [done|apply length_replicate|done|constructor|]. by intros i es [-> _]%lookup_replicate.
Qed.

(** An accepted call. *)
Lemma call_step_accepts i to reason cmd t :
  pending t !! i = Some [] -> current (shared t) <> to -> legalTransition (current (shared t)) to = true ->
  let a := mk_accepted i (current (shared t)) to reason cmd in
  call_step i to reason cmd t =
    Some (mk_threads (set_current to (shared t)) (<[i := announcement (shared t) a]> (pending t))
            (log t ++ [a]) (trace t)).
Proof.
  intros Hp Hne Hl a. unfold call_step, transition_locked. rewrite Hp, bool_decide_eq_false_2, Hl by done.
  simpl. by rewrite (announce_announcement _ _ _ _ i).
Qed.

Lemma call_step_refused i to reason cmd t :
  current (shared t) = to \/ legalTransition (current (shared t)) to = false ->
  forall t', call_step i to reason cmd t = Some t' -> t' = t.
Proof.
  intros Hr t'. unfold call_step, transition_locked. destruct (pending t !! i) as [[|]|]; try done.
  case_bool_decide; [intros [= <-]; by destruct t|]. destruct Hr as [|Hr]; [done|]. rewrite Hr. simpl.
  intros [= <-]. by destruct t.
Qed.

Lemma threads_inv_call m n i to reason cmd t t' :
  threads_inv m n t -> call_step i to reason cmd t = Some t' -> threads_inv m n t'.
Proof.
  intros Hi Hc. destruct (decide (current (shared t) = to \/ legalTransition (current (shared t)) to = false))
    as [Hr|Hr]; [by apply (call_step_refused i to reason cmd t) in Hc as ->|].
  assert (current (shared t) <> to /\ legalTransition (current (shared t)) to = true) as [Hne Hl]
    by (destruct (legalTransition _ _); tauto).
  assert (pending t !! i = Some []) as Hp by (unfold call_step in Hc; by destruct (pending t !! i) as [[|]|]).
  rewrite call_step_accepts in Hc by done. injection Hc as <-.
  destruct Hi as [[Hh Hb] Hn Hw Hf Ht]. split; simpl.
  - done.
  - by rewrite length_insert.
  - by eapply walk_snoc.
  - apply Forall_app; split; [done|]. apply Forall_singleton. by apply legal_may_change.
  - intros j es. unfold changes_of. rewrite filter_app. destruct (decide (i = j)) as [<-|Hij].
    + rewrite list_lookup_insert_eq by (by eapply lookup_lt_Some). intros [= <-].
      rewrite filter_cons_True, fmap_app, join_app by done. simpl.
      specialize (Ht i [] Hp). rewrite app_nil_r in *. rewrite Ht. f_equal.
      unfold announcement. simpl. by rewrite Hh, Hb.
    + rewrite list_lookup_insert_ne by done. intros Hj. rewrite filter_cons_False by done.
      rewrite app_nil_r. by apply Ht.
Qed.

Lemma threads_inv_announce m n i t t' :
  threads_inv m n t -> announce_step i t = Some t' -> threads_inv m n t'.
Proof.
  intros [Hm Hn Hw Hf Ht]. unfold announce_step. destruct (pending t !! i) as [[|e rest]|] eqn:Hp; try done.
  intros [= <-]. split; simpl; [done|by rewrite length_insert|done|done|].
  intros j es. unfold done_by. rewrite filter_app, fmap_app. destruct (decide (i = j)) as [<-|Hij].
  - rewrite list_lookup_insert_eq by (by eapply lookup_lt_Some). intros [= <-].
    rewrite filter_cons_True by done. simpl. rewrite <- app_assoc. by apply Ht.
  - rewrite list_lookup_insert_ne by done. rewrite filter_cons_False by done. simpl. rewrite app_nil_r. apply Ht.
Qed.

Lemma threads_reach_inv m n t : threads_reach m n t -> threads_inv m n t.
Proof.
  apply invariant_reachable; [intros ? <-; apply threads_inv_init|].
  intros s s' Hi Hst. revert Hi. destruct Hst as [i to reason cmd t0 t' Hs|i t0 t' Hs]; intros Hi;
    [by eapply threads_inv_call|by eapply threads_inv_announce].
Qed.

(** ** Properties *)

(** [transitionTo] on each of its branches: a transition to the current state
    succeeds and does nothing; an illegal one is refused with
    [IllegalStateTransition] and does nothing; a legal one succeeds, moves the
    machine there keeping the hooks, publishes exactly one [StateChanged] (when a bus
    is attached) and then fires exactly the hooks registered for the new state, in
    registration order. *)
Theorem transitionTo_spec to reason cmd m :
  transitionTo to reason cmd m =
    if bool_decide (current m = to) then (success, m, [])
    else if legalTransition (current m) to then
      (success, mk_machine to (hooks m) (has_bus m),
       (if has_bus m then [Publish (state_changed (current m) to reason cmd)] else []) ++
       ((fun h => FireHook h (current m) to) <$>
          (snd <$> filter (fun p => fst p = to) (hooks m))))
    else (error ErrorCode.IllegalStateTransition
            (toString (current m) +:+ " -> " +:+ toString to), m, []).
Proof. apply transitionTo_run. Qed.

(** C7: Whatever the threads of the program ask of the state machine, and however their calls
    and announcements interleave, the changes it accepts form a walk from its first state to
    its current one along the edges of the documented table, the two edges to [Error] and
    [ShuttingDown] open to every state, and the one from [SearchingStreamer] to [Online]; a
    call along such an edge is accepted.  Every accepted change is announced exactly once by
    the thread that made it: in the order of its changes, each thread has published
    [StateChanged] with their two states, reason and command id and called the hooks of the
    new state, except for what it is still about to do.  [ShuttingDown] is terminal. *)
Theorem manager_walks_legal_edges m n t :
  threads_reach m n t ->
  walk (current m) (log t) (current (shared t)) /\
  Forall (fun a => may_change (ac_from a) (ac_to a)) (log t) /\
  (forall i to reason cmd, pending t !! i = Some [] -> may_change (current (shared t)) to ->
     exists t', call_step i to reason cmd t = Some t' /\ current (shared t') = to /\
       log t' = log t ++ [mk_accepted i (current (shared t)) to reason cmd]) /\
  (forall i es, pending t !! i = Some es ->
     done_by i (trace t) ++ es = mjoin (announcement m <$> changes_of i (log t))) /\
  (forall before a after, log t = before ++ a :: after -> ac_to a = ShuttingDown -> after = []).
Proof.
  intros [_ _ Hw Hf Ht]%threads_reach_inv. split_and!; [exact Hw|exact Hf| |exact Ht|].
  - intros i to reason cmd Hp [Hne Hm]. eexists.
    split; [apply call_step_accepts; [done|done|by apply legal_may_change]|split; reflexivity].
  - intros before a after E. rewrite E in Hw, Hf. by eapply walk_stops.
Qed.

(** One thread alone, such as the worker of the bus: whatever events arrive and calls are
    made, the states the manager announces with [StateChanged] form a walk along the legal
    edges from its state before to its state after. *)
Theorem lone_manager_announces_a_walk cs s :
  has_bus (machine s) = true ->
  legal_walk (current (machine s)) (effects_of (run_calls cs) s)
    (current (machine (state_after (run_calls cs) s))) /\
  (current (machine s) = ShuttingDown ->
   current (machine (state_after (run_calls cs) s)) = ShuttingDown /\
   Forall (fun e => is_state_change e = false) (effects_of (run_calls cs) s)).
Proof.
  intros Hb. destruct (walks_run_calls cs s Hb) as [_ Hw]. split; [done|].
  intros Hs. rewrite Hs in Hw. by apply legal_walk_shutdown.
Qed.

(** With two threads the announcements need not: the mutex is released before the event is
    published, so a later change can be announced before an earlier one. *)
Lemma announcements_can_swap :
  exists t, threads_reach (new_machine true) 2 t /\ pending t = [[]; []] /\
    current (shared t) = SetupMode /\
    trace t = [(1, Publish (state_changed Unconfigured SetupMode "unconfigured at boot" ""));
               (0, Publish (state_changed Booting Unconfigured "no configuration at boot" ""))].
Proof.
  set (t0 := threads_of (new_machine true) 2).
  set (t1 := default t0 (call_step 0 Unconfigured "no configuration at boot" "" t0)).
  set (t2 := default t1 (call_step 1 SetupMode "unconfigured at boot" "" t1)).
  set (t3 := default t2 (announce_step 1 t2)). set (t4 := default t3 (announce_step 0 t3)).
  exists t4. split; [|by vm_compute]. exists t0. split; [done|].
  eapply rtc_l; [by apply (ts_call 0 Unconfigured "no configuration at boot" "" t0 t1)|].
  eapply rtc_l; [by apply (ts_call 1 SetupMode "unconfigured at boot" "" t1 t2)|].
  eapply rtc_l; [by apply (ts_announce 1 t2 t3)|]. by apply rtc_once, (ts_announce 0 t3 t4).
Qed.

(** Safe mode is a latch.  Over any sequence of calls it is never left, and
    entering it runs the action that mutes the amplifier and stops the audio, and
    publishes [SafeModeEntered], exactly once; a sequence that does not enter it does
    neither. *)
Theorem safe_mode_latch cs s :
  let s' := state_after (run_calls cs) s in
  (safe_active s = true -> safe_active s' = true) /\
  count_disable (effects_of (run_calls cs) s) =
    (if has_disable s then entered s s' else 0) /\
  count_safe_events (effects_of (run_calls cs) s) =
    (if has_bus (machine s) then entered s s' else 0).
Proof. destruct (safe_run_calls cs s) as (_ & _ & H). exact H. Qed.

(** Faults escalate.  Three update failures or watchdog timeouts with no completed
    pairing in between, however interleaved with other events, leave the device in
    safe mode. *)
Theorem three_faults_enter_safe_mode evs s :
  (0 <= error_streak s)%Z ->
  Forall (fun ev => type ev <> EventType.PairingCompleted) evs ->
  3 <= length (filter is_fault evs) ->
  safe_active (state_after (handle_all evs) s) = true.
Proof.
  intros H0 Hp Hn.
  assert (3 <= error_streak s + Z.of_nat (length (filter is_fault evs)))%Z as Hs by lia.
  assert (1 <= length (filter is_fault evs)) as Hn1 by lia. clear Hn.
  revert s H0 Hs. induction Hp as [|ev evs Hev Hp IH]; intros s H0 Hs; [simpl in *; lia|].
  unfold handle_all. simpl. run_simpl. rewrite filter_cons in Hs, Hn1.
  pose proof (streak_handleEvent ev s Hev) as Hst. rewrite fault_weight_spec in Hst.
  destruct (decide (is_fault ev)) as [Hf|Hf]; simpl in Hs, Hn1.
  - destruct (decide (3 <= error_streak s + 1)%Z).
    + by apply safe_latched, fault_escalates.
    + apply IH; [lia|lia|]. rewrite Hst. lia.
  - apply IH; [done|rewrite Hst; lia|rewrite Hst; lia].
Qed.

(** [NetworkConnected] is idempotent.  The connectivity monitor republishes it on
    every poll; whatever the state, a second one right after the first changes
    nothing, publishes nothing, and in particular never drags a device that is past
    discovery backwards. *)
Theorem network_connected_idempotent s ev ev' :
  type ev = EventType.NetworkConnected -> type ev' = EventType.NetworkConnected ->
  let s' := state_after (handleEvent ev) s in
  handleEvent ev' s' = ((), s', []) /\
  (current (machine s) ∈ [Authenticating; Online; Playing; Calibrating; Updating] -> s' = s).
Proof.
  intros Ht Ht'. destruct s as [[c hs bus] a d n t st].
  unfold handleEvent. rewrite Ht, Ht'. split.
  - by destruct c, bus.
  - simpl. intros Hin. repeat (apply elem_of_cons in Hin as [->|Hin]; [done|]).
    by apply not_elem_of_nil in Hin.
Qed.

(** ** Witnesses *)

Definition boot : Manager := new_manager true true.
Definition ev_of (t : EventType) : Event Payload := event t "test" [].

(** Two threads, a hook on [SetupMode]; the second thread has published and has its hook still
    to call, the first has not published yet. *)
Module ThreadsWitness.
Definition machine0 : StateMachine := onEnter SetupMode 5 (new_machine true).
Definition t0 : Threads := threads_of machine0 2.
Definition t1 : Threads := default t0 (call_step 0 Unconfigured "boot" "" t0).
Definition t2 : Threads := default t1 (call_step 1 SetupMode "setup" "cmd-1" t1).
Definition t3 : Threads := default t2 (announce_step 1 t2).

Lemma t3_reached : threads_reach machine0 2 t3.
Proof.
  exists t0. split; [done|].
  eapply rtc_l; [by apply (ts_call 0 Unconfigured "boot" "" t0 t1)|].
  eapply rtc_l; [by apply (ts_call 1 SetupMode "setup" "cmd-1" t1 t2)|].
  by apply rtc_once, (ts_announce 1 t2 t3).
Defined.
End ThreadsWitness.

Lemma manager_walks_legal_edges_witness :
  threads_reach ThreadsWitness.machine0 2 ThreadsWitness.t3 /\
  walk Booting (log ThreadsWitness.t3) SetupMode /\
  pending ThreadsWitness.t3 !! 1 = Some [FireHook 5 Unconfigured SetupMode] /\
  done_by 1 (trace ThreadsWitness.t3) ++ [FireHook 5 Unconfigured SetupMode]
    = mjoin (announcement ThreadsWitness.machine0 <$> changes_of 1 (log ThreadsWitness.t3)).
Proof.
  destruct (manager_walks_legal_edges _ _ _ ThreadsWitness.t3_reached) as (Hw & _ & _ & Ht & _).
  split; [exact ThreadsWitness.t3_reached|]. split; [exact Hw|].
  assert (pending ThreadsWitness.t3 !! 1 = Some [FireHook 5 Unconfigured SetupMode]) as Hp by reflexivity.
  split; [exact Hp|]. exact (Ht 1 _ Hp).
Defined.

Lemma safe_mode_latch_witness :
  count_disable (effects_of (run_calls [EnterSafeMode "x"; EnterSafeMode "y"]) boot) = 1.
Proof.
  exact (proj1 (proj2 (safe_mode_latch [EnterSafeMode "x"; EnterSafeMode "y"] boot))).
Defined.

Lemma three_faults_enter_safe_mode_witness :
  safe_active (state_after (handle_all
    [ev_of EventType.UpdateFailed; ev_of EventType.AudioLost;
     ev_of EventType.WatchdogTimeout; ev_of EventType.UpdateFailed]) boot) = true.
Proof.
  apply (three_faults_enter_safe_mode
    [ev_of EventType.UpdateFailed; ev_of EventType.AudioLost;
     ev_of EventType.WatchdogTimeout; ev_of EventType.UpdateFailed] boot).
  - simpl. lia.
  - repeat constructor; discriminate.
  - vm_compute. lia.
Defined.

Lemma network_connected_idempotent_witness :
  handleEvent (ev_of EventType.NetworkConnected)
    (state_after (handleEvent (ev_of EventType.NetworkConnected)) boot) =
  ((), state_after (handleEvent (ev_of EventType.NetworkConnected)) boot, []).
Proof.
  exact (proj1 (network_connected_idempotent boot (ev_of EventType.NetworkConnected)
    (ev_of EventType.NetworkConnected) eq_refl eq_refl)).
Defined.
