(* ===== verification/Watchdog.v ===== *)
(** * Watchdog: periodic health polling and recovery

    Models [src/src/system/Watchdog.cpp].  Every poll asks each watched service for
    its health; a service that is unhealthy [fail_threshold] polls in a row makes the
    watchdog publish [WatchdogTimeout] and request a recovery. *)

From S2P Require Import Prelude Core.

(** A watched service is a pointer: null, or an object named by a number. *)
Abbreviation Ptr := (option nat).

(** What a poll does to the outside. *)
Inductive WEffect :=
| WPublish (e : Event Payload)
| Recover (service : string).

#[global] Instance WEffect_eq_dec : EqDecision WEffect.
Proof. solve_decision. Defined.

(* [src/src/system/Watchdog.h:24-60] Watchdog *)
Record Watchdog := mk_watchdog
  { watched : list Ptr;
    fail_counts : gmap string Z;
    fail_threshold : Z;
    bus_attached : bool;
    has_recovery : bool;
    self : nat                      (* the watchdog's own pointer *) }.

Definition set_counts (m : gmap string Z) (w : Watchdog) : Watchdog :=
  mk_watchdog (watched w) m (fail_threshold w) (bus_attached w) (has_recovery w) (self w).

(* [src/src/system/Watchdog.cpp:15-18] Watchdog::watch *)
Definition watch (p : Ptr) (w : Watchdog) : Watchdog :=
  mk_watchdog (watched w ++ [p]) (fail_counts w) (fail_threshold w) (bus_attached w)
    (has_recovery w) (self w).

(** [fail_counts_[n]]: a missing entry reads as zero. *)
Definition count_of (n : string) (w : Watchdog) : Z := default 0%Z (fail_counts w !! n).

Section Poll.
(** [name_of] and [healthy] are what the services answer to [name()] and
    [healthCheck()] during the poll. *)
Context (name_of : nat -> string) (healthy : nat -> bool).

(** The body of the loop for a service that is not healthy; [count] is the new
    count. *)
(* [src/src/system/Watchdog.cpp:55-66] Watchdog::pollOnce *)
Definition report_unhealthy (n : string) : SW Watchdog WEffect unit :=
  w ← get;
  let count := (count_of n w + 1)%Z in
  modify (set_counts (<[n := count]> (fail_counts w)));;
  when (bus_attached w)
    (tell [WPublish (event EventType.HealthCheckFailed "watchdog"
                       [("service", SStr n); ("count", SInt count)])]);;
  when (fail_threshold w <=? count)%Z
    (modify (set_counts (<[n := 0%Z]> (<[n := count]> (fail_counts w))));;
     when (bus_attached w)
       (tell [WPublish (event EventType.WatchdogTimeout "watchdog" [("service", SStr n)])]);;
     when (has_recovery w) (tell [Recover n])).

(* [src/src/system/Watchdog.cpp:46-67] Watchdog::pollOnce *)
Fixpoint poll_services (snapshot : list Ptr) (unhealthy : Z) : SW Watchdog WEffect Z :=
  match snapshot with
  | [] => mret unhealthy
  | None :: r => poll_services r unhealthy
  | Some svc :: r =>
      w ← get;
      if bool_decide (svc = self w) then poll_services r unhealthy
      else
        let n := name_of svc in
        if healthy svc then
          modify (set_counts (<[n := 0%Z]> (fail_counts w)));;
          poll_services r unhealthy
        else
          report_unhealthy n;;
          poll_services r (unhealthy + 1)%Z
  end.

(* [src/src/system/Watchdog.cpp:38-69] Watchdog::pollOnce *)
Definition pollOnce : SW Watchdog WEffect Z :=
  w ← get;
  poll_services (watched w) 0.

(** ** Lemmas *)

(** One poll's effect on the count and the recoveries of one service. *)
Definition next_count (T : Z) (h : bool) (c : Z) : Z :=
  if h then 0%Z else if (T <=? c + 1)%Z then 0%Z else (c + 1)%Z.
Definition fires (T : Z) (h : bool) (c : Z) : nat :=
  if negb h && (T <=? c + 1)%Z then 1 else 0.

(** What a series of polls of one service, healthy or not, makes of its count, and how
    many recoveries it requests. *)
Fixpoint run_counts (T : Z) (hs : list bool) (c : Z) : Z * nat :=
  match hs with
  | [] => (c, 0)
  | h :: r =>
      let p := run_counts T r (next_count T h c) in (p.1, fires T h c + p.2)
  end.

(** The services a poll really asks. *)
Definition asked (w : Watchdog) (l : list Ptr) : list nat :=
  filter (fun s => s <> self w) (omap id l).

Definition recoveries (n : string) (es : list WEffect) : nat :=
  length (filter (fun e => e = Recover n) es).

Lemma recoveries_app n e1 e2 : recoveries n (e1 ++ e2) = recoveries n e1 + recoveries n e2.
Proof. unfold recoveries. by rewrite filter_app, length_app. Qed.

(** The parts of the state a poll does not touch. *)
Definition same_config (w w' : Watchdog) : Prop :=
  watched w' = watched w /\ fail_threshold w' = fail_threshold w /\
  bus_attached w' = bus_attached w /\ has_recovery w' = has_recovery w /\ self w' = self w.

Lemma report_unhealthy_run n w :
  let c := (count_of n w + 1)%Z in
  report_unhealthy n w =
    ((),
     set_counts (if (fail_threshold w <=? c)%Z then <[n := 0%Z]> (<[n := c]> (fail_counts w))
                 else <[n := c]> (fail_counts w)) w,
     (if bus_attached w then
        [WPublish (event EventType.HealthCheckFailed "watchdog"
                     [("service", SStr n); ("count", SInt c)])] else []) ++
     if (fail_threshold w <=? c)%Z then
       (if bus_attached w then
          [WPublish (event EventType.WatchdogTimeout "watchdog" [("service", SStr n)])]
        else []) ++ (if has_recovery w then [Recover n] else [])
     else []).
Proof.
  destruct w as [l mp T bus rec me]. cbv zeta. unfold report_unhealthy, count_of.
  cbv [mbind SW_bind get modify when tell mret SW_ret fail_counts fail_threshold
       bus_attached has_recovery set_counts watched self].
  destruct (T <=? _)%Z; destruct bus, rec; reflexivity.
Qed.

Lemma recoveries_one n m (b : bool) :
  recoveries m (if b then [Recover n] else []) = if decide (m = n) then if b then 1 else 0 else 0.
Proof.
  destruct b; unfold recoveries; [|by case_decide].
  rewrite filter_cons, filter_nil. destruct (decide (m = n)) as [->|Hne].
  - by rewrite decide_True.
  - by rewrite decide_False by congruence.
Qed.

Lemma recoveries_publish m (b : bool) e : recoveries m (if b then [WPublish e] else []) = 0.
Proof. by destruct b. Qed.

(** What reporting one service does to the count and the recoveries of any name. *)
Lemma report_unhealthy_count n m w :
  let w' := state_after (report_unhealthy n) w in
  same_config w w' /\
  count_of m w' =
    (if decide (m = n) then next_count (fail_threshold w) false (count_of n w) else count_of m w) /\
  recoveries m (effects_of (report_unhealthy n) w) =
    (if decide (m = n) then
       if has_recovery w then fires (fail_threshold w) false (count_of n w) else 0
     else 0).
Proof.
  cbv zeta. unfold state_after, effects_of. rewrite report_unhealthy_run. simpl.
  rewrite recoveries_app, recoveries_publish. unfold next_count, fires. simpl.
  split; [done|]. split.
  - unfold count_of at 1. simpl. destruct (decide (m = n)) as [->|Hne].
    + destruct (_ <=? _)%Z; by rewrite lookup_insert_eq.
    + destruct (_ <=? _)%Z; by rewrite !lookup_insert_ne by done.
  - destruct (_ <=? _)%Z.
    + rewrite recoveries_app, recoveries_publish, recoveries_one. done.
    + by repeat case_match.
Qed.

Lemma same_config_trans w1 w2 w3 : same_config w1 w2 -> same_config w2 w3 -> same_config w1 w3.
Proof. unfold same_config. intros (-> & -> & -> & -> & ->) (? & ? & ? & ? & ?). done. Qed.

(** Whatever the health of a service, polling it is one step of [run_counts]. *)
Definition poll_one (svc : nat) : SW Watchdog WEffect unit :=
  w ← get;
  if healthy svc then modify (set_counts (<[name_of svc := 0%Z]> (fail_counts w)))
  else report_unhealthy (name_of svc).

Lemma poll_one_count svc m w :
  let w' := state_after (poll_one svc) w in
  same_config w w' /\
  count_of m w' =
    (if decide (m = name_of svc) then next_count (fail_threshold w) (healthy svc) (count_of m w)
     else count_of m w) /\
  recoveries m (effects_of (poll_one svc) w) =
    (if decide (m = name_of svc) then
       if has_recovery w then fires (fail_threshold w) (healthy svc) (count_of m w) else 0
     else 0).
Proof.
  cbv zeta. unfold poll_one. rewrite state_after_bind, effects_of_bind. simpl.
  destruct (healthy svc).
  - split; [done|]. unfold count_of, next_count, fires. simpl. split; [|by repeat case_match].
    case_decide; subst; by simplify_map_eq.
  - destruct (report_unhealthy_count (name_of svc) m w) as (Hc & Hn & Hr).
    split; [exact Hc|]. unfold value_of, state_after, effects_of in *. simpl in *.
    rewrite Hn, Hr. case_decide; by subst.
Qed.

Lemma poll_services_cons svc r u w :
  svc <> self w ->
  state_after (poll_services (Some svc :: r) u) w =
    state_after (poll_services r (if healthy svc then u else u + 1)%Z)
      (state_after (poll_one svc) w) /\
  effects_of (poll_services (Some svc :: r) u) w =
    effects_of (poll_one svc) w ++
    effects_of (poll_services r (if healthy svc then u else u + 1)%Z)
      (state_after (poll_one svc) w).
Proof.
  intros Hs. simpl. unfold poll_one. autorewrite with nexus_simpl. simpl.
  rewrite bool_decide_eq_false_2 by done.
  destruct (healthy svc); by autorewrite with nexus_simpl.
Qed.

(** The health answers of the services a loop asks that are called [n]. *)
Definition answers (n : string) (me : nat) (l : list Ptr) : list bool :=
  healthy <$> filter (fun s => name_of s = n) (filter (fun s => s <> me) (omap id l)).

Lemma poll_services_counts n l u w :
  let w' := state_after (poll_services l u) w in
  let p := run_counts (fail_threshold w) (answers n (self w) l) (count_of n w) in
  same_config w w' /\ count_of n w' = p.1 /\
  recoveries n (effects_of (poll_services l u) w) = if has_recovery w then p.2 else 0.
Proof.
  cbv zeta. revert u w. induction l as [|[svc|] l IH]; intros u w.
  - simpl. split; [by split_and!|]. split; [done|]. by destruct (has_recovery w).
  - destruct (decide (svc = self w)) as [Hs|Hs].
    + unfold answers. simpl. rewrite filter_cons, decide_False by (intros []; done).
      autorewrite with nexus_simpl. simpl. rewrite bool_decide_eq_true_2 by done. apply IH.
    + destruct (poll_services_cons svc l u w Hs) as [-> ->].
      pose proof (poll_one_count svc n w) as (Hcfg & Hc & Hr).
      set (w1 := state_after (poll_one svc) w) in *.
      destruct (IH (if healthy svc then u else u + 1)%Z w1) as (IH1 & IH2 & IH3).
      assert (Hcfg' := Hcfg). destruct Hcfg' as (_ & HT & _ & HR & Hself).
      rewrite recoveries_app, IH2, IH3, Hr, HT, HR, Hself, Hc. unfold answers. simpl.
      rewrite (filter_cons_True (fun s => s <> self w)) by done.
      split; [by eapply same_config_trans|].
      destruct (decide (n = name_of svc)) as [->|Hne].
      * rewrite filter_cons_True by done. simpl. split; [done|]. by destruct (has_recovery w).
      * by rewrite filter_cons_False by congruence.
  - apply IH.
Qed.

Lemma poll_services_value l u w :
  value_of (poll_services l u) w =
    (u + Z.of_nat (length (filter (fun s => healthy s = false) (asked w l))))%Z.
Proof.
  revert u w. induction l as [|[svc|] l IH]; intros u w; unfold asked in *.
  - simpl. rewrite Z.add_0_r. done.
  - simpl. rewrite value_of_bind, filter_cons. simpl. case_bool_decide as Hs.
    + rewrite decide_False by (intros []; done). apply IH.
    + rewrite decide_True by done. rewrite filter_cons.
      destruct (healthy svc); simpl; rewrite value_of_bind, IH; simpl.
      * done.
      * pose proof (report_unhealthy_count (name_of svc) "" w) as ((_ & _ & _ & _ & Hself) & _).
        change (state_after get w) with w. rewrite Hself.
        rewrite Nat2Z.inj_succ, <- Z.add_1_l, Z.add_assoc. done.
  - apply IH.
Qed.
End Poll.

(** ** Series of polls *)

(** Polls at successive ticks; the services may answer differently at each. *)
Fixpoint polls (name_of : nat -> string) (ticks : list (nat -> bool)) : SW Watchdog WEffect unit :=
  match ticks with
  | [] => mret ()
  | h :: r => pollOnce name_of h;; polls name_of r
  end.

Lemma run_counts_app T a b c :
  run_counts T (a ++ b) c =
    let p := run_counts T a c in
    let q := run_counts T b p.1 in (q.1, p.2 + q.2).
Proof.
  revert c. induction a as [|h a IH]; intros c; simpl; [by destruct (run_counts T b c)|].
  rewrite IH. simpl. by rewrite Nat.add_assoc.
Qed.

Lemma polls_counts name_of ticks n w :
  let w' := state_after (polls name_of ticks) w in
  let p := run_counts (fail_threshold w)
             (concat ((fun h => answers name_of h n (self w) (watched w)) <$> ticks))
             (count_of n w) in
  same_config w w' /\ count_of n w' = p.1 /\
  recoveries n (effects_of (polls name_of ticks) w) = if has_recovery w then p.2 else 0.
Proof.
  cbv zeta. revert w. induction ticks as [|h ticks IH]; intros w.
  - simpl. split; [by split_and!|]. split; [done|]. by destruct (has_recovery w).
  - simpl. rewrite state_after_bind, effects_of_bind, recoveries_app, run_counts_app.
    destruct (poll_services_counts name_of h n (watched w) 0 w) as (Hcfg & Hc & Hr).
    assert (pollOnce name_of h w = poll_services name_of h (watched w) 0 w) as Hpoll.
    { unfold pollOnce, mbind, SW_bind, get.
      by destruct (poll_services name_of h (watched w) 0 w) as [[? ?] ?]. }
    assert (state_after (pollOnce name_of h) w = state_after (poll_services name_of h (watched w) 0) w)
      as -> by (unfold state_after; by rewrite Hpoll).
    assert (effects_of (pollOnce name_of h) w = effects_of (poll_services name_of h (watched w) 0) w)
      as -> by (unfold effects_of; by rewrite Hpoll).
    set (w1 := state_after (poll_services name_of h (watched w) 0) w) in *.
    destruct (IH w1) as (IH1 & IH2 & IH3).
    assert (Hcfg' := Hcfg). destruct Hcfg' as (HW & HT & _ & HR & Hself).
    rewrite IH2, IH3, Hr, HW, HT, HR, Hself, Hc. simpl.
    split; [by eapply same_config_trans|]. split; [done|]. by destruct (has_recovery w).
Qed.

(** [k] unhealthy polls in a row. *)
Lemma run_counts_unhealthy T k c :
  (1 <= T)%Z -> (0 <= c < T)%Z ->
  run_counts T (replicate k false) c =
    ((c + Z.of_nat k) `mod` T, Z.to_nat ((c + Z.of_nat k) `div` T))%Z.
Proof.
  intros HT. revert c. induction k as [|k IH]; intros c Hc; simpl.
  - rewrite Z.add_0_r, Z.mod_small, Z.div_small by lia. done.
  - unfold next_count, fires. simpl. destruct (Z.leb_spec T (c + 1)).
    + assert (c = T - 1)%Z as -> by lia. rewrite IH by lia. cbn [fst snd].
      replace (T - 1 + Z.of_nat (S k))%Z with (Z.of_nat k + 1 * T)%Z by lia.
      rewrite Z.mod_add, Z.div_add by lia. rewrite !Z.add_0_l. f_equal.
      assert (0 <= Z.of_nat k `div` T)%Z by (apply Z.div_pos; lia). lia.
    + rewrite IH by lia. cbn [fst snd].
      replace (c + Z.of_nat (S k))%Z with (c + 1 + Z.of_nat k)%Z by lia. done.
Qed.

(** The answers of a poll about a service whose name nobody else watched has. *)
Lemma answers_unique name_of healthy svc me l :
  NoDup (name_of <$> filter (fun s => s <> me) (omap id l)) ->
  svc ∈ filter (fun s => s <> me) (omap id l) ->
  answers name_of healthy (name_of svc) me l = [healthy svc].
Proof.
  unfold answers. generalize (filter (fun s => s <> me) (omap id l)). clear l.
  intros l. induction l as [|x l IH]; intros Hnd Hin; [by apply not_elem_of_nil in Hin|].
  simpl in Hnd. apply NoDup_cons in Hnd as [Hx Hnd]. rewrite filter_cons.
  apply elem_of_cons in Hin as [<-|Hin].
  - rewrite decide_True by done. simpl. f_equal.
    assert (filter (fun s => name_of s = name_of svc) l = []) as ->; [|done].
    clear -Hx. induction l as [|y l IH]; [done|]. simpl in Hx.
    rewrite not_elem_of_cons in Hx. destruct Hx as [Hy Hx].
    rewrite filter_cons, decide_False by congruence. by apply IH.
  - rewrite decide_False; [by apply IH|]. intros Heq. apply Hx. rewrite Heq.
    apply list_elem_of_fmap. eauto.
Qed.

(** ** Properties *)

(** Recovery fires at the threshold and then restarts its count.  For a watched
    service whose name no other watched service has, [k] polls in a row that find it
    unhealthy, from a clear count, request exactly [k / fail_threshold] recoveries
    (none when no recovery handler is set), leave the count at
    [k mod fail_threshold], and a healthy poll clears the count; null pointers and the
    watchdog itself are never asked, and the poll returns the number of services
    found unhealthy. *)
Theorem watchdog_recovers_at_threshold name_of ticks svc w :
  (1 <= fail_threshold w)%Z ->
  NoDup (name_of <$> asked w (watched w)) ->
  svc ∈ asked w (watched w) ->
  Forall (fun healthy => healthy svc = false) ticks ->
  count_of (name_of svc) w = 0%Z ->
  let n := name_of svc in
  let T := fail_threshold w in
  let k := Z.of_nat (length ticks) in
  let w' := state_after (polls name_of ticks) w in
  recoveries n (effects_of (polls name_of ticks) w) =
    (if has_recovery w then Z.to_nat (k `div` T) else 0) /\
  count_of n w' = (k `mod` T)%Z /\
  (forall healthy, healthy svc = true ->
     count_of n (state_after (pollOnce name_of healthy) w') = 0%Z) /\
  (forall healthy, value_of (pollOnce name_of healthy) w =
     Z.of_nat (length (filter (fun s => healthy s = false) (asked w (watched w))))).
Proof.
  unfold asked. intros HT Hnd Hin Hbad H0. cbv zeta.
  destruct (polls_counts name_of ticks (name_of svc) w) as (Hcfg & Hc & Hr).
  assert (concat ((fun h => answers name_of h (name_of svc) (self w) (watched w)) <$> ticks)
          = replicate (length ticks) false) as Hans.
  { clear Hc Hr Hcfg. induction Hbad as [|h ticks Hh _ IH]; [done|].
    rewrite fmap_cons. simpl. rewrite IH, (answers_unique name_of h svc) by assumption. by rewrite Hh. }
  rewrite Hans, H0 in Hc, Hr. rewrite run_counts_unhealthy in Hc, Hr by lia.
  split; [exact Hr|]. split; [exact Hc|]. split.
  - intros healthy Hh. set (w' := state_after (polls name_of ticks) w) in *.
    destruct (poll_services_counts name_of healthy (name_of svc) (watched w') 0 w')
      as (_ & Hc' & _). destruct Hcfg as (HW & _ & _ & _ & Hself).
    rewrite HW, Hself in Hc'. rewrite answers_unique in Hc' by done. rewrite Hh in Hc'.
    unfold pollOnce. rewrite state_after_bind.
    change (value_of get w') with w'. change (state_after get w') with w'. by rewrite HW, Hc'.
  - intros healthy. unfold pollOnce. rewrite value_of_bind.
    rewrite poll_services_value. done.
Qed.

(** ** Witness *)

Definition demo : Watchdog := mk_watchdog [Some 1; None; Some 0; Some 2] ∅ 3 true true 0.
Definition demo_name (s : nat) : string := if (s =? 1)%nat then "audio" else "network".

Lemma watchdog_recovers_at_threshold_witness :
  let w' := state_after (polls demo_name (replicate 7 (fun _ => false))) demo in
  recoveries "audio" (effects_of (polls demo_name (replicate 7 (fun _ => false))) demo) = 2 /\
  count_of "audio" w' = 1%Z.
Proof.
  cbv zeta.
  destruct (watchdog_recovers_at_threshold demo_name (replicate 7 (fun _ => false)) 1 demo)
    as (H1 & H2 & _); [..|exact (conj H1 H2)].
  - simpl. lia.
  - vm_compute. repeat constructor; set_solver.
  - vm_compute. apply list_elem_of_here.
  - repeat constructor.
  - reflexivity.
Defined.
