(* ===== verification/Speakers.v ===== *)
(** * Speakers: what the streamer knows of its speakers

    Models [streamer/src/group/SpeakerRegistry.h] (who the speakers are and where) and
    [streamer/src/state/SpeakerState.h], [SpeakerStateStore.h] (what they last said of
    themselves), with the reply observer of [streamer/src/app/StreamerApp.cpp] that
    writes the store.  The registry is a list in registration order; the store is the
    [std::map] of the source.  Time is the tick count of the steady clock, 0 for the
    epoch. *)

From S2P Require Import Prelude Core Json.

(** ** The registry *)

(* [src/streamer/src/group/SpeakerRegistry.h:21-26] Speaker *)
Record Speaker := mk_speaker
  { device_id : string; sp_name : string; host : string; control_port : Z }.

#[global] Instance Speaker_eq_dec : EqDecision Speaker.
Proof. solve_decision. Defined.

Abbreviation SpeakerRegistry := (list Speaker).

(** Update the first entry of the id in place, or append; [true] when appended. *)
(* [src/streamer/src/group/SpeakerRegistry.h:34-44] SpeakerRegistry::upsert *)
Fixpoint upsert (s : Speaker) (l : SpeakerRegistry) : bool * SpeakerRegistry :=
  match l with
  | [] => (true, [s])
  | e :: l' =>
      if String.eqb (device_id e) (device_id s) then (false, s :: l')
      else let '(b, l'') := upsert s l' in (b, e :: l'')
  end.

(* [src/streamer/src/group/SpeakerRegistry.h:46-55] SpeakerRegistry::remove *)
Fixpoint remove_speaker (id : string) (l : SpeakerRegistry) : bool * SpeakerRegistry :=
  match l with
  | [] => (false, [])
  | e :: l' =>
      if String.eqb (device_id e) id then (true, l')
      else let '(b, l'') := remove_speaker id l' in (b, e :: l'')
  end.

(* [src/streamer/src/group/SpeakerRegistry.h:57-63] SpeakerRegistry::get *)
Fixpoint get_speaker (id : string) (l : SpeakerRegistry) : option Speaker :=
  match l with
  | [] => None
  | e :: l' => if String.eqb (device_id e) id then Some e else get_speaker id l'
  end.

(** One entry per device. *)
Definition registry_ok (l : SpeakerRegistry) : Prop := NoDup (device_id <$> l).

Lemma upsert_ids s l :
  device_id <$> (upsert s l).2 =
    if (upsert s l).1 then (device_id <$> l) ++ [device_id s] else device_id <$> l.
Proof.
  induction l as [|e l IH]; [done|]. cbn [upsert].
  destruct (String.eqb_spec (device_id e) (device_id s)) as [E|E]; [simpl; by rewrite E|].
  destruct (upsert s l) as [b l']. cbn [fst snd] in *. rewrite !fmap_cons, IH. by destruct b.
Qed.

Lemma upsert_new s l : (upsert s l).1 = true <-> device_id s ∉ (device_id <$> l).
Proof.
  induction l as [|e l IH]; [split; [intros _; apply not_elem_of_nil|done]|]. cbn [upsert].
  rewrite fmap_cons, not_elem_of_cons.
  destruct (String.eqb_spec (device_id e) (device_id s)) as [E|E].
  - split; [done|intros [? _]; congruence].
  - destruct (upsert s l) as [b l']. cbn [fst] in *. rewrite IH. split; [intros ?; split; [congruence|done]|by intros [_ ?]].
Qed.

Lemma upsert_ok s l : registry_ok l -> registry_ok (upsert s l).2.
Proof.
  unfold registry_ok. rewrite upsert_ids. intros Hl. destruct (upsert s l).1 eqn:E; [|done].
  apply NoDup_snoc; [done|]. by apply upsert_new.
Qed.

Lemma remove_speaker_sublist id l : sublist (remove_speaker id l).2 l.
Proof.
  induction l as [|e l IH]; [done|]. cbn [remove_speaker].
  destruct (String.eqb (device_id e) id); [by apply sublist_cons|].
  destruct (remove_speaker id l) as [b l']. by apply sublist_skip.
Qed.

Lemma remove_speaker_ok id l : registry_ok l -> registry_ok (remove_speaker id l).2.
Proof.
  intros Hl. eapply sublist_NoDup; [exact Hl|]. apply fmap_sublist, remove_speaker_sublist.
Qed.

Lemma get_speaker_upsert s l id :
  get_speaker id (upsert s l).2 = if String.eqb (device_id s) id then Some s else get_speaker id l.
Proof.
  induction l as [|e l IH]; [done|]. cbn [upsert get_speaker].
  destruct (String.eqb_spec (device_id e) (device_id s)) as [E|E]; cbn [snd get_speaker].
  - rewrite E. by destruct (String.eqb (device_id s) id).
  - destruct (upsert s l) as [b l']. cbn [snd get_speaker] in *.
    destruct (String.eqb_spec (device_id e) id) as [E'|E']; [|done].
    destruct (String.eqb_spec (device_id s) id); [congruence|done].
Qed.

Lemma get_speaker_Some id l s : get_speaker id l = Some s -> s ∈ l /\ device_id s = id.
Proof.
  induction l as [|e l IH]; [done|]. cbn [get_speaker].
  destruct (String.eqb_spec (device_id e) id).
  - intros [= ->]. split; [apply list_elem_of_here|done].
  - intros [? ?]%IH. split; [by apply list_elem_of_further|done].
Qed.

Lemma get_speaker_None id l : get_speaker id l = None <-> id ∉ (device_id <$> l).
Proof.
  induction l as [|e l IH]; [split; [intros _; apply not_elem_of_nil|done]|]. cbn [get_speaker].
  rewrite fmap_cons, not_elem_of_cons, <-IH.
  destruct (String.eqb_spec (device_id e) id); split; try done; intros [? ?]; congruence.
Qed.

Lemma get_speaker_remove id l id' : registry_ok l ->
  get_speaker id' (remove_speaker id l).2 = if String.eqb id id' then None else get_speaker id' l.
Proof.
  induction l as [|e l IH]; [by destruct (String.eqb id id')|].
  intros [He Hl]%NoDup_cons. specialize (IH Hl). cbn [remove_speaker get_speaker].
  destruct (String.eqb_spec (device_id e) id) as [E|E]; cbn [snd].
  - destruct (String.eqb_spec id id') as [E'|E'].
    { apply get_speaker_None. by rewrite <-E', <-E. }
    destruct (String.eqb_spec (device_id e) id'); [congruence|done].
  - destruct (remove_speaker id l) as [b l']. cbn [snd get_speaker] in *. rewrite IH.
    destruct (String.eqb_spec (device_id e) id'), (String.eqb_spec id id'); congruence.
Qed.

(** ** Confirmed state *)

Section States.
Context {J : JsonLib}.

(* [src/streamer/src/state/SpeakerState.h:19-46] ConfirmedState *)
Record ConfirmedState := mk_confirmed
  { volume : Z; muted : bool; delay_ms : Z; eq_profile : string; gain_db : spec_float;
    phase_invert : bool; paired : bool; telemetry : json; has_link : bool;
    wifi_signal_dbm : Z; link_age_s : Z; confirmed_at : Z }.

(* [src/streamer/src/state/SpeakerState.h:19-43] ConfirmedState *)
Definition unconfirmed : ConfirmedState :=
  mk_confirmed 0 false 0 "" (S754_zero false) false false (jobj []) false 0 (-1) 0.

(* [src/streamer/src/state/SpeakerState.h:45-45] ConfirmedState::everConfirmed *)
Definition everConfirmed (c : ConfirmedState) : bool := negb (confirmed_at c =? 0)%Z.

(* [src/streamer/src/state/SpeakerState.h:49-58] SpeakerState *)
Record SpeakerState := mk_state
  { st_device_id : string; confirmed : ConfirmedState; online : bool;
    consecutive_failures : Z; last_error : string }.

(* [src/streamer/src/state/SpeakerState.h:49-58] SpeakerState *)
Definition new_state : SpeakerState := mk_state "" unconfirmed false 0 "".

(** Milliseconds, the clock counting nanoseconds; [None] stands for [max()]. *)
(* [src/streamer/src/state/SpeakerState.h:61-64] SpeakerState::age *)
Definition age (s : SpeakerState) (now : Z) : option Z :=
  if everConfirmed (confirmed s)
  then Some ((now - confirmed_at (confirmed s)) `quot` 1000000)%Z else None.

Definition int64_max : Z := 9223372036854775807.

(* [src/streamer/src/state/SpeakerState.h:66-91] SpeakerState::toJson *)
Definition state_to_json (s : SpeakerState) (now : Z) : json :=
  let c := confirmed s in
  let j := jobj [("device_id", jstr (st_device_id s)); ("online", jbool (online s));
                 ("confirmed", jbool (everConfirmed c))] in
  let j := if String.eqb (last_error s) "" then j else jset j "last_error" (jstr (last_error s)) in
  if everConfirmed c then
    let j := jset j "volume" (jint (volume c)) in
    let j := jset j "muted" (jbool (muted c)) in
    let j := jset j "delay_ms" (jint (delay_ms c)) in
    let j := jset j "eq_profile" (jstr (eq_profile c)) in
    let j := jset j "gain_db" (jdbl (gain_db c)) in
    let j := jset j "phase_invert" (jbool (phase_invert c)) in
    let j := jset j "paired" (jbool (paired c)) in
    let j := jset j "age_ms" (jint (default int64_max (age s now))) in
    let j := if jempty (telemetry c) then j else jset j "telemetry" (telemetry c) in
    if has_link c then
      let j := jset j "wifi_signal_dbm" (jint (wifi_signal_dbm c)) in
      if (0 <=? link_age_s c)%Z then jset j "link_age_s" (jint (link_age_s c)) else j
    else j
  else j.

(** ** The store *)

(* [src/streamer/src/state/SpeakerStateStore.h:180-183] SpeakerStateStore *)
Record Store := mk_store { st_bus : bool; states : gmap string SpeakerState }.

Definition state_of (id : string) (s : Store) : SpeakerState := default new_state (states s !! id).
Definition set_state (id : string) (x : SpeakerState) (s : Store) : Store :=
  mk_store (st_bus s) (<[id := x]> (states s)).

(** [events::make]: a streamer event is a [StateChanged] whose source is its name. *)
(* [src/streamer/src/core/StreamerEvents.h:31-33] events::make *)
Definition make (name : string) (data : Payload) : Event Payload :=
  event EventType.StateChanged name data.

Abbreviation St := (SW Store (Event Payload)).

Definition st_publish (e : Event Payload) : St unit :=
  s ← get; when (st_bus s) (tell [e]).

(** [data.contains(k) && data[k].is_T()], then [data[k].get<T>()]. *)
Definition field {A} (k : string) (is_T : json -> bool) (get_T : json -> Try A) (data : json) : option A :=
  match jfind data k with
  | Some v => if is_T v then match get_T v with Done a => Some a | Throw _ => None end else None
  | None => None
  end.

(** The locals of the critical section: the confirmed state, [changed], [touched]. *)
Record Merge := mk_merge { m_conf : ConfirmedState; m_changed : Payload; m_touched : bool }.

Definition copy {A} (v : option A) (put : A -> ConfirmedState -> ConfirmedState) (m : Merge) : Merge :=
  match v with
  | Some a => mk_merge (put a (m_conf m)) (m_changed m) true
  | None => m
  end.

(** A field whose change is reported: [same] compares with the value held so far. *)
Definition copy_note {A} (k : string) (scalar : A -> Scalar) (same : A -> ConfirmedState -> bool)
    (v : option A) (put : A -> ConfirmedState -> ConfirmedState) (m : Merge) : Merge :=
  match v with
  | Some a =>
      let changed := if negb (everConfirmed (m_conf m)) || negb (same a (m_conf m))
                     then set_key k (scalar a) (m_changed m) else m_changed m in
      mk_merge (put a (m_conf m)) changed true
  | None => m
  end.

Definition put_volume (v : Z) (c : ConfirmedState) : ConfirmedState :=
  mk_confirmed v (muted c) (delay_ms c) (eq_profile c) (gain_db c) (phase_invert c) (paired c)
    (telemetry c) (has_link c) (wifi_signal_dbm c) (link_age_s c) (confirmed_at c).
Definition put_muted (v : bool) (c : ConfirmedState) : ConfirmedState :=
  mk_confirmed (volume c) v (delay_ms c) (eq_profile c) (gain_db c) (phase_invert c) (paired c)
    (telemetry c) (has_link c) (wifi_signal_dbm c) (link_age_s c) (confirmed_at c).
Definition put_delay (v : Z) (c : ConfirmedState) : ConfirmedState :=
  mk_confirmed (volume c) (muted c) v (eq_profile c) (gain_db c) (phase_invert c) (paired c)
    (telemetry c) (has_link c) (wifi_signal_dbm c) (link_age_s c) (confirmed_at c).
Definition put_eq (v : string) (c : ConfirmedState) : ConfirmedState :=
  mk_confirmed (volume c) (muted c) (delay_ms c) v (gain_db c) (phase_invert c) (paired c)
    (telemetry c) (has_link c) (wifi_signal_dbm c) (link_age_s c) (confirmed_at c).
Definition put_gain (v : spec_float) (c : ConfirmedState) : ConfirmedState :=
  mk_confirmed (volume c) (muted c) (delay_ms c) (eq_profile c) v (phase_invert c) (paired c)
    (telemetry c) (has_link c) (wifi_signal_dbm c) (link_age_s c) (confirmed_at c).
Definition put_phase (v : bool) (c : ConfirmedState) : ConfirmedState :=
  mk_confirmed (volume c) (muted c) (delay_ms c) (eq_profile c) (gain_db c) v (paired c)
    (telemetry c) (has_link c) (wifi_signal_dbm c) (link_age_s c) (confirmed_at c).
Definition put_paired (v : bool) (c : ConfirmedState) : ConfirmedState :=
  mk_confirmed (volume c) (muted c) (delay_ms c) (eq_profile c) (gain_db c) (phase_invert c) v
    (telemetry c) (has_link c) (wifi_signal_dbm c) (link_age_s c) (confirmed_at c).
Definition put_telemetry (v : json) (c : ConfirmedState) : ConfirmedState :=
  mk_confirmed (volume c) (muted c) (delay_ms c) (eq_profile c) (gain_db c) (phase_invert c)
    (paired c) v (has_link c) (wifi_signal_dbm c) (link_age_s c) (confirmed_at c).
Definition put_link (dbm age_s : Z) (c : ConfirmedState) : ConfirmedState :=
  mk_confirmed (volume c) (muted c) (delay_ms c) (eq_profile c) (gain_db c) (phase_invert c)
    (paired c) (telemetry c) true dbm age_s (confirmed_at c).
Definition put_time (t : Z) (c : ConfirmedState) : ConfirmedState :=
  mk_confirmed (volume c) (muted c) (delay_ms c) (eq_profile c) (gain_db c) (phase_invert c)
    (paired c) (telemetry c) (has_link c) (wifi_signal_dbm c) (link_age_s c) t.

(* [src/streamer/src/state/SpeakerStateStore.h:50-105] SpeakerStateStore::applyConfirmedStatus *)
Definition merge_fields (data : json) (c : ConfirmedState) : Merge :=
  let m := mk_merge c [] false in
  if is_object data then
    let m := copy_note "volume" SInt (fun v c => (volume c =? v)%Z)
               (field "volume" is_number_integer get_int data) put_volume m in
    let m := copy_note "muted" SBool (fun b c => Bool.eqb (muted c) b)
               (field "muted" is_boolean get_bool data) put_muted m in
    let m := copy (field "delay_ms" is_number_integer get_int data) put_delay m in
    let m := copy (field "eq_profile" is_string get_string data) put_eq m in
    let m := copy_note "gain_db" SDouble (fun g c => SFeqb (gain_db c) g)
               (field "gain_db" is_number get_double data) put_gain m in
    let m := copy_note "phase_invert" SBool (fun b c => Bool.eqb (phase_invert c) b)
               (field "phase_invert" is_boolean get_bool data) put_phase m in
    let m := copy (field "paired" is_boolean get_bool data) put_paired m in
    let m := copy (field "telemetry" is_object Done data) put_telemetry m in
    copy (field "wifi_signal_dbm" is_number_integer get_int data)
      (fun dbm => put_link dbm (default (-1)%Z (field "link_age_s" is_number_integer get_int64 data))) m
  else m.

(** [now] is what the clock answers. *)
(* [src/streamer/src/state/SpeakerStateStore.h:42-121] SpeakerStateStore::applyConfirmedStatus *)
Definition applyConfirmedStatus (now : Z) (id : string) (data : json) : St unit :=
  s ← get;
  let x := state_of id s in
  let m := merge_fields data (confirmed x) in
  let c := if m_touched m then put_time now (m_conf m) else m_conf m in
  modify (set_state id (mk_state id c true 0 ""));;
  (if negb (online x) then st_publish (make "speaker.online" [("device_id", SStr id)]) else mret ());;
  (match m_changed m with
   | [] => mret ()
   | changed => st_publish (make "speaker.state" (set_key "device_id" (SStr id) changed))
   end).

(* [src/streamer/src/state/SpeakerStateStore.h:127-144] SpeakerStateStore::applyPollFailure *)
Definition applyPollFailure (id why : string) (offline_threshold : Z) : St unit :=
  s ← get;
  let x := state_of id s in
  let failures := (consecutive_failures x + 1)%Z in
  let became_offline := online x && (offline_threshold <=? failures)%Z in
  modify (set_state id (mk_state id (confirmed x) (if became_offline then false else online x) failures why));;
  (if became_offline
   then st_publish (make "speaker.offline" [("device_id", SStr id); ("why", SStr why)]) else mret ()).

(* [src/streamer/src/state/SpeakerStateStore.h:148-155] SpeakerStateStore::noteRejected *)
Definition noteRejected (id message : string) : St unit :=
  s ← get;
  let x := state_of id s in
  modify (set_state id (mk_state id (confirmed x) true 0 message)).

(* [src/streamer/src/state/SpeakerStateStore.h:157-160] SpeakerStateStore::forget *)
Definition forget (id : string) : St unit :=
  modify (fun s => mk_store (st_bus s) (delete id (states s))).

(* [src/streamer/src/state/SpeakerStateStore.h:162-167] SpeakerStateStore::get *)
Definition get_state (id : string) (s : Store) : option SpeakerState := states s !! id.

(** The outcome of one exchange with a speaker. *)
Inductive Reply :=
| Failed (why : string)          (* the status of the exchange is an error *)
| Confirmed (data : json)        (* the speaker answered [ok] *)
| Rejected (message : string).   (* the speaker answered, refusing *)

(* [src/streamer/src/app/StreamerApp.cpp:157-166] StreamerApp::startup, the reply observer *)
Definition observe (offline_threshold now : Z) (id : string) (r : Reply) : St unit :=
  match r with
  | Failed why => applyPollFailure id why offline_threshold
  | Confirmed data => applyConfirmedStatus now id data
  | Rejected message => noteRejected id message
  end.

(** ** Histories of exchanges *)

Record Exchange := mk_exchange { at_time : Z; peer : string; outcome : Reply }.

Fixpoint observe_all (threshold : Z) (l : list Exchange) : St unit :=
  match l with
  | [] => mret ()
  | e :: l' => observe threshold (at_time e) (peer e) (outcome e);; observe_all threshold l'
  end.

Definition failed (e : Exchange) : bool := match outcome e with Failed _ => true | _ => false end.

(** The specification: the failures since the last answer, whether it ever answered, and
    the merge of its own reports. *)
Definition trailing_failures (l : list Exchange) : Z :=
  foldl (fun n e => if failed e then n + 1 else 0)%Z 0%Z l.
Definition answered (l : list Exchange) : bool := existsb (fun e => negb (failed e)) l.
Definition merged (now : Z) (data : json) (c : ConfirmedState) : ConfirmedState :=
  let m := merge_fields data c in if m_touched m then put_time now (m_conf m) else m_conf m.
Definition reported (l : list Exchange) : ConfirmedState :=
  foldl (fun c e => match outcome e with Confirmed data => merged (at_time e) data c | _ => c end)
    unconfirmed l.

(** The state of the speaker after one exchange. *)
Definition next_state (threshold now : Z) (id : string) (r : Reply) (x : SpeakerState) : SpeakerState :=
  match r with
  | Failed why =>
      let failures := (consecutive_failures x + 1)%Z in
      mk_state id (confirmed x)
        (if online x && (threshold <=? failures)%Z then false else online x) failures why
  | Confirmed data => mk_state id (merged now data (confirmed x)) true 0 ""
  | Rejected message => mk_state id (confirmed x) true 0 message
  end.

Lemma st_publish_state e s : state_after (st_publish e) s = s.
Proof. unfold st_publish. run_simpl. by destruct (st_bus s). Qed.

Lemma observe_state threshold now id r s :
  state_after (observe threshold now id r) s =
    set_state id (next_state threshold now id r (state_of id s)) s.
Proof.
  destruct r as [why|data|message]; cbn [observe next_state].
  - unfold applyPollFailure. run_simpl.
    destruct (online (state_of id s) && _); [apply st_publish_state|done].
  - unfold applyConfirmedStatus, merged. rewrite !state_after_bind.
    cbn [state_after value_of get modify fst snd].
    set (s' := set_state id _ s).
    assert (forall (b : bool) e, state_after (if b then st_publish e else mret ()) s' = s') as Hb
      by (intros [] e; [apply st_publish_state|done]).
    rewrite Hb. destruct (m_changed _); [done|apply st_publish_state].
  - done.
Qed.

Lemma state_of_set id x s id' :
  state_of id' (set_state id x s) = if bool_decide (id = id') then x else state_of id' s.
Proof.
  unfold state_of, set_state. cbn. goal_bool_decide.
  - subst. by rewrite lookup_insert_eq.
  - by rewrite lookup_insert_ne.
Qed.

Lemma observe_all_snoc threshold l e s :
  state_after (observe_all threshold (l ++ [e])) s =
    state_after (observe threshold (at_time e) (peer e) (outcome e))
      (state_after (observe_all threshold l) s).
Proof.
  revert s. induction l as [|e' l IH]; intros s; cbn [observe_all app].
  - by rewrite state_after_bind.
  - rewrite !state_after_bind. apply IH.
Qed.

Lemma answered_app l l' : answered (l ++ l') = answered l || answered l'.
Proof. apply existsb_app. Qed.

Lemma history_snoc threshold id l e x :
  (1 <= threshold)%Z ->
  confirmed x = reported l -> consecutive_failures x = trailing_failures l ->
  online x = answered l && (trailing_failures l <? threshold)%Z ->
  let x' := next_state threshold (at_time e) id (outcome e) x in
  confirmed x' = reported (l ++ [e]) /\
  consecutive_failures x' = trailing_failures (l ++ [e]) /\
  online x' = answered (l ++ [e]) && (trailing_failures (l ++ [e]) <? threshold)%Z.
Proof.
  intros Ht Hc Hn Ho. cbv zeta. rewrite answered_app.
  unfold reported, trailing_failures in *. rewrite !foldl_app. cbn [foldl answered existsb].
  unfold failed in *. destruct (outcome e) as [why|data|message]; cbn [next_state confirmed
    consecutive_failures online negb orb]; rewrite ?orb_true_r, ?orb_false_r;
    (split; [congruence|]); (split; [congruence|]).
  - rewrite Ho, Hn. set (n := foldl _ 0%Z l). destruct (answered l); [cbn [andb]|done].
    destruct (Z.ltb_spec n threshold), (Z.leb_spec threshold (n + 1)),
      (Z.ltb_spec (n + 1) threshold); try done; lia.
  - symmetry. apply Z.ltb_lt. lia.
  - symmetry. apply Z.ltb_lt. lia.
Qed.
End States.

(** ** Properties *)

(** The streamer shows what the speaker said, and notices when it stops answering.
    After any history of exchanges with any speakers, a speaker's confirmed values are the
    merge of its own successful reports in order (no failure, refusal or report of
    another speaker changes them), its failure count is the number of failures since it
    last answered, and it is online exactly when it has answered and has failed fewer than
    [threshold] times since. *)
Theorem store_tracks_speaker (J : JsonLib) threshold l id s :
  (1 <= threshold)%Z -> states s !! id = None ->
  let x := state_of id (state_after (observe_all threshold l) s) in
  let mine := filter (fun e => peer e = id) l in
  confirmed x = reported mine /\
  consecutive_failures x = trailing_failures mine /\
  online x = answered mine && (trailing_failures mine <? threshold)%Z.
Proof.
  intros Ht Hs. induction l as [|e l IH] using rev_ind.
  - cbn. unfold state_of. by rewrite Hs.
  - cbv zeta in *. rewrite observe_all_snoc, observe_state, state_of_set.
    destruct IH as (I1 & I2 & I3). rewrite filter_app.
    destruct (decide (peer e = id)) as [E|E].
    + rewrite (bool_decide_eq_true_2 _ E), filter_cons_True, filter_nil by done. rewrite E.
      apply history_snoc; [lia|done..].
    + rewrite (bool_decide_eq_false_2 _ E), filter_cons_False, filter_nil, app_nil_r by done.
      by split_and!.
Qed.

(** The id of the witness, and its history: two reports, a failure of another speaker,
    three failures. *)
Definition spk : string := "SPK-0001".
Definition sample_history : list (@Exchange jvalue_lib) :=
  [mk_exchange 10 spk (Confirmed (jobj [("volume", jint 40)]));
   mk_exchange 20 spk (Confirmed (jobj [("volume", jint 55); ("muted", jbool true)]));
   mk_exchange 25 "SPK-0002" (Failed "timeout");
   mk_exchange 30 spk (Failed "timeout"); mk_exchange 35 spk (Failed "timeout");
   mk_exchange 40 spk (Failed "timeout")].

Lemma store_tracks_speaker_witness :
  let x := state_of spk (state_after (observe_all 3 sample_history) (mk_store true ∅)) in
  volume (confirmed x) = 55%Z /\ muted (confirmed x) = true /\
  consecutive_failures x = 3%Z /\ online x = false.
Proof.
  cbv zeta.
  destruct (store_tracks_speaker jvalue_lib 3 sample_history spk (mk_store true ∅)) as (-> & -> & ->);
    [lia|reflexivity|].
  split_and!; vm_compute; reflexivity.
Defined.
