(* ===== verification/Zones.v ===== *)
(** * Zones: named sets of speakers that play one stream

    Models [streamer/src/group/Zone.h] and [ZoneManager.h]: creation with id allocation,
    removal, renaming, membership, restoring from the configuration, and the two
    resolutions of a zone, for audio and for commands.  The injected id source is the
    sequence of its answers ([ids k] is the answer to the [k]-th call).  The counter
    [next_] is a 32-bit [int]. *)

From Stdlib Require Import Ascii.
From stdpp Require Import pretty.
From S2P Require Import Prelude Core Json Speakers.

(* [src/streamer/src/group/Zone.h:18-22] Zone *)
Record Zone := mk_zone { zone_id : string; z_name : string; members : list string }.

#[global] Instance Zone_eq_dec : EqDecision Zone.
Proof. solve_decision. Defined.

(* [src/streamer/src/group/ZoneManager.h:23-26] ZoneEndpoint *)
Record ZoneEndpoint := mk_endpoint { ep_host : string; ep_port : Z }.

(** The registry is shared with the rest of the streamer and stands for its contents at
    the time of a call. *)
(* [src/streamer/src/group/ZoneManager.h:206-212] ZoneManager *)
Record ZoneManager := mk_zones
  { id_source_ : option (nat -> string); drawn : nat; zones_ : list Zone; next_ : Z }.

Definition set_zones (l : list Zone) (m : ZoneManager) : ZoneManager :=
  mk_zones (id_source_ m) (drawn m) l (next_ m).

(* [src/streamer/src/group/ZoneManager.h:39-41] ZoneManager::ZoneManager *)
Definition new_zones (ids : option (nat -> string)) : ZoneManager := mk_zones ids 0 [] 1.

Definition int_of (z : Z) : Z := to_signed 32 z.

Definition taken (id : string) (l : list Zone) : bool :=
  existsb (fun z => String.eqb (zone_id z) id) l.

(** The next candidate id. *)
(* [src/streamer/src/group/ZoneManager.h:51-51] ZoneManager::create *)
Definition candidate (m : ZoneManager) : string * ZoneManager :=
  match id_source_ m with
  | Some ids => (ids (drawn m), mk_zones (Some ids) (S (drawn m)) (zones_ m) (next_ m))
  | None => ("zone-" +:+ pretty (next_ m), mk_zones None (drawn m) (zones_ m) (int_of (next_ m + 1)))
  end.

(** The allocation loop; the empty id stands for a [z.zone_id] left unset. *)
(* [src/streamer/src/group/ZoneManager.h:50-65] ZoneManager::create *)
Fixpoint allocate (fuel guard : nat) (m : ZoneManager) : Result string * ZoneManager :=
  match fuel with
  | O => (Value "", m)
  | S fuel' =>
      let '(id, m) := candidate m in
      if negb (taken id (zones_ m)) then (Value id, m)
      else
        match id_source_ m with
        | Some _ =>
            if (0 <? guard)%nat
            then (Failure (error ErrorCode.AlreadyExists ("zone id already exists: " +:+ id)), m)
            else allocate fuel' (S guard) m
        | None => allocate fuel' (S guard) m
        end
  end.

(* [src/streamer/src/group/ZoneManager.h:50-50] ZoneManager::create *)
Definition rounds : nat := 100 * 100.

(* [src/streamer/src/group/ZoneManager.h:43-72] ZoneManager::create *)
Definition create (name : string) (m : ZoneManager) : Result Zone * ZoneManager :=
  let '(id, m) := allocate rounds 0 m in
  match id with
  | Failure s => (Failure s, m)
  | Value id =>
      if String.eqb id "" then
        (Failure (error ErrorCode.AlreadyExists "could not allocate a zone id"), m)
      else
        let z := mk_zone id (if String.eqb name "" then id else name) [] in
        (Value z, set_zones (zones_ m ++ [z]) m)
  end.

(* [src/streamer/src/group/ZoneManager.h:74-81] ZoneManager::remove *)
Definition remove_zone (id : string) (m : ZoneManager) : bool * ZoneManager :=
  let l := filter (fun z => negb (String.eqb (zone_id z) id)) (zones_ m) in
  (negb (length l =? length (zones_ m)), set_zones l m).

Definition unknown_zone (id : string) : Status :=
  error ErrorCode.NotFound ("unknown zone: " +:+ id).

(** Change the first zone with the id, if there is one. *)
Fixpoint change_zone (id : string) (f : Zone -> Zone) (l : list Zone) : option (list Zone) :=
  match l with
  | [] => None
  | z :: l' =>
      if String.eqb (zone_id z) id then Some (f z :: l')
      else match change_zone id f l' with Some l'' => Some (z :: l'') | None => None end
  end.

Definition on_zone (id : string) (f : Zone -> Zone) (m : ZoneManager) : Status * ZoneManager :=
  match change_zone id f (zones_ m) with
  | Some l => (success, set_zones l m)
  | None => (unknown_zone id, m)
  end.

(* [src/streamer/src/group/ZoneManager.h:83-92] ZoneManager::rename *)
Definition rename (id name : string) (m : ZoneManager) : Status * ZoneManager :=
  on_zone id (fun z => mk_zone (zone_id z) name (members z)) m.

(** The first other zone that holds the speaker. *)
(* [src/streamer/src/group/ZoneManager.h:100-106] ZoneManager::addMember *)
Definition other_holder (id device : string) (l : list Zone) : option Zone :=
  head (filter (fun z => zone_id z <> id /\ device ∈ members z) l).

(* [src/streamer/src/group/ZoneManager.h:95-115] ZoneManager::addMember *)
Definition addMember (reg : SpeakerRegistry) (id device : string) (m : ZoneManager) : Status * ZoneManager :=
  match get_speaker device reg with
  | None => (error ErrorCode.NotFound ("unknown speaker: " +:+ device), m)
  | Some _ =>
      match other_holder id device (zones_ m) with
      | Some z => (error ErrorCode.InvalidArg (device +:+ " already belongs to zone " +:+ z_name z), m)
      | None =>
          on_zone id (fun z => if bool_decide (device ∈ members z) then z
                               else mk_zone (zone_id z) (z_name z) (members z ++ [device])) m
      end
  end.

(* [src/streamer/src/group/ZoneManager.h:117-125] ZoneManager::removeMember *)
Definition removeMember (id device : string) (m : ZoneManager) : Status * ZoneManager :=
  on_zone id (fun z => mk_zone (zone_id z) (z_name z) (filter (fun d => d <> device) (members z))) m.

(* [src/streamer/src/group/ZoneManager.h:127-133] ZoneManager::get *)
Definition get_zone (id : string) (m : ZoneManager) : option Zone :=
  head (filter (fun z => zone_id z = id) (zones_ m)).

(** [std::isdigit] and [std::stoi] on a string of digits; [None] when it throws
    [out_of_range]. *)
Definition is_digit (c : ascii) : bool := ((48 <=? nat_of_ascii c) && (nat_of_ascii c <=? 57))%nat.

Fixpoint all_digits (s : string) : bool :=
  match s with EmptyString => true | String c s' => is_digit c && all_digits s' end.

Fixpoint digits_value (acc : Z) (s : string) : Z :=
  match s with
  | EmptyString => acc
  | String c s' => digits_value (acc * 10 + (Z.of_nat (nat_of_ascii c) - 48)) s'
  end.

Definition stoi (s : string) : option Z :=
  let v := digits_value 0 s in if (v <? 2 ^ 31)%Z then Some v else None.

(** One restored zone's effect on the counter. *)
(* [src/streamer/src/group/ZoneManager.h:149-160] ZoneManager::replaceAll *)
Definition bump (z : Zone) (next : Z) : Z :=
  if negb (String.prefix "zone-" (zone_id z)) then next
  else
    let digits := String.substring 5 (String.length (zone_id z) - 5) (zone_id z) in
    if String.eqb digits "" || negb (all_digits digits) then next
    else match stoi digits with Some v => Z.max next (int_of (v + 1)) | None => next end.

(* [src/streamer/src/group/ZoneManager.h:145-162] ZoneManager::replaceAll *)
Definition replaceAll (l : list Zone) (m : ZoneManager) : ZoneManager :=
  mk_zones (id_source_ m) (drawn m) l (foldl (fun next z => bump z next) (next_ m) l).

(* [src/streamer/src/group/ZoneManager.h:196-204] ZoneManager::zoneOf *)
Definition zoneOf (device : string) (m : ZoneManager) : option string :=
  zone_id <$> head (filter (fun z => device ∈ members z) (zones_ m)).

(** The registered members of a zone, in the zone's order. *)
(* [src/streamer/src/group/ZoneManager.h:185-193] ZoneManager::members *)
Definition zone_members (reg : SpeakerRegistry) (id : string) (m : ZoneManager) : list Speaker :=
  match get_zone id m with
  | None => []
  | Some z => omap (fun d => get_speaker d reg) (members z)
  end.

(* [src/src/audio/AudioPacket.h:24-24] wire::kDefaultPort *)
Definition kDefaultPort : Z := 50005.

(** [known_offline] is what the state store says, when there is one. *)
(* [src/streamer/src/group/ZoneManager.h:166-181] ZoneManager::resolveTargets *)
Definition resolveTargets (known_offline : string -> bool) (reg : SpeakerRegistry) (id : string)
    (m : ZoneManager) : Result (list ZoneEndpoint) :=
  match get_zone id m with
  | None => Failure (unknown_zone id)
  | Some z =>
      Value (omap (fun d =>
        match get_speaker d reg with
        | None => None
        | Some sp => if known_offline d then None else Some (mk_endpoint (host sp) kDefaultPort)
        end) (members z))
  end.

(** The store's answer for one speaker. *)
(* [src/streamer/src/group/ZoneManager.h:174-177] ZoneManager::resolveTargets *)
Definition known_offline {J : JsonLib} (store : option Store) (id : string) : bool :=
  match store with
  | None => false
  | Some s => match get_state id s with Some st => negb (online st) | None => false end
  end.

(** ** Numbered ids *)

Lemma digit_char x : (x < 10)%N ->
  is_digit (pretty_N_char x) = true /\ Z.of_nat (nat_of_ascii (pretty_N_char x)) = (48 + Z.of_N x)%Z.
Proof.
  intros Hx. assert (x = 0 \/ x = 1 \/ x = 2 \/ x = 3 \/ x = 4 \/ x = 5 \/ x = 6 \/ x = 7 \/ x = 8 \/ x = 9)%N
    as Hc by lia.
  repeat destruct Hc as [->|Hc]; [by split..|]. subst. by split.
Qed.

Lemma pretty_go_digits x s :
  all_digits (pretty_N_go x s) = all_digits s /\
  digits_value 0 (pretty_N_go x s) = digits_value (Z.of_N x) s.
Proof.
  revert s. induction (N.lt_wf_0 x) as [x _ IH]; intros s.
  destruct (decide (x = 0)%N) as [->|Hx]; [by rewrite pretty_N_go_0|].
  rewrite pretty_N_go_step by lia.
  destruct (IH (x `div` 10)%N ltac:(apply N.div_lt; lia)
    (String (pretty_N_char (x `mod` 10)) s)) as [-> ->].
  destruct (digit_char (x `mod` 10)%N) as [E1 E2]; [by apply N.mod_lt|].
  cbn [all_digits digits_value]. rewrite E1, E2. split; [done|]. f_equal.
  rewrite N2Z.inj_mod, N2Z.inj_div. pose proof (Z.div_mod (Z.of_N x) 10 ltac:(lia)). lia.
Qed.

Lemma pretty_digits n : (0 <= n)%Z ->
  all_digits (pretty n) = true /\ digits_value 0 (pretty n) = n /\ pretty n <> "".
Proof.
  intros Hn. destruct n as [|p|p]; [done| |lia].
  change (pretty (Z.pos p)) with (pretty (N.pos p)). unfold pretty, pretty_N.
  destruct (decide (N.pos p = 0)%N); [done|].
  destruct (pretty_go_digits (N.pos p) "") as [-> ->]. split; [done|]. split; [done|].
  intros E. destruct (pretty_go_digits (N.pos p) "") as [_ H]. rewrite E in H. done.
Qed.

Lemma substring_all s : String.substring 0 (String.length s) s = s.
Proof. induction s; simpl; congruence. Qed.

Lemma zone_name_substring s :
  String.prefix "zone-" ("zone-" +:+ s) = true /\
  String.substring 5 (String.length ("zone-" +:+ s) - 5) ("zone-" +:+ s) = s.
Proof.
  change ("zone-" +:+ s) with
    (String "z" (String "o" (String "n" (String "e" (String "-" s))))).
  split; [by destruct s|]. cbn [String.length Nat.sub]. rewrite Nat.sub_0_r.
  change (String.substring 0 (String.length s) s = s). apply substring_all.
Qed.

(** A numbered zone pushes the counter beyond its number. *)
Lemma bump_numbered z n next :
  zone_id z = "zone-" +:+ pretty n -> (0 <= n)%Z -> (n + 1 < 2 ^ 31)%Z ->
  bump z next = Z.max next (n + 1).
Proof.
  intros Hz Hn Hlt. unfold bump. rewrite Hz. destruct (zone_name_substring (pretty n)) as [-> ->].
  cbn [negb]. destruct (pretty_digits n Hn) as (Hd & Hv & Hne).
  rewrite (proj2 (String.eqb_neq _ _) Hne), Hd. cbn [orb negb]. unfold stoi. rewrite Hv.
  destruct (Z.ltb_spec n (2 ^ 31)); [|lia].
  unfold int_of, to_signed. rewrite wrap_small by (unfold in_unsigned; lia).
  destruct (Z.ltb_spec (n + 1) (2 ^ (32 - 1))); [done|]. change (2 ^ (32 - 1))%Z with (2 ^ 31)%Z in *. lia.
Qed.

Lemma bump_ge z next : (next <= bump z next)%Z.
Proof. unfold bump. repeat case_match; lia. Qed.

Lemma bumps_ge l next : (next <= foldl (fun next z => bump z next) next l)%Z.
Proof.
  revert next. induction l as [|z l IH]; intros next; cbn [foldl]; [lia|].
  pose proof (bump_ge z next). specialize (IH (bump z next)). lia.
Qed.

Lemma bumps_numbered l next z n :
  z ∈ l -> zone_id z = "zone-" +:+ pretty n -> (0 <= n)%Z -> (n + 1 < 2 ^ 31)%Z ->
  (n < foldl (fun next z => bump z next) next l)%Z.
Proof.
  revert next. induction l as [|z' l IH]; intros next Hin Hz Hn Hlt; [by apply elem_of_nil in Hin|].
  cbn [foldl]. apply elem_of_cons in Hin as [->|Hin]; [|by apply IH].
  rewrite (bump_numbered z' n) by done.
  pose proof (bumps_ge l (Z.max next (n + 1))). lia.
Qed.

(** ** Allocation *)

Lemma taken_spec id l : taken id l = true <-> id ∈ (zone_id <$> l).
Proof.
  unfold taken. rewrite existsb_exists, list_elem_of_fmap. split.
  - intros (z & Hin & E%String.eqb_eq). exists z. split; [done|by apply list_elem_of_In].
  - intros (z & -> & Hin%list_elem_of_In). exists z. split; [done|apply String.eqb_refl].
Qed.

Lemma candidate_zones m : zones_ (candidate m).2 = zones_ m /\ id_source_ (candidate m).2 = id_source_ m.
Proof. unfold candidate. by destruct (id_source_ m). Qed.

Lemma allocate_spec fuel guard m id m' :
  allocate fuel guard m = (id, m') ->
  zones_ m' = zones_ m /\ match id with Value id => id = "" \/ taken id (zones_ m) = false | Failure _ => True end.
Proof.
  revert guard m. induction fuel as [|fuel IH]; intros guard m; cbn [allocate].
  - intros [= <- <-]. auto.
  - destruct (candidate_zones m) as [Hz Hs]. destruct (candidate m) as [c m1]. cbn [snd] in *.
    rewrite Hz. destruct (taken c (zones_ m)) eqn:Et; cbn [negb].
    + assert (allocate fuel (S guard) m1 = (id, m') -> zones_ m' = zones_ m /\
        match id with Value id => id = "" \/ taken id (zones_ m) = false | Failure _ => True end) as H
        by (intros H; apply IH in H; by rewrite Hz in H).
      destruct (id_source_ m1); [|exact H].
      destruct (0 <? guard); [|exact H]. intros [= <- <-]. done.
    + intros [= <- <-]. rewrite Hz. auto.
Qed.

(** The numbered source fails only when every number it tried is taken. *)
Lemma allocate_numbered fuel guard m id m' :
  id_source_ m = None -> (0 <= next_ m)%Z -> (next_ m + Z.of_nat fuel < 2 ^ 31)%Z ->
  allocate fuel guard m = (id, m') ->
  (exists n, (0 <= n)%Z /\ id = Value ("zone-" +:+ pretty n) /\ taken ("zone-" +:+ pretty n) (zones_ m) = false) \/
  (forall i, i < fuel -> taken ("zone-" +:+ pretty (next_ m + Z.of_nat i)%Z) (zones_ m) = true).
Proof.
  revert guard m. induction fuel as [|fuel IH]; intros guard m Hs Hn Hb; cbn [allocate].
  - intros _. right. intros i Hi. lia.
  - unfold candidate. rewrite Hs. cbn [zones_ id_source_].
    destruct (taken ("zone-" +:+ pretty (next_ m)) (zones_ m)) eqn:Et; cbn [negb].
    + assert (int_of (next_ m + 1) = next_ m + 1)%Z as Hi.
      { unfold int_of, to_signed. rewrite wrap_small by (unfold in_unsigned; lia).
        change (2 ^ (32 - 1))%Z with (2 ^ 31)%Z. destruct (Z.ltb_spec (next_ m + 1) (2 ^ 31)); lia. }
      rewrite Hi. intros H. apply IH in H; cbn [zones_ id_source_ next_] in *; [|done|lia|lia].
      destruct H as [H|H]; [by left|right]. intros [|i] Hlt.
      * by rewrite Z.add_0_r.
      * specialize (H i ltac:(lia)).
        by replace (next_ m + Z.of_nat (S i))%Z with (next_ m + 1 + Z.of_nat i)%Z by lia.
    + intros [= <- <-]. left. by exists (next_ m).
Qed.

Lemma zone_name_inj m n : "zone-" +:+ pretty m = "zone-" +:+ pretty n -> m = n :> Z.
Proof. intros H. apply String.app_inj in H. by apply (inj pretty) in H. Qed.

Lemma pigeonhole (k : nat) (l : list string) (f : nat -> string) :
  (forall i j, f i = f j -> i = j) -> (forall i, i < k -> f i ∈ l) -> k <= length l.
Proof.
  intros Hinj Hin. trans (length (f <$> seq 0 k)); [by rewrite length_fmap, length_seq|].
  apply submseteq_length, NoDup_submseteq.
  - apply NoDup_fmap_2; [intros i j; apply Hinj|apply NoDup_seq].
  - intros s (i & -> & Hi)%list_elem_of_fmap. apply elem_of_seq in Hi. apply Hin. lia.
Qed.

(** ** The invariant *)

(** Ids are distinct and no speaker occurs twice. *)
Definition zones_ok (l : list Zone) : Prop :=
  NoDup (zone_id <$> l) /\ NoDup (mjoin (members <$> l)).

Lemma sublist_join {A} (l l' : list (list A)) : sublist l l' -> sublist (mjoin l) (mjoin l').
Proof.
  induction 1 as [|x l l' _ IH|x l l' _ IH]; [done| |].
  - by apply sublist_app.
  - apply (sublist_app [] x); [apply sublist_nil_l|exact IH].
Qed.

Lemma zones_ok_sublist l l' : sublist l l' -> zones_ok l' -> zones_ok l.
Proof.
  intros Hs [H1 H2]. split.
  - eapply sublist_NoDup; [exact H1|]. by apply fmap_sublist.
  - eapply sublist_NoDup; [exact H2|]. apply sublist_join. by apply fmap_sublist.
Qed.

Lemma change_zone_spec id f l l' :
  change_zone id f l = Some l' ->
  exists l1 z l2, l = l1 ++ z :: l2 /\ zone_id z = id /\ l' = l1 ++ f z :: l2.
Proof.
  revert l'. induction l as [|z l IH]; intros l'; cbn [change_zone]; [done|].
  destruct (String.eqb_spec (zone_id z) id) as [E|E].
  - intros [= <-]. by exists [], z, l.
  - destruct (change_zone id f l) as [l''|]; [|done]. intros [= <-].
    destruct (IH l'' eq_refl) as (l1 & z' & l2 & -> & ? & ->). by exists (z :: l1), z', l2.
Qed.

Lemma zones_ok_middle l1 z l2 z' :
  zone_id z' = zone_id z -> zones_ok (l1 ++ z :: l2) ->
  (NoDup (mjoin (members <$> l1) ++ members z ++ mjoin (members <$> l2)) ->
   NoDup (mjoin (members <$> l1) ++ members z' ++ mjoin (members <$> l2))) ->
  zones_ok (l1 ++ z' :: l2).
Proof.
  unfold zones_ok. rewrite !fmap_app, !fmap_cons, !join_app. intros -> [H1 H2] H. split; [done|].
  by apply H.
Qed.

Lemma other_holder_None id d l :
  other_holder id d l = None -> forall z, z ∈ l -> zone_id z <> id -> d ∉ members z.
Proof.
  unfold other_holder. intros H z Hin Hne Hd.
  assert (z ∈ filter (fun z => zone_id z <> id /\ d ∈ members z) l) as Hf
    by (apply list_elem_of_filter; done).
  destruct (filter _ l); [by apply elem_of_nil in Hf|done].
Qed.

Lemma not_in_join d (l : list Zone) :
  (forall z, z ∈ l -> d ∉ members z) -> d ∉ mjoin (members <$> l).
Proof.
  intros H (ms & Hd & (z & -> & Hz)%list_elem_of_fmap)%list_elem_of_join. by apply (H z).
Qed.

Lemma create_ok name m : zones_ok (zones_ m) -> zones_ok (zones_ (create name m).2).
Proof.
  intros [H1 H2]. unfold create. destruct (allocate rounds 0 m) as [id m'] eqn:E.
  apply allocate_spec in E as [Hz Hid]. destruct id as [id|s]; cbn [snd]; [|by rewrite Hz].
  destruct (String.eqb_spec id ""); cbn [snd zones_ set_zones]; [by rewrite Hz|].
  destruct Hid as [?|Hid]; [done|]. unfold zones_ok. rewrite Hz, !fmap_app. split.
  - apply NoDup_snoc; [done|]. intros Hin%taken_spec. cbn in Hin. congruence.
  - rewrite join_app. cbn. by rewrite app_nil_r.
Qed.

Lemma on_zone_ok id f m :
  (forall z, zone_id (f z) = zone_id z) ->
  (forall l1 z l2, zones_ m = l1 ++ z :: l2 -> zone_id z = id ->
     NoDup (mjoin (members <$> l1) ++ members z ++ mjoin (members <$> l2)) ->
     NoDup (mjoin (members <$> l1) ++ members (f z) ++ mjoin (members <$> l2))) ->
  zones_ok (zones_ m) -> zones_ok (zones_ (on_zone id f m).2).
Proof.
  intros Hf Hm Hok. unfold on_zone. destruct (change_zone id f (zones_ m)) as [l|] eqn:E; [|done].
  apply change_zone_spec in E as (l1 & z & l2 & El & Hz & ->). cbn [snd zones_ set_zones].
  rewrite El in Hok. eapply zones_ok_middle; [apply Hf|exact Hok|]. by apply Hm.
Qed.

Lemma addMember_ok reg id d m : zones_ok (zones_ m) -> zones_ok (zones_ (addMember reg id d m).2).
Proof.
  intros Hok. unfold addMember. destruct (get_speaker d reg); [|done].
  destruct (other_holder id d (zones_ m)) eqn:Eo; [done|].
  apply on_zone_ok; [intros z; by case_match| |done]. intros l1 z l2 El Hz Hnd.
  destruct Hok as [Hids _]. rewrite El, fmap_app, fmap_cons in Hids.
  case_bool_decide as Hd; [done|]. cbn [members].
  apply NoDup_app in Hids as (_ & Hl1 & Hl2). apply NoDup_cons in Hl2 as [Hl2 _].
  assert (forall z', z' ∈ l1 \/ z' ∈ l2 -> d ∉ members z') as Hother.
  { intros z' Hz'. eapply (other_holder_None id d _ Eo).
    - rewrite El. apply elem_of_app. destruct Hz'; [by left|right; by apply list_elem_of_further].
    - intros E. destruct Hz' as [Hz'|Hz'].
      + apply (Hl1 (zone_id z')); [by apply list_elem_of_fmap_2|]. rewrite E, <-Hz. apply list_elem_of_here.
      + apply Hl2. rewrite Hz, <-E. by apply list_elem_of_fmap_2. }
  assert (Permutation (mjoin (members <$> l1) ++ (members z ++ [d]) ++ mjoin (members <$> l2))
            (d :: mjoin (members <$> l1) ++ members z ++ mjoin (members <$> l2))) as -> by solve_Permutation.
  constructor; [|done]. rewrite !not_elem_of_app. split_and!; [|done|]; apply not_in_join; eauto.
Qed.

Lemma removeMember_ok id d m : zones_ok (zones_ m) -> zones_ok (zones_ (removeMember id d m).2).
Proof.
  apply on_zone_ok; [done|]. intros l1 z l2 _ _ Hnd. cbn [members].
  eapply sublist_NoDup; [exact Hnd|]. apply sublist_app; [done|]. apply sublist_app; [|done].
  apply sublist_filter.
Qed.

Lemma rename_ok id name m : zones_ok (zones_ m) -> zones_ok (zones_ (rename id name m).2).
Proof. by apply on_zone_ok. Qed.

Lemma remove_zone_ok id m : zones_ok (zones_ m) -> zones_ok (zones_ (remove_zone id m).2).
Proof. intros H. eapply zones_ok_sublist; [|exact H]. apply sublist_filter. Qed.

#[export] Hint Resolve create_ok addMember_ok removeMember_ok rename_ok remove_zone_ok : nexus.

(** One operation, from any thread; the registry is what it is at that moment. *)
Inductive zone_step : ZoneManager -> ZoneManager -> Prop :=
| step_create name m : zone_step m (create name m).2
| step_remove id m : zone_step m (remove_zone id m).2
| step_rename id name m : zone_step m (rename id name m).2
| step_add reg id d m : zone_step m (addMember reg id d m).2
| step_drop id d m : zone_step m (removeMember id d m).2
| step_restore l m : zones_ok l -> zone_step m (replaceAll l m).

Definition zones_reachable : ZoneManager -> Prop :=
  reachable (fun m => exists ids, m = new_zones ids) zone_step.

Lemma zones_reachable_ok m : zones_reachable m -> zones_ok (zones_ m).
Proof.
  apply (invariant_reachable _ _ (fun m => zones_ok (zones_ m))).
  - intros ? [ids ->]. split; constructor.
  - intros m1 m2 Hok Hstep. revert Hok. destruct Hstep; auto with nexus.
Qed.

Lemma NoDup_join_inj (l : list Zone) z z' d :
  NoDup (mjoin (members <$> l)) -> z ∈ l -> z' ∈ l -> d ∈ members z -> d ∈ members z' -> z = z'.
Proof.
  intros Hnd Hz Hz' Hd Hd'. induction l as [|y l IH]; [by apply elem_of_nil in Hz|].
  rewrite fmap_cons in Hnd. cbn [mjoin list_join] in Hnd.
  apply NoDup_app in Hnd as (_ & Hdis & Hnd).
  assert (forall w, w ∈ l -> d ∈ members w -> d ∈ mjoin (members <$> l)) as Hj.
  { intros w Hw Hdw. apply list_elem_of_join. exists (members w). split; [done|].
    by apply list_elem_of_fmap_2. }
  apply elem_of_cons in Hz as [->|Hz], Hz' as [->|Hz']; [done| | |auto].
  - exfalso. by apply (Hdis d Hd), (Hj z').
  - exfalso. by apply (Hdis d Hd'), (Hj z).
Qed.

Lemma zoneOf_spec d m zid : zones_ok (zones_ m) ->
  zoneOf d m = Some zid <-> exists z, z ∈ zones_ m /\ zone_id z = zid /\ d ∈ members z.
Proof.
  intros [_ Hnd]. unfold zoneOf.
  destruct (filter (fun z => d ∈ members z) (zones_ m)) as [|y r] eqn:Ef; cbn.
  - split; [done|]. intros (z & Hz & _ & Hd).
    assert (z ∈ filter (fun z => d ∈ members z) (zones_ m)) as H by (by apply list_elem_of_filter).
    rewrite Ef in H. by apply elem_of_nil in H.
  - assert (y ∈ filter (fun z => d ∈ members z) (zones_ m)) as [Hd Hy]%list_elem_of_filter
      by (rewrite Ef; apply list_elem_of_here).
    split; [intros [= <-]; by exists y|]. intros (z & Hz & <- & Hdz). do 2 f_equal.
    by apply (NoDup_join_inj (zones_ m) y z d).
Qed.

(** ** Properties *)

(** C14: A speaker is in at most one zone.  In every state that the operations reach, in
    any order and from any restored configuration that satisfies it, zone ids are distinct,
    no two zones share a speaker and no zone lists one twice; so [zoneOf] answers with the
    one zone that has the speaker, or with none. *)
Theorem zones_partition m :
  zones_reachable m ->
  (forall z z', z ∈ zones_ m -> z' ∈ zones_ m -> zone_id z = zone_id z' -> z = z') /\
  (forall z z' d, z ∈ zones_ m -> z' ∈ zones_ m -> d ∈ members z -> d ∈ members z' -> z = z') /\
  (forall z, z ∈ zones_ m -> NoDup (members z)) /\
  (forall d zid, zoneOf d m = Some zid <->
     exists z, z ∈ zones_ m /\ zone_id z = zid /\ d ∈ members z).
Proof.
  intros Hok%zones_reachable_ok. split_and!.
  - intros z z' Hz Hz' E. apply list_elem_of_lookup in Hz as [i Hi], Hz' as [j Hj].
    assert (i = j) as <-; [|congruence].
    eapply (NoDup_lookup _ _ _ _ (proj1 Hok)); rewrite list_lookup_fmap.
    + by rewrite Hi.
    + rewrite Hj. cbn. by rewrite E.
  - intros z z' d. by apply NoDup_join_inj, Hok.
  - intros z Hz. destruct Hok as [_ Hnd]. apply list_elem_of_split in Hz as (l1 & l2 & E).
    rewrite E, fmap_app, join_app, fmap_cons in Hnd.
    apply NoDup_app in Hnd as (_ & _ & Hnd). by apply NoDup_app in Hnd as (Hnd & _).
  - intros d zid. by apply zoneOf_spec.
Qed.

(** Two zones, one speaker moved between them. *)
Definition sample_registry : SpeakerRegistry :=
  [mk_speaker "SPK-1" "Kitchen" "10.0.0.7" 45455; mk_speaker "SPK-2" "Hall" "10.0.0.8" 45455].
Definition two_zones : ZoneManager :=
  (create "Upstairs" (create "Downstairs" (new_zones None)).2).2.
Definition one_member : ZoneManager := (addMember sample_registry "zone-2" "SPK-1" two_zones).2.

Lemma one_member_reachable : zones_reachable one_member.
Proof.
  eapply reachable_step; [|apply step_add]. eapply reachable_step; [|apply step_create].
  eapply reachable_step; [|apply step_create]. apply reachable_init. by exists None.
Defined.

Lemma zones_partition_witness :
  zoneOf "SPK-1" one_member = Some "zone-2" /\
  (exists z, z ∈ zones_ one_member /\ zone_id z = "zone-2" /\ "SPK-1" ∈ members z) /\
  (addMember sample_registry "zone-1" "SPK-1" one_member).1 =
    error ErrorCode.InvalidArg "SPK-1 already belongs to zone Upstairs".
Proof.
  assert (zoneOf "SPK-1" one_member = Some "zone-2") as H by (vm_compute; reflexivity).
  split; [exact H|]. split; [|vm_compute; reflexivity].
  exact (proj1 (proj2 (proj2 (proj2 (zones_partition one_member one_member_reachable)))
    "SPK-1" "zone-2") H).
Defined.

(** A new zone gets an id of its own.  With the built-in numbering and fewer than
    10000 zones (and the counter that far from overflowing), [create] succeeds and appends a
    zone whose id no other zone has; and after a configuration is restored, every number
    below the counter's new value is spent, so the first number tried is free. *)
Theorem create_allocates_fresh_id name l m0 :
  let m := replaceAll l m0 in
  id_source_ m0 = None -> (0 <= next_ m0)%Z -> (next_ m + Z.of_nat rounds < 2 ^ 31)%Z ->
  length l < rounds ->
  (exists z, create name m = (Value z, (create name m).2) /\
     zones_ (create name m).2 = l ++ [z] /\ zone_id z ∉ (zone_id <$> l) /\
     z_name z = (if String.eqb name "" then zone_id z else name) /\ members z = []) /\
  (forall z n, z ∈ l -> (0 <= n)%Z -> (n + 1 < 2 ^ 31)%Z ->
     zone_id z = "zone-" +:+ pretty n -> (n < next_ m)%Z).
Proof.
  intros m Hs Hn Hb Hl. split; [|intros z n Hz H0 H1 E; by eapply bumps_numbered].
  pose proof (bumps_ge l (next_ m0)) as Hge. unfold create.
  destruct (allocate rounds 0 m) as [id m'] eqn:E.
  destruct (allocate_spec _ _ _ _ _ E) as [Hz _].
  apply allocate_numbered in E as [(n & Hn0 & -> & Ht)|E]; [| |exact Hs|cbn; lia|exact Hb].
  - change (String.eqb ("zone-" +:+ pretty n) "") with false. cbn [snd zones_ set_zones].
    eexists. split; [done|]. rewrite Hz. split; [done|]. cbn [zone_id z_name members].
    split; [|done]. intros Hin%taken_spec. change (zones_ m) with l in Ht. congruence.
  - exfalso. apply (Nat.lt_irrefl rounds). eapply Nat.le_lt_trans; [|exact Hl].
    rewrite <-(length_fmap zone_id).
    apply (pigeonhole _ _ (fun i => "zone-" +:+ pretty (next_ m + Z.of_nat i)%Z)).
    + intros i j H%zone_name_inj. lia.
    + intros i Hi. apply taken_spec. by apply E.
Qed.

Lemma create_allocates_fresh_id_witness :
  let l := [mk_zone "zone-7" "Downstairs" ["SPK-1"]; mk_zone "attic" "Attic" []] in
  let m := replaceAll l (new_zones None) in
  (exists z, zones_ (create "Roof" m).2 = l ++ [z] /\ zone_id z ∉ (zone_id <$> l)) /\
  next_ m = 8%Z.
Proof.
  cbv zeta.
  destruct (create_allocates_fresh_id "Roof"
    [mk_zone "zone-7" "Downstairs" ["SPK-1"]; mk_zone "attic" "Attic" []] (new_zones None))
    as [(z & _ & H1 & H2 & _) _].
  - reflexivity.
  - cbn. lia.
  - vm_compute. reflexivity.
  - apply Nat.ltb_lt. vm_compute. reflexivity.
  - split; [exists z; split; [exact H1|exact H2]|vm_compute; reflexivity].
Defined.

(** Restoring does not check what it restores. *)
Lemma restored_overlap :
  zones_ (replaceAll [mk_zone "a" "A" ["SPK-1"]; mk_zone "b" "B" ["SPK-1"]] (new_zones None)) =
    [mk_zone "a" "A" ["SPK-1"]; mk_zone "b" "B" ["SPK-1"]].
Proof. reflexivity. Qed.
