(* ===== verification/Gateway.v ===== *)
(** * Gateway: the streamer's side of the command channel

    Models [streamer/src/control/CommandSigner.cpp], [CommandClient.cpp] and
    [streamer/src/app/CommandGateway.cpp], with the services that send through the gateway
    ([state/MonitorService.h], [app/LinkReporterService.h]).  The transport is a function
    from a request line to a response line that may change the outside world [W]; the
    composition with the speaker takes the speaker's server of [Control] for it.  One
    mutex per speaker makes an exchange atomic, so [dispatch] is one run. *)

From Stdlib Require Import Ascii.
From stdpp Require Import pretty.
From S2P Require Import Prelude Core Json Files Config Control Speakers.

(** ** Signing and sending *)

Section Client.
Context {J : JsonLib} {Cr : Crypto}.

(* [src/streamer/src/control/CommandSigner.cpp:10-31] CommandSigner::build *)
Definition build (secret_key command_id target_id command : string) (payload : json)
    (expires_at timestamp : Z) : Result Command :=
  let c := mk_command command_id target_id command
             (if is_object payload then payload else jobj []) expires_at timestamp "" in
  match signEd25519Base64 (canonicalString c) secret_key with
  | Failure s => Failure s
  | Value sig =>
      Value (mk_command (c_command_id c) (c_target_id c) (c_command c) (c_payload c)
               (c_expires_at c) (c_timestamp c) sig)
  end.

(* [src/streamer/src/control/CommandClient.h:15-21] CommandReply *)
Record CommandReply := mk_reply
  { p_command_id : string; p_ok : bool; p_message : string; p_error_code : Z; p_data : json }.

(** [Throw] where [value()] meets a reply that is no object or a field of another type. *)
(* [src/streamer/src/control/CommandClient.cpp:22-35] CommandClient::send, the reply *)
Definition parse_reply (text : string) : Try (Result CommandReply) :=
  match parse text with
  | Throw what => Done (Failure (error ErrorCode.InvalidArg ("bad response json: " +:+ what)))
  | Done j =>
      id ← value_string j "command_id" "";
      ok ← value_bool j "ok" false;
      message ← value_string j "message" "";
      code ← value_int j "error_code" 0;
      let data := match jfind j "data" with
                  | Some d => if is_object d then d else jobj []
                  | None => jobj []
                  end in
      mret (Value (mk_reply id ok message code data))
  end.

Section Transport.
Context {W E : Type}.
(** [ILineTransport::request]: host, port, line. *)
Variable request : string -> Z -> string -> SW W E (Result string).

(* [src/streamer/src/control/CommandClient.cpp:11-36] CommandClient::send *)
Definition client_send (secret_key host : string) (port : Z) (command_id target_id command : string)
    (payload : json) (expires_at timestamp : Z) : SW W E (Try (Result CommandReply)) :=
  match build secret_key command_id target_id command payload expires_at timestamp with
  | Failure s => mret (Done (Failure s))
  | Value c =>
      resp ← request host port (dump (toJson c));
      match resp with
      | Failure s => mret (Done (Failure s))
      | Value text => mret (parse_reply text)
      end
  end.
End Transport.

(** ** The gateway *)

(* [src/streamer/src/app/CommandGateway.h:80-91] CommandGateway *)
Record Gateway := mk_gateway { secret_key_b64_ : string; streamer_id_ : string; counter_ : Z }.

(** [%04x] of a 16-bit number. *)
Definition hex_digit (d : Z) : ascii :=
  ascii_of_nat (Z.to_nat (if (d <? 10)%Z then 48 + d else 87 + d)%Z).
Definition hex4 (z : Z) : string :=
  String (hex_digit ((z / 4096) `mod` 16)%Z) (String (hex_digit ((z / 256) `mod` 16)%Z)
    (String (hex_digit ((z / 16) `mod` 16)%Z) (String (hex_digit (z `mod` 16)%Z) ""))).

(** [millis] and [salt] are what the clock and the random source give. *)
(* [src/streamer/src/app/CommandGateway.cpp:39-47] CommandGateway::nextCommandId *)
Definition nextCommandId (millis salt : Z) (command : string) (g : Gateway) : string * Gateway :=
  let n := counter_ g in
  ("cmd-" +:+ streamer_id_ g +:+ "-" +:+ pretty millis +:+ "-" +:+ pretty n +:+ "-" +:+ hex4 salt
     +:+ "-" +:+ command,
   mk_gateway (secret_key_b64_ g) (streamer_id_ g) (wrap 64 (n + 1))).

(** The streamer's objects an exchange works on, and the outside of the transport. *)
Record World (W : Type) := mk_world { gateway : Gateway; store : Store; outside : W }.
Arguments mk_world {W} _ _ _.
Arguments gateway {W} _.
Arguments store {W} _.
Arguments outside {W} _.

Inductive GEffect (E : Type) := GStore (e : Event Payload) | GOut (e : E).
Arguments GStore {E} _.
Arguments GOut {E} _.

(** What one exchange reads from the environment. *)
Record Moment := mk_moment
  { millis_ : Z; salt_ : Z; now_seconds : Z; reply_ticks : Z; offline_threshold : Z }.

Section Dispatch.
Context {W E : Type}.
Variable request : string -> Z -> string -> SW W E (Result string).

Abbreviation G := (SW (World W) (GEffect E)).

Definition on_store {A} (f : SW Store (Event Payload) A) : G A := fun w =>
  (value_of f (store w), mk_world (gateway w) (state_after f (store w)) (outside w),
   GStore <$> effects_of f (store w)).
Definition on_outside {A} (f : SW W E A) : G A := fun w =>
  (value_of f (outside w), mk_world (gateway w) (store w) (state_after f (outside w)),
   GOut <$> effects_of f (outside w)).
Definition on_gateway {A} (f : Gateway -> A * Gateway) : G A := fun w =>
  let '(a, g) := f (gateway w) in (a, mk_world g (store w) (outside w), []).

(** What the observer makes of a result. *)
(* [src/streamer/src/app/StreamerApp.cpp:157-166] StreamerApp::startup, the reply observer *)
Definition reply_of (r : Result CommandReply) : Reply :=
  match r with
  | Failure s => Failed (message s)
  | Value p => if p_ok p then Confirmed (p_data p) else Rejected (p_message p)
  end.

(* [src/streamer/src/app/CommandGateway.cpp:63-90] CommandGateway::dispatch *)
Definition dispatch (t : Moment) (observed : bool) (target : Speaker) (command : string)
    (payload : json) (ttl_seconds : Z) : G (Try (Result CommandReply)) :=
  id ← on_gateway (nextCommandId (millis_ t) (salt_ t) command);
  w ← get;
  let now := now_seconds t in
  result ← on_outside (client_send request (secret_key_b64_ (gateway w)) (host target)
             (control_port target) id (device_id target) command payload (now + ttl_seconds) now);
  match result with
  | Throw what => mret (Throw what)
  | Done r =>
      (if observed
       then on_store (observe (offline_threshold t) (reply_ticks t) (device_id target) (reply_of r))
       else mret ());;
      mret (Done r)
  end.

(* [src/streamer/src/app/CommandGateway.cpp:92-97] CommandGateway::send *)
Definition send (t : Moment) (target : Speaker) (command : string) (payload : json) (ttl : Z) :
  G (Try (Result CommandReply)) := dispatch t true target command payload ttl.

(* [src/streamer/src/app/CommandGateway.cpp:99-104] CommandGateway::sendUnobserved *)
Definition sendUnobserved (t : Moment) (target : Speaker) (command : string) (payload : json) (ttl : Z) :
  G (Try (Result CommandReply)) := dispatch t false target command payload ttl.

(** One sweep of the monitor over the registry; [stopping k] is what the flag reads before
    the [k]-th speaker, [moment k] the environment of that exchange.  The value tells
    whether the sweep was completed; a throw ends the monitor's thread. *)
(* [src/streamer/src/state/MonitorService.h:71-77] MonitorService::pollOnce *)
Fixpoint pollOnce (stopping : nat -> bool) (moment : nat -> Moment) (k : nat) (l : SpeakerRegistry) :
  G (Try bool) :=
  match l with
  | [] => mret (Done true)
  | sp :: l' =>
      if stopping k then mret (Done false)
      else
        r ← send (moment k) sp "GET_STATUS" (jobj []) 30;
        match r with
        | Throw what => mret (Throw what)
        | Done _ => pollOnce stopping moment (S k) l'
        end
  end.

(** One round of the link reporter; [rssi] is the radio's reading.  The value counts the
    reports. *)
(* [src/streamer/src/app/LinkReporterService.h:72-80] LinkReporterService::loop *)
Fixpoint report_round (streamer_id : string) (rssi : Z) (stopping : nat -> bool)
    (moment : nat -> Moment) (k : nat) (l : SpeakerRegistry) : G (Try nat) :=
  match l with
  | [] => mret (Done k)
  | sp :: l' =>
      if stopping k then mret (Done k)
      else
        let payload := jobj [("wifi_signal_dbm", jint rssi); ("streamer_id", jstr streamer_id)] in
        r ← sendUnobserved (moment k) sp "REPORT_LINK" payload 30;
        match r with
        | Throw what => mret (Throw what)
        | Done _ => report_round streamer_id rssi stopping moment (S k) l'
        end
  end.

(* [src/streamer/src/app/LinkReporterService.h:68-81] LinkReporterService::loop *)
Definition report_links (streamer_id : string) (reader : option Z) (stopping : nat -> bool)
    (moment : nat -> Moment) (l : SpeakerRegistry) : G (Try nat) :=
  match reader with
  | None => mret (Done 0)
  | Some rssi => report_round streamer_id rssi stopping moment 0 l
  end.
End Dispatch.
End Client.

Arguments mk_world {J W} _ _ _.
Arguments gateway {J W} _.
Arguments store {J W} _.
Arguments outside {J W} _.
Arguments GStore {E} _.
Arguments GOut {E} _.

(** ** One exchange *)

Section Exchange.
Context {J : JsonLib} {Cr : Crypto} {W E : Type}.
Variable request : string -> Z -> string -> SW W E (Result string).

(** The effects outside the streamer. *)
Definition outer {E} (e : GEffect E) : option E :=
  match e with GOut e => Some e | GStore _ => None end.

Lemma omap_outer_out (l : list E) : omap outer (GOut <$> l) = l.
Proof. induction l as [|e l IH]; [done|]. cbn. by rewrite IH. Qed.

Lemma omap_outer_store (l : list (Event Payload)) : omap (outer (E:=E)) (GStore <$> l) = [].
Proof. by induction l. Qed.

(** [dispatch] is: a fresh id, the exchange, the observer. *)
Lemma dispatch_run t observed sp command payload ttl w :
  let g := gateway w in
  let id := (nextCommandId (millis_ t) (salt_ t) command g).1 in
  let x := client_send request (secret_key_b64_ g) (host sp) (control_port sp) id (device_id sp)
             command payload (now_seconds t + ttl) (now_seconds t) (outside w) in
  let g' := (nextCommandId (millis_ t) (salt_ t) command g).2 in
  dispatch request t observed sp command payload ttl w =
    match x.1.1 with
    | Throw what => (Throw what, mk_world g' (store w) x.1.2, GOut <$> x.2)
    | Done r =>
        if observed then
          let o := observe (offline_threshold t) (reply_ticks t) (device_id sp) (reply_of r) in
          (Done r, mk_world g' (state_after o (store w)) x.1.2,
           (GOut <$> x.2) ++ (GStore <$> effects_of o (store w)))
        else (Done r, mk_world g' (store w) x.1.2, GOut <$> x.2)
    end.
Proof.
  cbv zeta. unfold dispatch, on_gateway, on_outside, on_store, get.
  unfold mbind, SW_bind, value_of, state_after, effects_of, nextCommandId.
  cbn [fst snd gateway store outside secret_key_b64_ app].
  destruct (client_send _ _ _ _ _ _ _ _ _ _ _) as [[[r|what] s'] es]; cbn [fst snd].
  - destruct observed; cbn; by rewrite ?app_nil_r.
  - cbn. by rewrite app_nil_r.
Qed.
End Exchange.

(** ** The text of an id *)

Definition dash : ascii := ascii_of_nat 45.

Fixpoint no_dash (s : string) : Prop :=
  match s with EmptyString => True | String c s' => c <> dash /\ no_dash s' end.

(** A text up to the first dash determines the text after it. *)
Lemma dash_split a b x y : no_dash a -> no_dash b ->
  a +:+ String dash x = b +:+ String dash y -> a = b /\ x = y.
Proof.
  revert b. induction a as [|c a IH]; intros [|d b] Ha Hb H.
  - by injection H as ->.
  - injection H as H _. by destruct Hb as [[] _].
  - injection H as H _. by destruct Ha as [[] _].
  - injection H as -> H. destruct Ha as [_ Ha], Hb as [_ Hb].
    by destruct (IH b Ha Hb H) as [-> ->].
Qed.

Lemma pretty_char_no_dash n : pretty_N_char n <> dash.
Proof. unfold pretty_N_char. repeat case_match; vm_compute; discriminate. Qed.

Lemma pretty_go_no_dash x s : no_dash s -> no_dash (pretty_N_go x s).
Proof.
  revert s. induction (N.lt_wf_0 x) as [x _ IH]. intros s Hs.
  destruct (decide (x = 0)%N) as [->|Hx]; [by rewrite pretty_N_go_0|].
  rewrite pretty_N_go_step by lia. apply IH; [apply N.div_lt; lia|].
  split; [apply pretty_char_no_dash|done].
Qed.

Lemma pretty_no_dash z : (0 <= z)%Z -> no_dash (pretty z).
Proof.
  intros Hz. assert (forall n : N, no_dash (pretty n)) as Hn.
  { intros n. unfold pretty, pretty_N. case_decide; [by vm_compute|]. by apply pretty_go_no_dash. }
  destruct z; [by vm_compute|apply (Hn (N.pos p))|lia].
Qed.

Lemma append_inj s x y : s +:+ x = s +:+ y -> x = y.
Proof. induction s as [|c s IH]; [done|]. intros H. apply IH. by injection H. Qed.

(** The number of the command can be read off its id. *)
Lemma command_id_counter g g' m m' salt salt' cmd cmd' :
  streamer_id_ g = streamer_id_ g' -> (0 <= m)%Z -> (0 <= m')%Z ->
  (0 <= counter_ g)%Z -> (0 <= counter_ g')%Z ->
  (nextCommandId m salt cmd g).1 = (nextCommandId m' salt' cmd' g').1 -> counter_ g = counter_ g'.
Proof.
  intros Hs Hm Hm' Hc Hc' H. unfold nextCommandId in H. cbn [fst] in H. rewrite Hs in H.
  apply (append_inj "cmd-"), append_inj, (append_inj "-") in H.
  apply dash_split in H as [_ H]; [|by apply pretty_no_dash..].
  apply dash_split in H as [H _]; [|by apply pretty_no_dash..].
  by apply (inj pretty) in H.
Qed.

(** The ids a gateway hands out, in order; each entry is the clock, the salt and the name
    of one command. *)
Fixpoint issue (l : list (Z * Z * string)) (g : Gateway) : list string :=
  match l with
  | [] => []
  | (millis, salt, command) :: l' =>
      let '(id, g') := nextCommandId millis salt command g in id :: issue l' g'
  end.

Definition after_ids (n : nat) (g : Gateway) : Gateway :=
  mk_gateway (secret_key_b64_ g) (streamer_id_ g) (counter_ g + Z.of_nat n).

Lemma issue_lookup l g i m salt cmd :
  (0 <= counter_ g)%Z -> (counter_ g + Z.of_nat (length l) <= 2 ^ 64)%Z ->
  l !! i = Some (m, salt, cmd) ->
  issue l g !! i = Some (nextCommandId m salt cmd (after_ids i g)).1.
Proof.
  revert g i. induction l as [|[[m0 s0] c0] l IH]; intros g i H0 Hb Hi; [done|].
  cbn [length] in Hb. destruct i as [|i]; cbn [issue nextCommandId].
  - injection Hi as -> -> ->. unfold after_ids. cbn. by rewrite Z.add_0_r.
  - cbn [lookup list_lookup]. cbn [lookup list_lookup] in Hi.
    destruct l as [|e l]; [done|]. cbn [length] in Hb.
    assert (wrap 64 (counter_ g + 1) = counter_ g + 1)%Z as Hw.
    { apply wrap_small. unfold in_unsigned. lia. }
    rewrite Hw, (IH _ i); [|cbn [counter_]; lia|cbn [counter_ length]; lia|done].
    unfold after_ids. cbn [secret_key_b64_ streamer_id_ counter_].
    do 4 f_equal. lia.
Qed.

Lemma issue_length l g : length (issue l g) = length l.
Proof. revert g. induction l as [|[[m s] c] l IH]; intros g; [done|]. cbn. by rewrite IH. Qed.

(** ** The streamer and the speaker together *)

Section EndToEnd.
Context {J : JsonLib} {L : JsonLaws J} {F : FileSystem} {AW : AtomicWriter F} {Cr : Crypto}.

(** The command a gateway signs. *)
Definition signed (id target command : string) (payload : json) (expires timestamp : Z) (sig : string) :=
  mk_command id target command payload expires timestamp sig.

(** A transport that delivers: a line the speaker's server answers comes back as its
    answer, and the speaker is left in the state the server leaves it in. *)
Definition delivers (request : string -> Z -> string -> SW Server XEffect (Result string))
    (sp : Speaker) (env : Env) (now : Z) (handler : option (string -> Try string)) : Prop :=
  forall line s reply s' es,
    handleRaw env now handler (device_id sp) line s = (Done reply, s', es) ->
    request (host sp) (control_port sp) line s = (Value reply, s', es).

(** What the streamer reads back of a result. *)
Definition reply_from (r : CommandResult) : CommandReply :=
  mk_reply (r_command_id r) (r_ok r) (r_message r) (r_error_code r)
    (if is_object (r_data r) then r_data r else jobj []).

Lemma parse_result r :
  dumpable (result_to_json r) -> in_signed 32 (r_error_code r) ->
  parse_reply (dump (result_to_json r)) = Done (Value (reply_from r)).
Proof.
  intros Hd Hc. unfold parse_reply. rewrite parse_dump by done.
  unfold result_to_json, value_string, value_bool, value_int. rewrite !value_or_obj, jfind_obj.
  cbn [assoc String.eqb Ascii.eqb Bool.eqb].
  rewrite !get_string_str, get_bool_bool, get_int_int by done. done.
Qed.

(** The server's answer to a signed command that its router accepts: the pairing handler
    is not asked, because the request says it is a command. *)
Lemma handleRaw_command env now handler device c s r :
  is_object (c_payload c) = true -> in_signed 64 (c_expires_at c) -> in_signed 64 (c_timestamp c) ->
  dumpable (toJson c) -> seen (c_command_id c) (history_ s) = false ->
  acceptable c device (streamer_public_key (pairing (config_ (config_mgr s)))) now ->
  value_of (execute env c) s = Done r ->
  handleRaw env now handler device (dump (toJson c)) s =
    (Done (dump (result_to_json r)), remember c (Done r) (state_after (execute env c) s),
     effects_of (execute env c) s).
Proof.
  intros Hp He Ht Hd Hs Ha Hr.
  assert (decode (dump (toJson c)) = Done c) as Hdec.
  { unfold decode. rewrite parse_dump by done. by apply command_round_trip. }
  assert (forall h : string -> Try string,
    match (j ← parse (dump (toJson c)); value_string j "type" "") with
    | Done t => if String.eqb t "pairing"
                then match h (dump (toJson c)) with Done reply => Some reply | Throw _ => None end
                else None
    | Throw _ => None
    end = None) as Hty.
  { intros h. rewrite parse_dump by done. cbn [mbind Try_bind]. unfold value_string, toJson.
    rewrite value_or_obj. cbn [assoc String.eqb Ascii.eqb Bool.eqb]. by rewrite get_string_str. }
  unfold handleRaw. unfold mbind at 1, SW_bind at 1, get.
  assert (forall o : option (string -> Try string),
    match o with
    | None => None
    | Some h => match (j ← parse (dump (toJson c)); value_string j "type" "") with
                | Done t => if String.eqb t "pairing"
                            then match h (dump (toJson c)) with Done reply => Some reply | Throw _ => None end
                            else None
                | Throw _ => None
                end
    end = None) as -> by (intros [h|]; [apply Hty|done]).
  rewrite bind_run. unfold value_of, state_after, effects_of.
  rewrite (handle_accepted env now _ _ _ s c).
  - cbn [fst snd app]. rewrite Hr. by rewrite app_nil_r.
  - unfold accepted. rewrite Hdec, Hs. by rewrite (proj2 (validate_command_ok _ _ _ _) Ha).
Qed.

(** One exchange over a transport that delivers, from the client's side. *)
Lemma client_send_delivered request sp env now handler secret id command payload expires ts sig s r :
  delivers request sp env now handler ->
  let c := signed id (device_id sp) command payload expires ts sig in
  is_object payload = true -> in_signed 64 expires -> in_signed 64 ts ->
  signEd25519Base64 (canonicalString c) secret = Value sig ->
  seen id (history_ s) = false ->
  acceptable c (device_id sp) (streamer_public_key (pairing (config_ (config_mgr s)))) now ->
  value_of (execute env c) s = Done r -> dumpable (toJson c) -> dumpable (result_to_json r) ->
  client_send request secret (host sp) (control_port sp) id (device_id sp) command payload expires ts s =
    (Done (Value (reply_from r)), remember c (Done r) (state_after (execute env c) s),
     effects_of (execute env c) s).
Proof.
  intros Hdel c Hp Hexp Hts Hsig Hnew Hacc Hr Hd Hd'.
  pose proof (handleRaw_command env now handler (device_id sp) c s r Hp Hexp Hts Hd Hnew Hacc Hr) as Hraw.
  apply Hdel in Hraw. unfold client_send, build. rewrite Hp.
  change (canonicalString _) with (canonicalString c). rewrite Hsig.
  cbn [c_command_id c_target_id c_command c_payload c_expires_at c_timestamp].
  rewrite bind_run. unfold value_of, state_after, effects_of.
  change (mk_command _ _ _ _ _ _ _) with c. rewrite Hraw. cbn [fst snd].
  destruct (execute_answers env c s r Hr) as [_ Hcode].
  rewrite (parse_result r Hd' Hcode). cbn [mret SW_ret fst snd]. by rewrite app_nil_r.
Qed.
End EndToEnd.

(** ** Properties *)

(** A command id is never used twice.  Whatever the clock, the salts and the names of
    the commands, the first 2^64 ids a gateway hands out are distinct. *)
Theorem gateway_ids_distinct l g :
  counter_ g = 0%Z -> (Z.of_nat (length l) <= 2 ^ 64)%Z -> Forall (fun e => (0 <= e.1.1)%Z) l ->
  NoDup (issue l g).
Proof.
  intros Hg Hl Hm. apply NoDup_alt. intros i j id Hi Hj.
  assert (forall k, issue l g !! k = Some id -> exists m salt cmd, (0 <= m)%Z /\
            id = (nextCommandId m salt cmd (after_ids k g)).1) as Hget.
  { intros k Hk. destruct (lookup_lt_is_Some_2 l k) as [[[m salt] cmd] He].
    { rewrite <- (issue_length l g). by eapply lookup_lt_Some. }
    exists m, salt, cmd. split; [exact (Forall_lookup_1 _ _ _ _ Hm He)|].
    erewrite issue_lookup in Hk; [by injection Hk as <-|lia|lia|exact He]. }
  destruct (Hget i Hi) as (m & salt & cmd & ? & E), (Hget j Hj) as (m' & salt' & cmd' & ? & E').
  rewrite E in E'. apply command_id_counter in E'; cbn [after_ids counter_ streamer_id_] in *;
    first [done|lia].
Qed.

Lemma gateway_ids_distinct_witness :
  let g := mk_gateway "key" "STR-1" 0 in
  let l := [(1700000000000, 4660, "SET_VOLUME"); (1700000000000, 4660, "SET_VOLUME")]%Z in
  hd_error (issue l g) = Some "cmd-STR-1-1700000000000-0-1234-SET_VOLUME"%string /\ NoDup (issue l g).
Proof.
  cbv zeta. split; [vm_compute; reflexivity|].
  apply gateway_ids_distinct; [reflexivity|cbn; lia|]. repeat constructor; cbn; lia.
Defined.

(** C1: A command sent is the command done.  Let the transport deliver to a speaker paired
    with the streamer's key, the id be new to the speaker and the command not expired on
    arrival.  Then the speaker executes exactly the command the streamer named, whatever
    the command; the reply the streamer reads carries the id, outcome, message, code and
    data of the speaker's result; the speaker remembers the result; and the streamer's
    store moves by that report. *)
Theorem command_end_to_end (J : JsonLib) (L : JsonLaws J) (F : FileSystem) (AW : AtomicWriter F)
    (Cr : Crypto) (CL : CryptoLaws Cr) request t sp env now handler command payload ttl w sig r :
  let s := outside w in
  let id := (nextCommandId (millis_ t) (salt_ t) command (gateway w)).1 in
  let secret := secret_key_b64_ (gateway w) in
  let c := signed id (device_id sp) command payload (now_seconds t + ttl) (now_seconds t) sig in
  delivers request sp env now handler ->
  command <> "" -> is_object payload = true ->
  in_signed 64 (now_seconds t) -> in_signed 64 (now_seconds t + ttl) ->
  (now <= now_seconds t + ttl)%Z ->
  signEd25519Base64 (canonicalString c) secret = Value sig ->
  streamer_public_key (pairing (config_ (config_mgr s))) = public_key_of secret ->
  public_key_of secret <> "" ->
  seen id (history_ s) = false ->
  value_of (execute env c) s = Done r ->
  dumpable (toJson c) -> dumpable (result_to_json r) ->
  let m := send request t sp command payload ttl in
  let w' := state_after m w in
  let reply := reply_from r in
  value_of m w = Done (Value reply) /\ p_command_id reply = id /\
  executed (omap outer (effects_of m w)) = [c] /\
  outside w' = remember c (Done r) (state_after (execute env c) s) /\
  state_of (device_id sp) (store w') =
    next_state (offline_threshold t) (reply_ticks t) (device_id sp)
      (if r_ok r then Confirmed (p_data reply) else Rejected (r_message r))
      (state_of (device_id sp) (store w)).
Proof.
  intros s id secret c Hdel Hcmd Hp Hts Hexp Hnow Hsig Hkey Hkey' Hnew Hr Hd Hd' m w' reply.
  destruct (execute_answers env c s r Hr) as [Hid Hcode].
  pose proof (client_send_delivered request sp env now handler secret id command payload
    (now_seconds t + ttl) (now_seconds t) sig s r Hdel) as Hsend. cbv zeta in Hsend.
  fold c in Hsend. specialize (Hsend Hp Hexp Hts Hsig Hnew).
  pose proof (dispatch_run request t true sp command payload ttl w) as Hrun. cbv zeta in Hrun.
  fold id secret s in Hrun. rewrite Hsend in Hrun; [|try done..].
  - cbn [fst snd] in Hrun. unfold w', m, send, value_of, state_after, effects_of. rewrite Hrun.
    cbn [fst snd outside store]. rewrite omap_app, omap_outer_out, omap_outer_store, app_nil_r.
    split_and!; [done|exact Hid| |done|].
    + by destruct (execute_inner env c s) as (_ & _ & ?).
    + change ((observe ?a ?b ?c ?d (store w)).1.2) with (state_after (observe a b c d) (store w)).
      by rewrite observe_state, state_of_set, bool_decide_eq_true_2.
  - rewrite Hkey. destruct (verify_sign _ _ _ Hsig) as [Hne Hv].
    split_and!; [done|done|by right|by right; exact Hnow|done|done|exact Hv].
Qed.

(** A direct line to the speaker of [Control]'s witnesses. *)
Definition demo_line (handler : option (string -> Try string)) (_ : string) (_ : Z) (line : string) :
    SW (Server (J:=jvalue_lib) (F:=mdisk_system)) XEffect (Result string) := fun s =>
  let '(v, s', es) := handleRaw (AW:=posix_writer) (Cr:=demo_crypto) demo_env 1500 handler "SPK-1" line s in
  (match v with Done t => Value t | Throw w => Failure (error ErrorCode.IoError w) end, s', es).

(** A speaker paired with the streamer whose key is [key]. *)
Definition paired_server : Server (J:=jvalue_lib) (F:=mdisk_system) :=
  let c := mk_config (schema_version defaults) (device defaults) (mk_pairing true "STR-1" "key")
             (network defaults) (audio defaults) (system defaults) in
  mk_server (mk_config_manager (disk_with (dump_indented (to_json c))) "c" true c ServiceState.Running)
    (new_history 200) new_link true.

Lemma command_end_to_end_witness :
  let sp := mk_speaker "SPK-1" "Kitchen" "10.0.0.7" 9000 in
  let t := mk_moment 1500000 7 1500 42 3 in
  let w := mk_world (mk_gateway "key" "STR-1" 0) (mk_store true ∅) paired_server in
  let m := send (Cr:=demo_crypto) (demo_line None) t sp "SET_VOLUME" (jobj [("volume", jint 45)]) 30 in
  let w' := state_after m w in
  value_of m w = Done (Value (mk_reply "cmd-STR-1-1500000-0-0007-SET_VOLUME" true "ok" 0
                                (jobj [("volume", jint 45)]))) /\
  volume (confirmed (state_of "SPK-1" (store w'))) = 45%Z /\
  Config.volume (Config.audio (config_ (config_mgr (outside w')))) = 45%Z.
Proof.
  intros sp t w.
  set (c0 := signed "cmd-STR-1-1500000-0-0007-SET_VOLUME" "SPK-1" "SET_VOLUME"
               (jobj [("volume", jint 45)]) 1530 1500 "").
  destruct (command_end_to_end jvalue_lib jvalue_laws mdisk_system posix_writer demo_crypto
    demo_crypto_laws (demo_line None) t sp demo_env 1500 None "SET_VOLUME" (jobj [("volume", jint 45)]) 30
    w ("sig:key:" +:+ canonicalString c0)
    (mk_result "cmd-STR-1-1500000-0-0007-SET_VOLUME" true "ok" 0 (jobj [("volume", jint 45)])))
    as (Hv & _ & _ & Ho & Hs).
  - intros line s reply s' es H. unfold demo_line. cbn [device_id sp] in H. by rewrite H.
  - done.
  - done.
  - split; apply Z.leb_le || apply Z.ltb_lt; reflexivity.
  - split; apply Z.leb_le || apply Z.ltb_lt; reflexivity.
  - apply Z.leb_le. reflexivity.
  - vm_compute; reflexivity.
  - by_decision.
  - done.
  - by_decision.
  - by_decision.
  - done.
  - done.
  - split_and!; [exact Hv| |].
    + change (volume (confirmed (state_of (device_id sp) (store (state_after
        (send (Cr:=demo_crypto) (demo_line None) t sp "SET_VOLUME" (jobj [("volume", jint 45)]) 30) w)))) = 45%Z).
      rewrite Hs. by_decision.
    + rewrite Ho. by_decision.
Defined.
