(* ===== verification/Sender.v ===== *)
(** * Sender: the streamer's packet pipeline

    Models [streamer/src/send]: the timestamper, the packetizer and the driver that
    drains a source into a sink, with the in-memory source and sink.  A source is an
    interface, the class [AudioSource]; [FiniteSource] states what a source of finite
    PCM promises.  The wire format is the speaker's ([Audio.packPacket]), and the theorem
    is about what the speaker decodes. *)

From S2P Require Import Prelude Core Json Config Audio.

Local Open Scope Z_scope.

(** ** Doubles as bits *)

(** What [memcpy] of a double into a 64-bit integer gives. *)
Definition bits_of_double (x : spec_float) : Z :=
  let sign (s : bool) := if s then 2 ^ 63 else 0 in
  wrap 64 (match x with
  | S754_zero s => sign s
  | S754_infinity s => sign s + 0x7FF * 2 ^ 52
  | S754_nan => 0x7FF * 2 ^ 52 + 2 ^ 51
  | S754_finite s m e =>
      sign s + (if Zpos m <? 2 ^ 52 then Zpos m else (e + 1075) * 2 ^ 52 + (Zpos m - 2 ^ 52))
  end).

Lemma bits_of_double_range x : in_unsigned 64 (bits_of_double x).
Proof. apply wrap_bound. lia. Qed.

(** ** The timestamper *)

(* [src/streamer/src/send/Timestamper.h:42-45] Timestamper *)
Record Timestamper := mk_timestamper
  { block_seconds_ : spec_float; lead_seconds_ : spec_float; next_timestamp_ : spec_float;
    started_ : bool }.

(* [src/streamer/src/send/Timestamper.h:19-21] Timestamper::Timestamper *)
Definition new_timestamper (sample_rate block_frames : Z) (lead : spec_float) : Timestamper :=
  mk_timestamper (fdiv (f_of_Z block_frames) (f_of_Z sample_rate)) lead f0 false.

(* [src/streamer/src/send/Timestamper.h:24-27] Timestamper::start *)
Definition ts_start (now_epoch : spec_float) (t : Timestamper) : Timestamper :=
  mk_timestamper (block_seconds_ t) (lead_seconds_ t) (fadd now_epoch (lead_seconds_ t)) true.

(* [src/streamer/src/send/Timestamper.h:32-36] Timestamper::nextTimestamp *)
Definition nextTimestamp (t : Timestamper) : spec_float * Timestamper :=
  (next_timestamp_ t,
   mk_timestamper (block_seconds_ t) (lead_seconds_ t)
     (fadd (next_timestamp_ t) (block_seconds_ t)) (started_ t)).

(** ** The packetizer *)

(** The packetizer with the timestamper it refers to. *)
(* [src/streamer/src/send/Packetizer.h:36-39] Packetizer *)
Record Packetizer := mk_packetizer { ts_ : Timestamper; pk_channels : nat; pk_sequence : Z }.

(** The packet that [pack] builds, before encoding. *)
(* [src/streamer/src/send/Packetizer.h:25-31] Packetizer::pack *)
Definition packet_of (frames : list Z) (frame_count : Z) (last : bool) (k : Packetizer) : AudioPacket :=
  mk_packet (mk_header (bits_of_double (next_timestamp_ (ts_ k))) (pk_sequence k) frame_count
               (if last then wire.kFlagLast else 0))
    (take (Z.to_nat frame_count * pk_channels k) frames).

(* [src/streamer/src/send/Packetizer.h:23-32] Packetizer::pack *)
Definition pack (frames : list Z) (frame_count : Z) (last : bool) (k : Packetizer) :
  list Z * Packetizer :=
  (packPacket (packet_of frames frame_count last k),
   mk_packetizer (nextTimestamp (ts_ k)).2 (pk_channels k) (wrap 64 (pk_sequence k + 1))).

(** ** Sources *)

(** The operations of [IAudioSource] the sender uses: [read max] appends samples to the
    buffer and gives the number of frames. *)
(* [src/streamer/src/sources/IAudioSource.h:12-24] IAudioSource *)
Class AudioSource (T : Type) := {
  read : nat -> T -> list Z * nat * T;
  exhausted : T -> bool
}.

(** A source of [channels] channels: from a state of [ok], a read gives whole frames of
    16-bit samples, no more than asked for. *)
Class PcmSource (T : Type) `{!AudioSource T} (channels : nat) (ok : T -> Prop) := {
  read_pcm n t : ok t ->
    length (read n t).1.1 = ((read n t).1.2 * channels)%nat /\ ((read n t).1.2 <= n)%nat /\
    Forall (in_signed 16) (read n t).1.1 /\ ok (read n t).2
}.

(** A source of [channels] channels that, from a state of [ok], holds the finite PCM
    [pcm t], a whole number of frames, and gives it in order; it may say late, but never
    early, that it has ended. *)
Class FiniteSource (T : Type) `{!AudioSource T} (channels : nat) (ok : T -> Prop) (pcm : T -> list Z) := {
  pcm_samples t : ok t -> Forall (in_signed 16) (pcm t);
  read_spec n t : ok t -> exists k,
    (k * channels = (n * channels) `min` length (pcm t))%nat /\
    (read n t).1 = (take (k * channels) (pcm t), k) /\
    pcm (read n t).2 = drop (k * channels) (pcm t) /\ ok (read n t).2;
  exhausted_empty t : ok t -> exhausted t = true -> pcm t = []
}.

#[global] Instance finite_pcm {T} `{!AudioSource T} channels ok pcm :
  FiniteSource T channels ok pcm -> (0 < channels)%nat -> PcmSource T channels ok.
Proof.
  intros FS Hc. split. intros n t Hok. destruct (read_spec (pcm:=pcm) n t Hok) as (k & Hk & Hr & _ & Hok').
  rewrite Hr. cbn [fst snd]. split_and!; [rewrite length_take; nia|nia| |done].
  by apply Forall_take, (pcm_samples (channels:=channels)).
Qed.

(* [src/streamer/src/sources/MemoryAudioSource.h:38-40] MemoryAudioSource *)
Record MemoryAudioSource := mk_memory { mem_samples : list Z; mem_channels : nat; pos_frames_ : nat }.

(* [src/streamer/src/sources/MemoryAudioSource.h:22-31] MemoryAudioSource::read *)
Definition memory_read (max_frames : nat) (s : MemoryAudioSource) : list Z * nat * MemoryAudioSource :=
  let total_frames := (length (mem_samples s) / mem_channels s)%nat in
  let remaining := (total_frames - pos_frames_ s)%nat in
  let n := (max_frames `min` remaining)%nat in
  (take (n * mem_channels s) (drop (pos_frames_ s * mem_channels s) (mem_samples s)), n,
   mk_memory (mem_samples s) (mem_channels s) (pos_frames_ s + n)).

(* [src/streamer/src/sources/MemoryAudioSource.h:33-35] MemoryAudioSource::exhausted *)
Definition memory_exhausted (s : MemoryAudioSource) : bool :=
  (length (mem_samples s) / mem_channels s <=? pos_frames_ s)%nat.

#[global] Instance memory_source : AudioSource MemoryAudioSource :=
  {| read := memory_read; exhausted := memory_exhausted |}.

(** ** The driver *)

Section Driver.
Context {T : Type} {Src : AudioSource T}.

(** The sink records the datagrams ([MemoryPacketSink]). *)
(* [src/streamer/src/send/StreamSender.h:47-53] StreamSender *)
Record StreamSender := mk_sender
  { source_ : T; pk_ : Packetizer; datagrams_ : list (list Z); block_frames_ : nat }.

(* [src/streamer/src/send/MemoryPacketSink.h:18-22] MemoryPacketSink::send *)
Definition sink_send (datagram : list Z) (l : list (list Z)) : list (list Z) := l ++ [datagram].

(** [None] when the fuel runs out. *)
(* [src/streamer/src/send/StreamSender.h:34-43] StreamSender::runToEnd *)
Fixpoint drain (fuel : nat) (s : StreamSender) (sent : nat) : option (nat * StreamSender) :=
  match fuel with
  | O => None
  | S fuel =>
      let '(buf, frames, src) := read (block_frames_ s) (source_ s) in
      if (frames =? 0)%nat then Some (sent, mk_sender src (pk_ s) (datagrams_ s) (block_frames_ s))
      else
        let last := exhausted src in
        let '(datagram, pk) := pack buf (wrap 32 (Z.of_nat frames)) last (pk_ s) in
        let s := mk_sender src pk (sink_send datagram (datagrams_ s)) (block_frames_ s) in
        if last then Some (S sent, s) else drain fuel s (S sent)
  end.

Definition with_ts (t : Timestamper) (k : Packetizer) : Packetizer :=
  mk_packetizer t (pk_channels k) (pk_sequence k).

(* [src/streamer/src/send/StreamSender.h:30-44] StreamSender::runToEnd *)
Definition runToEnd (fuel : nat) (now_epoch : spec_float) (s : StreamSender) :
  option (nat * StreamSender) :=
  let k := pk_ s in
  let k := if started_ (ts_ k) then k else with_ts (ts_start now_epoch (ts_ k)) k in
  drain fuel (mk_sender (source_ s) k (datagrams_ s) (block_frames_ s)) 0.
End Driver.
Arguments StreamSender : clear implicits.

(** ** Streams *)

(** The time of the [i]-th block: one block further on the audio clock each time. *)
Definition timeline (t : Timestamper) (i : nat) : spec_float :=
  Nat.iter i (fun x => fadd x (block_seconds_ t)) (next_timestamp_ t).

Lemma timeline_S t i : timeline (nextTimestamp t).2 i = timeline t (S i).
Proof. unfold timeline. by rewrite Nat.iter_succ_r. Qed.

(** The [i]-th packet of a stream sent by [k] in blocks of [block] frames; [last] tells
    whether it is the final one. *)
Record stream_packet (k : Packetizer) (block i : nat) (last : bool) (p : AudioPacket) : Prop := {
  sp_sequence : sequence (header p) = wrap 64 (pk_sequence k + Z.of_nat i);
  sp_timestamp : timestamp (header p) = bits_of_double (timeline (ts_ k) i);
  sp_frames : 0 < frame_count (header p) <= Z.of_nat block;
  sp_full : last = false -> frame_count (header p) = Z.of_nat block /\ flags (header p) = 0;
  sp_ok : packet_ok (Z.of_nat (pk_channels k)) p
}.

(** The packets of a stream that carries [pcm]. *)
Definition stream_of (k : Packetizer) (block : nat) (pcm : list Z) (ps : list AudioPacket) : Prop :=
  mjoin (samples <$> ps) = pcm /\
  forall i p, ps !! i = Some p -> stream_packet k block i (S i =? length ps)%nat p.

Section DriverProofs.
Context {T : Type} {Src : AudioSource T} (ch : nat) (ok : T -> Prop) (pcm : T -> list Z)
  {FS : FiniteSource T ch ok pcm}.

Lemma stream_cons k block p rest ps k' :
  pk_channels k' = pk_channels k -> pk_sequence k' = wrap 64 (pk_sequence k + 1) ->
  ts_ k' = (nextTimestamp (ts_ k)).2 ->
  stream_packet k block 0 (match ps with [] => true | _ => false end) p ->
  stream_of k' block rest ps -> stream_of k block (samples p ++ rest) (p :: ps).
Proof.
  intros Hc Hs Ht Hp [Hj Hps]. split; [by rewrite fmap_cons, join_cons, Hj|].
  intros [|i] q Hq; cbn [lookup list_lookup length] in *.
  - injection Hq as <-. by destruct ps.
  - destruct (Hps i q Hq) as [H1 H2 H3 H4 H5]. split; try done.
    + rewrite H1, Hs, wrap_add by lia. f_equal. lia.
    + by rewrite H2, Ht, timeline_S.
    + by rewrite Hc in H5.
Qed.

(** One block: the packet carries the next frames of the source. *)
Lemma block_packet k block t :
  (0 < ch)%nat -> pk_channels k = ch -> in_unsigned 64 (pk_sequence k) -> in_unsigned 32 (Z.of_nat block) ->
  ok t -> (read block t).1.2 <> 0%nat ->
  let p := packet_of (read block t).1.1 (wrap 32 (Z.of_nat (read block t).1.2)) (exhausted (read block t).2) k in
  stream_packet k block 0 (match pcm (read block t).2 with [] => true | _ => false end) p /\
  pcm t = samples p ++ pcm (read block t).2.
Proof.
  intros Hch Hkc Hseq Hblock Hok Hne.
  destruct (read_spec (channels:=ch) (pcm:=pcm) block t Hok) as (n & Hn & Hr & Hrest & Hok').
  rewrite Hr in *. cbn [fst snd] in *. rewrite Hrest.
  assert (wrap 32 (Z.of_nat n) = Z.of_nat n) as Hw.
  { apply wrap_small. unfold in_unsigned in *. nia. }
  assert (take (Z.to_nat (Z.of_nat n) * pk_channels k) (take (n * ch) (pcm t)) = take (n * ch) (pcm t)) as Htake.
  { rewrite take_take. f_equal. rewrite Nat2Z.id, Hkc. lia. }
  cbv zeta. split; [|unfold packet_of; cbn [samples]; by rewrite Hw, Htake, take_drop].
  pose proof (bits_of_double_range (next_timestamp_ (ts_ k))).
  split; unfold packet_of; cbn [header samples sequence timestamp frame_count flags]; rewrite ?Hw, ?Htake.
  - by rewrite Z.add_0_r, wrap_small.
  - done.
  - unfold in_unsigned in *. nia.
  - intros Hmore. destruct (drop (n * ch) (pcm t)) as [|x l] eqn:E; [done|].
    assert (n * ch < length (pcm t))%nat as Hlt.
    { apply (f_equal length) in E. rewrite length_drop in E. cbn in E. lia. }
    assert (n = block) as -> by nia. split; [done|].
    destruct (exhausted _) eqn:Ex; [|done]. apply (exhausted_empty (pcm:=pcm)) in Ex; [congruence|done].
  - unfold packet_ok, header_ok. cbn [header samples sequence timestamp frame_count flags]. split_and!; try done.
    + unfold in_unsigned in *; nia.
    + destruct (exhausted _); unfold wire.kFlagLast, in_unsigned; lia.
    + rewrite length_take, Hkc. nia.
    + by apply Forall_take, (pcm_samples (channels:=ch) (pcm:=pcm)).
Qed.

Lemma stream_nonempty k block pcm' p ps :
  pk_channels k = ch -> (0 < ch)%nat -> stream_of k block pcm' (p :: ps) -> pcm' <> [].
Proof.
  intros Hk Hch [Hj Hps] ->. destruct (Hps 0%nat p eq_refl) as [_ _ [Hpos _] _ (_ & Hlen & _)].
  rewrite fmap_cons, join_cons in Hj. apply app_eq_nil in Hj as [Hj _].
  rewrite Hj in Hlen. cbn in Hlen. rewrite Hk in Hlen. nia.
Qed.

Lemma drain_streams fuel s sent :
  (0 < ch)%nat -> pk_channels (pk_ s) = ch -> in_unsigned 64 (pk_sequence (pk_ s)) ->
  (0 < block_frames_ s)%nat -> in_unsigned 32 (Z.of_nat (block_frames_ s)) ->
  ok (source_ s) -> (length (pcm (source_ s)) < fuel)%nat ->
  exists ps s', drain fuel s sent = Some (sent + length ps, s')%nat /\
    datagrams_ s' = datagrams_ s ++ (packPacket <$> ps) /\ pcm (source_ s') = [] /\
    stream_of (pk_ s) (block_frames_ s) (pcm (source_ s)) ps.
Proof.
  revert s sent. induction fuel as [|fuel IH]; intros s sent Hch Hkc Hseq Hb Hb32 Hok Hf; [lia|].
  cbn [drain]. pose proof (read_spec (channels:=ch) (pcm:=pcm) (block_frames_ s) (source_ s) Hok)
    as (n & Hn & Hr & Hrest & Hok').
  pose proof (block_packet (pk_ s) (block_frames_ s) (source_ s) Hch Hkc Hseq Hb32 Hok) as Hp.
  destruct (read (block_frames_ s) (source_ s)) as [[buf frames] src]. cbn [fst snd] in *.
  injection Hr as -> ->. destruct (Nat.eqb_spec n 0) as [->|Hne].
  { assert (pcm (source_ s) = []) as He.
    { apply nil_length_inv. nia. }
    exists [], (mk_sender src (pk_ s) (datagrams_ s) (block_frames_ s)).
    cbn. rewrite Nat.add_0_r, app_nil_r, Hrest, He. by rewrite drop_nil. }
  destruct (Hp Hne) as [Hpk Hpcm]. clear Hp. unfold pack.
  set (p := packet_of _ _ _ _) in *. set (k' := mk_packetizer _ _ _).
  destruct (exhausted src) eqn:Ex.
  - apply (exhausted_empty (pcm:=pcm)) in Ex; [|done]. rewrite Ex in *.
    eexists [p], _. split; [f_equal; f_equal; simpl; lia|]. cbn [datagrams_ source_]. split_and!; [done..|].
    rewrite Hpcm. eapply (stream_cons (pk_ s) (block_frames_ s) p [] [] k'); try done.
  - destruct (IH (mk_sender src k' (sink_send (packPacket p) (datagrams_ s)) (block_frames_ s)) (S sent))
      as (ps & s' & Hd & Hg & Hpe & Hst); try done.
    + apply wrap_bound. lia.
    + cbn [source_]. rewrite Hrest, length_drop. nia.
    + cbn [pk_ source_ block_frames_ datagrams_] in *. exists (p :: ps), s'. split_and!.
      * rewrite Hd. f_equal. f_equal. simpl. lia.
      * rewrite Hg. unfold sink_send. by rewrite <- app_assoc.
      * done.
      * rewrite Hpcm. eapply (stream_cons (pk_ s) (block_frames_ s) p (pcm src) ps k'); try done.
        destruct ps as [|q ps].
        -- destruct Hst as [Hj _]. cbn in Hj. by rewrite <- Hj in Hpk.
        -- destruct (pcm src) as [|x l] eqn:E; [|done]. exfalso.
           by destruct (stream_nonempty k' _ _ _ _ Hkc Hch Hst).
Qed.
End DriverProofs.

(** The in-memory source promises what a finite source promises. *)
Definition memory_ok (ch : nat) (s : MemoryAudioSource) : Prop :=
  mem_channels s = ch /\ Forall (in_signed 16) (mem_samples s) /\
  (pos_frames_ s <= length (mem_samples s) / ch)%nat.

Definition memory_pcm (s : MemoryAudioSource) : list Z :=
  drop (pos_frames_ s * mem_channels s)
    (take (length (mem_samples s) / mem_channels s * mem_channels s) (mem_samples s)).

#[global] Instance memory_finite ch : (0 < ch)%nat -> FiniteSource MemoryAudioSource ch (memory_ok ch) memory_pcm.
Proof.
  intros Hch. split; unfold memory_ok, memory_pcm.
  - intros s (_ & Hs & _). by apply Forall_drop, Forall_take.
  - intros n s (Hc & Hs & Hp). cbn [read memory_source memory_read fst snd mem_samples mem_channels pos_frames_].
    rewrite Hc. set (l := mem_samples s) in *. set (total := (length l / ch)%nat) in *.
    assert (total * ch <= length l)%nat as Ht by (unfold total; pose proof (Nat.div_mod_eq (length l) ch); nia).
    exists (n `min` (total - pos_frames_ s))%nat. set (k := (n `min` (total - pos_frames_ s))%nat).
    split_and!; try done.
    + rewrite length_drop, length_take. unfold k. nia.
    + f_equal. rewrite skipn_firstn_comm, take_take. f_equal. unfold k. nia.
    + rewrite drop_drop. f_equal. nia.
    + unfold k. lia.
  - intros s (Hc & Hs & Hp) He. apply nil_length_inv.
    cbn [exhausted memory_source] in He. unfold memory_exhausted in He. apply Nat.leb_le in He.
    rewrite length_drop, length_take, Hc in *. nia.
Qed.

(** ** Properties *)

(** C3: A stream arrives as it was.  Draining a finite source ends, and the datagrams it
    sends decode, with the speaker's own decoder, to packets that carry exactly the PCM of
    the source in order; their sequence numbers are consecutive, the i-th timestamp is i
    blocks of the audio clock after the first, which is the given instant plus the lead,
    every packet but the last is a full block, and none but the last is marked as last. *)
Theorem stream_arrives (T : Type) (Src : AudioSource T) ch ok pcm (FS : FiniteSource T ch ok pcm)
    fuel now (s : StreamSender T) :
  (0 < ch < 2 ^ 16)%nat -> pk_channels (pk_ s) = ch -> in_unsigned 64 (pk_sequence (pk_ s)) ->
  (0 < block_frames_ s)%nat -> in_unsigned 32 (Z.of_nat (block_frames_ s)) ->
  ok (source_ s) -> started_ (ts_ (pk_ s)) = false -> (length (pcm (source_ s)) < fuel)%nat ->
  exists ps s', runToEnd fuel now s = Some (length ps, s') /\ pcm (source_ s') = [] /\
    (exists sent, datagrams_ s' = datagrams_ s ++ sent /\
      (fun d => unpackPacket d (Z.of_nat ch)) <$> sent = Some <$> ps) /\
    stream_of (with_ts (ts_start now (ts_ (pk_ s))) (pk_ s)) (block_frames_ s) (pcm (source_ s)) ps.
Proof.
  intros [Hch Hch'] Hkc Hseq Hb Hb32 Hok Hst Hf. unfold runToEnd. rewrite Hst.
  destruct (drain_streams ch ok pcm fuel (mk_sender (source_ s) (with_ts (ts_start now (ts_ (pk_ s))) (pk_ s))
              (datagrams_ s) (block_frames_ s)) 0) as (ps & s' & Hd & Hg & He & Hs); try done.
  exists ps, s'. split_and!; [done|done| |done]. exists (packPacket <$> ps). split; [done|].
  rewrite <- list_fmap_compose. apply list_fmap_ext. intros i p Hp.
  change (unpackPacket (packPacket p) (Z.of_nat ch) = Some p).
  destruct Hs as [_ Hs]. destruct (Hs i p Hp) as [_ _ _ _ Hpk]. cbn [pk_ pk_channels with_ts] in Hpk.
  rewrite Hkc in Hpk. rewrite <- (app_nil_r (packPacket p)). apply packet_round_trip; [done|].
  change (2 ^ 16) with (Z.of_nat (2 ^ 16)). lia.
Qed.

(** Five frames of stereo in blocks of two. *)
Definition demo_sender : StreamSender MemoryAudioSource :=
  mk_sender (mk_memory [1; -1; 2; -2; 3; -3; 4; -4; 5; -5] 2 0)
    (mk_packetizer (new_timestamper 48000 2 (f_of_Z 1)) 2 0) [] 2.

Lemma stream_arrives_witness :
  exists ps s', runToEnd 20 (f_of_Z 1000) demo_sender = Some (length ps, s') /\
    mjoin (samples <$> ps) = [1; -1; 2; -2; 3; -3; 4; -4; 5; -5] /\
    flags ∘ header <$> ps = [0; 0; 1] /\ sequence ∘ header <$> ps = [0; 1; 2] /\
    timestamp ∘ header <$> head ps = Some (bits_of_double (f_of_Z 1001)).
Proof.
  destruct (stream_arrives MemoryAudioSource memory_source 2 (memory_ok 2) memory_pcm
              (memory_finite 2 ltac:(lia)) 20 (f_of_Z 1000) demo_sender)
    as (ps & s' & Hr & _ & (sent & Hg & Hd) & Hj & _); try done.
  - split; [lia|]. apply Nat.ltb_lt. vm_compute. reflexivity.
  - cbn. lia.
  - split_and!; [done| |cbn; lia]. unfold in_signed. repeat constructor; cbn; lia.
  - cbn. lia.
  - exists ps, s'. split_and!; [exact Hr|exact Hj|..].
    all: assert (omap id (Some <$> ps) = ps) as <- by (clear; induction ps as [|p ps IH]; [done|]; cbn; by rewrite IH).
    all: rewrite <- Hd; assert (runToEnd 20 (f_of_Z 1000) demo_sender = Some (length ps, s')) as Hr' by exact Hr.
    all: vm_compute in Hr'; injection Hr' as _ <-; cbn in Hg; rewrite <- Hg; vm_compute; reflexivity.
Defined.
