(* ===== verification/Engine.v ===== *)
(** * Engine: the streamer's audio sender

    Models [streamer/src/audio/AudioEngine.cpp].  The engine's own thread and any number of
    client threads work on one state; a step of the relation is one atomic action of the
    source: a critical section of [source_mutex_], an operation on an atomic variable, a
    call of the sink or the bus.  A call of a client that takes several of them leaves the
    rest of itself in [pending].  The level meters are left out: nothing reads them but the
    dashboard.  Waiting (the pauses of the loop and its pacing) is a step that does
    nothing else. *)

From S2P Require Import Prelude Core Json Config Audio Speakers Sender.

Local Open Scope Z_scope.

(** ** The state *)

(* [src/streamer/src/audio/AudioEngine.h:48-48] AudioEngine::State *)
Inductive Transport := Idle | Playing | Paused.

#[export] Instance Transport_eq_dec : EqDecision Transport.
Proof. solve_decision. Defined.

(** Where the engine's thread is. *)
(* [src/streamer/src/audio/AudioEngine.cpp:161-195] AudioEngine::loop *)
Inductive Thread :=
| NoThread
| Top                        (* before [running_.load()] *)
| Look                       (* before [transport_state_.load()] *)
| Block                      (* before the critical section of [sendBlock] *)
| Emit (d : list Z)          (* the section left with a datagram to send *)
| Count                      (* before [packets_sent_.fetch_add] *)
| Pace                       (* a block went out: before [++blocks_this_stream_] *)
| End_                       (* [sendBlock] returned false *)
| Report                     (* before the publication of the end of the stream *)
| Finished.                  (* the loop has returned *)

#[export] Instance Thread_eq_dec : EqDecision Thread.
Proof. solve_decision. Defined.

(** What is left of a client's call. *)
Inductive Pending :=
| PlayStore                        (* of [play]: the store of [Playing] *)
| Publish (e : Event Payload)
| Anchor (now : spec_float)        (* of [resume]: the critical section *)
| StopExchange                     (* of [stopStream]: the exchange *)
| Join | DropSource | StopIdle.    (* of [stop] *)

Section Engine.
Context {T : Type} {Src : AudioSource T}.

(* [src/streamer/src/audio/AudioEngine.h:102-135] AudioEngine *)
Record AudioEngine := mk_engine
  { e_source : option T; e_hook : option (list Z -> list Z); e_pk : Packetizer;
    e_blocks : Z; e_transport : Transport; e_running : bool; e_sent : Z; e_state : ServiceState;
    e_thread : Thread; e_pending : list Pending; e_sink : list (list Z);
    e_events : list (Event Payload); e_bus : bool; e_block_frames : nat }.

(** One field changed. *)
Definition set_source (x : option T) (e : AudioEngine) : AudioEngine :=
  mk_engine x (e_hook e) (e_pk e) (e_blocks e) (e_transport e) (e_running e) (e_sent e) (e_state e)
    (e_thread e) (e_pending e) (e_sink e) (e_events e) (e_bus e) (e_block_frames e).
Definition set_hook (x : option (list Z -> list Z)) (e : AudioEngine) : AudioEngine :=
  mk_engine (e_source e) x (e_pk e) (e_blocks e) (e_transport e) (e_running e) (e_sent e) (e_state e)
    (e_thread e) (e_pending e) (e_sink e) (e_events e) (e_bus e) (e_block_frames e).
Definition set_pk (x : Packetizer) (e : AudioEngine) : AudioEngine :=
  mk_engine (e_source e) (e_hook e) x (e_blocks e) (e_transport e) (e_running e) (e_sent e) (e_state e)
    (e_thread e) (e_pending e) (e_sink e) (e_events e) (e_bus e) (e_block_frames e).
Definition set_blocks (x : Z) (e : AudioEngine) : AudioEngine :=
  mk_engine (e_source e) (e_hook e) (e_pk e) x (e_transport e) (e_running e) (e_sent e) (e_state e)
    (e_thread e) (e_pending e) (e_sink e) (e_events e) (e_bus e) (e_block_frames e).
Definition set_transport (x : Transport) (e : AudioEngine) : AudioEngine :=
  mk_engine (e_source e) (e_hook e) (e_pk e) (e_blocks e) x (e_running e) (e_sent e) (e_state e)
    (e_thread e) (e_pending e) (e_sink e) (e_events e) (e_bus e) (e_block_frames e).
Definition set_running (x : bool) (s : ServiceState) (e : AudioEngine) : AudioEngine :=
  mk_engine (e_source e) (e_hook e) (e_pk e) (e_blocks e) (e_transport e) x (e_sent e) s
    (e_thread e) (e_pending e) (e_sink e) (e_events e) (e_bus e) (e_block_frames e).
Definition set_sent (x : Z) (e : AudioEngine) : AudioEngine :=
  mk_engine (e_source e) (e_hook e) (e_pk e) (e_blocks e) (e_transport e) (e_running e) x (e_state e)
    (e_thread e) (e_pending e) (e_sink e) (e_events e) (e_bus e) (e_block_frames e).
Definition set_thread (x : Thread) (e : AudioEngine) : AudioEngine :=
  mk_engine (e_source e) (e_hook e) (e_pk e) (e_blocks e) (e_transport e) (e_running e) (e_sent e)
    (e_state e) x (e_pending e) (e_sink e) (e_events e) (e_bus e) (e_block_frames e).
Definition set_pending (x : list Pending) (e : AudioEngine) : AudioEngine :=
  mk_engine (e_source e) (e_hook e) (e_pk e) (e_blocks e) (e_transport e) (e_running e) (e_sent e)
    (e_state e) (e_thread e) x (e_sink e) (e_events e) (e_bus e) (e_block_frames e).
Definition sink (d : list Z) (e : AudioEngine) : AudioEngine :=
  mk_engine (e_source e) (e_hook e) (e_pk e) (e_blocks e) (e_transport e) (e_running e) (e_sent e)
    (e_state e) (e_thread e) (e_pending e) (e_sink e ++ [d]) (e_events e) (e_bus e) (e_block_frames e).
Definition emit_event (v : Event Payload) (e : AudioEngine) : AudioEngine :=
  mk_engine (e_source e) (e_hook e) (e_pk e) (e_blocks e) (e_transport e) (e_running e) (e_sent e)
    (e_state e) (e_thread e) (e_pending e) (e_sink e)
    (if e_bus e then e_events e ++ [v] else e_events e) (e_bus e) (e_block_frames e).
Definition later (p : Pending) (e : AudioEngine) : AudioEngine := set_pending (e_pending e ++ [p]) e.

(* [src/streamer/src/audio/AudioEngine.cpp:24-34] AudioEngine::AudioEngine *)
Definition new_engine (bus : bool) (sample_rate : Z) (channels block_frames : nat) (lead : spec_float) :
  AudioEngine :=
  mk_engine None None
    (mk_packetizer (new_timestamper sample_rate (Z.of_nat block_frames) lead) channels 0) 0 Idle false 0
    ServiceState.Stopped NoThread [] [] [] bus block_frames.

Definition stream_started : Event Payload := make "stream.started" [].
Definition stream_stopped : Event Payload := make "stream.stopped" [].

(** ** The engine's thread *)

(** The critical section of [sendBlock]: what it returns to is the thread's next point. *)
(* [src/streamer/src/audio/AudioEngine.cpp:122-154] AudioEngine::sendBlock *)
Definition send_section (e : AudioEngine) : AudioEngine :=
  match e_source e with
  | None => set_thread End_ e
  | Some src =>
      let '(buf, frames, src) := read (e_block_frames e) src in
      let e := set_source (Some src) e in
      if (frames =? 0)%nat then set_thread (if exhausted src then End_ else Pace) e
      else
        let buf := match e_hook e with Some h => h buf | None => buf end in
        let last := exhausted src in
        let '(datagram, pk) := pack buf (wrap 32 (Z.of_nat frames)) last (e_pk e) in
        let e := set_pk pk e in
        if last then set_thread End_ (set_sent (wrap 64 (e_sent e + 1)) (sink datagram e))
        else set_thread (Emit datagram) e
  end.

(* [src/streamer/src/audio/AudioEngine.cpp:156-156] AudioEngine::sendBlock *)
Definition send_emit (d : list Z) (e : AudioEngine) : AudioEngine := set_thread Count (sink d e).
Definition send_count (e : AudioEngine) : AudioEngine :=
  set_thread Pace (set_sent (wrap 64 (e_sent e + 1)) e).

(* [src/streamer/src/audio/AudioEngine.cpp:161-195] AudioEngine::loop *)
Definition thread_step (e : AudioEngine) : option AudioEngine :=
  match e_thread e with
  | NoThread | Finished => None
  | Top => Some (set_thread (if e_running e then Look else Finished) e)
  | Look => Some (set_thread (if bool_decide (e_transport e = Playing) then Block else Top) e)
  | Block => Some (send_section e)
  | Emit d => Some (send_emit d e)
  | Count => Some (send_count e)
  | Pace => Some (set_thread Top (set_blocks (wrap 64 (e_blocks e + 1)) e))
  | End_ =>
      Some (set_thread (if bool_decide (e_transport e = Idle) then Top else Report)
              (set_transport Idle e))
  | Report => Some (set_thread Top (emit_event stream_stopped e))
  end.

(** ** The clients *)

(* [src/streamer/src/audio/AudioEngine.cpp:60-76] AudioEngine::play *)
Definition play (source : option T) (now : spec_float) (e : AudioEngine) : Status * AudioEngine :=
  match source with
  | None => (error ErrorCode.InvalidArg "audio: null source", e)
  | Some src =>
      (success, later PlayStore
         (set_blocks 0 (set_pk (with_ts (ts_start now (ts_ (e_pk e))) (e_pk e)) (set_source (Some src) e))))
  end.

(* [src/streamer/src/audio/AudioEngine.cpp:78-81] AudioEngine::pause *)
Definition pause (e : AudioEngine) : AudioEngine :=
  if bool_decide (e_transport e = Playing) then set_transport Paused e else e.

(* [src/streamer/src/audio/AudioEngine.cpp:83-91] AudioEngine::resume *)
Definition resume (now : spec_float) (e : AudioEngine) : AudioEngine :=
  if bool_decide (e_transport e = Paused) then later (Anchor now) (set_transport Playing e) else e.

(* [src/streamer/src/audio/AudioEngine.cpp:93-105] AudioEngine::stopStream *)
Definition stopStream (e : AudioEngine) : AudioEngine := later StopExchange (set_source None e).

(* [src/streamer/src/audio/AudioEngine.cpp:107-112] AudioEngine::setDspHook *)
Definition setDspHook (h : option (list Z -> list Z)) (e : AudioEngine) : AudioEngine := set_hook h e.

(* [src/streamer/src/audio/AudioEngine.cpp:38-45] AudioEngine::start *)
Definition start (e : AudioEngine) : AudioEngine :=
  if e_running e then e
  else set_thread Top (set_sent 0 (set_running true ServiceState.Running e)).

(* [src/streamer/src/audio/AudioEngine.cpp:47-58] AudioEngine::stop *)
Definition stop (e : AudioEngine) : AudioEngine :=
  if e_running e then later Join (set_running false ServiceState.Stopping e) else e.

(** The rest of a client's call. *)
(* [src/streamer/src/audio/AudioEngine.cpp:47-105] AudioEngine::play, resume, stopStream, stop *)
Definition finish_call (p : Pending) (e : AudioEngine) : option AudioEngine :=
  match p with
  | PlayStore => Some (later (Publish stream_started) (set_transport Playing e))
  | Publish v => Some (emit_event v e)
  | Anchor now => Some (set_blocks 0 (set_pk (with_ts (ts_start now (ts_ (e_pk e))) (e_pk e)) e))
  | StopExchange =>
      Some (let e' := set_transport Idle e in
            if bool_decide (e_transport e = Idle) then e' else later (Publish stream_stopped) e')
  | Join => if bool_decide (e_thread e = Finished) then Some (later DropSource (set_thread NoThread e)) else None
  | DropSource => Some (later StopIdle (set_source None e))
  | StopIdle => Some (set_running (e_running e) ServiceState.Stopped (set_transport Idle e))
  end.

(** One step.  [start] and [stop] are called by the owner of the engine, one after the
    other: a start finds no thread of an earlier one. *)
Inductive engine_step (src_ok : T -> Prop) (hook_ok : (list Z -> list Z) -> Prop) :
  AudioEngine -> AudioEngine -> Prop :=
| step_thread e e' : thread_step e = Some e' -> engine_step src_ok hook_ok e e'
| step_play src now e : (forall s, src = Some s -> src_ok s) ->
    engine_step src_ok hook_ok e (play src now e).2
| step_pause e : engine_step src_ok hook_ok e (pause e)
| step_resume now e : engine_step src_ok hook_ok e (resume now e)
| step_stopStream e : engine_step src_ok hook_ok e (stopStream e)
| step_hook h e : (forall f, h = Some f -> hook_ok f) -> engine_step src_ok hook_ok e (setDspHook h e)
| step_start e : e_thread e = NoThread -> engine_step src_ok hook_ok e (start e)
| step_stop e : engine_step src_ok hook_ok e (stop e)
| step_finish l1 p l2 e e' : e_pending e = l1 ++ p :: l2 ->
    finish_call p (set_pending (l1 ++ l2) e) = Some e' -> engine_step src_ok hook_ok e e'.
End Engine.
Arguments AudioEngine : clear implicits.

(** ** The numbering of the datagrams *)

Section Numbering.
Context {T : Type} {Src : AudioSource T} (ch : nat) (src_ok : T -> Prop) {PS : PcmSource T ch src_ok}.

(** What a DSP hook may do: it works in place on 16-bit samples. *)
Definition in_place (h : list Z -> list Z) : Prop :=
  forall l, Forall (in_signed 16) l -> length (h l) = length l /\ Forall (in_signed 16) (h l).

Definition in_flight (t : Thread) : list (list Z) := match t with Emit d => [d] | _ => [] end.

(** The datagrams sent and the one in flight are packets numbered from zero. *)
Record numbered (e : AudioEngine T) : Prop := mk_numbered {
  n_packets : exists ps, e_sink e ++ in_flight (e_thread e) = packPacket <$> ps /\
    (forall i p, ps !! i = Some p -> packet_ok (Z.of_nat ch) p /\
                 sequence (header p) = wrap 64 (Z.of_nat i)) /\
    pk_sequence (e_pk e) = wrap 64 (Z.of_nat (length ps));
  n_channels : pk_channels (e_pk e) = ch;
  n_block : in_unsigned 32 (Z.of_nat (e_block_frames e));
  n_source : forall s, e_source e = Some s -> src_ok s;
  n_hook : forall h, e_hook e = Some h -> in_place h
}.

(** Changes that touch neither the datagrams nor their numbers. *)
Lemma numbered_frame e e' :
  numbered e -> e_sink e' = e_sink e -> in_flight (e_thread e') = in_flight (e_thread e) ->
  pk_sequence (e_pk e') = pk_sequence (e_pk e) -> pk_channels (e_pk e') = pk_channels (e_pk e) ->
  e_block_frames e' = e_block_frames e ->
  (forall s, e_source e' = Some s -> e_source e = Some s \/ src_ok s) ->
  (forall h, e_hook e' = Some h -> e_hook e = Some h \/ in_place h) -> numbered e'.
Proof.
  intros [Hp Hc Hb Hs Hh] E1 E2 E3 E4 E5 E6 E7.
  split; rewrite ?E1, ?E2, ?E3, ?E4, ?E5; [done..| |].
  - intros s [H|H]%E6; auto.
  - intros h [H|H]%E7; auto.
Qed.

(** The step that makes a packet: its number is the next one. *)
Lemma pack_numbered e buf n last :
  numbered e -> e_thread e = Block -> length buf = (n * ch)%nat -> (n <= e_block_frames e)%nat ->
  Forall (in_signed 16) buf ->
  let d := pack buf (wrap 32 (Z.of_nat n)) last (e_pk e) in
  forall e', e_pk e' = d.2 -> e_source e' = e_source e -> e_hook e' = e_hook e ->
    e_block_frames e' = e_block_frames e ->
    e_sink e' ++ in_flight (e_thread e') = e_sink e ++ [d.1] -> numbered e'.
Proof.
  intros [(ps & Hps & Hall & Hseq) Hc Hb Hs Hh] Ht Hlen Hn Hbuf d e' Epk Esrc Ehook Eb Esink.
  rewrite Ht in Hps. cbn in Hps. rewrite app_nil_r in Hps. subst d.
  assert (wrap 32 (Z.of_nat n) = Z.of_nat n) as Hw.
  { apply wrap_small. unfold in_unsigned in *. lia. }
  split; rewrite ?Epk, ?Esrc, ?Ehook, ?Eb; cbn [pack snd pk_channels pk_sequence]; [|done..].
  exists (ps ++ [packet_of buf (wrap 32 (Z.of_nat n)) last (e_pk e)]). split_and!.
  - rewrite Esink, fmap_app, Hps. done.
  - intros i p [[_ Hi]|[-> Hp]]%lookup_snoc_Some; [by apply Hall|]. subst p.
    unfold packet_ok, header_ok, packet_of. cbn [header samples sequence timestamp frame_count flags].
    rewrite Hw, Nat2Z.id, Hc. split_and!; try done.
    + apply bits_of_double_range.
    + rewrite Hseq. apply wrap_bound. lia.
    + unfold in_unsigned in *. lia.
    + destruct last; unfold wire.kFlagLast, in_unsigned; lia.
    + rewrite length_take, Hlen. lia.
    + by apply Forall_take.
  - rewrite Hseq, wrap_add, length_app by lia. cbn [length]. f_equal. lia.
Qed.

Lemma send_section_numbered e : numbered e -> e_thread e = Block -> numbered (send_section e).
Proof.
  intros He Ht. unfold send_section. destruct (e_source e) as [src|] eqn:Es.
  2: { apply (numbered_frame e); try done; [by rewrite Ht|auto|auto]. }
  pose proof (n_source e He src Es) as Hok.
  destruct (read_pcm (e_block_frames e) src Hok) as (Hlen & Hn & Hbuf & Hok').
  destruct (read (e_block_frames e) src) as [[buf n] src']. cbn [fst snd] in *.
  assert (numbered (set_source (Some src') e)) as He'.
  { apply (numbered_frame e); try done; [|auto]. intros s [= <-]. by right. }
  destruct (Nat.eqb_spec n 0) as [->|Hne].
  { apply (numbered_frame _ _ He'); try done; [|auto..]. cbn [e_thread set_thread set_source].
    rewrite Ht. by destruct (exhausted src'). }
  cbn [e_hook e_pk set_source]. set (buf' := match e_hook e with Some h => h buf | None => buf end).
  assert (length buf' = (n * ch)%nat /\ Forall (in_signed 16) buf') as [Hlen' Hbuf'].
  { unfold buf'. destruct (e_hook e) as [h|] eqn:Eh; [|done].
    destruct (n_hook e He h Eh buf Hbuf) as [? ?]. split; [congruence|done]. }
  pose proof (pack_numbered (set_source (Some src') e) buf' n (exhausted src') He' Ht Hlen' Hn Hbuf') as Hpk.
  unfold pack in *. cbv zeta in Hpk. destruct (exhausted src').
  - apply Hpk; try done. cbn. by rewrite app_nil_r.
  - by apply Hpk.
Qed.

(** Everything but the two steps that make a packet or send one. *)
Ltac by_frame e He :=
  apply (numbered_frame e); cbn; try done; try (by repeat case_match); try (by intros; left);
  try (intros; simplify_eq; auto).

Lemma thread_step_numbered e e' : numbered e -> thread_step e = Some e' -> numbered e'.
Proof.
  intros He. unfold thread_step. destruct (e_thread e) as [| | | |d| | | | |] eqn:Ht; intros [= <-].
  - by_frame e He. rewrite Ht. by destruct (e_running e).
  - by_frame e He. rewrite Ht. by destruct (bool_decide _).
  - by apply send_section_numbered.
  - destruct He as [(ps & Hps & Hall & Hseq) Hc Hb Hs Hh]. split; cbn; try done.
    exists ps. rewrite Ht in Hps. by rewrite app_nil_r.
  - by_frame e He. by rewrite Ht.
  - by_frame e He. by rewrite Ht.
  - by_frame e He. rewrite Ht. by destruct (bool_decide _).
  - by_frame e He. by rewrite Ht.
Qed.

Lemma finish_call_numbered p e e' : numbered e -> finish_call p e = Some e' -> numbered e'.
Proof.
  intros He H. destruct p; cbn in H.
  - injection H as <-. by_frame e He.
  - injection H as <-. by_frame e He.
  - injection H as <-. by_frame e He.
  - injection H as <-. destruct (bool_decide _); by_frame e He.
  - destruct (bool_decide_reflect (e_thread e = Finished)) as [Ht|]; [|done].
    injection H as <-. by_frame e He. by rewrite Ht.
  - injection H as <-. by_frame e He.
  - injection H as <-. by_frame e He.
Qed.

Lemma step_numbered e e' : numbered e -> engine_step src_ok in_place e e' -> numbered e'.
Proof.
  intros He Hst. destruct Hst as [e e' H|src now e H|e|now e|e|h e H|e H|e|l1 p l2 e e' Hp H].
  - by eapply thread_step_numbered.
  - destruct src as [src|]; [|done]. by_frame e He.
  - unfold pause. destruct (bool_decide _); [|done]. by_frame e He.
  - unfold resume. destruct (bool_decide _); [|done]. by_frame e He.
  - by_frame e He.
  - by_frame e He.
  - unfold start. destruct (e_running e); [done|]. by_frame e He. by rewrite H.
  - unfold stop. destruct (e_running e); [|done]. by_frame e He.
  - eapply finish_call_numbered; [|exact H]. by_frame e He.
Qed.
End Numbering.

(** ** Silence *)

(** How many datagrams the thread still sends without looking at the transport. *)
Definition owed (t : Thread) : nat := match t with Block | Emit _ => 1 | _ => 0 end.

Section Silence.
Context {T : Type} {Src : AudioSource T} (src_ok : T -> Prop) (hook_ok : (list Z -> list Z) -> Prop).

Lemma send_section_sends (e : AudioEngine T) :
  (length (e_sink (send_section e)) + owed (e_thread (send_section e)) <= S (length (e_sink e)))%nat.
Proof.
  unfold send_section. destruct (e_source e) as [src|]; [|cbn; lia].
  destruct (read _ _) as [[buf n] src']. destruct (n =? 0)%nat; [cbn; destruct (exhausted src'); cbn; lia|].
  destruct (exhausted src'); cbn; rewrite ?length_app; cbn; lia.
Qed.

Lemma step_owes (e e' : AudioEngine T) :
  engine_step src_ok hook_ok e e' -> e_transport e <> Playing ->
  (length (e_sink e') + owed (e_thread e') <= length (e_sink e) + owed (e_thread e))%nat.
Proof.
  intros Hst Hp. destruct Hst as [e e' H|src now e H|e|now e|e|h e H|e H|e|l1 p l2 e e' Hpd H].
  - revert H. unfold thread_step. destruct (e_thread e) as [| | | |d| | | | |] eqn:Ht; intros [= <-];
      cbn; rewrite ?Ht; cbn; try lia.
    + destruct (e_running e); cbn; lia.
    + rewrite bool_decide_eq_false_2 by done. cbn. lia.
    + pose proof (send_section_sends e). lia.
    + rewrite length_app. cbn. lia.
    + destruct (bool_decide _); cbn; lia.
  - destruct src; cbn; lia.
  - unfold pause. destruct (bool_decide _); cbn; lia.
  - unfold resume. destruct (bool_decide _); cbn; lia.
  - cbn. lia.
  - cbn. lia.
  - unfold start. destruct (e_running e); cbn; lia.
  - unfold stop. destruct (e_running e); cbn; lia.
  - destruct p; cbn in H; [| | | |destruct (bool_decide _); [|done]|..]; simplify_eq; cbn; try lia.
    destruct (bool_decide _); cbn; lia.
Qed.
End Silence.

(** A play can be lost.  The thread has found the end of a stream and is about to say so;
    a client plays another source, and its call returns; the thread then sets the transport
    to idle.  Nothing is pending, the new source is whole, and nothing will send it. *)
Abbreviation E := (AudioEngine MemoryAudioSource).
Abbreviation estep := (engine_step (memory_ok 2) in_place).

Lemma thread_steps n (e e' : E) : Nat.iter n (fun o => o ≫= thread_step) (Some e) = Some e' -> rtc estep e e'.
Proof.
  revert e'. induction n as [|n IH]; intros e' H; [injection H as <-; apply rtc_refl|].
  rewrite Nat.iter_succ in H. destruct (Nat.iter n _ _) as [e1|] eqn:E1; [|done].
  eapply rtc_r; [by apply IH|]. by apply step_thread.
Qed.

Definition first_song : MemoryAudioSource := mk_memory [1; -1; 2; -2; 3; -3] 2 0.
Definition second_song : MemoryAudioSource := mk_memory [7; 7; 8; 8; 9; 9] 2 0.

Definition finish_first (e : E) : option E :=
  match e_pending e with [] => None | p :: l => finish_call p (set_pending l e) end.

Lemma finish_first_step e e' : finish_first e = Some e' -> estep e e'.
Proof.
  unfold finish_first. destruct (e_pending e) as [|p l] eqn:Hp; [done|]. intros H.
  eapply (step_finish _ _ [] p l); [exact Hp|exact H].
Qed.

(** [play] with the rest of its call. *)
Definition play_call (s : MemoryAudioSource) (e : E) : option E :=
  finish_first (play (Some s) (f_of_Z 1000) e).2 ≫= finish_first.

Lemma play_call_steps s e e' : memory_ok 2 s -> play_call s e = Some e' -> rtc estep e e'.
Proof.
  unfold play_call. intros Hs H. destruct (finish_first _) as [e1|] eqn:H1; [|done].
  eapply rtc_l; [apply (step_play _ _ (Some s) (f_of_Z 1000)); by intros ? [= <-]|].
  eapply rtc_l; [by apply finish_first_step|]. eapply rtc_l; [by apply finish_first_step|]. apply rtc_refl.
Qed.

Lemma song_ok l : length l = 6%nat -> Forall (in_signed 16) l -> memory_ok 2 (mk_memory l 2 0).
Proof. intros Hl Hs. split_and!; [done|done|cbn; lia]. Qed.

Lemma songs_ok : memory_ok 2 first_song /\ memory_ok 2 second_song.
Proof. split; apply song_ok; try done; unfold in_signed; repeat constructor; cbn; lia. Qed.

Definition started : E := start (new_engine true 48000 2 2 (f_of_Z 1)).
Definition thread_run (n : nat) (o : option E) : option E := Nat.iter n (fun o => o ≫= thread_step) o.

(** Start, play, run to the end of the stream, play again, run on. *)
Definition lost : option E :=
  thread_run 2 (thread_run 9 (play_call first_song started) ≫= play_call second_song).

Lemma lost_facts :
  exists e, lost = Some e /\ (e_pending e, e_running e, e_source e, e_transport e, e_thread e) =
                             ([], true, Some second_song, Idle, Top).
Proof.
  assert ((fun e => (e_pending e, e_running e, e_source e, e_transport e, e_thread e)) <$> lost =
          Some ([], true, Some second_song, Idle, Top)) as H by (vm_compute; reflexivity).
  apply fmap_Some in H as (e & He & ->). by exists e.
Qed.

Lemma lost_reachable e : lost = Some e -> rtc estep (new_engine true 48000 2 2 (f_of_Z 1)) e.
Proof.
  unfold lost. intros Hl. eapply rtc_l; [by apply step_start|]. change (start _) with started.
  destruct (play_call first_song started) as [e1|] eqn:H1; [|done].
  destruct (thread_run 9 (Some e1)) as [e2|] eqn:H2; [|done].
  cbn [mbind option_bind] in Hl.
  destruct (play_call second_song e2) as [e3|] eqn:H3; [|done].
  etrans; [exact (play_call_steps _ _ _ (proj1 songs_ok) H1)|].
  etrans; [exact (thread_steps 9 _ _ H2)|].
  etrans; [exact (play_call_steps _ _ _ (proj2 songs_ok) H3)|].
  exact (thread_steps 2 _ _ Hl).
Qed.

Lemma play_lost_at_end_of_stream :
  exists e, rtc estep (new_engine true 48000 2 2 (f_of_Z 1)) e /\
    e_pending e = [] /\ e_running e = true /\ e_source e = Some second_song /\
    e_transport e = Idle /\ e_thread e = Top.
Proof.
  destruct lost_facts as (e & He & [= H1 H2 H3 H4 H5]). exists e. by split; [apply lost_reachable|].
Qed.

(** ** Properties *)

(** C4: The stream a speaker receives has no gaps of the streamer's making.  However the
    clients' calls (play, pause, resume, stop, a change of the DSP) interleave with the
    engine's thread and with each other, the datagrams handed to the sink decode to
    well-formed packets whose sequence numbers count 0, 1, 2, ... across all the sources
    played. *)
Theorem engine_numbers_datagrams (T : Type) (Src : AudioSource T) ch src_ok
    (PS : PcmSource T ch src_ok) bus sample_rate block lead (e : AudioEngine T) :
  (ch < 2 ^ 16)%nat -> in_unsigned 32 (Z.of_nat block) ->
  rtc (engine_step src_ok in_place) (new_engine bus sample_rate ch block lead) e ->
  exists ps, (fun d => unpackPacket d (Z.of_nat ch)) <$> e_sink e = Some <$> ps /\
    forall i p, ps !! i = Some p ->
      sequence (header p) = wrap 64 (Z.of_nat i) /\
      Z.of_nat (length (samples p)) = frame_count (header p) * Z.of_nat ch.
Proof.
  intros Hch Hb Hr. assert (numbered ch src_ok e) as [(ps & Hps & Hall & _) _ _ _ _].
  { assert (numbered ch src_ok (new_engine bus sample_rate ch block lead)) as H0.
    { split; try done. by exists []. }
    induction Hr as [|e1 e2 e3 H12 _ IH]; [done|]. by eapply IH, step_numbered. }
  exists (take (length (e_sink e)) ps). split.
  - assert (e_sink e = packPacket <$> take (length (e_sink e)) ps) as Hs.
    { by rewrite fmap_take, <- Hps, take_app_length. }
    rewrite Hs at 1. rewrite <- list_fmap_compose. apply list_fmap_ext. intros i p Hp.
    apply lookup_take_Some in Hp as [Hp _]. destruct (Hall i p Hp) as [Hok _].
    change (unpackPacket (packPacket p) (Z.of_nat ch) = Some p).
    rewrite <- (app_nil_r (packPacket p)). apply packet_round_trip; [done|].
    change (2 ^ 16) with (Z.of_nat (2 ^ 16)). lia.
  - intros i p [Hp _]%lookup_take_Some. destruct (Hall i p Hp) as [(_ & Hl & _) Hs]. done.
Qed.

(** Pausing and stopping silence the stream.  From a moment at which the transport is
    not playing, and as long as no client sets it to playing again, the engine sends at
    most the one datagram whose block it had begun, whatever else the clients do. *)
Theorem not_playing_is_silent (T : Type) (Src : AudioSource T) src_ok hook_ok (e e' : AudioEngine T) :
  rtc (fun a b => engine_step src_ok hook_ok a b /\ e_transport a <> Playing) e e' ->
  (length (e_sink e') <= length (e_sink e) + owed (e_thread e))%nat /\ (owed (e_thread e) <= 1)%nat.
Proof.
  intros Hr. split; [|by destruct (e_thread e); cbn; lia].
  enough (length (e_sink e') + owed (e_thread e') <= length (e_sink e) + owed (e_thread e))%nat by lia.
  induction Hr as [|e1 e2 e3 [H12 Hp] _ IH]; [done|].
  etrans; [exact IH|]. by eapply step_owes.
Qed.

(** The run above, with both datagrams of the first song. *)
Lemma engine_numbers_datagrams_witness :
  exists e ps, rtc estep (new_engine true 48000 2 2 (f_of_Z 1)) e /\ length (e_sink e) = 2%nat /\
    (fun d => unpackPacket d 2) <$> e_sink e = Some <$> ps.
Proof.
  assert ((fun e => length (e_sink e)) <$> lost = Some 2%nat) as H by (vm_compute; reflexivity).
  apply fmap_Some in H as (e & He & Hlen). apply lost_reachable in He.
  destruct (engine_numbers_datagrams MemoryAudioSource memory_source 2 (memory_ok 2)
    (finite_pcm 2 (memory_ok 2) memory_pcm (memory_finite 2 ltac:(lia)) ltac:(lia)) true 48000 2
    (f_of_Z 1) e) as (ps & Hps & _); [apply Nat.ltb_lt; vm_compute; reflexivity|done|exact He|].
  by exists e, ps.
Defined.

(** A pause while a datagram is in flight: it still goes out. *)
Lemma not_playing_is_silent_witness :
  let e := set_transport Paused (set_thread (Emit [1%Z]) (new_engine (T:=MemoryAudioSource) true 48000 2 2 (f_of_Z 1))) in
  length (e_sink (send_emit [1%Z] e)) = 1%nat /\
  (length (e_sink (send_emit [1%Z] e)) <= length (e_sink e) + owed (e_thread e))%nat.
Proof.
  cbv zeta. split; [reflexivity|].
  apply (not_playing_is_silent MemoryAudioSource memory_source (memory_ok 2) in_place).
  eapply rtc_l; [|apply rtc_refl]. split; [by apply step_thread|done].
Defined.
