(* ===== verification/StreamerConfig.v ===== *)
(** * StreamerConfig: the configuration of the streamer

    Models [streamer/src/config]: the records, their JSON form, and the manager that loads
    them at boot (with recovery from a backup) and writes them on every change.  Unlike the
    speaker's manager of [Config], it does not validate, and it keeps a change in memory
    when the disk refuses it. *)

From S2P Require Import Prelude Core Json Files Config.

(** ** The records *)

(* [src/streamer/src/config/StreamerConfig.h:15-19] IdentityConfig *)
Record IdentityConfig := mk_identity { i_streamer_id : string; i_public_key : string; i_site_id : string }.

(* [src/streamer/src/config/StreamerConfig.h:26-34] SpeakerRecord *)
Record SpeakerRecord := mk_speaker_record
  { s_device_id : string; s_name : string; s_host : string; s_control_port : Z;
    s_public_key : string; s_box_public_key : string; s_delay_ms : Z }.

(* [src/streamer/src/config/StreamerConfig.h:38-42] ZoneRecord *)
Record ZoneRecord := mk_zone_record { z_zone_id : string; z_name : string; z_members : list string }.

(* [src/streamer/src/config/StreamerConfig.h:44-50] AudioConfig *)
Record AudioSettings := mk_audio_settings
  { a_sample_rate : Z; a_channels : Z; a_block_frames : Z; a_lead_ms : Z; a_source : string }.

(* [src/streamer/src/config/StreamerConfig.h:52-55] NetworkConfig *)
Record NetworkSettings := mk_network_settings { n_control_port : string; n_audio_port : Z }.

(* [src/streamer/src/config/StreamerConfig.h:57-66] WebConfig *)
Record WebConfig := mk_web { w_port : Z; w_auth_token : string; w_bind_address : string }.

#[global] Instance IdentityConfig_eq_dec : EqDecision IdentityConfig.
Proof. solve_decision. Defined.
#[global] Instance SpeakerRecord_eq_dec : EqDecision SpeakerRecord.
Proof. solve_decision. Defined.
#[global] Instance ZoneRecord_eq_dec : EqDecision ZoneRecord.
Proof. solve_decision. Defined.
#[global] Instance AudioSettings_eq_dec : EqDecision AudioSettings.
Proof. solve_decision. Defined.
#[global] Instance NetworkSettings_eq_dec : EqDecision NetworkSettings.
Proof. solve_decision. Defined.
#[global] Instance WebConfig_eq_dec : EqDecision WebConfig.
Proof. solve_decision. Defined.

Section Records.
Context {J : JsonLib}.

(** [system] has one field, the log level. *)
(* [src/streamer/src/config/StreamerConfig.h:72-85] StreamerConfig *)
Record StreamerConfig := mk_streamer_config
  { schema : Z; identity : IdentityConfig; speakers : list SpeakerRecord; zones : list ZoneRecord;
    audio_settings : AudioSettings; dsp : json; network_settings : NetworkSettings;
    web : WebConfig; log_level_ : string }.

#[global] Instance StreamerConfig_eq_dec : EqDecision StreamerConfig.
Proof. solve_decision. Defined.

Definition default_identity : IdentityConfig := mk_identity "" "" "".
Definition default_speaker : SpeakerRecord := mk_speaker_record "" "" "" 45455 "" "" 0.
Definition default_zone : ZoneRecord := mk_zone_record "" "" [].
Definition default_audio : AudioSettings := mk_audio_settings 48000 2 480 180 "line-in".
Definition default_network : NetworkSettings := mk_network_settings "45455" 50005.
Definition default_web : WebConfig := mk_web 8090 "" "127.0.0.1".

(* [src/streamer/src/config/StreamerConfig.h:15-85] StreamerConfig *)
Definition default_config : StreamerConfig :=
  mk_streamer_config 1 default_identity [] [] default_audio (jobj []) default_network default_web "info".

(** ** JSON *)

(** [get<std::vector<T>>]. *)
Definition get_list {A} (read : json -> Try A) (j : json) : Try (list A) :=
  l ← get_array j; mapM read l.

(* [src/streamer/src/config/StreamerConfigSerialization.h:18-20] to_json(IdentityConfig) *)
Definition identity_to_json (c : IdentityConfig) : json :=
  jobj [("streamer_id", jstr (i_streamer_id c)); ("public_key", jstr (i_public_key c));
        ("site_id", jstr (i_site_id c))].

(* [src/streamer/src/config/StreamerConfigSerialization.h:21-25] from_json(IdentityConfig) *)
Definition identity_from_json (j : json) : Try IdentityConfig :=
  let c := default_identity in
  id ← value_string j "streamer_id" (i_streamer_id c);
  key ← value_string j "public_key" (i_public_key c);
  site ← value_string j "site_id" (i_site_id c);
  mret (mk_identity id key site).

(* [src/streamer/src/config/StreamerConfigSerialization.h:27-35] to_json(SpeakerRecord) *)
Definition speaker_to_json (s : SpeakerRecord) : json :=
  jobj [("device_id", jstr (s_device_id s)); ("name", jstr (s_name s)); ("host", jstr (s_host s));
        ("control_port", jint (s_control_port s)); ("public_key", jstr (s_public_key s));
        ("box_public_key", jstr (s_box_public_key s)); ("delay_ms", jint (s_delay_ms s))].

(* [src/streamer/src/config/StreamerConfigSerialization.h:36-44] from_json(SpeakerRecord) *)
Definition speaker_from_json (j : json) : Try SpeakerRecord :=
  let s := default_speaker in
  id ← value_string j "device_id" (s_device_id s);
  name ← value_string j "name" (s_name s);
  host ← value_string j "host" (s_host s);
  port ← value_int j "control_port" (s_control_port s);
  key ← value_string j "public_key" (s_public_key s);
  box ← value_string j "box_public_key" (s_box_public_key s);
  delay ← value_int j "delay_ms" (s_delay_ms s);
  mret (mk_speaker_record id name host port key box delay).

(* [src/streamer/src/config/StreamerConfigSerialization.h:46-48] to_json(ZoneRecord) *)
Definition zone_to_json (z : ZoneRecord) : json :=
  jobj [("zone_id", jstr (z_zone_id z)); ("name", jstr (z_name z));
        ("members", jarr (jstr <$> z_members z))].

(* [src/streamer/src/config/StreamerConfigSerialization.h:49-53] from_json(ZoneRecord) *)
Definition zone_from_json (j : json) : Try ZoneRecord :=
  let z := default_zone in
  id ← value_string j "zone_id" (z_zone_id z);
  name ← value_string j "name" (z_name z);
  members ← value_or (get_list get_string) j "members" (z_members z);
  mret (mk_zone_record id name members).

(* [src/streamer/src/config/StreamerConfigSerialization.h:55-61] to_json(AudioConfig) *)
Definition audio_to_json_ (a : AudioSettings) : json :=
  jobj [("sample_rate", jint (a_sample_rate a)); ("channels", jint (a_channels a));
        ("block_frames", jint (a_block_frames a)); ("lead_ms", jint (a_lead_ms a));
        ("source", jstr (a_source a))].

(* [src/streamer/src/config/StreamerConfigSerialization.h:62-68] from_json(AudioConfig) *)
Definition audio_from_json_ (j : json) : Try AudioSettings :=
  let a := default_audio in
  rate ← value_int j "sample_rate" (a_sample_rate a);
  channels ← value_int j "channels" (a_channels a);
  block ← value_int j "block_frames" (a_block_frames a);
  lead ← value_int j "lead_ms" (a_lead_ms a);
  source ← value_string j "source" (a_source a);
  mret (mk_audio_settings rate channels block lead source).

(* [src/streamer/src/config/StreamerConfigSerialization.h:70-72] to_json(NetworkConfig) *)
Definition network_to_json_ (n : NetworkSettings) : json :=
  jobj [("control_port", jstr (n_control_port n)); ("audio_port", jint (n_audio_port n))].

(* [src/streamer/src/config/StreamerConfigSerialization.h:73-76] from_json(NetworkConfig) *)
Definition network_from_json_ (j : json) : Try NetworkSettings :=
  let n := default_network in
  control ← value_string j "control_port" (n_control_port n);
  audio ← value_int j "audio_port" (n_audio_port n);
  mret (mk_network_settings control audio).

(* [src/streamer/src/config/StreamerConfigSerialization.h:78-80] to_json(WebConfig) *)
Definition web_to_json (w : WebConfig) : json :=
  jobj [("port", jint (w_port w)); ("auth_token", jstr (w_auth_token w));
        ("bind_address", jstr (w_bind_address w))].

(* [src/streamer/src/config/StreamerConfigSerialization.h:81-85] from_json(WebConfig) *)
Definition web_from_json (j : json) : Try WebConfig :=
  let w := default_web in
  port ← value_int j "port" (w_port w);
  token ← value_string j "auth_token" (w_auth_token w);
  bind ← value_string j "bind_address" (w_bind_address w);
  mret (mk_web port token bind).

(* [src/streamer/src/config/StreamerConfigSerialization.h:87-89] to_json(SystemConfig) *)
Definition system_to_json_ (level : string) : json := jobj [("log_level", jstr level)].

(* [src/streamer/src/config/StreamerConfigSerialization.h:90-92] from_json(SystemConfig) *)
Definition system_from_json_ (j : json) : Try string := value_string j "log_level" "info".

(* [src/streamer/src/config/StreamerConfigSerialization.h:94-104] to_json(StreamerConfig) *)
Definition streamer_to_json (c : StreamerConfig) : json :=
  jobj [("schema_version", jint (schema c)); ("identity", identity_to_json (identity c));
        ("speakers", jarr (speaker_to_json <$> speakers c));
        ("zones", jarr (zone_to_json <$> zones c));
        ("audio", audio_to_json_ (audio_settings c)); ("dsp", dsp c);
        ("network", network_to_json_ (network_settings c)); ("web", web_to_json (web c));
        ("system", system_to_json_ (log_level_ c))].

(* [src/streamer/src/config/StreamerConfigSerialization.h:105-117] from_json(StreamerConfig) *)
Definition streamer_from_json (j : json) : Try StreamerConfig :=
  let c := default_config in
  version ← value_int j "schema_version" (schema c);
  id ← section_or identity_from_json j "identity" (identity c);
  sps ← section_or (get_list speaker_from_json) j "speakers" (speakers c);
  zs ← section_or (get_list zone_from_json) j "zones" (zones c);
  a ← section_or audio_from_json_ j "audio" (audio_settings c);
  let d := match jfind j "dsp" with Some d => if is_object d then d else dsp c | None => dsp c end in
  n ← section_or network_from_json_ j "network" (network_settings c);
  w ← section_or web_from_json j "web" (web c);
  l ← section_or system_from_json_ j "system" (log_level_ c);
  mret (mk_streamer_config version id sps zs a d n w l).

(** The integers of the records are C [int]s and [dsp] is an object. *)
Record streamer_ints (c : StreamerConfig) : Prop := mk_streamer_ints {
  si_schema : in_signed 32 (schema c);
  si_speakers : Forall (fun s => in_signed 32 (s_control_port s) /\ in_signed 32 (s_delay_ms s)) (speakers c);
  si_audio : Forall (in_signed 32) [a_sample_rate (audio_settings c); a_channels (audio_settings c);
               a_block_frames (audio_settings c); a_lead_ms (audio_settings c)];
  si_ports : in_signed 32 (n_audio_port (network_settings c)) /\ in_signed 32 (w_port (web c));
  si_dsp : is_object (dsp c) = true
}.

(** ** The manager *)

Context {F : FileSystem} {AW : AtomicWriter F}.

(* [src/streamer/src/config/StreamerConfigManager.h:47-50] StreamerConfigManager *)
Record StreamerConfigManager := mk_streamer_manager
  { m_disk : Disk; m_path : string; m_config : StreamerConfig; m_state : ServiceState }.

Abbreviation SM := (SW StreamerConfigManager Disk).

Definition set_m_disk (d : Disk) (m : StreamerConfigManager) : StreamerConfigManager :=
  mk_streamer_manager d (m_path m) (m_config m) (m_state m).
Definition set_m_config (c : StreamerConfig) (m : StreamerConfigManager) : StreamerConfigManager :=
  mk_streamer_manager (m_disk m) (m_path m) c (m_state m).
Definition set_m_state (s : ServiceState) (m : StreamerConfigManager) : StreamerConfigManager :=
  mk_streamer_manager (m_disk m) (m_path m) (m_config m) s.

(** A disk operation; the effects are the points where the power may be cut. *)
Definition on_m_disk {A} (f : SW Disk Disk A) : SM A := fun m =>
  (value_of f (m_disk m), set_m_disk (state_after f (m_disk m)) m, effects_of f (m_disk m)).

(* [src/streamer/src/config/StreamerConfigManager.cpp:20-20] StreamerConfigManager::StreamerConfigManager *)
Definition new_streamer_manager (d : Disk) (path : string) : StreamerConfigManager :=
  mk_streamer_manager d path default_config ServiceState.Stopped.

(** The lambda [parse] of [start]. *)
(* [src/streamer/src/config/StreamerConfigManager.cpp:39-48] StreamerConfigManager::start *)
Definition parse_config (text : string) : option StreamerConfig :=
  match parse text with
  | Throw _ => None
  | Done j =>
      if is_object j then match streamer_from_json j with Done c => Some c | Throw _ => None end
      else None
  end.

(** Reading a file that cannot be opened gives the empty text. *)
Definition read_text (d : Disk) (p : string) : string := default "" (visible d p).

(** The disk part of [saveLocked]. *)
(* [src/streamer/src/config/StreamerConfigManager.cpp:102-108] StreamerConfigManager::saveLocked *)
Definition save_text (path text : string) : SW Disk Disk Status :=
  d ← get;
  (if exists_file d path then sys (copy_file path (path +:+ ".bak"));; mret () else mret ());;
  atomic_write path text.

(* [src/streamer/src/config/StreamerConfigManager.cpp:98-109] StreamerConfigManager::saveLocked *)
Definition saveLocked : SM Status :=
  m ← get; on_m_disk (save_text (m_path m) (dump_indented (streamer_to_json (m_config m)))).

(** Move the unreadable file away and write a configuration in its place. *)
(* [src/streamer/src/config/StreamerConfigManager.cpp:67-69] StreamerConfigManager::start *)
Definition put_aside (c : StreamerConfig) : SM Status :=
  m ← get;
  on_m_disk (sys (rename (m_path m) (m_path m +:+ ".corrupt")));;
  modify (set_m_config c);;
  saveLocked.

(* [src/streamer/src/config/StreamerConfigManager.cpp:22-80] StreamerConfigManager::start *)
Definition start_config : SM Status :=
  m ← get;
  if negb (exists_file (m_disk m) (m_path m)) then
    modify (set_m_config default_config);;
    s ← saveLocked;
    modify (set_m_state (if status_ok s then ServiceState.Running else ServiceState.Degraded));;
    mret s
  else
    match parse_config (read_text (m_disk m) (m_path m)) with
    | Some loaded =>
        modify (set_m_config loaded);; modify (set_m_state ServiceState.Running);; mret success
    | None =>
        let bak := m_path m +:+ ".bak" in
        match (if exists_file (m_disk m) bak then parse_config (read_text (m_disk m) bak) else None) with
        | Some recovered =>
            s ← put_aside recovered;
            modify (set_m_state ServiceState.Running);;
            mret (if status_ok s then success else s)
        | None =>
            put_aside default_config;;
            modify (set_m_state ServiceState.Degraded);;
            mret (error ErrorCode.Corrupt "streamer config unreadable; reset to defaults")
        end
    end.

(* [src/streamer/src/config/StreamerConfigManager.cpp:82-85] StreamerConfigManager::stop *)
Definition stop_config : SM Status := modify (set_m_state ServiceState.Stopped);; mret success.

(* [src/streamer/src/config/StreamerConfigManager.cpp:87-90] StreamerConfigManager::get *)
Definition get_config (m : StreamerConfigManager) : StreamerConfig := m_config m.

(* [src/streamer/src/config/StreamerConfigManager.cpp:92-96] StreamerConfigManager::update *)
Definition update_config (mutator : StreamerConfig -> StreamerConfig) : SM Status :=
  modify (fun m => set_m_config (mutator (m_config m)) m);;
  saveLocked.

(** ** Round trip *)

Context {L : JsonLaws J}.

Ltac read_settings :=
  unfold value_string, value_int, section_or;
  rewrite ?value_or_obj, ?jfind_obj; cbn [assoc String.eqb Ascii.eqb Bool.eqb];
  rewrite ?get_string_str.

Lemma mapM_round_trip {A} (write : A -> json) (read : json -> Try A) (l : list A) :
  Forall (fun a => read (write a) = Done a) l -> get_list read (jarr (write <$> l)) = Done l.
Proof.
  intros Hl. unfold get_list. rewrite get_array_arr. cbn [mbind Try_bind].
  induction Hl as [|a l Ha _ IH]; [done|]. cbn. rewrite Ha. cbn. by rewrite IH.
Qed.

Lemma speaker_record_round_trip s :
  in_signed 32 (s_control_port s) /\ in_signed 32 (s_delay_ms s) -> speaker_from_json (speaker_to_json s) = Done s.
Proof.
  intros [Hp Hd]. unfold speaker_from_json, speaker_to_json. read_settings.
  rewrite !get_int_int by done. by destruct s.
Qed.

Lemma zone_record_round_trip z : zone_from_json (zone_to_json z) = Done z.
Proof.
  unfold zone_from_json, zone_to_json. read_settings. rewrite mapM_round_trip.
  - by destruct z.
  - apply Forall_forall. intros s _. apply get_string_str.
Qed.

Lemma identity_round_trip c : identity_from_json (identity_to_json c) = Done c.
Proof. unfold identity_from_json, identity_to_json. read_settings. by destruct c. Qed.

Lemma audio_settings_round_trip a :
  Forall (in_signed 32) [a_sample_rate a; a_channels a; a_block_frames a; a_lead_ms a] ->
  audio_from_json_ (audio_to_json_ a) = Done a.
Proof.
  intros H. rewrite !Forall_cons in H. destruct H as (H1 & H2 & H3 & H4 & _). unfold audio_from_json_, audio_to_json_. read_settings.
  rewrite !get_int_int by done. by destruct a.
Qed.

Lemma network_settings_round_trip n :
  in_signed 32 (n_audio_port n) -> network_from_json_ (network_to_json_ n) = Done n.
Proof.
  intros H. unfold network_from_json_, network_to_json_. read_settings. rewrite get_int_int by done. by destruct n.
Qed.

Lemma web_round_trip w : in_signed 32 (w_port w) -> web_from_json (web_to_json w) = Done w.
Proof. intros H. unfold web_from_json, web_to_json. read_settings. rewrite get_int_int by done. by destruct w. Qed.

Lemma system_settings_round_trip l : system_from_json_ (system_to_json_ l) = Done l.
Proof. unfold system_from_json_, system_to_json_. by read_settings. Qed.

Lemma streamer_json_round_trip c : streamer_ints c -> streamer_from_json (streamer_to_json c) = Done c.
Proof.
  intros [Hv Hs Ha [Hn Hw] Hd]. unfold streamer_from_json, streamer_to_json. read_settings.
  rewrite get_int_int, identity_round_trip, audio_settings_round_trip, network_settings_round_trip,
    web_round_trip, system_settings_round_trip, Hd by done.
  rewrite !mapM_round_trip; [by destruct c|..]; apply Forall_forall.
  - intros s Hin. apply speaker_record_round_trip. by eapply Forall_forall in Hs.
  - intros z _. apply zone_record_round_trip.
Qed.

Lemma parse_config_text c :
  streamer_ints c -> dumpable (streamer_to_json c) ->
  parse_config (dump_indented (streamer_to_json c)) = Some c.
Proof.
  intros Hi Hd. unfold parse_config. rewrite parse_dump_indented by done.
  assert (is_object (streamer_to_json c) = true) as -> by apply is_object_obj.
  by rewrite streamer_json_round_trip.
Qed.

(** ** The file *)

Context {FL : FileSystemLaws F}.

(** Writing with a backup: the file is the old one or the new one at every point. *)
Record save_outcome (path text : string) (d : Disk) (r : Status) (d' : Disk) (points : list Disk) : Prop :=
  mk_save_outcome {
    save_ok : status_ok r = true -> visible d' path = Some text;
    save_error : status_ok r = false -> same_file path d d';
    save_points : Forall (old_or_new path text d) (d' :: points)
  }.

Lemma save_text_spec path text d :
  save_outcome path text d (value_of (save_text path text) d) (state_after (save_text path text) d)
    (effects_of (save_text path text) d).
Proof.
  unfold save_text.
  set (copy := if exists_file d path
              then sys (copy_file path (path +:+ ".bak"));; mret () else mret () : SW Disk Disk unit).
  assert (same_file path d (state_after copy d) /\ Forall (same_file path d) (effects_of copy d)) as [Hs Hp].
  { unfold copy. destruct (exists_file d path); [|split; [apply same_file_refl|constructor]].
    assert (same_file path d (copy_file path (path +:+ ".bak") d).2) by (by apply copy_file_same, suffix_ne).
    split; [done|by apply Forall_singleton]. }
  rewrite !value_of_bind, !state_after_bind, !effects_of_bind.
  change (value_of get d) with d. change (state_after get d) with d. change (effects_of get d) with (@nil Disk).
  fold copy. rewrite app_nil_l.
  set (d1 := state_after copy d) in *.
  destruct (atomic_write_spec path text d1) as [Hok Herr Hpts Hlast _]. split.
  - exact Hok.
  - intros Hr. eapply same_file_trans; [exact Hs|by apply Herr].
  - apply Forall_cons. split.
    + eapply old_or_new_from; [exact Hs|]. split; [|exact Hlast].
      destruct (status_ok (value_of (atomic_write path text) d1)); [right; by apply Hok|].
      left. by destruct (Herr eq_refl).
    + apply Forall_app. split.
      * eapply Forall_impl; [exact Hp|]. intros x. apply same_file_old_or_new.
      * eapply Forall_impl; [exact Hpts|]. intros x Hx. by eapply old_or_new_from.
Qed.

(** [update] changes the memory, then writes; what it reports is the writing. *)
Lemma update_config_run f m :
  let c := f (m_config m) in
  let w := save_text (m_path m) (dump_indented (streamer_to_json c)) in
  update_config f m =
    (value_of w (m_disk m), mk_streamer_manager (state_after w (m_disk m)) (m_path m) c (m_state m),
     effects_of w (m_disk m)).
Proof. cbv zeta. unfold update_config, saveLocked. by rewrite !bind_run. Qed.

(** A boot on a disk whose file holds a configuration. *)
Lemma start_config_reads d path c :
  streamer_ints c -> dumpable (streamer_to_json c) ->
  visible d path = Some (dump_indented (streamer_to_json c)) ->
  start_config (new_streamer_manager d path) =
    (success, mk_streamer_manager d path c ServiceState.Running, []).
Proof.
  intros Hi Hd Hv. unfold start_config. rewrite bind_run. unfold value_of, state_after, effects_of.
  cbn [get fst snd m_disk m_path new_streamer_manager app].
  unfold exists_file, read_text. rewrite Hv. cbn [negb from_option id].
  by rewrite parse_config_text.
Qed.
End Records.

(** ** Properties *)

(** What the streamer is told is in effect at once and survives.  An update is held in
    memory whether or not the disk takes it.  When the file held the configuration before,
    a restart finds the new one if the update reported success and the old one if it
    reported an error; and a power cut at any point of the update, or after it, leaves a
    disk from which the next boot loads the old or the new configuration, successfully. *)
Theorem streamer_update_durable (J : JsonLib) (L : JsonLaws J) (F : FileSystem) (FL : FileSystemLaws F)
    (AW : AtomicWriter F) f m :
  let c := m_config m in
  let c' := f c in
  let run := update_config f in
  let m' := state_after run m in
  let boot d c := start_config (new_streamer_manager d (m_path m)) =
                    (success, mk_streamer_manager d (m_path m) c ServiceState.Running, []) in
  streamer_ints c -> dumpable (streamer_to_json c) ->
  streamer_ints c' -> dumpable (streamer_to_json c') ->
  visible (m_disk m) (m_path m) = Some (dump_indented (streamer_to_json c)) ->
  (forall y, survives (m_disk m) (m_path m) y -> y = visible (m_disk m) (m_path m)) ->
  m_config m' = c' /\
  boot (m_disk m') (if status_ok (value_of run m) then c' else c) /\
  forall x x', x ∈ m_disk m' :: effects_of run m -> reboot x x' -> boot x' c \/ boot x' c'.
Proof.
  cbv zeta. intros Hi Hd Hi' Hd' Hfile Hdur.
  unfold value_of, state_after, effects_of. rewrite update_config_run. cbv zeta. cbn [fst snd m_config m_disk].
  set (text' := dump_indented (streamer_to_json (f (m_config m)))).
  destruct (save_text_spec (m_path m) text' (m_disk m)) as [Hok Herr Hpts]. split_and!; [done| |].
  - destruct (status_ok _) eqn:E.
    + apply start_config_reads; [done..|by apply Hok].
    + apply start_config_reads; [done..|]. destruct (Herr eq_refl) as [-> _]. done.
  - intros x x' Hx Hr. eapply Forall_forall in Hpts as [_ Hs]; [|exact Hx].
    destruct (Hs _ (reboot_survives x x' (m_path m) Hr)) as [Hold|Hnew].
    + left. apply start_config_reads; [done..|]. by rewrite (Hdur _ Hold).
    + right. by apply start_config_reads.
Qed.

Section Witnesses.
#[local] Existing Instance mdisk_laws.
#[local] Existing Instance posix_writer.

Definition add_kitchen (c : StreamerConfig (J:=jvalue_lib)) : StreamerConfig :=
  mk_streamer_config (schema c) (identity c)
    (speakers c ++ [mk_speaker_record "SPK-1" "Kitchen" "10.0.0.7" 45455 "" "" 0]) (zones c)
    (audio_settings c) (dsp c) (network_settings c) (web c) (log_level_ c).

Definition demo_streamer : StreamerConfigManager (J:=jvalue_lib) (F:=mdisk_system) :=
  mk_streamer_manager (disk_with (dump_indented (streamer_to_json default_config))) "c" default_config
    ServiceState.Running.

Lemma default_ints : streamer_ints (J:=jvalue_lib) default_config.
Proof. split; try done; unfold in_signed; repeat constructor; cbn; lia. Qed.

Lemma kitchen_ints : streamer_ints (add_kitchen default_config).
Proof. split; try done; unfold in_signed; repeat constructor; cbn; lia. Qed.

Lemma streamer_update_durable_witness :
  let m' := state_after (update_config add_kitchen) demo_streamer in
  s_name <$> speakers (m_config m') = ["Kitchen"%string] /\
  start_config (new_streamer_manager (m_disk m') "c") =
    (success, mk_streamer_manager (m_disk m') "c" (add_kitchen default_config) ServiceState.Running, []).
Proof.
  cbv zeta.
  destruct (streamer_update_durable jvalue_lib jvalue_laws mdisk_system mdisk_laws posix_writer
              add_kitchen demo_streamer default_ints I kitchen_ints I) as (Hc & Hb & _).
  - vm_compute. reflexivity.
  - intros y Hy. apply list_elem_of_singleton in Hy. rewrite Hy. vm_compute. reflexivity.
  - rewrite Hc. split; [reflexivity|].
    assert (status_ok (value_of (update_config add_kitchen) demo_streamer) = true) as Hok
      by (vm_compute; reflexivity).
    rewrite Hok in Hb. exact Hb.
Defined.
End Witnesses.
