(* ===== verification/Onboarding.v ===== *)
(** * Onboarding: a streamer takes in a speaker

    Models [streamer/src/pairing/PairingClient.cpp], [streamer/src/provisioning], the
    pairing and persistence part of [streamer/src/app/StreamerApp.cpp], and the speaker's
    end of the handshake, the handler installed by [src/main/Application.cpp] around
    [Pairing.processRequest].  Base64 decoding and the sealed box are arguments; the
    transport is a function from a request line to a response line. *)

From S2P Require Import Prelude Core Json Files Config Storage Control Pairing.
From S2P Require Import Speakers Zones Gateway StreamerConfig.

(** ** The provisioning window *)

(* [src/streamer/src/provisioning/ProvisioningWindow.h:12-15] ProvisioningWindow *)
Record ProvisioningWindow := mk_window { open_ : bool; expiry_ : Z }.

Definition kMaxTtlSeconds : Z := 1800.

(* [src/streamer/src/provisioning/ProvisioningWindow.cpp:4-9] ProvisioningWindow::open *)
Definition window_open (now ttl : Z) (_ : ProvisioningWindow) : ProvisioningWindow :=
  mk_window true (now + Z.min (Z.max ttl 1) kMaxTtlSeconds).

(* [src/streamer/src/provisioning/ProvisioningWindow.cpp:10-14] ProvisioningWindow::close *)
Definition window_close (_ : ProvisioningWindow) : ProvisioningWindow := mk_window false 0.

(* [src/streamer/src/provisioning/ProvisioningWindow.cpp:15-18] ProvisioningWindow::isOpen *)
Definition isOpen (now : Z) (w : ProvisioningWindow) : bool := open_ w && (now <? expiry_ w)%Z.

(* [src/streamer/src/provisioning/ProvisioningWindow.cpp:19-23] ProvisioningWindow::secondsRemaining *)
Definition secondsRemaining (now : Z) (w : ProvisioningWindow) : Z :=
  if negb (open_ w) || (expiry_ w <=? now)%Z then 0 else to_signed 32 (expiry_ w - now).

(** A window stays open for its time to live, which is bounded, and closes by itself. *)
Lemma window_bounds now ttl w t :
  let w' := window_open now ttl w in
  (isOpen t w' = true <-> (t < now + Z.min (Z.max ttl 1) kMaxTtlSeconds)%Z) /\
  (isOpen t w' = true -> (t < now + kMaxTtlSeconds)%Z) /\
  (now <= t -> 0 <= secondsRemaining t w' <= kMaxTtlSeconds)%Z /\
  (now <= t -> isOpen t w' = negb (secondsRemaining t w' =? 0))%Z.
Proof.
  cbv zeta. unfold isOpen, secondsRemaining, window_open, kMaxTtlSeconds. cbn [open_ expiry_ negb orb andb].
  set (e := (now + Z.min (Z.max ttl 1) 1800)%Z). assert (e <= now + 1800)%Z by (unfold e; lia).
  split; [apply Z.ltb_lt|]. split; [intros ?%Z.ltb_lt; lia|]. split.
  - intros Ht. destruct (Z.leb_spec e t); [lia|]. rewrite to_signed_small by (unfold in_signed; lia). lia.
  - intros Ht. destruct (Z.ltb_spec t e), (Z.leb_spec e t); try lia; try done.
    rewrite to_signed_small by (unfold in_signed; lia). symmetry. apply negb_true_iff, Z.eqb_neq. lia.
Qed.

(** ** Setup codes *)

(** [compare(0, 4, "SPK-") != 0] on an id longer than four characters. *)
(* [src/streamer/src/provisioning/AutoPairWorker.cpp:4-7] deriveSetupCode *)
Definition deriveSetupCode (device_id : string) : string :=
  match strip_prefix "SPK-" device_id with
  | Some rest => if String.eqb rest "" then "" else "SETUP-" +:+ rest
  | None => ""
  end.

(** The code an unpaired speaker opens its pairing window with. *)
(* [src/src/main/Application.cpp:617-617] Application::startup *)
Definition speaker_setup_code (device_id : string) : string := "SETUP-" +:+ str_drop 4 device_id.

(** The streamer derives the code the speaker shows from the id the speaker announces. *)
Lemma derived_code_matches id : deriveSetupCode id <> "" -> deriveSetupCode id = speaker_setup_code id.
Proof.
  unfold deriveSetupCode, speaker_setup_code. destruct (strip_prefix "SPK-" id) as [rest|] eqn:E; [|done].
  apply strip_prefix_Some in E as ->. destruct (String.eqb_spec rest ""); [done|]. done.
Qed.

(** ** The pairing client *)

Section Client.
Context {J : JsonLib} {Cr : Crypto}.
Variable fromBase64 : string -> Result string.
(** [sealTo]: a message sealed to a public key. *)
Variable sealTo : string -> string -> Result string.

(* [src/streamer/src/pairing/PairingClient.h:11-21] PairingParams *)
Record PairingParams := mk_params
  { a_streamer_id : string; a_public_key : string; a_secret_key : string; a_site_id : string;
    a_speaker_name : string; a_setup_code : string; a_ssid : string; a_psk : string; a_box_key : string }.

(* [src/streamer/src/pairing/PairingClient.h:23-27] PairingReply *)
Record PairingReply := mk_pairing_reply { y_ok : bool; y_message : string; y_device_id : string }.

(* [src/streamer/src/pairing/PairingClient.cpp:19-20] PairingClient::pair *)
Definition wifi_json (p : PairingParams) : json := jobj [("ssid", jstr (a_ssid p)); ("psk", jstr (a_psk p))].

(* [src/streamer/src/pairing/PairingClient.cpp:27-33] PairingClient::pair *)
Definition unsigned_request (p : PairingParams) (sealed_b64 : string) : PairingRequest :=
  mk_pairing_request (a_streamer_id p) (a_public_key p) (a_site_id p) (a_speaker_name p) (a_setup_code p)
    sealed_b64 "".

Definition sign_request (q : PairingRequest) (sig : string) : PairingRequest :=
  mk_pairing_request (q_streamer_id q) (q_streamer_public_key q) (q_site_id q) (q_initial_speaker_name q)
    (q_setup_code q) (q_sealed_wifi_b64 q) sig.

(* [src/streamer/src/pairing/PairingClient.cpp:39-46] PairingClient::pair *)
Definition pairing_json (q : PairingRequest) : json :=
  jobj [("type", jstr "pairing"); ("streamer_id", jstr (q_streamer_id q));
        ("streamer_public_key", jstr (q_streamer_public_key q)); ("site_id", jstr (q_site_id q));
        ("initial_speaker_name", jstr (q_initial_speaker_name q)); ("setup_code", jstr (q_setup_code q));
        ("sealed_wifi", jstr (q_sealed_wifi_b64 q)); ("signature", jstr (q_signature_b64 q))].

(* [src/streamer/src/pairing/PairingClient.cpp:51-61] PairingClient::pair *)
Definition parse_pairing_reply (text : string) : Try (Result PairingReply) :=
  match parse text with
  | Throw what => Done (Failure (error ErrorCode.InvalidArg ("bad pairing response: " +:+ what)))
  | Done j =>
      ok ← value_bool j "ok" false;
      message ← value_string j "message" "";
      id ← value_string j "device_id" "";
      mret (Value (mk_pairing_reply ok message id))
  end.

(** The signed request, or the error of the step that failed. *)
(* [src/streamer/src/pairing/PairingClient.cpp:16-36] PairingClient::pair *)
Definition make_request (p : PairingParams) : Result PairingRequest :=
  match fromBase64 (a_box_key p) with
  | Failure _ => Failure (error ErrorCode.InvalidArg "bad speaker box_public_key")
  | Value box_pk =>
      match sealTo box_pk (dump (wifi_json p)) with
      | Failure s => Failure s
      | Value sealed =>
          let q := unsigned_request p (toBase64 sealed) in
          match signEd25519Base64 (request_text q) (a_secret_key p) with
          | Failure s => Failure s
          | Value sig => Value (sign_request q sig)
          end
      end
  end.

Section Transport.
Context {W E : Type}.
Variable request : string -> Z -> string -> SW W E (Result string).

(* [src/streamer/src/pairing/PairingClient.cpp:15-62] PairingClient::pair *)
Definition pair (host : string) (port : Z) (p : PairingParams) : SW W E (Try (Result PairingReply)) :=
  match make_request p with
  | Failure s => mret (Done (Failure s))
  | Value q =>
      resp ← request host port (dump (pairing_json q));
      match resp with
      | Failure s => mret (Done (Failure s))
      | Value text => mret (parse_pairing_reply text)
      end
  end.

(** ** Registration *)

Context {F : FileSystem} {AW : AtomicWriter F}.

(* [src/streamer/src/app/StreamerApp.cpp:94-96] StreamerApp::pairAndRegister *)
Record StreamerIdentity := mk_streamer_identity { id_ : string; public_ : string; secret_ : string }.

(** The parts of the application that pairing touches; without a configuration path there
    is no manager, and the zones exist once the start-up has made them. *)
(* [src/streamer/src/app/StreamerApp.h:140-160] StreamerApp *)
Record App := mk_app
  { identity_ : StreamerIdentity; registry_ : SpeakerRegistry; zone_list : option (list Zone);
    dsp_settings : option json; cfg_mgr : option StreamerConfigManager; out : W }.

Inductive AEffect := ASave (d : Disk) | AOut (e : E).

Definition set_registry (l : SpeakerRegistry) (a : App) : App :=
  mk_app (identity_ a) l (zone_list a) (dsp_settings a) (cfg_mgr a) (out a).
Definition set_out (w : W) (a : App) : App :=
  mk_app (identity_ a) (registry_ a) (zone_list a) (dsp_settings a) (cfg_mgr a) w.
Definition set_cfg (m : option StreamerConfigManager) (a : App) : App :=
  mk_app (identity_ a) (registry_ a) (zone_list a) (dsp_settings a) m (out a).

Definition on_out {A} (f : SW W E A) : SW App AEffect A := fun a =>
  (value_of f (out a), set_out (state_after f (out a)) a, AOut <$> effects_of f (out a)).

(* [src/streamer/src/app/StreamerApp.cpp:536-543] StreamerApp::persist *)
Definition record_of (s : Speaker) : SpeakerRecord :=
  mk_speaker_record (Speakers.device_id s) (sp_name s) (host s) (control_port s) "" "" 0.

(* [src/streamer/src/app/StreamerApp.cpp:534-551] StreamerApp::persist *)
Definition rebuild (a : App) (c : StreamerConfig) : StreamerConfig :=
  mk_streamer_config (schema c) (identity c) (record_of <$> registry_ a)
    (match zone_list a with
     | Some l => (fun z => mk_zone_record (zone_id z) (Zones.z_name z) (members z)) <$> l
     | None => []
     end)
    (audio_settings c) (default (dsp c) (dsp_settings a)) (network_settings c) (web c) (log_level_ c).

(* [src/streamer/src/app/StreamerApp.cpp:532-552] StreamerApp::persist *)
Definition persist_app : SW App AEffect unit := fun a =>
  match cfg_mgr a with
  | None => ((), a, [])
  | Some m =>
      let f := update_config (rebuild a) in
      ((), set_cfg (Some (state_after f m)) a, ASave <$> effects_of f m)
  end.

(* [src/streamer/src/app/StreamerApp.cpp:94-96] StreamerApp::pairAndRegister *)
Definition with_identity (i : StreamerIdentity) (p : PairingParams) : PairingParams :=
  mk_params (id_ i) (public_ i) (secret_ i) (a_site_id p) (a_speaker_name p) (a_setup_code p)
    (a_ssid p) (a_psk p) (a_box_key p).

(* [src/streamer/src/app/StreamerApp.cpp:91-109] StreamerApp::pairAndRegister *)
Definition pairAndRegister (connect_host : string) (params : PairingParams) (stored_host : string)
    (name_for : string -> string) : SW App AEffect (Try (Result PairingReply)) :=
  a ← get;
  reply ← on_out (pair connect_host 45455 (with_identity (identity_ a) params));
  match reply with
  | Done (Value y) =>
      if y_ok y then
        modify (fun a => set_registry
          (upsert (mk_speaker (y_device_id y) (name_for (y_device_id y)) stored_host 45455) (registry_ a)).2 a);;
        persist_app;;
        mret reply
      else mret reply
  | _ => mret reply
  end.

(** ** The zero-touch sweep *)

(* [src/streamer/src/discovery/IStreamerDiscovery.h:21-27] DiscoveredSpeaker *)
Record DiscoveredSpeaker := mk_discovered
  { d_device_id : string; d_host : string; d_box_public_key : string; d_control_port : Z; d_setup_mode : bool }.

(** The closure [PairFn] of the start-up. *)
(* [src/streamer/src/app/StreamerApp.cpp:218-234] StreamerApp::startup *)
Definition auto_pair (d : DiscoveredSpeaker) (code : string) : SW App AEffect (Try bool) :=
  reply ← pairAndRegister (d_host d)
            (mk_params "" "" "" "default" (d_device_id d) code "" "" (d_box_public_key d)) (d_host d) id;
  match reply with
  | Throw what => mret (Throw what)
  | Done (Value y) => mret (Done (y_ok y))
  | Done (Failure _) => mret (Done false)
  end.

(** The loop over the speakers found; [clock k] is the time at the [k]-th look at the
    window.  The window is read afresh for each speaker ([window k]), since a request of
    the dashboard may close it. *)
(* [src/streamer/src/provisioning/AutoPairWorker.cpp:20-28] AutoPairWorker::sweepOnce *)
Fixpoint sweep_speakers (window : nat -> ProvisioningWindow) (clock : nat -> Z) (k : nat)
    (l : list DiscoveredSpeaker) (paired : nat) : SW App AEffect (Try nat) :=
  match l with
  | [] => mret (Done paired)
  | d :: l =>
      a ← get;
      let code := deriveSetupCode (d_device_id d) in
      if negb (d_setup_mode d) then sweep_speakers window clock k l paired
      else if bool_decide (is_Some (get_speaker (d_device_id d) (registry_ a)))
      then sweep_speakers window clock k l paired
      else if String.eqb code "" then sweep_speakers window clock k l paired
      else if negb (isOpen (clock k) (window k)) then mret (Done paired)
      else
        r ← auto_pair d code;
        match r with
        | Throw what => mret (Throw what)
        | Done b => sweep_speakers window clock (S k) l (if b : bool then S paired else paired)
        end
  end.

(* [src/streamer/src/provisioning/AutoPairWorker.cpp:14-30] AutoPairWorker::sweepOnce *)
Definition sweepOnce (window : nat -> ProvisioningWindow) (clock : nat -> Z)
    (browse : SW W E (Result (list DiscoveredSpeaker))) : SW App AEffect (Try nat) :=
  if negb (isOpen (clock 0) (window 0)) then mret (Done 0)
  else
    found ← on_out browse;
    match found with
    | Failure _ => mret (Done 0)
    | Value l => sweep_speakers window clock 1 l 0
    end.
End Transport.
End Client.

(** ** The speaker's end *)

Section Handler.
Context {J : JsonLib} {F : FileSystem} {AW : AtomicWriter F} {Cr : Crypto}.
Variable openSealed : string -> Result string.
Variable secrets_dir : string.

Inductive HandlerEffect := HPair (e : PairEffect) | HJoin (ssid psk : string).

Abbreviation H := (SW PairingService HandlerEffect).

Definition on_service {A} (f : SW PairingService PairEffect A) : H A := fun s =>
  (value_of f s, state_after f s, HPair <$> effects_of f s).

(* [src/src/main/Application.cpp:207-216] Application::buildServices, the pairing handler *)
Definition request_of_json (raw : string) : Try PairingRequest :=
  j ← parse raw;
  id ← value_string j "streamer_id" "";
  key ← value_string j "streamer_public_key" "";
  site ← value_string j "site_id" "";
  name ← value_string j "initial_speaker_name" "";
  code ← value_string j "setup_code" "";
  sealed ← value_string j "sealed_wifi" "";
  sig ← value_string j "signature" "";
  mret (mk_pairing_request id key site name code sealed sig).

(* [src/src/main/Application.cpp:218-221] Application::buildServices, the pairing handler *)
Definition refusal (message : string) : string :=
  dump (jobj [("type", jstr "pairing_result"); ("ok", jbool false); ("message", jstr message)]).

(* [src/src/main/Application.cpp:248-250] Application::buildServices, the pairing handler *)
Definition acceptance (device_id : string) : json :=
  jobj [("type", jstr "pairing_result"); ("ok", jbool true); ("device_id", jstr device_id)].

(** [have_uplink] is what the network says after the pairing. *)
(* [src/src/main/Application.cpp:206-251] Application::buildServices, the pairing handler *)
Definition pairing_handler (have_uplink : bool) (device_id : string) (now : Z) (raw : string) : H string :=
  match request_of_json raw with
  | Throw what => mret (refusal ("bad pairing json: " +:+ what))
  | Done q =>
      res ← on_service (processRequest openSealed secrets_dir q now);
      match res with
      | Failure s => mret (refusal (message s))
      | Value r =>
          when (negb have_uplink && negb (String.eqb (w_ssid (p_wifi r)) ""))
            (tell [HJoin (w_ssid (p_wifi r)) (w_psk (p_wifi r))]);;
          mret (dump (acceptance device_id))
      end
  end.

Context {L : JsonLaws J} {FL : FileSystemLaws F}.

(** The handler reads the request the client wrote. *)
Lemma request_round_trip q : dumpable (pairing_json q) -> request_of_json (dump (pairing_json q)) = Done q.
Proof.
  intros Hd. unfold request_of_json. rewrite parse_dump by done. unfold pairing_json, value_string.
  cbn [mbind Try_bind]. rewrite !value_or_obj. cbn [assoc String.eqb Ascii.eqb Bool.eqb].
  rewrite !get_string_str. by destruct q.
Qed.

Lemma wifi_round_trip p : dumpable (wifi_json p) -> wifi_of (dump (wifi_json p)) = Done (mk_wifi (a_ssid p) (a_psk p)).
Proof.
  intros Hd. unfold wifi_of. rewrite parse_dump by done. unfold wifi_json, at_. cbn [mbind Try_bind].
  rewrite !jfind_obj. cbn [assoc String.eqb Ascii.eqb Bool.eqb mbind Try_bind]. by rewrite !get_string_str.
Qed.

(** A proven request passes the validator. *)
Lemma proven_valid q expected now expiry :
  proven q expected now expiry -> q_sealed_wifi_b64 q <> "" ->
  status_ok (validate_request q expected now expiry) = true.
Proof.
  intros (Hid & Hk & He & Hc & Hn & Hv) Hs. unfold validate_request.
  destruct (String.eqb_spec (q_streamer_id q) "") as [E|_]; [by rewrite E in Hid|].
  destruct (String.eqb_spec (q_streamer_public_key q) ""); [done|]. cbn [orb]. rewrite Hid. cbn [negb].
  destruct (String.eqb_spec expected ""); [done|]. destruct (Z.ltb_spec expiry now); [lia|].
  rewrite Hc, String.eqb_refl. cbn [negb].
  destruct (String.eqb_spec (q_sealed_wifi_b64 q) ""); [done|]. by rewrite Hv.
Qed.

(** A proven request whose box opens and whose pairing the disk takes. *)
Lemma processRequest_accepts q now s opened wifi :
  let r := mk_pairing_result (q_streamer_id q) (q_streamer_public_key q) (q_site_id q)
             (q_initial_speaker_name q) wifi in
  setup_mode_ s = true -> proven q (setup_code_ s) now (code_expiry_epoch_ s) ->
  q_sealed_wifi_b64 q <> "" -> openSealed (q_sealed_wifi_b64 q) = Value opened -> wifi_of opened = Done wifi ->
  status_ok (value_of (persistPairing secrets_dir r) s) = true ->
  value_of (processRequest openSealed secrets_dir q now) s = Value r /\
  setup_mode_ (state_after (processRequest openSealed secrets_dir q now) s) = false /\
  config_ (mgr (state_after (processRequest openSealed secrets_dir q now) s)) = with_pairing r (config_ (mgr s)).
Proof.
  intros r Hm Hp Hs Ho Hw Hok. pose proof (proven_valid _ _ _ _ Hp Hs) as Hv.
  destruct (persistPairing_spec secrets_dir r s) as (_ & _ & _ & _ & Hcfg & _). specialize (Hcfg Hok).
  unfold processRequest. rewrite !value_of_bind, !state_after_bind.
  change (value_of get s) with s. change (state_after get s) with s. rewrite Hm, Hv, Ho, Hw. cbn [negb].
  rewrite !value_of_bind, !state_after_bind. fold r. rewrite Hok. cbn [negb].
  rewrite !value_of_bind, !state_after_bind. unfold value_of, state_after.
  rewrite !pair_publish_run. by split_and!.
Qed.
End Handler.

Arguments mk_app {J W F} _ _ _ _ _ _.
Arguments identity_ {J W F} _.
Arguments registry_ {J W F} _.
Arguments cfg_mgr {J W F} _.
Arguments out {J W F} _.
Arguments ASave {E F} _.
Arguments AOut {E F} _.

(** [pairAndRegister] when the handshake succeeds: register, then save. *)
Section Register.
Context {J : JsonLib} {Cr : Crypto} {W E : Type} {F : FileSystem} {AW : AtomicWriter F}.
Variables (fromBase64 : string -> Result string) (sealTo : string -> string -> Result string).
Variable request : string -> Z -> string -> SW W E (Result string).

Definition saved (a : App (W:=W)) : App :=
  set_cfg ((fun m => state_after (update_config (rebuild a)) m) <$> cfg_mgr a) a.
Definition save_points (a : App (W:=W)) : list Disk :=
  match cfg_mgr a with Some m => effects_of (update_config (rebuild a)) m | None => [] end.

Lemma persist_app_run a : persist_app (E:=E) a = ((), saved a, ASave <$> save_points a).
Proof. unfold persist_app, saved, save_points. destruct a as [i l z d [m|] w]; done. Qed.

Lemma pairAndRegister_ok host params stored name_for a y w es :
  pair fromBase64 sealTo request host 45455 (with_identity (identity_ a) params) (out a) =
    (Done (Value y), w, es) -> y_ok y = true ->
  let a1 := set_registry (upsert (mk_speaker (y_device_id y) (name_for (y_device_id y)) stored 45455)
                            (registry_ a)).2 (set_out w a) in
  pairAndRegister fromBase64 sealTo request host params stored name_for a =
    (Done (Value y), saved a1, (AOut <$> es) ++ (ASave <$> save_points a1)).
Proof.
  intros Hp Hy a1. unfold pairAndRegister, mbind, SW_bind, get, on_out, value_of, state_after, effects_of.
  rewrite Hp. cbn [fst snd]. rewrite Hy. unfold modify. fold (set_out w a).
  change (set_registry _ (set_out w a)) with a1. rewrite persist_app_run. cbn. by rewrite app_nil_r.
Qed.

(** Saving lists exactly the registry; the keys and delays of the records are dropped. *)
Lemma saved_speakers a :
  match cfg_mgr (saved a) with
  | Some c => speakers (m_config c) = record_of <$> registry_ (saved a)
  | None => cfg_mgr a = None
  end.
Proof.
  destruct a as [i l z d [m|] w]; [|done]. unfold saved. cbn [cfg_mgr fmap option_fmap set_cfg registry_ option_map].
  unfold state_after. by rewrite update_config_run.
Qed.

(** The file after the save: the new configuration where the write succeeds, what it was
    where it does not. *)
Lemma saved_file {FL : FileSystemLaws F} a m :
  cfg_mgr a = Some m ->
  exists m', cfg_mgr (saved a) = Some m' /\ m_path m' = m_path m /\
    let text := dump_indented (streamer_to_json (m_config m')) in
    if status_ok (value_of (save_text (m_path m) text) (m_disk m))
    then visible (m_disk m') (m_path m) = Some text
    else same_file (m_path m) (m_disk m) (m_disk m').
Proof.
  intros Hm. eexists. split; [unfold saved; cbn [cfg_mgr set_cfg]; by rewrite Hm|].
  unfold state_after. rewrite update_config_run. cbv zeta. cbn [fst snd m_path m_config m_disk]. split; [done|].
  destruct (save_text_spec (m_path m) (dump_indented (streamer_to_json (rebuild a (m_config m)))) (m_disk m)) as [Hok Herr _].
  destruct (status_ok _) eqn:Hw; [by apply Hok|by apply Herr].
Qed.

Lemma saved_keys_dropped a c :
  cfg_mgr (saved a) = Some c ->
  Forall (fun r => s_public_key r = "" /\ s_box_public_key r = "" /\ s_delay_ms r = 0%Z) (speakers (m_config c)).
Proof.
  intros Hc. pose proof (saved_speakers a) as H. rewrite Hc in H. rewrite H.
  apply Forall_fmap, Forall_forall. by intros s _.
Qed.
End Register.

(** The effects outside the streamer. *)
Definition outside_effect {E} `{!FileSystem} (e : AEffect (E:=E)) : option E :=
  match e with AOut e => Some e | ASave _ => None end.

Lemma omap_out_effects {E} `{!FileSystem} (l : list E) : omap outside_effect (AOut <$> l) = l.
Proof. induction l as [|e l IH]; [done|]. cbn. by rewrite IH. Qed.

Lemma omap_save_effects {E} `{!FileSystem} l : omap (outside_effect (E:=E)) (ASave <$> l) = [].
Proof. by induction l. Qed.

(** ** The streamer and the speaker together *)

Section EndToEnd.
Context {J : JsonLib} {L : JsonLaws J} {F : FileSystem} {FL : FileSystemLaws F} {AW : AtomicWriter F}
  {Cr : Crypto} {CL : CryptoLaws Cr}.
Variables (openSealed : string -> Result string) (secrets_dir : string).
Variables (fromBase64 : string -> Result string) (sealTo : string -> string -> Result string).
Variables (uplink : bool) (device : string) (now : Z).

Abbreviation handler := (pairing_handler openSealed secrets_dir uplink device now).

(** The networks the speaker was told to join. *)
Definition joins (es : list HandlerEffect) : list (string * string) :=
  omap (fun e => match e with HJoin s p => Some (s, p) | HPair _ => None end) es.

Lemma joins_pair l : joins (HPair <$> l) = [].
Proof. by induction l. Qed.

(** A transport that delivers pairing requests to the speaker's handler. *)
Definition delivers_pairing (request : string -> Z -> string -> SW PairingService HandlerEffect (Result string))
    (host : string) (port : Z) : Prop :=
  forall line s reply s' es, handler line s = (reply, s', es) -> request host port line s = (Value reply, s', es).

(** What both sides need for a pairing: the request [q] made from the parameters [p] with
    the box [sealed] and the signature [sig], and a speaker [s] in setup mode. *)
Record pairable (p : PairingParams) (pk sealed sig : string) (s : PairingService) : Prop := {
  pb_key : a_public_key p = public_key_of (a_secret_key p) /\ a_public_key p <> "";
  pb_id : isWellFormedStreamerId (a_streamer_id p) = true;
  pb_box : fromBase64 (a_box_key p) = Value pk /\ sealTo pk (dump (wifi_json p)) = Value sealed /\
           toBase64 sealed <> "" /\ openSealed (toBase64 sealed) = Value (dump (wifi_json p));
  pb_sig : signEd25519Base64 (request_text (unsigned_request p (toBase64 sealed))) (a_secret_key p) = Value sig;
  pb_code : setup_mode_ s = true /\ setup_code_ s = a_setup_code p /\ a_setup_code p <> "" /\
            (now <= code_expiry_epoch_ s)%Z;
  pb_dump : dumpable (wifi_json p) /\ dumpable (acceptance device) /\
            dumpable (pairing_json (sign_request (unsigned_request p (toBase64 sealed)) sig));
  (** the speaker's disk takes the secrets and the configuration *)
  pb_disk : status_ok (value_of (persistPairing secrets_dir
    (mk_pairing_result (a_streamer_id p) (a_public_key p) (a_site_id p) (a_speaker_name p)
       (mk_wifi (a_ssid p) (a_psk p)))) s) = true
}.

Lemma parse_acceptance : dumpable (acceptance device) ->
  parse_pairing_reply (dump (acceptance device)) = Done (Value (mk_pairing_reply true "" device)).
Proof.
  intros Hd. unfold parse_pairing_reply. rewrite parse_dump by done.
  unfold acceptance, value_bool, value_string. rewrite !value_or_obj.
  cbn [assoc String.eqb Ascii.eqb Bool.eqb]. by rewrite get_bool_bool, get_string_str.
Qed.

(** The exchange: the speaker accepts, and holds what the streamer sent. *)
Lemma pair_accepted request host p pk sealed sig s :
  delivers_pairing request host 45455 -> pairable p pk sealed sig s ->
  exists s' es, pair fromBase64 sealTo request host 45455 p s = (Done (Value (mk_pairing_reply true "" device)), s', es) /\
    setup_mode_ s' = false /\
    config_ (mgr s') = with_pairing (mk_pairing_result (a_streamer_id p) (a_public_key p) (a_site_id p)
                         (a_speaker_name p) (mk_wifi (a_ssid p) (a_psk p))) (config_ (mgr s)) /\
    joins es = if uplink || String.eqb (a_ssid p) "" then [] else [(a_ssid p, a_psk p)].
Proof.
  intros Hdel [[Hk Hk'] Hid (Hb1 & Hb2 & Hb3 & Hb4) Hsig (Hm & Hc & Hc' & Hn) (Hd1 & Hd2 & Hd3) Hdisk].
  set (q := sign_request (unsigned_request p (toBase64 sealed)) sig) in *.
  destruct (verify_sign _ _ _ Hsig) as [_ Hver].
  assert (proven q (setup_code_ s) now (code_expiry_epoch_ s)) as Hproven.
  { split_and!; try done; [by rewrite Hc|]. cbn. rewrite Hk. exact Hver. }
  destruct (processRequest_accepts openSealed secrets_dir q now s (dump (wifi_json p)) (mk_wifi (a_ssid p) (a_psk p)) Hm Hproven
              Hb3 Hb4 (wifi_round_trip p Hd1) Hdisk) as (Hv & Hsm & Hcfg).
  set (run := processRequest openSealed secrets_dir q now) in *.
  assert (handler (dump (pairing_json q)) s =
          (dump (acceptance device), state_after run s,
           (HPair <$> effects_of run s) ++
           if uplink || String.eqb (a_ssid p) "" then [] else [HJoin (a_ssid p) (a_psk p)])) as Hh.
  { unfold pairing_handler. rewrite request_round_trip by done. fold run.
    rewrite bind_run. change (value_of (on_service run) s) with (value_of run s).
    change (state_after (on_service run) s) with (state_after run s).
    change (effects_of (on_service run) s) with (HPair <$> effects_of run s). rewrite Hv. cbv beta iota.
    rewrite !value_of_bind, !state_after_bind, !effects_of_bind.
    cbn [p_wifi w_ssid w_psk]. by destruct uplink, (String.eqb (a_ssid p) ""). }
  exists (state_after run s), ((HPair <$> effects_of run s) ++
    if uplink || String.eqb (a_ssid p) "" then [] else [HJoin (a_ssid p) (a_psk p)]).
  split_and!; [|done|done|].
  - unfold pair, make_request. rewrite Hb1, Hb2, Hsig. fold q.
    rewrite bind_run. unfold value_of, state_after, effects_of. rewrite (Hdel _ _ _ _ _ Hh). cbn [fst snd].
    rewrite parse_acceptance by done. cbn [mret SW_ret fst snd]. by rewrite app_nil_r.
  - unfold joins. rewrite omap_app. fold (joins (HPair <$> effects_of run s)). rewrite joins_pair.
    by destruct (uplink || _).
Qed.
End EndToEnd.

(** ** Properties *)

(** C2: Pairing joins the two sides.  Let the speaker be in setup mode with the code the
    streamer presents, the transport deliver, the box open on the speaker and its disk take
    the result.  Then [pairAndRegister] reports success; the speaker's configuration names
    the streamer and its key, and setup mode is over; the speaker joins the network it was
    sent exactly when it has no uplink and a network was sent; and the streamer's registry
    has the speaker under the given host and name and every other speaker as before.  The
    streamer's configuration in memory then lists exactly the registry, and its file on the
    disk holds that configuration if the disk takes the write; if it does not, the file is
    as it was - and the pairing is reported as successful all the same. *)
Theorem pairing_end_to_end (J : JsonLib) (L : JsonLaws J) (F : FileSystem) (FL : FileSystemLaws F)
    (AW : AtomicWriter F) (Cr : Crypto) (CL : CryptoLaws Cr) openSealed secrets_dir fromBase64 sealTo
    uplink device now request host stored name_for params pk sealed sig
    (a : App (W:=PairingService)) :
  let p := with_identity (identity_ a) params in
  delivers_pairing openSealed secrets_dir uplink device now request host 45455 ->
  pairable openSealed secrets_dir fromBase64 sealTo device now p pk sealed sig (out a) ->
  let m := pairAndRegister fromBase64 sealTo request host params stored name_for in
  let a' := state_after m a in
  value_of m a = Done (Value (mk_pairing_reply true "" device)) /\
  pairing (config_ (mgr (out a'))) = mk_pairing true (id_ (identity_ a)) (public_ (identity_ a)) /\
  setup_mode_ (out a') = false /\
  joins (omap outside_effect (effects_of m a)) =
    (if uplink || String.eqb (a_ssid params) "" then [] else [(a_ssid params, a_psk params)]) /\
  (forall id, get_speaker id (registry_ a') =
     if String.eqb device id then Some (mk_speaker device (name_for device) stored 45455)
     else get_speaker id (registry_ a)) /\
  match cfg_mgr a with
  | None => cfg_mgr a' = None
  | Some c => exists c',
      cfg_mgr a' = Some c' /\ m_path c' = m_path c /\
      speakers (m_config c') =
        (fun s => mk_speaker_record (Speakers.device_id s) (sp_name s) (Speakers.host s) (control_port s) "" "" 0) <$> registry_ a' /\
      let text := dump_indented (streamer_to_json (m_config c')) in
      if status_ok (value_of (save_text (m_path c) text) (m_disk c))
      then visible (m_disk c') (m_path c) = Some text
      else same_file (m_path c) (m_disk c) (m_disk c')
  end.
Proof.
  intros p Hdel Hp m a'.
  destruct (pair_accepted openSealed secrets_dir fromBase64 sealTo uplink device now request host p pk
              sealed sig (out a) Hdel Hp) as (s' & es & Hpair & Hsm & Hcfg & Hj).
  pose proof (pairAndRegister_ok fromBase64 sealTo request host params stored name_for a _ s' es Hpair eq_refl) as Hm.
  cbv zeta in Hm. cbn [y_device_id] in Hm. fold m in Hm. set (a1 := set_registry _ _) in Hm.
  unfold a', value_of, state_after, effects_of. rewrite Hm. cbn [fst snd].
  split_and!; [done|..].
  - change (out (saved a1)) with s'. by rewrite Hcfg.
  - exact Hsm.
  - rewrite omap_app, omap_out_effects, omap_save_effects, app_nil_r. exact Hj.
  - intros id. change (registry_ (saved a1)) with (upsert (mk_speaker device (name_for device) stored 45455) (registry_ a)).2.
    apply get_speaker_upsert.
  - assert (cfg_mgr a1 = cfg_mgr a) as Hc1 by done. destruct (cfg_mgr a) as [c|].
    + destruct (saved_file a1 c Hc1) as (c' & Hc' & Hpath & Hfile). exists c'. split; [exact Hc'|].
      split; [exact Hpath|]. split; [|exact Hfile].
      pose proof (saved_speakers a1) as Hs. rewrite Hc' in Hs. exact Hs.
    + unfold saved. cbn [cfg_mgr set_cfg]. by rewrite Hc1.
Qed.

Section Witnesses.
#[local] Existing Instance mdisk_laws.
#[local] Existing Instance posix_writer.

Definition demo_params : PairingParams := mk_params "" "" "" "site" "Kitchen" "4711" "home" "secret" "box".
Definition demo_app : App (J:=jvalue_lib) (W:=PairingService) :=
  mk_app (mk_streamer_identity "STR-0123abcd" "key" "key") [] (Some []) None (Some demo_streamer) demo_service.

(** A direct line to the speaker's handler. *)
Definition demo_pairing_line (_ : string) (_ : Z) (line : string) :
    SW PairingService HandlerEffect (Result string) := fun s =>
  let '(r, s', es) := pairing_handler (Cr:=demo_crypto) (fun s => Value s) "secrets" false "SPK-1" 1500 line s in
  (Value r, s', es).

Lemma pairing_end_to_end_witness :
  let m := pairAndRegister (Cr:=demo_crypto) (fun s => Value s) (fun _ m => Value m) demo_pairing_line
             "10.0.0.7" demo_params "10.0.0.7" (fun _ => "Kitchen"%string) in
  let a' := state_after m demo_app in
  value_of m demo_app = Done (Value (mk_pairing_reply true "" "SPK-1")) /\
  streamer_public_key (pairing (config_ (mgr (out a')))) = "key"%string /\
  joins (omap outside_effect (effects_of m demo_app)) = [("home", "secret")]%string /\
  get_speaker "SPK-1" (registry_ a') = Some (mk_speaker "SPK-1" "Kitchen" "10.0.0.7" 45455) /\
  exists c', cfg_mgr a' = Some c' /\
    visible (m_disk c') (m_path demo_streamer) = Some (dump_indented (streamer_to_json (m_config c'))).
Proof.
  intros m a'.
  set (p := with_identity (identity_ demo_app) demo_params).
  set (box := dump (wifi_json p)).
  destruct (pairing_end_to_end jvalue_lib jvalue_laws mdisk_system mdisk_laws posix_writer demo_crypto
    demo_crypto_laws (fun s => Value s) "secrets" (fun s => Value s) (fun _ m => Value m) false "SPK-1" 1500
    demo_pairing_line "10.0.0.7" "10.0.0.7" (fun _ => "Kitchen"%string) demo_params "box" box
    ("sig:key:" +:+ request_text (unsigned_request p box)) demo_app) as (Hv & Hc & _ & Hj & Hg & Hf).
  - intros line s reply s' es H. unfold demo_pairing_line. by rewrite H.
  - split.
    + done.
    + vm_compute. reflexivity.
    + split_and!; [done|done| |done]. vm_compute. discriminate.
    + reflexivity.
    + split_and!; try done.
    + done.
    + vm_compute. reflexivity.
  - split; [exact Hv|]. split; [exact (f_equal streamer_public_key Hc)|]. split; [exact Hj|].
    split; [exact (Hg "SPK-1"%string)|]. change (cfg_mgr demo_app) with (Some demo_streamer) in Hf.
    destruct Hf as (c' & Hc' & _ & _ & Hfile). exists c'. split; [exact Hc'|]. cbv zeta in Hfile.
    assert (match cfg_mgr a' with
            | Some c => status_ok (value_of (save_text (m_path demo_streamer) (dump_indented (streamer_to_json (m_config c))))
                                     (m_disk demo_streamer))
            | None => false end = true) as Hok by (vm_compute; reflexivity).
    change (cfg_mgr a' = Some c') in Hc'. rewrite Hc' in Hok. rewrite Hok in Hfile. exact Hfile.
Defined.
End Witnesses.
