(* ===== verification/ReedSolomon.v ===== *)
(** * Reed-Solomon codewords of the QR encoder

    [src/web/QrEncoder.cpp], first part: the tables of GF(256), the multiplication
    through logarithms, and [rsEncode], which divides the data polynomial by the
    generator.  The reference definitions are the multiplication of polynomials over
    GF(2) modulo 0x11D ([pmul]) and the evaluation of a polynomial ([poly_eval]); the
    theorem is that the coded block vanishes at every root of the generator, which is
    what a reader of the symbol checks. *)

From S2P Require Import Prelude.

Local Open Scope Z_scope.

(** ** The tables *)

Record GF := mk_gf { exp : list Z; log : list Z }.

(** One turn of the constructor's loop: from [i] and [x]. *)
(* [src/src/web/QrEncoder.cpp:16-22] GF::GF loop *)
Fixpoint gf_fill (k i : nat) (x : Z) (t : GF) : GF :=
  match k with
  | O => t
  | S k' =>
      let t' := mk_gf (<[i := x]> (exp t)) (<[Z.to_nat x := Z.of_nat i]> (log t)) in
      let x' := Z.shiftl x 1 in
      let x' := if negb (Z.land x' 256 =? 0) then Z.lxor x' 285 else x' in
      gf_fill k' (S i) x' t'
  end.

(* [src/src/web/QrEncoder.cpp:12-29] GF::GF *)
Definition GF_new : GF :=
  let t := gf_fill 255 0 1 (mk_gf (replicate 256 0) (replicate 256 0)) in
  mk_gf (<[255%nat := exp t !!! 0%nat]> (exp t)) (log t).

(* [src/src/web/QrEncoder.cpp:30-33] gf *)
Definition gf : GF := Eval vm_compute in GF_new.

Definition exp_at (i : Z) : Z := exp gf !!! Z.to_nat i.
Definition log_at (a : Z) : Z := log gf !!! Z.to_nat a.

(* [src/src/web/QrEncoder.cpp:25-28] GF::mul *)
Definition mul (a b : Z) : Z :=
  if (a =? 0) || (b =? 0) then 0 else exp_at ((log_at a + log_at b) `rem` 255).

(** ** The encoder *)

(** [next[j + 1] ^= gen[j]; next[j] ^= mul(gen[j], exp[i])] for every coefficient. *)
(* [src/src/web/QrEncoder.cpp:42-45] rsEncode, one factor *)
Fixpoint gen_times (gen : list Z) (j : nat) (a : Z) (next : list Z) : list Z :=
  match gen with
  | [] => next
  | g :: gen' =>
      gen_times gen' (S j) a (alter (fun y => Z.lxor y (mul g a)) j
                                (alter (fun y => Z.lxor y g) (S j) next))
  end.

(* [src/src/web/QrEncoder.cpp:39-47] rsEncode, the generator *)
Fixpoint generator (k i : nat) (gen : list Z) : list Z :=
  match k with
  | O => gen
  | S k' =>
      generator k' (S i)
        (gen_times gen 0 (exp_at (Z.of_nat i)) (replicate (length gen + 1) 0))
  end.

(** [res[i + j] ^= mul(gen[j], coef)] for every coefficient of the generator. *)
(* [src/src/web/QrEncoder.cpp:58-60] rsEncode, one subtraction *)
Fixpoint subtract (res : list Z) (i : nat) (gen : list Z) (coef : Z) : list Z :=
  match gen with
  | [] => res
  | g :: gen' => subtract (alter (fun y => Z.lxor y (mul g coef)) i res) (S i) gen' coef
  end.

(* [src/src/web/QrEncoder.cpp:55-61] rsEncode, the division *)
Fixpoint divide (k i : nat) (res gen : list Z) : list Z :=
  match k with
  | O => res
  | S k' =>
      let coef := res !!! i in
      divide k' (S i) (if coef =? 0 then res else subtract res i gen coef) gen
  end.

(* [src/src/web/QrEncoder.cpp:36-62] rsEncode *)
Definition rsEncode (data : list Z) (ec_len : nat) : list Z :=
  let gen := reverse (generator ec_len 0 [1]) in
  let res := data ++ replicate ec_len 0 in
  drop (length data) (divide (length data) 0 res gen).

(** ** Reference definitions *)

Abbreviation byte := (in_unsigned 8).

(** Multiplication by [x] modulo x^8 + x^4 + x^3 + x^2 + 1. *)
Definition xtime (a : Z) : Z :=
  let b := Z.double a in if Z.testbit b 8 then Z.lxor b 285 else b.

(** Schoolbook multiplication: the sum of the shifts of [a] that the bits of [b]
    select. *)
Fixpoint pmul (k : nat) (a b : Z) : Z :=
  match k with
  | O => 0
  | S k' => Z.lxor (if Z.odd b then a else 0) (pmul k' (xtime a) (Z.div2 b))
  end.

Fixpoint gpow (x : Z) (k : nat) : Z :=
  match k with O => 1 | S k' => mul x (gpow x k') end.

(** The value at [x] of the polynomial whose leading coefficient comes first. *)
Fixpoint poly_eval (x : Z) (p : list Z) : Z :=
  match p with
  | [] => 0
  | c :: p' => Z.lxor (mul c (gpow x (length p'))) (poly_eval x p')
  end.

(** ** GF(256) is a field under [mul] and [Z.lxor] *)

Definition forall_bytes (P : Z -> bool) : bool := forallb P (seqZ 0 256).

Lemma forall_bytes_elim P a : forall_bytes P = true -> byte a -> P a = true.
Proof.
  unfold forall_bytes, in_unsigned. intros H Ha. rewrite forallb_forall in H. apply H.
  apply list_elem_of_In, elem_of_seqZ. lia.
Qed.

Lemma tables_checked :
  forall_bytes (fun a => (a =? 0) ||
    ((0 <=? log_at a) && (log_at a <? 255) && (exp_at (log_at a) =? a))) = true /\
  forall_bytes (fun k => (k =? 255) ||
    ((1 <=? exp_at k) && (exp_at k <? 256) && (log_at (exp_at k) =? k))) = true.
Proof. split; vm_compute; reflexivity. Qed.

Lemma log_spec a :
  byte a -> a <> 0 -> 0 <= log_at a < 255 /\ exp_at (log_at a) = a.
Proof.
  intros Ha Hn. pose proof (forall_bytes_elim _ _ (proj1 tables_checked) Ha) as H.
  cbv beta in H. apply orb_true_iff in H as [H|H]; bool_to_prop; lia.
Qed.

Lemma exp_spec k :
  0 <= k < 255 -> 1 <= exp_at k < 256 /\ log_at (exp_at k) = k.
Proof.
  intros Hk. assert (byte k) as Hb by (unfold in_unsigned; lia).
  pose proof (forall_bytes_elim _ _ (proj2 tables_checked) Hb) as H.
  cbv beta in H. apply orb_true_iff in H as [H|H]; bool_to_prop; lia.
Qed.

Lemma mul_0_l b : mul 0 b = 0.
Proof. done. Qed.

Lemma mul_0_r a : mul a 0 = 0.
Proof. unfold mul. by rewrite orb_true_r. Qed.

Lemma mul_nonzero a b :
  byte a -> byte b -> a <> 0 -> b <> 0 ->
  mul a b = exp_at ((log_at a + log_at b) `mod` 255) /\
  byte (mul a b) /\ mul a b <> 0 /\ log_at (mul a b) = (log_at a + log_at b) `mod` 255.
Proof.
  intros Ha Hb Ha0 Hb0. unfold mul.
  rewrite (proj2 (Z.eqb_neq a 0) Ha0), (proj2 (Z.eqb_neq b 0) Hb0). simpl.
  destruct (log_spec a Ha Ha0), (log_spec b Hb Hb0).
  rewrite Z.rem_mod_nonneg by lia.
  destruct (exp_spec ((log_at a + log_at b) `mod` 255)); [by apply Z.mod_pos_bound|].
  unfold in_unsigned. repeat split; lia.
Qed.

Lemma mul_byte a b : byte a -> byte b -> byte (mul a b).
Proof.
  intros Ha Hb. destruct (decide (a = 0)) as [->|]; [done|].
  destruct (decide (b = 0)) as [->|]; [by rewrite mul_0_r|].
  by apply mul_nonzero.
Qed.

Lemma mul_comm a b : mul a b = mul b a.
Proof. unfold mul. by rewrite orb_comm, Z.add_comm. Qed.

Lemma mul_assoc a b c :
  byte a -> byte b -> byte c -> mul a (mul b c) = mul (mul a b) c.
Proof.
  intros Ha Hb Hc.
  destruct (decide (a = 0)) as [->|Ha0]; [done|].
  destruct (decide (b = 0)) as [->|Hb0]; [by rewrite mul_0_l, mul_0_r, mul_0_l|].
  destruct (decide (c = 0)) as [->|Hc0]; [by rewrite !mul_0_r|].
  destruct (mul_nonzero b c) as (_ & Hbc & Hbc0 & Lbc); [done..|].
  destruct (mul_nonzero a b) as (_ & Hab & Hab0 & Lab); [done..|].
  rewrite (proj1 (mul_nonzero a _ Ha Hbc Ha0 Hbc0)), (proj1 (mul_nonzero _ c Hab Hc Hab0 Hc0)).
  rewrite Lbc, Lab, Zplus_mod_idemp_l, Zplus_mod_idemp_r. by rewrite Z.add_assoc.
Qed.

Lemma mul_1_l a : byte a -> mul 1 a = a.
Proof.
  intros Ha. destruct (decide (a = 0)) as [->|Hn]; [done|].
  rewrite (proj1 (mul_nonzero 1 a ltac:(done) Ha ltac:(lia) Hn)).
  destruct (log_spec a Ha Hn). change (log_at 1) with 0.
  rewrite Z.mod_small by lia. done.
Qed.

Lemma mul_pmul_checked :
  forall_bytes (fun a => forall_bytes (fun b => mul a b =? pmul 8 a b)) = true.
Proof. vm_compute. reflexivity. Qed.

Lemma mul_pmul a b : byte a -> byte b -> mul a b = pmul 8 a b.
Proof.
  intros Ha Hb. pose proof (forall_bytes_elim _ _ mul_pmul_checked Ha) as H.
  apply (forall_bytes_elim _ _ H) in Hb. lia.
Qed.

Lemma lxor_byte a b : byte a -> byte b -> byte (Z.lxor a b).
Proof.
  unfold in_unsigned. change (2 ^ 8) with 256. intros [??] [??].
  assert (0 <= Z.lxor a b) by (apply Z.lxor_nonneg; lia). split; [done|].
  destruct (decide (Z.lxor a b = 0)) as [->|]; [lia|].
  apply Z.log2_lt_cancel. change (Z.log2 256) with 8.
  eapply Z.le_lt_trans; [apply Z.log2_lxor; lia|].
  apply Z.max_lub_lt.
  - destruct (decide (a = 0)) as [->|]; [done|]. apply Z.log2_lt_pow2; lia.
  - destruct (decide (b = 0)) as [->|]; [done|]. apply Z.log2_lt_pow2; lia.
Qed.

Lemma lxor_swap a b c d :
  Z.lxor (Z.lxor a b) (Z.lxor c d) = Z.lxor (Z.lxor a c) (Z.lxor b d).
Proof. rewrite !Z.lxor_assoc. f_equal. rewrite <-!Z.lxor_assoc. by rewrite (Z.lxor_comm b c). Qed.

Lemma odd_lxor a b : Z.odd (Z.lxor a b) = xorb (Z.odd a) (Z.odd b).
Proof. rewrite <-!Z.bit0_odd. apply Z.lxor_spec. Qed.

Lemma div2_lxor a b : Z.div2 (Z.lxor a b) = Z.lxor (Z.div2 a) (Z.div2 b).
Proof. rewrite !Z.div2_spec. apply Z.shiftr_lxor. Qed.

Lemma pmul_lxor k a b c : pmul k a (Z.lxor b c) = Z.lxor (pmul k a b) (pmul k a c).
Proof.
  revert a b c. induction k as [|k IH]; intros a b c; simpl; [done|].
  rewrite div2_lxor, IH, odd_lxor, lxor_swap. f_equal.
  destruct (Z.odd b), (Z.odd c); simpl; by rewrite ?Z.lxor_nilpotent, ?Z.lxor_0_r, ?Z.lxor_0_l.
Qed.

Lemma mul_lxor_r a b c :
  byte a -> byte b -> byte c -> mul a (Z.lxor b c) = Z.lxor (mul a b) (mul a c).
Proof. intros. rewrite !mul_pmul by auto using lxor_byte. apply pmul_lxor. Qed.

Lemma mul_lxor_l a b c :
  byte a -> byte b -> byte c -> mul (Z.lxor a b) c = Z.lxor (mul a c) (mul b c).
Proof. intros. rewrite !(mul_comm _ c). by apply mul_lxor_r. Qed.

Lemma gpow_byte x k : byte x -> byte (gpow x k).
Proof. intros Hx. induction k; simpl; [done|]. by apply mul_byte. Qed.

Lemma gpow_add x j k : byte x -> gpow x (j + k) = mul (gpow x j) (gpow x k).
Proof.
  intros Hx. induction j as [|j IH]; simpl.
  - by rewrite mul_1_l by auto using gpow_byte.
  - rewrite IH. apply mul_assoc; auto using gpow_byte.
Qed.

(** ** Evaluation *)

(** The value at [x] when the constant coefficient comes first, the order in which the
    code builds the generator. *)
Fixpoint eval_low (x : Z) (p : list Z) : Z :=
  match p with
  | [] => 0
  | c :: p' => Z.lxor c (mul x (eval_low x p'))
  end.

Lemma eval_low_byte x p : byte x -> Forall byte p -> byte (eval_low x p).
Proof. intros Hx. induction 1; simpl; [done|]. auto using lxor_byte, mul_byte. Qed.

Lemma poly_eval_byte x p : byte x -> Forall byte p -> byte (poly_eval x p).
Proof. intros Hx. induction 1; simpl; [done|]. auto using lxor_byte, mul_byte, gpow_byte. Qed.

Lemma poly_eval_app x p q :
  byte x -> Forall byte p -> Forall byte q ->
  poly_eval x (p ++ q) =
    Z.lxor (mul (gpow x (length q)) (poly_eval x p)) (poly_eval x q).
Proof.
  intros Hx Hp Hq. induction Hp as [|c p Hc Hp IH]; simpl; [by rewrite mul_0_r|].
  rewrite IH, length_app, Nat.add_comm, gpow_add by done.
  rewrite mul_lxor_r by auto using gpow_byte, mul_byte, poly_eval_byte.
  rewrite Z.lxor_assoc. f_equal.
  rewrite (mul_comm c), <-mul_assoc by auto using gpow_byte. f_equal. apply mul_comm.
Qed.

Lemma Forall_reverse_2 (P : Z -> Prop) p : Forall P p -> Forall P (reverse p).
Proof. apply Forall_reverse. Qed.

Lemma poly_eval_reverse x p :
  byte x -> Forall byte p -> poly_eval x (reverse p) = eval_low x p.
Proof.
  intros Hx. induction 1 as [|c p Hc Hp IH]; [done|].
  rewrite reverse_cons, poly_eval_app by auto using Forall_reverse_2, Forall_singleton.
  cbn [eval_low poly_eval length gpow]. rewrite IH, (mul_comm x 1), mul_1_l by done.
  rewrite Z.lxor_0_r, (mul_comm c 1), mul_1_l by done. apply Z.lxor_comm.
Qed.

Lemma poly_eval_zeros x n p : poly_eval x (replicate n 0 ++ p) = poly_eval x p.
Proof. induction n; simpl; [done|]. by rewrite mul_0_l, Z.lxor_0_l. Qed.

(** ** The generator *)

(** What [gen_times] leaves in [next], as a recursion on the coefficients. *)
Fixpoint shift_add (y : Z) (gen : list Z) (a : Z) : list Z :=
  match gen with
  | [] => [y]
  | g :: gen' => Z.lxor y (mul g a) :: shift_add g gen' a
  end.

Lemma gen_times_shift_add gen pre y a :
  gen_times gen (length pre) a (pre ++ y :: replicate (length gen) 0) =
    pre ++ shift_add y gen a.
Proof.
  revert pre y. induction gen as [|g gen IH]; intros pre y; [done|].
  cbn [gen_times length replicate shift_add].
  rewrite (alter_app_r_alt _ _ _ (S (length pre))) by lia.
  replace (S (length pre) - length pre)%nat with 1%nat by lia. cbn [alter list_alter].
  rewrite (alter_app_r_alt _ _ _ (length pre)) by lia.
  rewrite Nat.sub_diag. cbn [alter list_alter]. rewrite Z.lxor_0_l.
  specialize (IH (pre ++ [Z.lxor y (mul g a)]) g).
  rewrite length_app, Nat.add_comm, <-!app_assoc in IH. exact IH.
Qed.

Lemma shift_add_byte y gen a :
  byte y -> byte a -> Forall byte gen -> Forall byte (shift_add y gen a).
Proof.
  intros Hy Ha Hg. revert y Hy. induction Hg; intros y Hy; simpl; constructor;
    auto using lxor_byte, mul_byte.
Qed.

Lemma shift_add_last y gen z a : exists gen', shift_add y (gen ++ [z]) a = gen' ++ [z] /\
  length gen' = S (length gen).
Proof.
  revert y. induction gen as [|g gen IH]; intros y; simpl.
  - by exists [Z.lxor y (mul z a)].
  - destruct (IH g) as (gen' & -> & Hl). exists (Z.lxor y (mul g a) :: gen'). simpl. by rewrite Hl.
Qed.

(** One round multiplies the generator by [x - a]. *)
Lemma eval_shift_add x y gen a :
  byte x -> byte y -> byte a -> Forall byte gen ->
  eval_low x (shift_add y gen a) = Z.lxor y (mul (Z.lxor x a) (eval_low x gen)).
Proof.
  intros Hx Hy Ha Hg. revert y Hy.
  induction Hg as [|g gen Hg Hgen IH]; intros y Hy; simpl.
  - by rewrite !mul_0_r.
  - pose proof (eval_low_byte x gen Hx Hgen) as He. pose proof (lxor_byte x a Hx Ha) as Hxa.
    rewrite IH by done. rewrite !mul_lxor_r by auto using mul_byte.
    rewrite (mul_lxor_l x a g) by done. rewrite (mul_comm g a).
    rewrite (mul_assoc x), (mul_assoc (Z.lxor x a) x) by done.
    rewrite (mul_comm (Z.lxor x a) x).
    rewrite !Z.lxor_assoc. f_equal. rewrite <-!Z.lxor_assoc. f_equal. apply Z.lxor_comm.
Qed.

Definition alpha (i : nat) : Z := exp_at (Z.of_nat i).

Lemma alpha_byte i : (i < 255)%nat -> byte (alpha i).
Proof. intros Hi. destruct (exp_spec (Z.of_nat i)); [lia|]. unfold in_unsigned, alpha. lia. Qed.

Lemma generator_spec k i gen :
  (i + k <= 255)%nat -> Forall byte gen ->
  Forall byte (generator k i (gen ++ [1])) /\
  (exists gen', generator k i (gen ++ [1]) = gen' ++ [1] /\ length gen' = (length gen + k)%nat) /\
  (forall x, byte x -> eval_low x (gen ++ [1]) = 0 \/ (exists r, (i <= r < i + k)%nat /\ x = alpha r) ->
     eval_low x (generator k i (gen ++ [1])) = 0).
Proof.
  revert i gen. induction k as [|k IH]; intros i gen Hk Hg.
  - simpl. split; [by apply Forall_app; split; [|repeat constructor]|]. split.
    + exists gen. by rewrite Nat.add_0_r.
    + intros x _ [Hx|(r & Hr & _)]; [done|lia].
  - cbn [generator]. fold (alpha i). set (gen1 := gen ++ [1]).
    assert (Forall byte gen1) as Hg1 by (apply Forall_app; split; [done|by repeat constructor]).
    rewrite Nat.add_comm. cbn [replicate Nat.add].
    pose proof (gen_times_shift_add gen1 [] 0 (alpha i)) as E. cbn [length app] in E. rewrite E.
    pose proof (alpha_byte i ltac:(lia)) as Ha.
    pose proof (shift_add_byte 0 gen1 (alpha i) ltac:(done) Ha Hg1) as Hb.
    pose proof (fun x Hx => eval_shift_add x 0 gen1 (alpha i) Hx ltac:(done) Ha Hg1) as Hev.
    destruct (shift_add_last 0 gen 1 (alpha i)) as (gen2 & E2 & Hl).
    subst gen1. rewrite E2 in *. apply Forall_app in Hb as [Hb _].
    destruct (IH (S i) gen2 ltac:(lia) Hb) as (H1 & (gen' & H2 & H2l) & H3).
    split; [exact H1|]. split; [exists gen'; split; [done|lia]|].
    intros x Hx Hroot. apply H3; [done|]. rewrite Hev by done.
    destruct Hroot as [H0|(r & Hr & ->)].
    + left. by rewrite H0, mul_0_r.
    + destruct (decide (r = i)) as [->|]; [|right; exists r; split; [lia|done]].
      left. by rewrite Z.lxor_nilpotent.
Qed.

(** ** The division *)

Fixpoint subtract_front (res gen : list Z) (coef : Z) : list Z :=
  match gen, res with
  | g :: gen', y :: res' => Z.lxor y (mul g coef) :: subtract_front res' gen' coef
  | _, _ => res
  end.

Lemma subtract_subtract_front gen pre res coef :
  (length gen <= length res)%nat ->
  subtract (pre ++ res) (length pre) gen coef = pre ++ subtract_front res gen coef.
Proof.
  revert pre res. induction gen as [|g gen IH]; intros pre res Hl; [by destruct res|].
  destruct res as [|y res]; simpl in Hl; [lia|]. cbn [subtract subtract_front].
  rewrite (alter_app_r_alt _ _ _ (length pre)) by lia.
  rewrite Nat.sub_diag. cbn [alter list_alter].
  specialize (IH (pre ++ [Z.lxor y (mul g coef)]) res ltac:(lia)).
  rewrite length_app, Nat.add_comm, <-!app_assoc in IH. exact IH.
Qed.

Lemma subtract_front_length res gen coef : length (subtract_front res gen coef) = length res.
Proof. revert res. induction gen; intros [|y res]; simpl; auto. Qed.

Lemma subtract_front_byte res gen coef :
  byte coef -> Forall byte gen -> Forall byte res -> Forall byte (subtract_front res gen coef).
Proof.
  intros Hc Hg. revert res. induction Hg; intros res Hr; destruct Hr; simpl; auto.
  constructor; auto using lxor_byte, mul_byte.
Qed.

Lemma eval_subtract_front x res gen coef :
  byte x -> byte coef -> Forall byte gen -> Forall byte res -> (length gen <= length res)%nat ->
  poly_eval x (subtract_front res gen coef) =
    Z.lxor (poly_eval x res)
      (mul coef (mul (gpow x (length res - length gen)) (poly_eval x gen))).
Proof.
  intros Hx Hc Hg. revert res. induction Hg as [|g gen Hg Hgen IH]; intros res Hr Hl.
  - simpl. rewrite !mul_0_r, Z.lxor_0_r. by destruct Hr.
  - destruct Hr as [|y res Hy Hr]; simpl in Hl; [lia|].
    cbn [subtract_front poly_eval length]. rewrite subtract_front_length, IH by (done || lia).
    replace (S (length res) - S (length gen))%nat with (length res - length gen)%nat by lia.
    set (u := gpow x (length res - length gen)).
    assert (gpow x (length res) = mul u (gpow x (length gen))) as ->.
    { unfold u. rewrite <-gpow_add by done. f_equal. lia. }
    assert (byte u) by (by apply gpow_byte).
    pose proof (gpow_byte x (length gen) Hx). pose proof (poly_eval_byte x gen Hx Hgen).
    rewrite mul_lxor_l, !mul_lxor_r by auto 6 using mul_byte.
    rewrite lxor_swap. f_equal. f_equal.
    rewrite (mul_comm g coef), <-mul_assoc by auto using mul_byte. f_equal.
    rewrite !(mul_comm u), (mul_assoc g) by auto using mul_byte. done.
Qed.

(** The division clears the first [k] coefficients and keeps the value at every root of
    the generator. *)
Lemma divide_spec gen : Forall byte gen -> forall k pre res,
  Forall byte res -> (k + length gen <= length res)%nat ->
  exists e, divide k (length pre) (pre ++ res) (1 :: gen) = pre ++ replicate k 0 ++ e /\
    length e = (length res - k)%nat /\ Forall byte e /\
    forall x, byte x -> poly_eval x (1 :: gen) = 0 -> poly_eval x e = poly_eval x res.
Proof.
  intros Hg k. induction k as [|k IH]; intros pre res Hr Hl.
  { exists res. rewrite Nat.sub_0_r. done. }
  destruct Hr as [|c res Hc Hr]; simpl in Hl; [lia|].
  cbn [divide]. assert ((pre ++ c :: res) !!! length pre = c) as ->.
  { by apply list_lookup_total_correct, list_lookup_middle. }
  assert (exists res', length res' = length res /\ Forall byte res' /\
    (if c =? 0 then pre ++ c :: res else subtract (pre ++ c :: res) (length pre) (1 :: gen) c) =
      (pre ++ [0]) ++ res' /\
    forall x, byte x -> poly_eval x (1 :: gen) = 0 -> poly_eval x res' = poly_eval x (c :: res))
    as (res' & Hl' & Hr' & -> & Hev).
  { destruct (Z.eqb_spec c 0) as [->|Hn].
    - exists res. rewrite <-app_assoc. split; [done|]. split; [done|]. split; [done|].
      intros x _ _. simpl. by rewrite mul_0_l, Z.lxor_0_l.
    - rewrite subtract_subtract_front by (simpl; lia). exists (subtract_front res gen c).
      rewrite subtract_front_length. split; [done|]. split; [by apply subtract_front_byte|].
      cbn [subtract_front]. rewrite mul_1_l, Z.lxor_nilpotent, <-app_assoc by done.
      split; [done|]. intros x Hx Hroot.
      pose proof (eval_subtract_front x (c :: res) (1 :: gen) c Hx Hc
        ltac:(by constructor) ltac:(by constructor) ltac:(simpl; lia)) as H.
      rewrite Hroot, !mul_0_r, Z.lxor_0_r in H. rewrite <-H.
      cbn [subtract_front poly_eval]. by rewrite mul_1_l, Z.lxor_nilpotent, mul_0_l, Z.lxor_0_l by done. }
  destruct (IH (pre ++ [0]) res' Hr' ltac:(lia)) as (e & E & Hle & He & Hx).
  rewrite length_app, Nat.add_comm in E. cbn [length Nat.add] in E. rewrite E.
  exists e. rewrite <-app_assoc. split; [done|]. split; [simpl; lia|]. split; [done|].
  intros x Hxb Hroot. by rewrite Hx, Hev.
Qed.

Lemma rsEncode_spec data ec_len :
  Forall byte data -> (ec_len <= 255)%nat ->
  length (rsEncode data ec_len) = ec_len /\ Forall byte (rsEncode data ec_len) /\
  forall i, (i < ec_len)%nat -> poly_eval (alpha i) (data ++ rsEncode data ec_len) = 0.
Proof.
  intros Hd Hec. unfold rsEncode.
  destruct (generator_spec ec_len 0 [] ltac:(lia) ltac:(constructor)) as (Hb & (g & E & Hl) & Hroot).
  cbn [app length Nat.add] in E, Hl, Hb, Hroot. rewrite E in *.
  apply Forall_app in Hb as [Hb _]. rewrite reverse_app. cbn [reverse app].
  change (reverse [1] ++ reverse g) with (1 :: reverse g).
  assert (Forall byte (replicate ec_len 0)) as Hz by (by apply Forall_replicate).
  destruct (divide_spec (reverse g) ltac:(by apply Forall_reverse_2) (length data) []
    (data ++ replicate ec_len 0)) as (e & Ee & Hle & He & Hev).
  { by apply Forall_app. }
  { rewrite length_reverse, length_app, length_replicate. lia. }
  cbn [length app] in Ee. rewrite Ee, drop_app_length' by (by rewrite length_replicate).
  rewrite length_app, length_replicate in Hle.
  split; [lia|]. split; [done|]. intros i Hi. pose proof (alpha_byte i ltac:(lia)) as Ha.
  assert (length e = ec_len) as Hlen by lia.
  rewrite poly_eval_app by done. rewrite Hev, poly_eval_app by (done ||
    (change (1 :: reverse g) with (reverse [1] ++ reverse g); rewrite <-reverse_app,
      poly_eval_reverse by (done || (apply Forall_app; split; [done|by repeat constructor]));
     apply Hroot; [done|right; exists i; split; [lia|done]])).
  rewrite <-(app_nil_r (replicate ec_len 0)), poly_eval_zeros, Hlen, app_nil_r, length_replicate.
  simpl. by rewrite Z.lxor_0_r, Z.lxor_nilpotent.
Qed.

(** ** Properties *)

(** the bytes [rsEncode] appends are the Reed-Solomon check bytes of the block: there
    are [ec_len] of them, each a byte, and the coded block, read as a polynomial over
    GF(256), vanishes at the [ec_len] roots alpha^0 ... alpha^(ec_len-1) of the generator,
    so a reader that computes the syndromes of an undamaged block finds all of them zero.
    The multiplication is the one of polynomials over GF(2) modulo 0x11D. *)
Theorem rs_codeword_has_roots data ec_len :
  Forall byte data -> (ec_len <= 255)%nat ->
  length (rsEncode data ec_len) = ec_len /\ Forall byte (rsEncode data ec_len) /\
  (forall i, (i < ec_len)%nat -> poly_eval (alpha i) (data ++ rsEncode data ec_len) = 0) /\
  (forall a b, byte a -> byte b -> mul a b = pmul 8 a b).
Proof.
  intros Hd Hec. destruct (rsEncode_spec data ec_len Hd Hec) as (H1 & H2 & H3).
  split; [done|]. split; [done|]. split; [done|]. apply mul_pmul.
Qed.

(** The block of the worked example of ISO/IEC 18004 (version 1, level M). *)
Definition sample_block : list Z :=
  [32; 91; 11; 120; 209; 114; 220; 77; 67; 64; 236; 17; 236; 17; 236; 17].

Lemma rs_codeword_has_roots_witness :
  rsEncode sample_block 10 = [196; 35; 39; 119; 235; 215; 231; 226; 93; 23] /\
  poly_eval (alpha 3) (sample_block ++ rsEncode sample_block 10) = 0.
Proof.
  split; [vm_compute; reflexivity|].
  refine (proj1 (proj2 (proj2 (rs_codeword_has_roots sample_block 10 _ _))) 3%nat _).
  - repeat constructor; vm_compute; discriminate.
  - lia.
  - lia.
Defined.
