(* ===== verification/QrReader.v ===== *)
(** * A reader of QR symbols after ISO/IEC 18004

    What a scanner does with an undamaged symbol of the versions 1 to 6 at error
    correction level M, written from the standard and not from the encoder: this file
    requires none of the files that model the code.  [read] checks the function patterns,
    decodes the format information, removes the data mask, collects the codewords, takes
    the blocks apart, checks their Reed-Solomon syndromes and reads the byte segment; any
    deviation yields [None].  A position is a pair of row and column, both from 0, as in
    the standard. *)

From S2P Require Import Prelude.

Local Open Scope nat_scope.

(** ** Modules *)

Abbreviation symbol := (list (list bool)).

Definition dark (sym : symbol) (p : nat * nat) : bool := default false (sym !! p.1 ≫= (fun row => row !! p.2)).

(** Section 6.3.1: 21 modules in version 1, four more in each version. *)
Definition side (v : nat) : nat := 21 + 4 * (v - 1).

Definition version_of (sym : symbol) : option nat :=
  snd <$> list_find (fun v => length sym = side v /\ Forall (fun row => length row = side v) sym) (seq 1 6).

Definition positions (s : nat) : list (nat * nat) := mjoin ((fun r => (fun c => (r, c)) <$> seq 0 s) <$> seq 0 s).

(** The distance of two positions in king's moves: the patterns are concentric squares. *)
Definition distance (p q : nat * nat) : nat :=
  ((p.1 - q.1) + (q.1 - p.1)) `max` ((p.2 - q.2) + (q.2 - p.2)).

Inductive Kind :=
| Finder (ring : nat) | Alignment (ring : nat) | Timing (i : nat) | AlwaysDark | FormatInformation | Data.

(** Section 6.3.3 to 6.3.6 and 7.9: what stands where.  A finder pattern includes its
    separator; versions 2 to 6 have one alignment pattern. *)
Definition kind_of (v : nat) (p : nat * nat) : Kind :=
  let s := side v in let '(r, c) := p in
  if distance p (3, 3) <=? 4 then Finder (distance p (3, 3))
  else if distance p (3, s - 4) <=? 4 then Finder (distance p (3, s - 4))
  else if distance p (s - 4, 3) <=? 4 then Finder (distance p (s - 4, 3))
  else if (2 <=? v) && (distance p (s - 7, s - 7) <=? 2) then Alignment (distance p (s - 7, s - 7))
  else if r =? 6 then Timing c
  else if c =? 6 then Timing r
  else if (r =? 4 * v + 9) && (c =? 8) then AlwaysDark
  else if (r =? 8) && ((c <=? 8) || (s - 8 <=? c)) then FormatInformation
  else if (c =? 8) && ((r <=? 8) || (s - 7 <=? r)) then FormatInformation
  else Data.

(** The colour of a module of a function pattern. *)
Definition prescribed (k : Kind) : option bool :=
  match k with
  | Finder ring => Some (negb ((ring =? 2) || (ring =? 4)))
  | Alignment ring => Some (negb (ring =? 1))
  | Timing i => Some (Nat.even i)
  | AlwaysDark => Some true
  | FormatInformation | Data => None
  end.

Definition patterns_ok (v : nat) (sym : symbol) : bool :=
  forallb (fun p => match prescribed (kind_of v p) with Some b => eqb (dark sym p) b | None => true end)
    (positions (side v)).

(** ** Numbers *)

(** The most significant bit comes first. *)
Definition number (bits : list bool) : Z := foldl (fun n b => 2 * n + Z.b2z b)%Z 0%Z bits.

(** ** Format information

    Section 7.9 and annex C: two copies of a word of the (15, 5) BCH code, XORed with
    101010000010010; level M is 00. *)

Definition copy_1 (bit : nat) : nat * nat :=
  if bit <=? 5 then (bit, 8) else if bit <=? 7 then (S bit, 8) else if bit =? 8 then (8, 7) else (8, 14 - bit).
Definition copy_2 (s bit : nat) : nat * nat :=
  if bit <=? 7 then (8, s - 1 - bit) else (s - 15 + bit, 8).

Definition format_word (sym : symbol) (at_ : nat -> nat * nat) : Z :=
  number ((fun bit => dark sym (at_ bit)) <$> [14; 13; 12; 11; 10; 9; 8; 7; 6; 5; 4; 3; 2; 1; 0]).

Definition format_xor : Z :=
  number [true; false; true; false; true; false; false; false; false; false; true; false; false; true; false].

(** x^10 + x^8 + x^5 + x^4 + x^2 + x + 1. *)
Definition bch_generator : Z :=
  number [true; false; true; false; false; true; true; false; true; true; true].

Definition bch_remainder (w : Z) : Z :=
  foldl (fun w i => if Z.testbit w (10 + i) then Z.lxor w (Z.shiftl bch_generator i) else w) w [4; 3; 2; 1; 0]%Z.

Definition mask_of_format (w : Z) : option nat :=
  let f := Z.lxor w format_xor in
  if (bch_remainder f =? 0)%Z && (f / 8192 =? 0)%Z then Some (Z.to_nat ((f / 1024) `mod` 8)) else None.

Definition read_format (v : nat) (sym : symbol) : option nat :=
  if (format_word sym copy_1 =? format_word sym (copy_2 (side v)))%Z
  then mask_of_format (format_word sym copy_1) else None.

(** ** Data masks: table 10, with [i] the row and [j] the column *)

Definition inverts (mask : nat) (p : nat * nat) : bool :=
  let '(i, j) := p in
  match mask with
  | 0 => Nat.even (i + j)
  | 1 => Nat.even i
  | 2 => j mod 3 =? 0
  | 3 => (i + j) mod 3 =? 0
  | 4 => Nat.even (i / 2 + j / 3)
  | 5 => (i * j) mod 2 + (i * j) mod 3 =? 0
  | 6 => Nat.even ((i * j) mod 2 + (i * j) mod 3)
  | _ => Nat.even ((i + j) mod 2 + (i * j) mod 3)
  end.

(** ** The codewords

    Section 7.7.3: columns two modules wide from the right, the first one upwards, the
    next one downwards, the right module of a row before the left one; the column of the
    vertical timing pattern is passed over. *)

Definition strip (s k : nat) : list (nat * nat) :=
  let right := if 2 * k + 7 <? s then s - 1 - 2 * k else s - 2 - 2 * k in
  mjoin ((fun t => let r := if Nat.even k then s - 1 - t else t in [(r, right); (r, right - 1)]) <$> seq 0 s).

Definition is_data (k : Kind) : bool := match k with Data => true | _ => false end.

Definition data_modules (v : nat) : list (nat * nat) :=
  filter (fun p => is_data (kind_of v p) = true) (mjoin (strip (side v) <$> seq 0 ((side v - 1) / 2))).

Fixpoint bytes (k : nat) (bits : list bool) : list Z :=
  match k with O => [] | S k' => number (take 8 bits) :: bytes k' (drop 8 bits) end.

(** Table 9 at level M: the blocks of the versions 1 to 6, the codewords of a block, and
    how many of these are data. *)
Record Blocks := mk_blocks { block_count : nat; block_size : nat; block_data : nat }.

Definition blocks_of (v : nat) : Blocks :=
  match v with
  | 1 => mk_blocks 1 26 16
  | 2 => mk_blocks 1 44 28
  | 3 => mk_blocks 1 70 44
  | 4 => mk_blocks 2 50 32
  | 5 => mk_blocks 2 67 43
  | _ => mk_blocks 4 43 27
  end.

Definition codewords (v mask : nat) (sym : symbol) : list Z :=
  let t := blocks_of v in
  bytes (block_count t * block_size t) ((fun p => xorb (dark sym p) (inverts mask p)) <$> data_modules v).

(** Section 7.6: one codeword of each block in turn. *)
Definition block (v : nat) (cw : list Z) (b : nat) : list Z :=
  let t := blocks_of v in (fun i => cw !!! (i * block_count t + b)) <$> seq 0 (block_size t).

(** ** Reed-Solomon: GF(256) modulo x^8 + x^4 + x^3 + x^2 + 1, the roots 2^0, 2^1, ... *)

Definition times_x (a : Z) : Z := if (a <? 128)%Z then (2 * a)%Z else Z.lxor (2 * a) 285.

Definition gf_mul (a b : Z) : Z :=
  foldl (fun acc i => Z.lxor (times_x acc) (if Z.testbit b i then a else 0%Z)) 0%Z [7; 6; 5; 4; 3; 2; 1; 0]%Z.

Definition root (j : nat) : Z := Nat.iter j times_x 1%Z.

(** The value at [x] of the polynomial whose leading coefficient comes first. *)
Definition value_at (x : Z) (word : list Z) : Z := foldl (fun acc c => Z.lxor (gf_mul acc x) c) 0%Z word.

Definition intact (v : nat) (word : list Z) : bool :=
  forallb (fun j => (value_at (root j) word =? 0)%Z) (seq 0 (block_size (blocks_of v) - block_data (blocks_of v))).

(** ** The byte segment

    Section 7.4: mode 0100, a count of eight bits in versions 1 to 9, the bytes, and the
    terminator 0000, after which the rest is padding. *)

Definition nibbles (data : list Z) : list Z := mjoin ((fun d => [d / 16; d `mod` 16])%Z <$> data).

Fixpoint characters (k : nat) (ns : list Z) : option string :=
  match k, ns with
  | O, 0%Z :: _ => Some ""
  | S k', h :: l :: ns' => String (Ascii.ascii_of_nat (Z.to_nat (16 * h + l))) <$> characters k' ns'
  | _, _ => None
  end.

Definition segment_text (data : list Z) : option string :=
  match nibbles data with
  | 4%Z :: h :: l :: ns => characters (Z.to_nat (16 * h + l)) ns
  | _ => None
  end.

(** ** The reader *)

Definition read (sym : symbol) : option string :=
  v ← version_of sym;
  if patterns_ok v sym then
    mask ← read_format v sym;
    let bs := block v (codewords v mask sym) <$> seq 0 (block_count (blocks_of v)) in
    if forallb (intact v) bs then segment_text (mjoin (take (block_data (blocks_of v)) <$> bs)) else None
  else None.
