(* ===== verification/QrCode.v ===== *)
(** * The QR symbols of the offline dashboard

    [src/web/QrEncoder.cpp], from the version tables on: [chooseVersion],
    [buildCodewords], the function patterns, the zig-zag placement, the masks and their
    selection, [encode] and [toSvg].  Sizes, coordinates and versions that the code keeps
    non-negative are [nat]; a coordinate that can leave the symbol ([placeFinder]) is a
    [Z].  A matrix is a list of rows, read with [!!!], as the code's vectors.

    That a scanner written from the standard reads the symbols is the subject of
    [QrScan].  Here, a reader that shares the encoder's tables ([scan]) shows for all ten
    versions that the symbol keeps the text. *)

From stdpp Require Import pretty.
From S2P Require Import Prelude ReedSolomon.

Local Open Scope nat_scope.

(** ** Versions *)

(* [src/src/web/QrEncoder.cpp:66-70] VerInfo *)
Record VerInfo := mk_ver { data_codewords : nat; ec_per_block : nat; num_blocks : nat }.

(* [src/src/web/QrEncoder.cpp:72-84] kVerM *)
Definition kVerM (version : nat) : VerInfo :=
  nth version
    [mk_ver 0 0 0; mk_ver 16 10 1; mk_ver 28 16 1; mk_ver 44 26 1; mk_ver 64 18 2;
     mk_ver 86 24 2; mk_ver 108 16 4; mk_ver 124 18 4; mk_ver 154 22 2; mk_ver 182 22 3;
     mk_ver 216 26 4] (mk_ver 0 0 0).

(* [src/src/web/QrEncoder.cpp:86-86] moduleCount *)
Definition moduleCount (version : nat) : nat := version * 4 + 17.

(* [src/src/web/QrEncoder.cpp:89-89] charCountBits *)
Definition charCountBits (version : nat) : nat := if version <=? 9 then 8 else 16.

(** [static_cast<int>] narrows the size to 32 bits. *)
Definition need_bits (size : Z) (v : nat) : Z :=
  4 + Z.of_nat (charCountBits v) + to_signed 32 size * 8.

Fixpoint first_version (size : Z) (vs : list nat) : option nat :=
  match vs with
  | [] => None
  | v :: vs' =>
      if (need_bits size v <=? Z.of_nat (data_codewords (kVerM v)) * 8)%Z then Some v
      else first_version size vs'
  end.

(** [None] is the exception for a text that is too long. *)
(* [src/src/web/QrEncoder.cpp:92-100] chooseVersion *)
Definition chooseVersion (data_bytes : Z) : option nat := first_version data_bytes (seq 1 10).

(** ** Codewords *)

(** The [len] low bits of [val], the most significant first. *)
(* [src/src/web/QrEncoder.cpp:105-107] BitBuf::put *)
Definition bits_of (val : Z) (len : nat) : list Z :=
  (fun i => Z.land (Z.shiftr val (Z.of_nat i)) 1) <$> reverse (seq 0 len).

(* [src/src/web/QrEncoder.cpp:127-128] buildCodewords, one byte *)
Definition bits_value (bits : list Z) : Z :=
  foldl (fun b bit => Z.lor (Z.shiftl b 1) bit) 0%Z bits.

Definition char_codes (text : string) : list Z :=
  (fun c => Z.of_nat (Ascii.nat_of_ascii c)) <$> String.list_ascii_of_string text.

(* [src/src/web/QrEncoder.cpp:113-116] buildCodewords, the segment *)
Definition segment (text : string) (version : nat) : list Z :=
  bits_of 4 4 ++ bits_of (Z.of_nat (String.length text)) (charCountBits version) ++
  mjoin ((fun c => bits_of c 8) <$> char_codes text).

(* [src/src/web/QrEncoder.cpp:122-123] buildCodewords, pad to byte boundary *)
Fixpoint pad_to_byte (fuel : nat) (bits : list Z) : list Z :=
  match fuel with
  | O => bits
  | S fuel' => if length bits mod 8 =? 0 then bits else pad_to_byte fuel' (bits ++ [0%Z])
  end.

(* [src/src/web/QrEncoder.cpp:124-130] buildCodewords, convert to bytes *)
Fixpoint to_bytes (k : nat) (bits : list Z) : list Z :=
  match k with
  | O => []
  | S k' => bits_value (take 8 bits) :: to_bytes k' (drop 8 bits)
  end.

(* [src/src/web/QrEncoder.cpp:131-137] buildCodewords, pad bytes *)
Fixpoint pad_bytes (k : nat) (first : bool) (data : list Z) : list Z :=
  match k with
  | O => data
  | S k' => pad_bytes k' (negb first) (data ++ [if first then 236%Z else 17%Z])
  end.

(** The data codewords of a text: terminator, padding to a byte, pad bytes. *)
(* [src/src/web/QrEncoder.cpp:112-137] buildCodewords, data codewords *)
Definition dataCodewords (text : string) (version : nat) : list Z :=
  let total := data_codewords (kVerM version) * 8 in
  let bits := segment text version in
  let bits := bits ++ replicate (4 `min` (total - length bits)) 0%Z in
  let bits := pad_to_byte 8 bits in
  let data := to_bytes (length bits / 8) bits in
  pad_bytes (data_codewords (kVerM version) - length data) true data.

(** The blocks from number [b] on; the last [rem] have one more codeword. *)
(* [src/src/web/QrEncoder.cpp:139-151] buildCodewords, split *)
Fixpoint split_blocks {A} (k b per nb rem : nat) (data : list A) : list (list A) :=
  match k with
  | O => []
  | S k' =>
      let cnt := per + (if nb - rem <=? b then 1 else 0) in
      take cnt data :: split_blocks k' (S b) per nb rem (drop cnt data)
  end.

Definition blocks {A} (version : nat) (data : list A) : list (list A) :=
  let nb := num_blocks (kVerM version) in
  let dc := data_codewords (kVerM version) in
  split_blocks nb 0 (dc / nb) nb (dc mod nb) data.

(* [src/src/web/QrEncoder.cpp:152-158] buildCodewords, interleave *)
Definition interleave {A} (dblocks : list (list A)) : list A :=
  let maxd := foldl (fun d b => d `max` length b) 0 dblocks in
  mjoin ((fun i => omap (fun b => (b !! i) : option A) dblocks) <$> seq 0 maxd).

(* [src/src/web/QrEncoder.cpp:159-160] buildCodewords, interleave ECC *)
Definition interleave_ecc (ec : nat) (eblocks : list (list Z)) : list Z :=
  mjoin ((fun i => (fun b => b !!! i) <$> eblocks) <$> seq 0 ec).

(* [src/src/web/QrEncoder.cpp:111-163] buildCodewords *)
Definition buildCodewords (text : string) (version : nat) : list Z :=
  let ec := ec_per_block (kVerM version) in
  let dblocks := blocks version (dataCodewords text version) in
  let eblocks := (fun blk => rsEncode blk ec) <$> dblocks in
  interleave dblocks ++ interleave_ecc ec eblocks.

(** ** The matrix *)

Definition cell {A} `{Inhabited A} (g : list (list A)) (p : nat * nat) : A := (g !!! p.1) !!! p.2.
Definition put_cell {A} (g : list (list A)) (p : nat * nat) (v : A) : list (list A) :=
  alter (fun row => <[p.2 := v]> row) p.1 g.

#[global] Arguments cell : simpl never.
#[global] Arguments put_cell : simpl never.

(* [src/src/web/QrEncoder.cpp:166-173] Matrix *)
Record Matrix := mk_matrix { n : nat; m : list (list Z); fixed : list (list bool) }.

(* [src/src/web/QrEncoder.cpp:169-170] Matrix::Matrix *)
Definition Matrix_new (size : nat) : Matrix :=
  mk_matrix size (replicate size (replicate size (-1)%Z)) (replicate size (replicate size false)).

(* [src/src/web/QrEncoder.cpp:171-171] Matrix::set *)
Definition set (mx : Matrix) (r c : nat) (v : Z) (fx : bool) : Matrix :=
  mk_matrix (n mx) (put_cell (m mx) (r, c) v) (put_cell (fixed mx) (r, c) fx).

(** The pairs of a nested loop, the outer index first. *)
Definition loop2 {A B} (xs : list A) (ys : list B) : list (A * B) :=
  mjoin ((fun x => (fun y => (x, y)) <$> ys) <$> xs).

(* [src/src/web/QrEncoder.cpp:175-190] placeFinder *)
Definition placeFinder (mx : Matrix) (r c : Z) : Matrix :=
  foldl (fun mx '(dr, dc) =>
    let rr := (r + dr)%Z in let cc := (c + dc)%Z in
    if ((rr <? 0) || (cc <? 0) || (Z.of_nat (n mx) <=? rr) || (Z.of_nat (n mx) <=? cc))%Z then mx
    else
      let dark :=
        if ((0 <=? dr) && (dr <=? 6) && (0 <=? dc) && (dc <=? 6))%Z then
          ((dr =? 0) || (dr =? 6) || (dc =? 0) || (dc =? 6) ||
           ((2 <=? dr) && (dr <=? 4) && (2 <=? dc) && (dc <=? 4)))%Z
        else false in
      set mx (Z.to_nat rr) (Z.to_nat cc) (if dark then 1 else 0)%Z true)
    mx (loop2 (seqZ (-1) 9) (seqZ (-1) 9)).

(* [src/src/web/QrEncoder.cpp:192-195] kAlignPos *)
Definition kAlignPos (version : nat) : list nat :=
  nth version [[]; []; [6; 18]; [6; 22]; [6; 26]; [6; 30]; [6; 34]; [6; 22; 38]; [6; 24; 42];
               [6; 26; 46]; [6; 28; 50]] [].

(* [src/src/web/QrEncoder.cpp:197-210] placeAlignment *)
Definition placeAlignment (mx : Matrix) (version : nat) : Matrix :=
  let pos := kAlignPos version in
  foldl (fun mx '(r, c) =>
    if ((r <=? 8) && (c <=? 8)) || ((r <=? 8) && (n mx - 9 <=? c)) || ((n mx - 9 <=? r) && (c <=? 8))
    then mx
    else foldl (fun mx '(dr, dc) =>
      let dark := ((Z.abs dr =? 2) || (Z.abs dc =? 2) || ((dr =? 0) && (dc =? 0)))%Z in
      set mx (Z.to_nat (Z.of_nat r + dr)) (Z.to_nat (Z.of_nat c + dc)) (if dark then 1 else 0)%Z true)
      mx (loop2 (seqZ (-2) 5) (seqZ (-2) 5)))
    mx (loop2 pos pos).

Definition set_if_unset (mx : Matrix) (r c : nat) (v : Z) : Matrix :=
  if (cell (m mx) (r, c) =? -1)%Z then set mx r c v true else mx.

(* [src/src/web/QrEncoder.cpp:212-218] placeTiming *)
Definition placeTiming (mx : Matrix) : Matrix :=
  foldl (fun mx i =>
    let v := if i mod 2 =? 0 then 1%Z else 0%Z in
    set_if_unset (set_if_unset mx 6 i v) i 6 v)
    mx (seq 8 (n mx - 16)).

(* [src/src/web/QrEncoder.cpp:221-231] reserveFormat *)
Definition reserveFormat (mx : Matrix) : Matrix :=
  let mx := foldl (fun mx i => set_if_unset (set_if_unset mx 8 i 0%Z) i 8 0%Z) mx (seq 0 9) in
  let mx := foldl (fun mx i => set_if_unset (set_if_unset mx 8 (n mx - 1 - i) 0%Z)
                                 (n mx - 1 - i) 8 0%Z) mx (seq 0 8) in
  set mx (n mx - 8) 8 1%Z true.

(** The modules that [placeData] visits, in its order: column pairs from the right,
    alternately upwards and downwards, skipping the timing column. *)
(* [src/src/web/QrEncoder.cpp:239-253] placeData, the loops *)
Fixpoint zigzag (fuel size col : nat) (upward : bool) : list (nat * nat) :=
  match fuel with
  | O => []
  | S fuel' =>
      if col =? 0 then []
      else
        let col := if col =? 6 then 5 else col in
        mjoin ((fun i => let row := if upward then size - 1 - i else i in
                         [(row, col); (row, col - 1)]) <$> seq 0 size) ++
        zigzag fuel' size (col - 2) (negb upward)
  end.

Definition path (size : nat) : list (nat * nat) := zigzag size size (size - 1) true.

(* [src/src/web/QrEncoder.cpp:246-249] placeData, one module *)
Definition place_bit (st : Matrix * list Z) (p : nat * nat) : Matrix * list Z :=
  let '(mx, bits) := st in
  if (cell (m mx) p =? -1)%Z then
    match bits with
    | b :: bits' => (set mx p.1 p.2 b false, bits')
    | [] => (set mx p.1 p.2 0%Z false, [])
    end
  else st.

Definition codeword_bits (codewords : list Z) : list Z :=
  mjoin ((fun cw => bits_of cw 8) <$> codewords).

(* [src/src/web/QrEncoder.cpp:234-254] placeData *)
Definition placeData (mx : Matrix) (codewords : list Z) : Matrix :=
  (foldl place_bit (mx, codeword_bits codewords) (path (n mx))).1.

(* [src/src/web/QrEncoder.cpp:256-268] maskBit *)
Definition maskBit (mask r c : nat) : bool :=
  match mask with
  | 0 => (r + c) mod 2 =? 0
  | 1 => r mod 2 =? 0
  | 2 => c mod 3 =? 0
  | 3 => (r + c) mod 3 =? 0
  | 4 => (r / 2 + c / 3) mod 2 =? 0
  | 5 => (r * c) mod 2 + (r * c) mod 3 =? 0
  | 6 => ((r * c) mod 2 + (r * c) mod 3) mod 2 =? 0
  | 7 => ((r + c) mod 2 + (r * c) mod 3) mod 2 =? 0
  | _ => false
  end.

(* [src/src/web/QrEncoder.cpp:271-272] kFormatM *)
Definition kFormatM (mask : nat) : Z :=
  (nth mask [0x5412; 0x5125; 0x5E7C; 0x5B4B; 0x45F9; 0x40CE; 0x4F97; 0x4AA0] 0)%Z.

(* [src/src/web/QrEncoder.cpp:279-280] applyFormat, copy1 *)
Definition copy1 : list (nat * nat) :=
  [(8, 0); (8, 1); (8, 2); (8, 3); (8, 4); (8, 5); (8, 7); (8, 8);
   (7, 8); (5, 8); (4, 8); (3, 8); (2, 8); (1, 8); (0, 8)].

(* [src/src/web/QrEncoder.cpp:281-285] applyFormat, copy2 *)
Definition copy2 (size : nat) : list (nat * nat) :=
  ((fun i => (size - 1 - i, 8)) <$> seq 0 7) ++ ((fun i => (8, size + i - 15)) <$> seq 7 8).

(* [src/src/web/QrEncoder.cpp:274-293] applyFormat *)
Definition applyFormat (g : list (list Z)) (size mask : nat) : list (list Z) :=
  let g := foldl (fun g i =>
    let bit := Z.land (Z.shiftr (kFormatM mask) (Z.of_nat (14 - i))) 1 in
    put_cell (put_cell g (copy1 !!! i) bit) (copy2 size !!! i) bit) g (seq 0 15) in
  put_cell g (size - 8, 8) 1%Z.

(** Rule 1 along one line, from module [c] on. *)
(* [src/src/web/QrEncoder.cpp:302-308] penalty, one line *)
Fixpoint line_penalty (k c : nat) (at_ : nat -> Z) (run pen : Z) : Z :=
  match k with
  | O => pen
  | S k' =>
      if (at_ c =? at_ (c - 1)%nat)%Z then
        let run := (run + 1)%Z in
        line_penalty k' (S c) at_ run
          (if (run =? 5)%Z then pen + 3 else if (5 <? run)%Z then pen + 1 else pen)%Z
      else line_penalty k' (S c) at_ 1 pen
  end.

(* [src/src/web/QrEncoder.cpp:295-313] penalty *)
Definition penalty (g : list (list Z)) : Z :=
  let size := length g in
  foldl (fun pen '(r, dir) =>
    line_penalty (size - 1) 1 (fun c => if (dir : bool) then cell g (c, r) else cell g (r, c)) 1 pen)
    0%Z (loop2 (seq 0 size) [false; true]).

(** ** [encode] *)

(* [src/src/web/QrEncoder.cpp:322-328] QrEncoder::encode, function patterns *)
Definition function_patterns (version : nat) : Matrix :=
  let size := moduleCount version in
  let mx := Matrix_new size in
  let mx := placeFinder mx 0 0 in
  let mx := placeFinder mx 0 (Z.of_nat size - 7) in
  let mx := placeFinder mx (Z.of_nat size - 7) 0 in
  reserveFormat (placeTiming (placeAlignment mx version)).

Definition grid {A} (size : nat) (f : nat -> nat -> A) : list (list A) :=
  (fun r => f r <$> seq 0 size) <$> seq 0 size.

(* [src/src/web/QrEncoder.cpp:335-339] QrEncoder::encode, one mask *)
Definition masked (base : Matrix) (mask : nat) : list (list Z) :=
  grid (n base) (fun r c =>
    if cell (fixed base) (r, c) then cell (m base) (r, c)
    else Z.lxor (cell (m base) (r, c)) (if maskBit mask r c then 1 else 0)%Z).

Definition candidate (base : Matrix) (mask : nat) : list (list Z) :=
  applyFormat (masked base mask) (n base) mask.

(* [src/src/web/QrEncoder.cpp:332-345] QrEncoder::encode, mask selection *)
Definition best_mask (base : Matrix) : Z * list (list Z) :=
  foldl (fun '(best_pen, best) mask =>
    let g := candidate base mask in
    if (penalty g <? best_pen)%Z then (penalty g, g) else (best_pen, best))
    (2 ^ 30, [])%Z (seq 0 8).

(** [None] is the exception of [chooseVersion]. *)
(* [src/src/web/QrEncoder.cpp:317-352] QrEncoder::encode *)
Definition encode (text : string) : option (list (list bool)) :=
  version ← chooseVersion (Z.of_nat (String.length text));
  let base := placeData (function_patterns version) (buildCodewords text version) in
  let best := (best_mask base).2 in
  Some (grid (n base) (fun r c => (cell best (r, c) =? 1)%Z)).

(* [src/src/web/QrEncoder.cpp:354-373] QrEncoder::toSvg *)
Definition toSvg (matrix : list (list bool)) (px : Z) : string :=
  let size := length matrix in
  let quiet := 4%Z in
  let dim := ((Z.of_nat size + 2 * quiet) * px)%Z in
  let s := "<svg xmlns='http://www.w3.org/2000/svg' width='" +:+ pretty dim +:+
           "' height='" +:+ pretty dim +:+ "' shape-rendering='crispEdges'>" in
  let s := s +:+ "<rect width='100%' height='100%' fill='#fff'/>" in
  let s := s +:+ "<path fill='#000' d='" in
  let s := foldl (fun s '(r, c) =>
    if cell matrix (r, c) then
      let x := ((Z.of_nat c + quiet) * px)%Z in
      let y := ((Z.of_nat r + quiet) * px)%Z in
      s +:+ "M" +:+ pretty x +:+ " " +:+ pretty y +:+ "h" +:+ pretty px +:+ "v" +:+ pretty px +:+
      "h-" +:+ pretty px +:+ "z"
    else s) s (loop2 (seq 0 size) (seq 0 size)) in
  s +:+ "'/></svg>".

(** ** The reader *)

Definition index_of (j : nat) (l : list nat) : nat := default 0 (fst <$> list_find (eq j) l).

(** Where the interleaving sends the data codewords. *)
Definition order (version : nat) : list nat :=
  interleave (blocks version (seq 0 (data_codewords (kVerM version)))).

Definition deinterleave (version : nat) (out : list Z) : list Z :=
  (fun j => out !!! index_of j (order version)) <$> seq 0 (data_codewords (kVerM version)).

Definition read_segment (version : nat) (data : list Z) : option string :=
  let bits := codeword_bits data in
  if (bits_value (take 4 bits) =? 4)%Z then
    let ccb := charCountBits version in
    let count := Z.to_nat (bits_value (take ccb (drop 4 bits))) in
    Some (String.string_of_list_ascii
      ((fun b => Ascii.ascii_of_nat (Z.to_nat b)) <$> to_bytes count (drop (4 + ccb) bits)))
  else None.

Definition total_codewords (version : nat) : nat :=
  let vi := kVerM version in data_codewords vi + ec_per_block vi * num_blocks vi.

Definition unset (mx : Matrix) (p : nat * nat) : bool := (cell (m mx) p =? -1)%Z.

(** The modules that carry data, in the order of placement. *)
Definition free_modules (version : nat) : list (nat * nat) :=
  let base := function_patterns version in
  filter (fun p => unset base p = true) (path (moduleCount version)).

Definition module_bit (sym : list (list bool)) (p : nat * nat) : Z := if cell sym p then 1%Z else 0%Z.

Definition read_mask (sym : list (list bool)) : option nat :=
  fst <$> list_find (fun mask => kFormatM mask = bits_value (module_bit sym <$> copy1)) (seq 0 8).

Definition scan (sym : list (list bool)) : option string :=
  let version := (length sym - 17) / 4 in
  mask ← read_mask sym;
  let bits := (fun p => Z.lxor (module_bit sym p) (if maskBit mask p.1 p.2 then 1 else 0)%Z)
                <$> free_modules version in
  read_segment version (deinterleave version (to_bytes (total_codewords version) bits)).

(** ** Bits and bytes *)

Definition is_bit (b : Z) : Prop := b = 0%Z \/ b = 1%Z.

Lemma lor_bit b bit : (0 <= b)%Z -> is_bit bit -> Z.lor (Z.shiftl b 1) bit = (2 * b + bit)%Z.
Proof.
  intros Hb [->| ->]; change (Z.shiftl b 1) with (2 * b)%Z.
  - by rewrite Z.lor_0_r, Z.add_0_r.
  - by destruct b.
Qed.

Lemma land_bit z : is_bit (Z.land z 1).
Proof.
  change 1%Z with (Z.ones 1). rewrite Z.land_ones by lia. unfold is_bit.
  change (2 ^ 1)%Z with 2%Z. pose proof (Z.mod_pos_bound z 2 ltac:(lia)). lia.
Qed.

Lemma bits_of_S v len :
  bits_of v (S len) = Z.land (Z.shiftr v (Z.of_nat len)) 1 :: bits_of v len.
Proof. unfold bits_of. by rewrite seq_S, reverse_app. Qed.

Lemma bits_of_length v len : length (bits_of v len) = len.
Proof. unfold bits_of. by rewrite length_fmap, length_reverse, length_seq. Qed.

Lemma bits_of_bit v len : Forall is_bit (bits_of v len).
Proof. apply Forall_fmap, Forall_forall. intros i _. apply land_bit. Qed.

Lemma bits_value_of_acc v len acc :
  (0 <= v)%Z -> (0 <= acc)%Z ->
  foldl (fun b bit => Z.lor (Z.shiftl b 1) bit) acc (bits_of v len) =
    (acc * 2 ^ Z.of_nat len + v `mod` 2 ^ Z.of_nat len)%Z.
Proof.
  intros Hv. revert acc. induction len as [|len IH]; intros acc Hacc.
  - change (2 ^ Z.of_nat 0)%Z with 1%Z. rewrite Z.mod_1_r. simpl. lia.
  - rewrite bits_of_S. cbn [foldl]. pose proof (land_bit (Z.shiftr v (Z.of_nat len))) as Hb.
    rewrite lor_bit by done. rewrite IH by (destruct Hb; lia).
    change 1%Z with (Z.ones 1) at 1. rewrite Z.land_ones, Z.shiftr_div_pow2 by lia.
    rewrite Nat2Z.inj_succ, Z.pow_succ_r by lia. rewrite (Z.mul_comm 2 (2 ^ _)).
    rewrite (Z.rem_mul_r v (2 ^ Z.of_nat len) 2) by lia.
    change (2 ^ 1)%Z with 2%Z. lia.
Qed.

Lemma bits_value_of v len :
  (0 <= v < 2 ^ Z.of_nat len)%Z -> bits_value (bits_of v len) = v.
Proof.
  intros Hv. unfold bits_value. rewrite bits_value_of_acc by lia.
  rewrite Z.mod_small by lia. lia.
Qed.

Lemma bits_value_byte bits : Forall is_bit bits -> length bits = 8 -> byte (bits_value bits).
Proof.
  intros Hb Hl. do 8 (destruct bits as [|? bits]; [done|]). destruct bits; [|done].
  repeat match goal with H : Forall _ (_ :: _) |- _ => inversion_clear H end.
  repeat match goal with H : is_bit _ |- _ => destruct H as [->| ->] end;
    vm_compute; split; congruence.
Qed.

Lemma bits_of_value bits : Forall is_bit bits -> length bits = 8 -> bits_of (bits_value bits) 8 = bits.
Proof.
  intros Hb Hl. do 8 (destruct bits as [|? bits]; [done|]). destruct bits; [|done].
  repeat match goal with H : Forall _ (_ :: _) |- _ => inversion_clear H end.
  repeat match goal with H : is_bit _ |- _ => destruct H as [->| ->] end; reflexivity.
Qed.

Lemma codeword_bits_cons c cw : codeword_bits (c :: cw) = bits_of c 8 ++ codeword_bits cw.
Proof. done. Qed.

Lemma codeword_bits_length cw : length (codeword_bits cw) = 8 * length cw.
Proof.
  induction cw as [|c cw IH]; [done|].
  rewrite codeword_bits_cons, length_app, bits_of_length. cbn [length]. lia.
Qed.

Lemma codeword_bits_app cw cw' : codeword_bits (cw ++ cw') = codeword_bits cw ++ codeword_bits cw'.
Proof. induction cw; [done|]. cbn [app]. by rewrite !codeword_bits_cons, IHcw, app_assoc. Qed.

Lemma to_bytes_length k bits : length (to_bytes k bits) = k.
Proof. revert bits. induction k; intros; simpl; auto. Qed.

Lemma to_bytes_codewords cw rest :
  Forall byte cw -> to_bytes (length cw) (codeword_bits cw ++ rest) = cw.
Proof.
  induction 1 as [|c cw Hc Hcw IH]; [done|]. rewrite codeword_bits_cons, <-app_assoc.
  cbn [length to_bytes].
  rewrite take_app_length', drop_app_length' by (by rewrite bits_of_length).
  rewrite bits_value_of by exact Hc. by rewrite IH.
Qed.

Lemma to_bytes_spec k bits :
  Forall is_bit bits -> length bits = 8 * k ->
  Forall byte (to_bytes k bits) /\ codeword_bits (to_bytes k bits) = bits.
Proof.
  revert bits. induction k as [|k IH]; intros bits Hb Hl.
  - destruct bits; [by split|done].
  - cbn [to_bytes]. rewrite codeword_bits_cons.
    destruct (IH (drop 8 bits)) as [H1 ->]; [by apply Forall_drop|rewrite length_drop; lia|].
    assert (length (take 8 bits) = 8) by (rewrite length_take; lia).
    rewrite bits_of_value, take_drop by (done || by apply Forall_take).
    split; [|done]. constructor; [|done]. apply bits_value_byte; [by apply Forall_take|done].
Qed.

Lemma pad_to_byte_spec fuel bits :
  8 <= fuel + length bits mod 8 \/ length bits mod 8 = 0 ->
  exists j, pad_to_byte fuel bits = bits ++ replicate j 0%Z /\ j < 8 /\
    (length bits + j) mod 8 = 0.
Proof.
  revert bits. induction fuel as [|fuel IH]; intros bits Hf; cbn [pad_to_byte].
  - exists 0. rewrite app_nil_r, Nat.add_0_r. split; [done|]. split; [lia|].
    pose proof (Nat.mod_upper_bound (length bits) 8 ltac:(lia)). lia.
  - destruct (Nat.eqb_spec (length bits mod 8) 0) as [E|E].
    + exists 0. rewrite app_nil_r, Nat.add_0_r. split; [done|]. split; [lia|done].
    + assert (length bits mod 8 < 8) by (by apply Nat.mod_upper_bound).
      destruct (IH (bits ++ [0%Z])) as (j & -> & Hj & Hm).
      { rewrite length_app. cbn [length]. rewrite <-Nat.Div0.add_mod_idemp_l.
        destruct (decide (length bits mod 8 = 7)) as [->|]; [by right|].
        left. rewrite Nat.mod_small by lia. lia. }
      rewrite length_app in Hm. cbn [length] in Hm.
      exists (S j). rewrite <-app_assoc. split; [done|].
      replace (length bits + S j) with (length bits + 1 + j) by lia. split; [|done].
      destruct (decide (j = 7)) as [->|]; [|lia].
      rewrite <-Nat.add_assoc in Hm. cbn [Nat.add] in Hm.
      rewrite <-(Nat.Div0.mod_mul 1 8), <-Nat.Div0.add_mod_idemp_r in Hm.
      change (8 mod 8) with 0 in Hm. rewrite Nat.add_0_r in Hm. done.
Qed.

(** ** The data codewords *)

Lemma char_codes_length text : length (char_codes text) = String.length text.
Proof.
  unfold char_codes. rewrite length_fmap. induction text; simpl; auto.
Qed.

Lemma char_codes_byte text : Forall byte (char_codes text).
Proof.
  apply Forall_fmap, Forall_forall. intros c _. unfold in_unsigned; cbn.
  pose proof (Ascii.nat_ascii_bounded c). lia.
Qed.

Lemma segment_eq text v :
  segment text v = bits_of 4 4 ++ bits_of (Z.of_nat (String.length text)) (charCountBits v) ++
    codeword_bits (char_codes text).
Proof. done. Qed.

Lemma codeword_bits_bit cw : Forall is_bit (codeword_bits cw).
Proof.
  induction cw as [|c cw IH]; [constructor|].
  rewrite codeword_bits_cons. apply Forall_app. split; [apply bits_of_bit|done].
Qed.

Lemma segment_bit text v : Forall is_bit (segment text v).
Proof.
  rewrite segment_eq. rewrite !Forall_app.
  repeat split; auto using bits_of_bit, codeword_bits_bit.
Qed.

Lemma segment_length text v :
  length (segment text v) = 4 + charCountBits v + 8 * String.length text.
Proof.
  rewrite segment_eq, !length_app, !bits_of_length, codeword_bits_length, char_codes_length. lia.
Qed.

Lemma pad_bytes_spec k first data :
  exists pads, pad_bytes k first data = data ++ pads /\ length pads = k /\ Forall byte pads.
Proof.
  revert first data. induction k as [|k IH]; intros first data; cbn [pad_bytes].
  - exists []. by rewrite app_nil_r.
  - destruct (IH (negb first) (data ++ [if first then 236%Z else 17%Z])) as (pads & -> & Hl & Hp).
    exists ((if first then 236%Z else 17%Z) :: pads). rewrite <-app_assoc. cbn [length app].
    split; [done|]. split; [lia|]. constructor; [by destruct first|done].
Qed.

(** The version was chosen so that the segment fits. *)
Definition fits (text : string) (v : nat) : Prop :=
  4 + charCountBits v + 8 * String.length text <= 8 * data_codewords (kVerM v).

Lemma dataCodewords_spec text v :
  fits text v ->
  length (dataCodewords text v) = data_codewords (kVerM v) /\
  Forall byte (dataCodewords text v) /\
  exists rest, codeword_bits (dataCodewords text v) =
    segment text v ++ replicate (4 `min` (8 * data_codewords (kVerM v) - length (segment text v))) 0%Z ++ rest.
Proof.
  unfold fits. intros Hf. unfold dataCodewords.
  set (dc := data_codewords (kVerM v)) in *. pose proof (segment_length text v) as Hs.
  set (t := 4 `min` (dc * 8 - length (segment text v))).
  destruct (pad_to_byte_spec 8 (segment text v ++ replicate t 0%Z)) as (j & E & Hj & Hm); [left; lia|].
  rewrite length_app, length_replicate in Hm. rewrite E.
  set (bits := (segment text v ++ replicate t 0%Z) ++ replicate j 0%Z) in *.
  assert (length bits = length (segment text v) + t + j) as Hlb.
  { unfold bits. rewrite !length_app, !length_replicate. done. }
  assert (length bits = 8 * (length bits / 8)) as Hl8.
  { apply Nat.Div0.div_exact. by rewrite Hlb. }
  assert (Forall is_bit bits) as Hb.
  { unfold bits. rewrite !Forall_app.
    repeat split; auto using segment_bit; apply Forall_replicate; by left. }
  destruct (to_bytes_spec (length bits / 8) bits Hb Hl8) as [Hbytes Hcw].
  destruct (pad_bytes_spec (dc - length (to_bytes (length bits / 8) bits)) true
    (to_bytes (length bits / 8) bits)) as (pads & -> & Hpl & Hpb).
  rewrite to_bytes_length in *. rewrite length_app, to_bytes_length, Hpl.
  assert (length bits <= dc * 8).
  { assert (t <= dc * 8 - length (segment text v)) by (unfold t; lia). lia. }
  split; [lia|]. split; [by apply Forall_app|].
  exists (replicate j 0%Z ++ codeword_bits pads). rewrite (Nat.mul_comm 8 dc). fold t.
  rewrite codeword_bits_app, Hcw. unfold bits. by rewrite <-!app_assoc.
Qed.

Lemma ascii_codes text :
  String.string_of_list_ascii ((fun b => Ascii.ascii_of_nat (Z.to_nat b)) <$> char_codes text) = text.
Proof.
  rewrite <-(String.string_of_list_ascii_of_string text) at 2. f_equal.
  unfold char_codes. induction (String.list_ascii_of_string text) as [|c cs IH]; [done|].
  rewrite !fmap_cons, IH, Nat2Z.id, Ascii.ascii_nat_embedding. done.
Qed.

Lemma read_segment_spec text v :
  fits text v -> (Z.of_nat (String.length text) < 2 ^ Z.of_nat (charCountBits v))%Z ->
  read_segment v (dataCodewords text v) = Some text.
Proof.
  intros Hf Hc. destruct (dataCodewords_spec text v Hf) as (_ & _ & rest & E).
  unfold read_segment. rewrite E, segment_eq, <-!app_assoc.
  rewrite take_app_length' by done. change (bits_value (bits_of 4 4)) with 4%Z.
  rewrite Z.eqb_refl. rewrite drop_app_length' by done.
  rewrite take_app_length' by (by rewrite bits_of_length).
  rewrite bits_value_of, Nat2Z.id by lia. f_equal.
  rewrite (app_assoc (bits_of 4 4)), drop_app_length' by
    (rewrite length_app, !bits_of_length; done).
  rewrite <-(char_codes_length text) at 1. rewrite to_bytes_codewords by apply char_codes_byte.
  apply ascii_codes.
Qed.

Lemma first_version_spec size vs v :
  first_version size vs = Some v ->
  v ∈ vs /\ (need_bits size v <= Z.of_nat (data_codewords (kVerM v)) * 8)%Z.
Proof.
  induction vs as [|w vs IH]; simpl; [done|]. destruct (Z.leb_spec (need_bits size w)
    (Z.of_nat (data_codewords (kVerM w)) * 8)); intros H'.
  - simplify_eq. split; [by constructor|done].
  - destruct (IH H'). split; [by constructor|done].
Qed.

(** What the table promises of every version, by evaluation. *)
Definition versions (P : nat -> bool) : bool := forallb P (seq 1 10).

Lemma versions_elim P v : versions P = true -> v ∈ seq 1 10 -> P v = true.
Proof. apply forallb_elem. Qed.

Lemma small_size (k : nat) : (Z.of_nat k < 2 ^ 28)%Z -> to_signed 32 (Z.of_nat k) = Z.of_nat k.
Proof.
  intros Hk. unfold to_signed. rewrite wrap_small by (unfold in_unsigned; lia).
  destruct (Z.ltb_spec (Z.of_nat k) (2 ^ (32 - 1))); [done|lia].
Qed.

Lemma count_bits_checked :
  versions (fun v => (Z.of_nat (data_codewords (kVerM v)) <=? 2 ^ Z.of_nat (charCountBits v))%Z) = true.
Proof. vm_compute. reflexivity. Qed.

Lemma chooseVersion_spec text v :
  (Z.of_nat (String.length text) < 2 ^ 28)%Z ->
  chooseVersion (Z.of_nat (String.length text)) = Some v ->
  v ∈ seq 1 10 /\ fits text v /\
  (Z.of_nat (String.length text) < 2 ^ Z.of_nat (charCountBits v))%Z.
Proof.
  intros Hl [Hv Hn]%first_version_spec. split; [done|].
  unfold need_bits in Hn. rewrite small_size in Hn by done. unfold fits.
  split; [lia|].
  pose proof (versions_elim _ _ count_bits_checked Hv) as Hc. cbv beta in Hc.
  apply Z.leb_le in Hc. lia.
Qed.

(** ** Interleaving *)

Lemma split_blocks_fmap {A B} (f : A -> B) k b per nb rem (l : list A) :
  split_blocks k b per nb rem (f <$> l) = fmap (M:=list) f <$> split_blocks k b per nb rem l.
Proof.
  revert b l. induction k as [|k IH]; intros b l; [done|]. cbn [split_blocks fmap list_fmap].
  by rewrite <-fmap_take, <-fmap_drop, IH.
Qed.

Lemma maxd_fmap {A B} (f : A -> B) (l : list (list A)) d :
  foldl (fun d b => d `max` length b) d (fmap (M:=list) f <$> l) = foldl (fun d b => d `max` length b) d l.
Proof. revert d. induction l; intros d; [done|]. cbn. by rewrite length_fmap. Qed.

Lemma interleave_fmap {A B} (f : A -> B) (l : list (list A)) :
  interleave (fmap (M:=list) f <$> l) = f <$> interleave l.
Proof.
  unfold interleave. rewrite maxd_fmap. induction (seq 0 _) as [|i ks IH]; [done|].
  cbn. rewrite fmap_app. f_equal; [|exact IH].
  clear. induction l as [|b l IH]; [done|]. cbn. rewrite list_lookup_fmap.
  destruct (b !! i); cbn; by rewrite IH.
Qed.

Lemma fmap_lookup_seq (l : list Z) : l = (fun j => l !!! j) <$> seq 0 (length l).
Proof.
  apply list_eq. intros i. rewrite list_lookup_fmap.
  destruct (decide (i < length l)) as [Hi|Hi].
  - rewrite lookup_seq_lt by done. cbn. by apply list_lookup_lookup_total_lt.
  - rewrite (proj2 (lookup_ge_None l i)) by lia. rewrite lookup_seq_ge by lia. done.
Qed.

Lemma order_checked :
  versions (fun v => let dc := data_codewords (kVerM v) in
    (length (order v) =? dc) && forallb (fun i => i <? dc) (order v) &&
    forallb (fun j => let i := index_of j (order v) in (i <? dc) && (order v !!! i =? j)) (seq 0 dc))
  = true.
Proof. vm_compute. reflexivity. Qed.

Lemma interleave_order (data : list Z) v :
  length data = data_codewords (kVerM v) ->
  interleave (blocks v data) = (fun j => data !!! j) <$> order v.
Proof.
  intros Hl. rewrite (fmap_lookup_seq data) at 1. unfold blocks. rewrite split_blocks_fmap.
  rewrite interleave_fmap, Hl. done.
Qed.

Lemma order_spec v :
  v ∈ seq 1 10 ->
  length (order v) = data_codewords (kVerM v) /\
  Forall (fun i => i < data_codewords (kVerM v)) (order v) /\
  forall j, j < data_codewords (kVerM v) ->
    index_of j (order v) < length (order v) /\ order v !!! index_of j (order v) = j.
Proof.
  intros Hv. pose proof (versions_elim _ _ order_checked Hv) as H. cbv zeta beta in H.
  apply andb_true_iff in H as [[Hl Ho]%andb_true_iff Hj]. apply Nat.eqb_eq in Hl.
  split; [done|]. split.
  - apply Forall_forall. intros i Hi. apply Nat.ltb_lt. by apply (forallb_elem _ _ _ Ho).
  - intros j Hlt. assert (j ∈ seq 0 (data_codewords (kVerM v))) as Hin by (apply elem_of_seq; lia).
    pose proof (forallb_elem _ _ _ Hj Hin) as [H1 H2]%andb_true_iff.
    apply Nat.ltb_lt in H1. apply Nat.eqb_eq in H2. split; [lia|done].
Qed.

Lemma deinterleave_interleave (data rest : list Z) v :
  v ∈ seq 1 10 -> length data = data_codewords (kVerM v) ->
  deinterleave v (interleave (blocks v data) ++ rest) = data.
Proof.
  intros Hv Hl. destruct (order_spec v Hv) as (_ & _ & Hidx).
  rewrite interleave_order by done. unfold deinterleave.
  trans ((fun j => data !!! j) <$> seq 0 (length data)); [|by rewrite <-fmap_lookup_seq].
  rewrite Hl.
  apply Forall_fmap_ext_1, Forall_seq. intros j Hj. destruct (Hidx j ltac:(lia)) as [H1 H2].
  rewrite lookup_total_app_l by (rewrite length_fmap; lia).
  rewrite (@list_lookup_total_fmap nat Z _ _ _) by lia. by rewrite H2.
Qed.

Lemma split_blocks_length {A} k b per nb rem (l : list A) :
  length (split_blocks k b per nb rem l) = k.
Proof. revert b l. induction k; intros; simpl; auto. Qed.

Lemma split_blocks_Forall {A} (P : A -> Prop) k b per nb rem l :
  Forall P l -> Forall (Forall P) (split_blocks k b per nb rem l).
Proof.
  revert b l. induction k; intros b l Hl; simpl; constructor; auto using Forall_take, Forall_drop.
Qed.

Lemma interleave_ecc_spec ec eblocks :
  Forall (fun b => length b = ec /\ Forall byte b) eblocks ->
  length (interleave_ecc ec eblocks) = ec * length eblocks /\ Forall byte (interleave_ecc ec eblocks).
Proof.
  intros He. unfold interleave_ecc.
  assert (forall ks, Forall (fun i => i < ec) ks ->
    length (mjoin ((fun i => (fun b => b !!! i) <$> eblocks) <$> ks)) = length ks * length eblocks /\
    Forall byte (mjoin ((fun i => (fun b => b !!! i) <$> eblocks) <$> ks))) as H.
  { induction 1 as [|i ks Hi _ [IH1 IH2]]; [split; [done|constructor]|].
    rewrite fmap_cons, join_cons, length_app, length_fmap. cbn [length]. split; [lia|].
    apply Forall_app. split; [|exact IH2]. apply Forall_fmap.
    eapply Forall_impl; [exact He|]. intros b [Hb Hbb]. cbn.
    eapply Forall_lookup_total_1; [exact Hbb|lia]. }
  destruct (H (seq 0 ec)) as [H1 H2]; [|by rewrite H1, length_seq].
  apply Forall_forall. intros i Hi. apply elem_of_seq in Hi. lia.
Qed.

Lemma ecc_bound_checked : versions (fun v => ec_per_block (kVerM v) <=? 255) = true.
Proof. vm_compute. reflexivity. Qed.

Lemma buildCodewords_spec text v :
  v ∈ seq 1 10 -> fits text v ->
  length (buildCodewords text v) = total_codewords v /\ Forall byte (buildCodewords text v) /\
  deinterleave v (buildCodewords text v) = dataCodewords text v.
Proof.
  intros Hv Hf. destruct (dataCodewords_spec text v Hf) as (Hl & Hb & _).
  unfold buildCodewords. rewrite (deinterleave_interleave _ _ v Hv Hl).
  set (eblocks := (fun blk => rsEncode blk _) <$> _).
  assert (Forall (fun b => length b = ec_per_block (kVerM v) /\ Forall byte b) eblocks) as He.
  { apply Forall_fmap. eapply Forall_impl; [by apply (split_blocks_Forall byte)|]. intros b Hbb. cbn.
    pose proof (versions_elim _ _ ecc_bound_checked Hv) as Hec. cbv beta in Hec.
    apply Nat.leb_le in Hec.
    destruct (rsEncode_spec b _ Hbb Hec) as (H1 & H2 & _). done. }
  destruct (interleave_ecc_spec _ _ He) as [H1 H2].
  assert (length eblocks = num_blocks (kVerM v)) as Hn
    by (unfold eblocks, blocks; by rewrite length_fmap, split_blocks_length).
  rewrite Hn in H1.
  destruct (order_spec v Hv) as (Hol & Ho & _).
  rewrite length_app, H1, interleave_order, length_fmap by done.
  unfold total_codewords. split; [lia|]. split; [|done].
  apply Forall_app. split; [|done]. apply Forall_fmap. eapply Forall_impl; [exact Ho|].
  intros j Hj. eapply (Forall_lookup_total_1 byte); [exact Hb|]. by rewrite Hl.
Qed.

(** ** Cells *)

Definition square {A} (size : nat) (g : list (list A)) : Prop :=
  length g = size /\ Forall (fun row => length row = size) g.
Definition in_range (size : nat) (p : nat * nat) : Prop := p.1 < size /\ p.2 < size.

Section Cells.
Context {A : Type} `{!Inhabited A}.
Implicit Types (g : list (list A)) (p q : nat * nat).

Lemma put_cell_square size g p v : square size g -> square size (put_cell g p v).
Proof.
  intros [Hl Hr]. split; unfold put_cell; [by rewrite length_alter|].
  apply Forall_alter; [done|]. intros row _ Hrow. by rewrite length_insert.
Qed.

Lemma cell_put_same size g p v : square size g -> in_range size p -> cell (put_cell g p v) p = v.
Proof.
  intros [Hl Hr] [H1 H2]. unfold cell, put_cell.
  assert (is_Some (g !! p.1)) as [row E] by (apply lookup_lt_is_Some; lia).
  assert (length row = size) by exact (Forall_lookup_1 _ _ _ _ Hr E).
  erewrite (list_lookup_total_correct _ p.1); [|rewrite list_lookup_alter_eq, E; done].
  apply list_lookup_total_insert_eq. lia.
Qed.

Lemma cell_put_other g p q v : p <> q -> cell (put_cell g p v) q = cell g q.
Proof.
  intros Hn. unfold cell, put_cell. destruct (decide (p.1 = q.1)) as [E|E].
  - rewrite <-E. destruct (g !! p.1) as [row|] eqn:Hrow.
    + erewrite (list_lookup_total_correct _ p.1); [|rewrite list_lookup_alter_eq, Hrow; done].
      erewrite (list_lookup_total_correct g p.1) by done.
      rewrite list_lookup_total_insert_ne; [done|]. intros E2. apply Hn. destruct p, q; simpl in *; congruence.
    + rewrite !list_lookup_total_alt, list_lookup_alter_eq, Hrow. done.
  - rewrite !list_lookup_total_alt, list_lookup_alter_ne by done. done.
Qed.

Lemma grid_square size (f : nat -> nat -> A) : square size (grid size f).
Proof.
  split; unfold grid; [by rewrite length_fmap, length_seq|].
  apply Forall_fmap, Forall_forall. intros r _. cbn. by rewrite length_fmap, length_seq.
Qed.

Lemma cell_grid size (f : nat -> nat -> A) p : in_range size p -> cell (grid size f) p = f p.1 p.2.
Proof.
  intros [H1 H2]. unfold cell, grid.
  rewrite (@list_lookup_total_fmap nat _ _ _ _) by (by rewrite length_seq).
  rewrite (@list_lookup_total_fmap nat _ _ _ _) by (by rewrite length_seq).
  by rewrite !lookup_total_seq_lt.
Qed.

(** A sequence of writes at distinct cells. *)
Definition write_cells g (ws : list ((nat * nat) * A)) : list (list A) :=
  foldl (fun g w => put_cell g w.1 w.2) g ws.

Lemma write_cells_square size g ws : square size g -> square size (write_cells g ws).
Proof. revert g. induction ws; intros g Hg; [done|]. apply IHws. by apply put_cell_square. Qed.

Lemma write_cells_other g ws p : p ∉ ws.*1 -> cell (write_cells g ws) p = cell g p.
Proof.
  revert g. induction ws as [|[q v] ws IH]; intros g Hp; [done|].
  cbn in Hp. apply not_elem_of_cons in Hp as [H1 H2]. cbn. etrans; [by apply IH|].
  by apply cell_put_other.
Qed.

Lemma write_cells_same size g ws p v :
  square size g -> Forall (in_range size) ws.*1 -> NoDup ws.*1 -> (p, v) ∈ ws ->
  cell (write_cells g ws) p = v.
Proof.
  revert g. induction ws as [|[q w] ws IH]; intros g Hg Hr Hnd Hin; [by apply elem_of_nil in Hin|].
  cbn in Hr, Hnd. apply Forall_cons in Hr as [Hr1 Hr]. apply NoDup_cons in Hnd as [Hnd1 Hnd].
  cbn. apply elem_of_cons in Hin as [Hin|Hin].
  - simplify_eq. etrans; [by apply write_cells_other|]. by eapply cell_put_same.
  - by apply IH; [apply put_cell_square|..].
Qed.
End Cells.

(** ** The layout of every version, by evaluation *)

(** Mark the modules in turn and read the marks back: a module met twice has lost its
    first mark. *)
Definition marks (size : nat) (ps : list (nat * nat)) : list (list Z) :=
  write_cells (replicate size (replicate size (-1)%Z)) (zip ps (seqZ 0 (Z.of_nat (length ps)))).

Definition distinct (size : nat) (ps : list (nat * nat)) : bool :=
  let g := marks size ps in bool_decide (cell g <$> ps = seqZ 0 (Z.of_nat (length ps))).

Lemma distinct_NoDup size ps : distinct size ps = true -> NoDup ps.
Proof.
  unfold distinct. intros H%bool_decide_eq_true_1.
  apply (NoDup_fmap_1 (cell (marks size ps))). rewrite H. apply NoDup_seqZ.
Qed.

Definition format_cells (size : nat) : list (nat * nat) :=
  mjoin ((fun i => [copy1 !!! i; copy2 size !!! i]) <$> seq 0 15) ++ [(size - 8, 8)].

Definition ranged (size : nat) (p : nat * nat) : bool := (p.1 <? size) && (p.2 <? size).
Definition squared {A} (size : nat) (g : list (list A)) : bool :=
  (length g =? size) && forallb (fun row => length row =? size) g.

Definition layout_check (v size : nat) (base : Matrix) (ps fcs : list (nat * nat)) (room : nat) : bool :=
  (n base =? size) && ((size - 17) / 4 =? v) && (size <? 100) &&
  squared size (m base) && squared size (fixed base) &&
  forallb (ranged size) ps && distinct size ps &&
  forallb (fun p => eqb (unset base p) (negb (cell (fixed base) p))) (loop2 (seq 0 size) (seq 0 size)) &&
  forallb (fun p => ranged size p && negb (unset base p)) fcs && distinct size fcs &&
  (8 * total_codewords v <=? room).

Lemma layout_checked :
  versions (fun v => layout_check v (moduleCount v) (function_patterns v) (path (moduleCount v))
    (format_cells (moduleCount v)) (length (free_modules v))) = true.
Proof. vm_compute. reflexivity. Qed.

(** What [layout_check] says, as propositions. *)
Record layout (v size : nat) (base : Matrix) (ps fcs : list (nat * nat)) (room : nat) : Prop := {
  lay_n : n base = size;
  lay_version : (size - 17) / 4 = v;
  lay_small : size < 100;
  lay_m : square size (m base);
  lay_fixed : square size (fixed base);
  lay_path : Forall (in_range size) ps;
  lay_path_distinct : NoDup ps;
  lay_unset : forall p, in_range size p -> unset base p = negb (cell (fixed base) p);
  lay_format : Forall (in_range size) fcs;
  lay_format_set : forall p, p ∈ fcs -> unset base p = false;
  lay_format_distinct : NoDup fcs;
  lay_room : 8 * total_codewords v <= room
}.

Lemma ranged_spec size p : ranged size p = true -> in_range size p.
Proof. intros [H1%Nat.ltb_lt H2%Nat.ltb_lt]%andb_true_iff. by split. Qed.

Lemma squared_spec {A} size (g : list (list A)) : squared size g = true -> square size g.
Proof.
  intros [H1%Nat.eqb_eq H2]%andb_true_iff. split; [done|]. apply Forall_forall. intros row Hrow.
  apply Nat.eqb_eq. by apply (forallb_elem _ _ _ H2).
Qed.

Lemma elem_of_loop2 {A B} (xs : list A) (ys : list B) x y : x ∈ xs -> y ∈ ys -> (x, y) ∈ loop2 xs ys.
Proof.
  intros Hx Hy. unfold loop2. apply list_elem_of_join. exists ((fun y => (x, y)) <$> ys).
  split; [by apply list_elem_of_fmap_2|]. by apply (list_elem_of_fmap_2 (fun x => (fun y => (x, y)) <$> ys)).
Qed.

Lemma layout_check_spec v size base ps fcs room :
  layout_check v size base ps fcs room = true -> layout v size base ps fcs room.
Proof.
  unfold layout_check.
  intros [[[[[[[[[[Hn Hver]%andb_true_iff Hsm]%andb_true_iff Hsq]%andb_true_iff
    Hfx]%andb_true_iff Hpr]%andb_true_iff Hpd]%andb_true_iff Hun]%andb_true_iff
    Hfc]%andb_true_iff Hfd]%andb_true_iff Hroom]%andb_true_iff.
  split; auto using squared_spec; try (by eapply distinct_NoDup).
  - by apply Nat.eqb_eq.
  - by apply Nat.eqb_eq.
  - by apply Nat.ltb_lt.
  - apply Forall_forall. intros p Hp. exact (ranged_spec _ _ (forallb_elem _ _ _ Hpr Hp)).
  - intros [r c] [Hr Hc]. apply eqb_prop.
    refine (forallb_elem _ _ (r, c) Hun _). apply elem_of_loop2; apply elem_of_seq; simpl in *; lia.
  - apply Forall_forall. intros p Hp.
    pose proof (forallb_elem _ _ _ Hfc Hp) as [Hr _]%andb_true_iff. exact (ranged_spec _ _ Hr).
  - intros p Hp. pose proof (forallb_elem _ _ _ Hfc Hp) as [_ Hr]%andb_true_iff.
    by apply negb_true_iff.
  - by apply Nat.leb_le.
Qed.

Abbreviation layout_at v :=
  (layout v (moduleCount v) (function_patterns v) (path (moduleCount v))
     (format_cells (moduleCount v)) (length (free_modules v))).

Lemma layout_of v : v ∈ seq 1 10 -> layout_at v.
Proof.
  intros Hv. pose proof (versions_elim _ v layout_checked Hv) as H. cbv beta in H.
  exact (layout_check_spec _ _ _ _ _ _ H).
Qed.

(** ** Placement *)

Record placed (size : nat) (mx mx' : Matrix) (bits : list Z) (free : list (nat * nat)) : Prop := {
  pl_n : n mx' = n mx;
  pl_m : square size (m mx');
  pl_fixed : square size (fixed mx');
  pl_bits : forall i p, free !! i = Some p -> cell (m mx') p = default 0%Z (bits !! i);
  pl_other : forall p, p ∉ free -> cell (m mx') p = cell (m mx) p;
  pl_fixed_free : forall p, p ∈ free -> cell (fixed mx') p = false;
  pl_fixed_other : forall p, p ∉ free -> cell (fixed mx') p = cell (fixed mx) p
}.

Lemma unset_set_other mx p q v fx : p <> q -> unset (set mx p.1 p.2 v fx) q = unset mx q.
Proof. intros Hn. unfold unset, set. cbn. by rewrite cell_put_other by (by destruct p). Qed.

Lemma place_path size ps mx bits :
  square size (m mx) -> square size (fixed mx) -> Forall (in_range size) ps -> NoDup ps ->
  placed size mx (foldl place_bit (mx, bits) ps).1 bits (filter (fun p => unset mx p = true) ps).
Proof.
  revert mx bits. induction ps as [|p ps IH]; intros mx bits Hm Hf Hr Hnd.
  { split; try done. intros p Hp. by apply elem_of_nil in Hp. }
  apply Forall_cons in Hr as [Hrp Hr]. apply NoDup_cons in Hnd as [Hp Hnd].
  cbn [foldl place_bit]. fold (unset mx p). destruct (unset mx p) eqn:Hu.
  - rewrite filter_cons_True by done.
    assert (forall v, filter (fun q => unset (set mx p.1 p.2 v false) q = true) ps =
                      filter (fun q => unset mx q = true) ps) as Hfil.
    { intros v. apply filter_ext_in. intros q Hq.
      rewrite unset_set_other; [done|]. intros ->. done. }
    assert (p ∉ filter (fun q => unset mx q = true) ps) as Hpf
      by (intros [_ ?]%list_elem_of_filter; done).
    assert (exists b bits', (forall i, default 0%Z (bits !! S i) = default 0%Z (bits' !! i)) /\
      default 0%Z (bits !! 0) = b /\
      match bits with [] => (set mx p.1 p.2 0%Z false, []) | b :: bits' => (set mx p.1 p.2 b false, bits') end
        = (set mx p.1 p.2 b false, bits')) as (b & bits' & Hnext & Hb & ->).
    { destruct bits as [|b bits]; [exists 0%Z, []|exists b, bits]; done. }
    destruct (IH (set mx p.1 p.2 b false) bits') as [I1 I2 I3 I4 I5 I6 I7];
      [by apply put_cell_square|by apply put_cell_square|done|done|].
    rewrite Hfil in *. split; [done..| | | |].
    + intros [|i] q Hq; simpl in Hq.
      * simplify_eq. rewrite I5 by done. destruct q. cbn. by eapply cell_put_same.
      * rewrite Hnext. by apply I4.
    + intros q [Hq1 Hq2]%not_elem_of_cons. rewrite I5 by done. cbn.
      apply cell_put_other. by destruct p.
    + intros q Hq. destruct (decide (q ∈ filter (fun q => unset mx q = true) ps)) as [Hin|Hin]; [auto|].
      apply elem_of_cons in Hq as [->|Hq]; [|done]. rewrite I7 by done. destruct p. cbn.
      by eapply cell_put_same.
    + intros q [Hq1 Hq2]%not_elem_of_cons. rewrite I7 by done. cbn.
      apply cell_put_other. by destruct p.
  - rewrite filter_cons_False by (by rewrite Hu). by apply IH.
Qed.

(** ** Format bits *)

Definition format_bit (mask i : nat) : Z := Z.land (Z.shiftr (kFormatM mask) (Z.of_nat (14 - i))) 1.

Definition format_writes (size mask : nat) : list ((nat * nat) * Z) :=
  mjoin ((fun i => [(copy1 !!! i, format_bit mask i); (copy2 size !!! i, format_bit mask i)]) <$> seq 0 15)
  ++ [((size - 8, 8), 1%Z)].

Lemma applyFormat_writes g size mask : applyFormat g size mask = write_cells g (format_writes size mask).
Proof.
  reflexivity.
Qed.

Lemma format_writes_cells size mask : (format_writes size mask).*1 = format_cells size.
Proof. reflexivity. Qed.

Lemma masks_checked :
  forallb (fun mask => bool_decide
    (fst <$> list_find (fun mask' => kFormatM mask' = bits_value (format_bit mask <$> seq 0 15)) (seq 0 8)
      = Some mask)) (seq 0 8) = true.
Proof. vm_compute. reflexivity. Qed.

(** ** The choice of the mask *)

Lemma line_penalty_bound k c f run pen :
  (pen <= line_penalty k c f run pen <= pen + 3 * Z.of_nat k)%Z.
Proof.
  revert c run pen. induction k as [|k IH]; intros c run pen; cbn [line_penalty]; [lia|].
  destruct (f c =? f (c - 1)%nat)%Z; [|specialize (IH (S c) 1%Z pen); lia].
  destruct (run + 1 =? 5)%Z; [|destruct (5 <? run + 1)%Z].
  - specialize (IH (S c) (run + 1)%Z (pen + 3)%Z). lia.
  - specialize (IH (S c) (run + 1)%Z (pen + 1)%Z). lia.
  - specialize (IH (S c) (run + 1)%Z pen). lia.
Qed.

Lemma foldl_bound {B} (f : Z -> B -> Z) (l : list B) (d pen : Z) :
  (forall pen x, f pen x <= pen + d)%Z -> (foldl f pen l <= pen + d * Z.of_nat (length l))%Z.
Proof.
  intros Hf. revert pen. induction l as [|x l IH]; intros pen; cbn [foldl length]; [lia|].
  specialize (IH (f pen x)). specialize (Hf pen x). lia.
Qed.

Lemma loop2_length {A B} (xs : list A) (ys : list B) : length (loop2 xs ys) = length xs * length ys.
Proof.
  unfold loop2. induction xs as [|x xs IH]; [done|].
  rewrite fmap_cons, join_cons, length_app, length_fmap, IH. cbn. lia.
Qed.

Lemma penalty_small g : length g < 100 -> (penalty g < 2 ^ 30)%Z.
Proof.
  intros Hl. unfold penalty. set (size := length g) in *.
  eapply Z.le_lt_trans.
  - apply (foldl_bound _ _ (3 * Z.of_nat size)). intros pen [r dir].
    pose proof (line_penalty_bound (size - 1) 1
      (fun c => if dir then cell g (c, r) else cell g (r, c)) 1 pen). lia.
  - rewrite loop2_length, length_seq. cbn [length]. change (2 ^ 30)%Z with 1073741824%Z. nia.
Qed.

(** The selection of the code returns one of the eight candidates, and none has a lower
    penalty. *)
Lemma best_mask_spec base :
  (forall mask, (penalty (candidate base mask) < 2 ^ 30)%Z) ->
  exists mask, mask < 8 /\ best_mask base = (penalty (candidate base mask), candidate base mask) /\
    forall mask', mask' < 8 -> (penalty (candidate base mask) <= penalty (candidate base mask'))%Z.
Proof.
  intros Hp. unfold best_mask.
  assert (forall k, let st := foldl (fun '(best_pen, best) mask =>
      let g := candidate base mask in
      if (penalty g <? best_pen)%Z then (penalty g, g) else (best_pen, best)) (2 ^ 30, [])%Z (seq 0 (S k)) in
    exists mask, mask < S k /\ st = (penalty (candidate base mask), candidate base mask) /\
      forall mask', mask' < S k -> (penalty (candidate base mask) <= penalty (candidate base mask'))%Z)
    as H; [|exact (H 7)].
  induction k as [|k (mask & Hm & E & Hmin)]; cbv zeta.
  - exists 0. cbn [seq foldl]. specialize (Hp 0). apply Z.ltb_lt in Hp. rewrite Hp.
    split; [lia|]. split; [done|]. intros mask' ?. by replace mask' with 0 by lia.
  - rewrite seq_S, foldl_app. cbv zeta in E. rewrite E. cbn [foldl Nat.add]. 
    destruct (Z.ltb_spec (penalty (candidate base (S k))) (penalty (candidate base mask))).
    + exists (S k). split; [lia|]. split; [done|]. intros mask' ?.
      destruct (decide (mask' = S k)) as [->|]; [lia|]. etrans; [|apply Hmin]; lia.
    + exists mask. split; [lia|]. split; [done|]. intros mask' ?.
      destruct (decide (mask' = S k)) as [->|]; [lia|]. apply Hmin. lia.
Qed.

(** ** A symbol read back *)

Lemma prefix_of_lookups (l pre : list Z) :
  length pre <= length l -> (forall i b, pre !! i = Some b -> l !! i = Some b) ->
  exists rest, l = pre ++ rest.
Proof.
  intros Hl H. exists (drop (length pre) l). rewrite <-(take_drop (length pre) l) at 1. f_equal.
  apply list_eq. intros i. destruct (decide (i < length pre)) as [Hi|Hi].
  - rewrite lookup_take_lt by done. apply lookup_lt_is_Some in Hi as [b Hb]. by rewrite Hb, (H i b).
  - rewrite !(proj2 (lookup_ge_None _ _)); [done|lia|rewrite length_take; lia].
Qed.

Lemma candidate_square base mask : square (n base) (candidate base mask).
Proof.
  unfold candidate. rewrite applyFormat_writes. apply write_cells_square, grid_square.
Qed.

Lemma lxor_twice a b : Z.lxor (Z.lxor a b) b = a.
Proof. by rewrite Z.lxor_assoc, Z.lxor_nilpotent, Z.lxor_0_r. Qed.

Lemma lxor_is_bit a b : is_bit a -> is_bit b -> is_bit (Z.lxor a b).
Proof. unfold is_bit. intros [->| ->] [->| ->]; auto. Qed.

Section ReadBack.
Context (v size : nat) (base0 base : Matrix) (bits : list Z) (room : nat) (mask : nat).
Context (Hlay : layout v size base0 (path size) (format_cells size) room).
Context (free : list (nat * nat)).
Context (Hfree : free = filter (fun p => unset base0 p = true) (path size)).
Context (Hpl : placed size base0 base bits free).
Context (Hbits : Forall is_bit bits) (Hmask : mask < 8).

Let sym : list (list bool) := grid (n base) (fun r c => (cell (candidate base mask) (r, c) =? 1)%Z).

Lemma base_size : n base = size.
Proof. rewrite (pl_n _ _ _ _ _ Hpl). apply Hlay. Qed.

Lemma symbol_cell p b :
  in_range size p -> is_bit b -> cell (candidate base mask) p = b -> module_bit sym p = b.
Proof.
  intros Hp Hb E. unfold module_bit, sym. rewrite base_size, cell_grid by done.
  rewrite <-surjective_pairing, E. by destruct Hb as [->| ->].
Qed.

Lemma free_in_path p : p ∈ free -> in_range size p /\ unset base0 p = true.
Proof.
  rewrite Hfree. intros [Hu Hp]%list_elem_of_filter. split; [|done].
  by apply (proj1 (Forall_forall _ _) (lay_path _ _ _ _ _ _ Hlay)).
Qed.

(** What [applyFormat] writes is what the symbol shows. *)
Lemma read_write p b : (p, b) ∈ format_writes size mask -> is_bit b -> module_bit sym p = b.
Proof.
  intros Hin Hb.
  assert (p ∈ format_cells size) as Hc.
  { rewrite <-(format_writes_cells size mask). by apply (list_elem_of_fmap_2 fst) in Hin. }
  apply symbol_cell; [by apply (proj1 (Forall_forall _ _) (lay_format _ _ _ _ _ _ Hlay))|done|].
  unfold candidate. rewrite base_size, applyFormat_writes.
  eapply write_cells_same; [unfold masked; rewrite base_size; apply grid_square| | |exact Hin];
    rewrite format_writes_cells; [apply (lay_format _ _ _ _ _ _ Hlay)|
    apply (lay_format_distinct _ _ _ _ _ _ Hlay)].
Qed.

Lemma read_copies i :
  i < 15 ->
  module_bit sym (copy1 !!! i) = format_bit mask i /\ module_bit sym (copy2 size !!! i) = format_bit mask i.
Proof.
  intros Hi. split; (apply read_write; [|apply land_bit]); unfold format_writes; apply elem_of_app; left;
    apply list_elem_of_join; eexists;
    (split; [|eapply list_elem_of_fmap_2'; [apply (elem_of_seq 0 15 i); lia|reflexivity]]);
    rewrite !elem_of_cons; auto.
Qed.

(** A module of a function pattern is neither masked nor overwritten. *)
Lemma read_function p :
  in_range size p -> unset base0 p = false -> p ∉ format_cells size -> is_bit (cell (m base0) p) ->
  module_bit sym p = cell (m base0) p.
Proof.
  intros Hp Hu Hf Hb.
  assert (p ∉ free) as Hn by (intros [_ ?]%free_in_path; congruence).
  apply symbol_cell; [done..|]. unfold candidate. rewrite base_size, applyFormat_writes, write_cells_other
    by (by rewrite format_writes_cells).
  unfold masked. rewrite base_size, cell_grid, <-surjective_pairing by done.
  rewrite (pl_fixed_other _ _ _ _ _ Hpl) by done.
  pose proof (lay_unset _ _ _ _ _ _ Hlay p Hp) as Hx. rewrite Hu in Hx.
  destruct (cell (fixed base0) p); [|done]. apply (pl_other _ _ _ _ _ Hpl p Hn).
Qed.

Lemma read_format : read_mask sym = Some mask.
Proof.
  unfold read_mask.
  assert (module_bit sym <$> copy1 = format_bit mask <$> seq 0 15) as ->.
  { assert (copy1 = (fun i => copy1 !!! i) <$> seq 0 15) as -> by reflexivity.
    rewrite <-list_fmap_compose. apply Forall_fmap_ext_1, Forall_seq. intros i Hi.
    exact (proj1 (read_copies i ltac:(lia))). }
  assert (mask ∈ seq 0 8) as Hin by (apply elem_of_seq; lia).
  pose proof (forallb_elem _ _ _ masks_checked Hin) as H. cbv beta in H.
  by apply bool_decide_eq_true_1 in H.
Qed.

Lemma read_module i p :
  free !! i = Some p ->
  Z.lxor (module_bit sym p) (if maskBit mask p.1 p.2 then 1 else 0)%Z = default 0%Z (bits !! i).
Proof.
  intros Hi. destruct (free_in_path p) as [Hp Hu]; [by eapply list_elem_of_lookup_2|].
  assert (is_bit (default 0%Z (bits !! i))) as Hb.
  { destruct (bits !! i) eqn:E; [by eapply Forall_lookup_1 in E|by left]. }
  rewrite (symbol_cell p (Z.lxor (default 0%Z (bits !! i)) (if maskBit mask p.1 p.2 then 1 else 0)%Z)).
  - apply lxor_twice.
  - done.
  - apply lxor_is_bit; [done|]. destruct (maskBit mask p.1 p.2); [by right|by left].
  - unfold candidate. rewrite base_size, applyFormat_writes, write_cells_other.
    + unfold masked. rewrite base_size, cell_grid, <-surjective_pairing by done.
      rewrite (pl_fixed_free _ _ _ _ _ Hpl) by (by eapply list_elem_of_lookup_2).
      by rewrite (pl_bits _ _ _ _ _ Hpl i p Hi).
    + rewrite format_writes_cells. intros Hf.
      apply (lay_format_set _ _ _ _ _ _ Hlay) in Hf. congruence.
Qed.
End ReadBack.

Lemma placeData_placed v cw :
  v ∈ seq 1 10 ->
  placed (moduleCount v) (function_patterns v) (placeData (function_patterns v) cw)
    (codeword_bits cw) (free_modules v).
Proof.
  intros Hin. pose proof (layout_of v Hin) as Hlay.
  unfold placeData. rewrite (lay_n _ _ _ _ _ _ Hlay).
  exact (place_path _ _ _ _ (lay_m _ _ _ _ _ _ Hlay) (lay_fixed _ _ _ _ _ _ Hlay)
    (lay_path _ _ _ _ _ _ Hlay) (lay_path_distinct _ _ _ _ _ _ Hlay)).
Qed.

#[local] Opaque function_patterns path placeData best_mask buildCodewords candidate grid.

(** ** Properties *)

Lemma encode_inv text sym :
  (Z.of_nat (String.length text) < 2 ^ 28)%Z -> encode text = Some sym ->
  exists v mask, let base := placeData (function_patterns v) (buildCodewords text v) in
    chooseVersion (Z.of_nat (String.length text)) = Some v /\ v ∈ seq 1 10 /\ fits text v /\
    (Z.of_nat (String.length text) < 2 ^ Z.of_nat (charCountBits v))%Z /\ mask < 8 /\
    placed (moduleCount v) (function_patterns v) base (codeword_bits (buildCodewords text v))
      (free_modules v) /\
    sym = grid (n base) (fun r c => (cell (candidate base mask) (r, c) =? 1)%Z) /\
    forall mask', mask' < 8 -> (penalty (candidate base mask) <= penalty (candidate base mask'))%Z.
Proof.
  intros Hl. unfold encode. destruct (chooseVersion _) as [v|] eqn:Hv; [|done].
  cbn [mbind option_bind]. intros H.
  destruct (chooseVersion_spec text v Hl Hv) as (Hin & Hf & Hc).
  pose proof (layout_of v Hin) as Hlay.
  set (base := placeData (function_patterns v) (buildCodewords text v)) in *.
  pose proof (placeData_placed v (buildCodewords text v) Hin) as Hpl. fold base in Hpl.
  destruct (best_mask_spec base) as (mask & Hm & E & Hmin).
  { intros mask. apply penalty_small. rewrite (proj1 (candidate_square base mask)).
    rewrite (pl_n _ _ _ _ _ Hpl), (lay_n _ _ _ _ _ _ Hlay). apply Hlay. }
  exists v, mask. cbv zeta. apply Some_inj in H. rewrite E in H. cbn [snd] in H.
  exact (conj eq_refl (conj Hin (conj Hf (conj Hc (conj Hm (conj Hpl (conj (eq_sym H) Hmin))))))).
Qed.

(** The first fitting version is the smallest one. *)
Lemma first_version_seq size s k v :
  first_version size (seq s k) = Some v ->
  forall v', s <= v' < v -> (Z.of_nat (data_codewords (kVerM v')) * 8 < need_bits size v')%Z.
Proof.
  revert s. induction k as [|k IH]; intros s; cbn [seq first_version]; [done|].
  destruct (Z.leb_spec (need_bits size s) (Z.of_nat (data_codewords (kVerM s)) * 8)).
  - intros [= ->] v' ?. lia.
  - intros H' v' Hv'. destruct (decide (v' = s)) as [->|]; [done|]. eapply IH; [done|lia].
Qed.

Lemma first_version_None size vs :
  first_version size vs = None <->
  Forall (fun v => (Z.of_nat (data_codewords (kVerM v)) * 8 < need_bits size v)%Z) vs.
Proof.
  induction vs as [|v vs IH]; cbn [first_version]; [by split|].
  rewrite Forall_cons. destruct (Z.leb_spec (need_bits size v) (Z.of_nat (data_codewords (kVerM v)) * 8)).
  - split; [done|]. intros [? _]. lia.
  - rewrite IH. tauto.
Qed.

Lemma chooseVersion_None text :
  (Z.of_nat (String.length text) < 2 ^ 28)%Z ->
  chooseVersion (Z.of_nat (String.length text)) = None <-> 213 < String.length text.
Proof.
  intros Hl. unfold chooseVersion. rewrite first_version_None.
  unfold need_bits. rewrite small_size by done. split.
  - intros H. eapply (Forall_lookup_1 _ _ 9) in H; [|reflexivity]. cbn in H. lia.
  - intros H. repeat constructor; cbn; lia.
Qed.

Lemma encode_None text :
  encode text = None <-> chooseVersion (Z.of_nat (String.length text)) = None.
Proof. unfold encode. by destruct (chooseVersion _). Qed.

(** The data modules of the symbol, unmasked, are the codewords. *)
Lemma symbol_codewords text v mask :
  v ∈ seq 1 10 -> fits text v -> mask < 8 ->
  let base := placeData (function_patterns v) (buildCodewords text v) in
  let sym := grid (n base) (fun r c => (cell (candidate base mask) (r, c) =? 1)%Z) in
  to_bytes (total_codewords v)
    ((fun p => Z.lxor (module_bit sym p) (if maskBit mask p.1 p.2 then 1 else 0)%Z) <$> free_modules v) =
  buildCodewords text v.
Proof.
  intros Hin Hf Hm base sym. pose proof (layout_of v Hin) as Hlay.
  pose proof (placeData_placed v (buildCodewords text v) Hin) as Hpl. fold base in Hpl.
  destruct (buildCodewords_spec text v Hin Hf) as (Hcl & Hcb & _).
  pose proof (codeword_bits_bit (buildCodewords text v)) as Hbits.
  destruct (prefix_of_lookups ((fun p => Z.lxor (module_bit sym p) (if maskBit mask p.1 p.2 then 1 else 0)%Z)
      <$> free_modules v) (codeword_bits (buildCodewords text v))) as (rest & ->);
    [..|rewrite <-Hcl; exact (to_bytes_codewords _ rest Hcb)].
  - rewrite length_fmap, codeword_bits_length, Hcl. apply Hlay.
  - intros i b Hb. rewrite list_lookup_fmap.
    assert (i < length (free_modules v)) as Hi.
    { apply lookup_lt_Some in Hb. rewrite codeword_bits_length, Hcl in Hb.
      pose proof (lay_room _ _ _ _ _ _ Hlay). lia. }
    apply lookup_lt_is_Some in Hi as [p Hp]. rewrite Hp. cbn. unfold sym.
    rewrite (read_module v (moduleCount v) (function_patterns v) base
      (codeword_bits (buildCodewords text v)) _ mask Hlay (free_modules v) eq_refl Hpl Hbits i p Hp).
    by rewrite Hb.
Qed.

(** The symbol keeps the text, in all ten versions: a reader with the encoder's own tables
    and mask formulas recovers it. *)
Lemma scan_encode text sym :
  (Z.of_nat (String.length text) < 2 ^ 28)%Z -> encode text = Some sym -> scan sym = Some text.
Proof.
  intros Hl He. destruct (encode_inv text sym Hl He) as (v & mask & H). cbv zeta in H.
  set (base := placeData _ _) in *. destruct H as (_ & Hin & Hf & Hc & Hm & Hpl & -> & _).
  pose proof (layout_of v Hin) as Hlay.
  assert (n base = moduleCount v) as Hn
    by (rewrite (pl_n _ _ _ _ _ Hpl); apply Hlay).
  unfold scan. rewrite (proj1 (grid_square _ _)), Hn, (lay_version _ _ _ _ _ _ Hlay), <-Hn.
  rewrite (read_format v (moduleCount v) (function_patterns v) base
    (codeword_bits (buildCodewords text v)) _ mask Hlay (free_modules v) Hpl Hm).
  cbn [mbind option_bind]. pose proof (symbol_codewords text v mask Hin Hf Hm) as E.
  cbv zeta in E. fold base in E. rewrite E.
  destruct (buildCodewords_spec text v Hin Hf) as (_ & _ & ->). by apply read_segment_spec.
Qed.

(** the encoder accepts exactly the texts that fit its largest table entry, and then it
    returns a complete symbol: for texts below 2^28 bytes [encode] throws if and only if
    there are more than 213 bytes, and a returned symbol is a square of 17 + 4v modules for
    the version v it chose, the smallest whose data codewords hold the header and the text;
    the mask it shows is one of the eight and none of the other candidates has a lower
    penalty. *)
Theorem encode_capacity text :
  (Z.of_nat (String.length text) < 2 ^ 28)%Z ->
  (encode text = None <-> 213 < String.length text) /\
  forall sym, encode text = Some sym ->
    exists v mask, let base := placeData (function_patterns v) (buildCodewords text v) in
      chooseVersion (Z.of_nat (String.length text)) = Some v /\ mask < 8 /\
      square (moduleCount v) sym /\
      (forall v', 1 <= v' -> fits text v' -> v' <= 10 -> v <= v') /\
      (forall mask', mask' < 8 -> (penalty (candidate base mask) <= penalty (candidate base mask'))%Z) /\
      sym = grid (n base) (fun r c => (cell (candidate base mask) (r, c) =? 1)%Z).
Proof.
  intros Hl. split; [rewrite encode_None; by apply chooseVersion_None|].
  intros sym He. destruct (encode_inv text sym Hl He) as (v & mask & H). cbv zeta in H.
  exists v, mask. cbv zeta. set (base := placeData _ _) in *.
  destruct H as (Hv & Hin & Hf & Hc & Hm & Hpl & -> & Hmin).
  split; [done|]. split; [done|]. split; [|split; [|exact (conj Hmin eq_refl)]].
  - rewrite (pl_n _ _ _ _ _ Hpl), (lay_n _ _ _ _ _ _ (layout_of v Hin)). apply grid_square.
  - intros v' H1 Hf' _. destruct (decide (v <= v')) as [|Hn]; [done|].
    pose proof (first_version_seq _ _ _ _ Hv v' ltac:(lia)) as Hlt.
    unfold need_bits in Hlt. rewrite small_size in Hlt by done. unfold fits in Hf'. lia.
Qed.

Lemma encode_capacity_witness : encode "NEXUS" = None <-> 213 < 5.
Proof. refine (proj1 (encode_capacity "NEXUS" _)). vm_compute. reflexivity. Defined.

(** ** The capacity of the symbols

    Free modules against the code's codewords, version by version. *)
Lemma symbol_room :
  (fun v => (length (free_modules v), 8 * total_codewords v)) <$> seq 1 10 =
    [(208, 208); (359, 352); (567, 560); (807, 800); (1079, 1072); (1383, 1376);
     (1604, 1568); (1972, 1584); (2372, 1984); (2804, 2560)].
Proof. vm_compute. reflexivity. Qed.
