(* ===== verification/QrScan.v ===== *)
(** * The QR symbols are read by a scanner

    The encoder of [QrCode] against the reader of [QrReader], which was written from
    ISO/IEC 18004 alone.  Tables and layout are compared version by version, by
    evaluation; the data, the check codewords and the text by proof. *)

From S2P Require Import Prelude ReedSolomon QrCode QrReader.

Local Open Scope nat_scope.

(** ** Layout and tables, by evaluation *)

Definition high_to_low : list nat := [14; 13; 12; 11; 10; 9; 8; 7; 6; 5; 4; 3; 2; 1; 0].

(** A module that the standard prescribes has its colour, and is not one of the format
    modules; the dark module is written along with these. *)
Definition agrees (v : nat) (base : Matrix) (fcs : list (nat * nat)) (p : nat * nat) : bool :=
  match prescribed (kind_of v p) with
  | Some b => (negb (bool_decide (p ∈ fcs)) && negb (unset base p) && (cell (m base) p =? Z.b2z b)%Z) ||
              (bool_decide (p = (moduleCount v - 8, 8)) && b)
  | None => true
  end.

Definition standard_check (v : nat) : bool :=
  let s := moduleCount v in let t := blocks_of v in
  let per := block_data t in let nb := block_count t in
  (side v =? s) &&
  bool_decide (data_modules v = free_modules v) &&
  bool_decide (copy_1 <$> high_to_low = copy1) && bool_decide (copy_2 s <$> high_to_low = copy2 s) &&
  forallb (agrees v (function_patterns v) (format_cells s)) (positions s) &&
  (data_codewords (kVerM v) =? nb * per) && (ec_per_block (kVerM v) =? block_size t - per) &&
  (per <=? block_size t) && (num_blocks (kVerM v) =? nb) &&
  bool_decide (blocks v (seq 0 (data_codewords (kVerM v))) = (fun b => seq (b * per) per) <$> seq 0 nb) &&
  bool_decide (order v = mjoin ((fun i => (fun b => b * per + i) <$> seq 0 nb) <$> seq 0 per)) &&
  bool_decide (mjoin ((fun b => seq (b * per) per) <$> seq 0 nb) = seq 0 (data_codewords (kVerM v))) &&
  (charCountBits v =? 8) && (ec_per_block (kVerM v) <=? 26) &&
  forallb (ranged s) (copy1 ++ copy2 s).

Lemma standard_checked : forallb standard_check (seq 1 6) = true.
Proof. vm_compute. reflexivity. Qed.

Record standard (v : nat) : Prop := {
  st_side : side v = moduleCount v;
  st_data : data_modules v = free_modules v;
  st_copy1 : copy_1 <$> high_to_low = copy1;
  st_copy2 : copy_2 (moduleCount v) <$> high_to_low = copy2 (moduleCount v);
  st_agrees : forall p, p ∈ positions (moduleCount v) ->
    agrees v (function_patterns v) (format_cells (moduleCount v)) p = true;
  st_codewords : data_codewords (kVerM v) = block_count (blocks_of v) * block_data (blocks_of v);
  st_ecc : ec_per_block (kVerM v) = block_size (blocks_of v) - block_data (blocks_of v);
  st_room : block_data (blocks_of v) <= block_size (blocks_of v);
  st_blocks : num_blocks (kVerM v) = block_count (blocks_of v);
  st_split : blocks v (seq 0 (data_codewords (kVerM v))) =
    (fun b => seq (b * block_data (blocks_of v)) (block_data (blocks_of v))) <$> seq 0 (block_count (blocks_of v));
  st_order : order v = mjoin ((fun i => (fun b => b * block_data (blocks_of v) + i)
                                <$> seq 0 (block_count (blocks_of v))) <$> seq 0 (block_data (blocks_of v)));
  st_join : mjoin ((fun b => seq (b * block_data (blocks_of v)) (block_data (blocks_of v)))
                    <$> seq 0 (block_count (blocks_of v))) = seq 0 (data_codewords (kVerM v));
  st_count : charCountBits v = 8;
  st_ecc_small : ec_per_block (kVerM v) <= 26;
  st_format : Forall (in_range (moduleCount v)) (copy1 ++ copy2 (moduleCount v))
}.

Lemma standard_of v : v ∈ seq 1 6 -> standard v.
Proof.
  intros Hv. pose proof (forallb_elem _ _ _ standard_checked Hv) as H. unfold standard_check in H.
  cbv zeta in H. rewrite !andb_true_iff, !Nat.eqb_eq, !Nat.leb_le, !bool_decide_eq_true in H.
  destruct H as ((((((((((((((H1 & H2) & H3) & H4) & H5) & H6) & H7) & H8) & H9) & H10) & H11) & H12) & H13) & H14) & H15).
  split; auto.
  - intros p Hp. exact (forallb_elem _ _ _ H5 Hp).
  - apply Forall_forall. intros p Hp. apply ranged_spec. exact (forallb_elem _ _ _ H15 Hp).
Qed.

Lemma even_mod k : Nat.even k = (k mod 2 =? 0).
Proof.
  destruct (Nat.even k) eqn:E.
  - apply Nat.even_spec in E as [j ->]. by rewrite Nat.mul_comm, Nat.Div0.mod_mul.
  - rewrite <-Nat.negb_odd in E. apply negb_false_iff, Nat.odd_spec in E as [j ->].
    by rewrite Nat.add_comm, Nat.mul_comm, Nat.Div0.mod_add.
Qed.

Lemma masks_agree mask p : mask < 8 -> inverts mask p = maskBit mask p.1 p.2.
Proof.
  intros Hm. destruct p as [i j]. cbn [fst snd].
  do 8 (destruct mask as [|mask]; [unfold inverts, maskBit; by rewrite ?even_mod|]). lia.
Qed.

(** The announced mask is decoded from the word that the code writes. *)
Lemma format_checked :
  forallb (fun mask => bool_decide
    (mask_of_format (number ((fun i => (format_bit mask i =? 1)%Z) <$> seq 0 15)) = Some mask)) (seq 0 8) = true.
Proof. vm_compute. reflexivity. Qed.

(** ** Bits, bytes and half bytes *)

Lemma number_value bs : number bs = bits_value (Z.b2z <$> bs).
Proof.
  unfold number, bits_value.
  assert (forall n, (0 <= n)%Z -> foldl (fun n b => 2 * n + Z.b2z b)%Z n bs =
    foldl (fun b bit => Z.lor (Z.shiftl b 1) bit) n (Z.b2z <$> bs)) as H; [|by apply H].
  induction bs as [|b bs IH]; intros n Hn; [done|]. cbn [foldl fmap list_fmap].
  rewrite lor_bit by (done || (destruct b; [by right|by left])). apply IH. destruct b; simpl; lia.
Qed.

Lemma bytes_to_bytes k bs : bytes k bs = to_bytes k (Z.b2z <$> bs).
Proof.
  revert bs. induction k as [|k IH]; intros bs; [done|]. cbn. by rewrite number_value, fmap_take, IH, fmap_drop.
Qed.

Fixpoint halves (k : nat) (bits : list Z) : list Z :=
  match k with O => [] | S k' => bits_value (take 4 bits) :: halves k' (drop 4 bits) end.

Lemma halves_bits k n rest : (0 <= n < 16)%Z -> halves (S k) (bits_of n 4 ++ rest) = n :: halves k rest.
Proof.
  intros Hn. cbn [halves]. rewrite take_app_length', drop_app_length' by (by rewrite bits_of_length).
  by rewrite bits_value_of.
Qed.

Lemma byte_halves_checked :
  forall_bytes (fun c => bool_decide (bits_of c 8 = bits_of (c / 16) 4 ++ bits_of (c `mod` 16) 4)) = true.
Proof. vm_compute. reflexivity. Qed.

Lemma halves_byte k c rest :
  byte c -> halves (S (S k)) (bits_of c 8 ++ rest) = (c / 16)%Z :: (c `mod` 16)%Z :: halves k rest.
Proof.
  intros Hc. pose proof (forall_bytes_elim _ _ byte_halves_checked Hc) as E. cbv beta in E.
  apply bool_decide_eq_true_1 in E. rewrite E, <-app_assoc. unfold in_unsigned in Hc.
  rewrite !halves_bits; [done| |]; [apply Z.mod_pos_bound|split; [apply Z.div_pos|apply Z.div_lt_upper_bound]]; lia.
Qed.

Lemma nibbles_halves data : Forall byte data -> nibbles data = halves (2 * length data) (codeword_bits data).
Proof.
  induction 1 as [|c data Hc _ IH]; [done|]. rewrite codeword_bits_cons. cbn [length].
  replace (2 * S (length data)) with (S (S (2 * length data))) by lia. rewrite halves_byte by done.
  rewrite <-IH. done.
Qed.

Lemma characters_halves text k rest :
  characters (String.length text)
    (halves (2 * String.length text + S k) (codeword_bits (char_codes text) ++ replicate 4 0%Z ++ rest)) = Some text.
Proof.
  induction text as [|c text IH]; [done|].
  change (char_codes (String c text)) with (Z.of_nat (Ascii.nat_of_ascii c) :: char_codes text).
  rewrite codeword_bits_cons, <-app_assoc. cbn [String.length].
  replace (2 * S (String.length text) + S k) with (S (S (2 * String.length text + S k))) by lia.
  pose proof (Ascii.nat_ascii_bounded c) as Hc.
  rewrite halves_byte by (unfold in_unsigned; lia). cbn [characters]. rewrite IH. cbn.
  rewrite <-Z.div_mod by lia. by rewrite Nat2Z.id, Ascii.ascii_nat_embedding.
Qed.

Lemma segment_text_spec text v :
  fits text v -> charCountBits v = 8 -> String.length text < 256 ->
  segment_text (dataCodewords text v) = Some text.
Proof.
  intros Hf Hc Hl. destruct (dataCodewords_spec text v Hf) as (Hlen & Hb & rest & E).
  unfold fits in Hf. rewrite Hc in Hf. rewrite segment_length, Hc in E.
  assert (exists d, data_codewords (kVerM v) = String.length text + 2 + d) as [d Hd]
    by (exists (data_codewords (kVerM v) - (String.length text + 2)); lia).
  rewrite Hd in E. replace (4 `min` _) with 4 in E by lia.
  unfold segment_text. rewrite (nibbles_halves _ Hb), E, segment_eq, Hc, Hlen, Hd, <-!app_assoc.
  replace (2 * (String.length text + 2 + d)) with (S (S (S (2 * String.length text + S (2 * d))))) by lia.
  rewrite halves_bits by lia. rewrite halves_byte by (unfold in_unsigned; lia).
  cbv beta iota. rewrite <-Z.div_mod, Nat2Z.id by lia. apply characters_halves.
Qed.

(** ** Reed-Solomon *)

Lemma gf_mul_checked : forall_bytes (fun a => forall_bytes (fun b => (gf_mul a b =? pmul 8 a b)%Z)) = true.
Proof. vm_compute. reflexivity. Qed.

Lemma gf_mul_spec a b : byte a -> byte b -> gf_mul a b = mul a b.
Proof.
  intros Ha Hb. pose proof (forall_bytes_elim _ _ gf_mul_checked Ha) as H. cbv beta in H.
  apply (fun H => forall_bytes_elim _ _ H Hb) in H. cbv beta in H. apply Z.eqb_eq in H.
  by rewrite H, mul_pmul.
Qed.

Lemma roots_checked : forallb (fun j => (root j =? alpha j)%Z) (seq 0 26) = true.
Proof. vm_compute. reflexivity. Qed.

Lemma value_at_spec x word : byte x -> Forall byte word -> value_at x word = poly_eval x word.
Proof.
  intros Hx. induction word as [|c word IH] using rev_ind; [done|].
  intros [Hw Hc']%Forall_app. pose proof (proj1 (Forall_cons _ _ _) Hc') as [Hc _]. unfold value_at. rewrite foldl_app. cbn [foldl].
  fold (value_at x word). rewrite IH by done. pose proof (poly_eval_byte x word Hx Hw).
  rewrite gf_mul_spec, poly_eval_app by done.
  cbn [length gpow poly_eval]. rewrite (mul_comm x 1), mul_1_l by done.
  rewrite (mul_comm c 1), mul_1_l, Z.lxor_0_r by done. by rewrite mul_comm.
Qed.

(** ** Interleaving *)

Lemma transposed_lookup (w : nat -> list Z) n k i b :
  i < k -> b < n ->
  mjoin ((fun i => (fun b => w b !!! i) <$> seq 0 n) <$> seq 0 k) !!! (i * n + b) = w b !!! i.
Proof.
  intros Hi Hb. apply list_lookup_total_correct.
  rewrite (join_lookup_Some_same_length' n).
  - eexists. rewrite list_lookup_fmap, lookup_seq_lt by done. split; [done|].
    by rewrite list_lookup_fmap, lookup_seq_lt.
  - apply Forall_fmap, Forall_forall. intros j _. cbn. by rewrite length_fmap, length_seq.
  - done.
Qed.

Lemma join_fmap_fmap {A B} (f : A -> B) (ll : list (list A)) :
  mjoin (fmap (M:=list) f <$> ll) = f <$> mjoin ll.
Proof. induction ll as [|l ll IH]; [done|]. cbn. rewrite fmap_app. by f_equal. Qed.

Lemma fmap_seq_shift {A} (f : nat -> A) a k : f <$> seq (0 + a) k = (fun i => f (a + i)) <$> seq 0 k.
Proof.
  rewrite Nat.add_0_l, <-(Nat.add_0_r a) at 1. rewrite <-fmap_add_seq, <-list_fmap_compose. done.
Qed.

(** The block [b] of a text: its data and its check codewords. *)
Section Blocks.
Context (text : string) (v : nat) (Hst : standard v) (Hf : fits text v).

Let D := dataCodewords text v.
Let nb := block_count (blocks_of v).
Let per := block_data (blocks_of v).
Let ec := ec_per_block (kVerM v).

Definition data_block (b : nat) : list Z := (fun j => D !!! j) <$> seq (b * per) per.
Definition word (b : nat) : list Z := data_block b ++ rsEncode (data_block b) ec.

Lemma D_length : length D = nb * per.
Proof. unfold D. rewrite (proj1 (dataCodewords_spec text v Hf)). apply Hst. Qed.

Lemma D_split : blocks v D = data_block <$> seq 0 nb.
Proof.
  rewrite (fmap_lookup_seq D) at 1. unfold blocks. rewrite split_blocks_fmap.
  fold (blocks v (seq 0 (length D))). unfold D at 2. rewrite (proj1 (dataCodewords_spec text v Hf)).
  rewrite (st_split v Hst), <-list_fmap_compose. done.
Qed.

Lemma data_block_byte b : b < nb -> Forall byte (data_block b).
Proof.
  intros Hb. apply Forall_fmap, Forall_forall. intros j Hj%elem_of_seq. cbn.
  eapply (Forall_lookup_total_1 byte); [apply (dataCodewords_spec text v Hf)|].
  fold D. rewrite D_length. nia.
Qed.

Lemma data_block_length b : length (data_block b) = per.
Proof. unfold data_block. by rewrite length_fmap, length_seq. Qed.

Lemma word_spec b :
  b < nb ->
  length (word b) = block_size (blocks_of v) /\ Forall byte (word b) /\
  forall j, j < ec -> poly_eval (alpha j) (word b) = 0%Z.
Proof.
  intros Hb. pose proof (data_block_byte b Hb) as Hd.
  destruct (rsEncode_spec (data_block b) ec Hd ltac:(pose proof (st_ecc_small v Hst); unfold ec; lia)) as (Hl & Hby & Hroot).
  unfold word. rewrite length_app, data_block_length, Hl. split.
  - unfold ec, per. rewrite (st_ecc v Hst). pose proof (st_room v Hst). lia.
  - split; [by apply Forall_app|done].
Qed.

(** The codewords of the symbol are those of the blocks in turn. *)
Lemma codewords_transposed :
  buildCodewords text v =
    mjoin ((fun i => (fun b => word b !!! i) <$> seq 0 nb) <$> seq 0 (block_size (blocks_of v))).
Proof.
  unfold buildCodewords. fold ec D.
  replace (block_size (blocks_of v)) with (per + ec)
    by (unfold ec, per; rewrite (st_ecc v Hst); pose proof (st_room v Hst); lia).
  rewrite seq_app, fmap_app, join_app. f_equal.
  - rewrite interleave_order by (unfold D; by rewrite (proj1 (dataCodewords_spec text v Hf))).
    rewrite (st_order v Hst), <-join_fmap_fmap, <-list_fmap_compose. fold nb per. f_equal.
    apply Forall_fmap_ext_1, Forall_seq. intros i Hi. unfold compose. rewrite <-list_fmap_compose.
    apply Forall_fmap_ext_1, Forall_seq. intros b Hb. unfold compose, word.
    rewrite lookup_total_app_l by (rewrite data_block_length; lia). unfold data_block.
    rewrite (@list_lookup_total_fmap nat Z _ _ _) by (rewrite length_seq; lia).
    by rewrite lookup_total_seq_lt by lia.
  - unfold interleave_ecc. rewrite D_split, <-list_fmap_compose, (fmap_seq_shift _ per ec). f_equal.
    apply Forall_fmap_ext_1, Forall_seq. intros i Hi. rewrite <-list_fmap_compose.
    apply Forall_fmap_ext_1, Forall_seq. intros b Hb. unfold compose, word.
    rewrite lookup_total_app_r by (rewrite data_block_length; lia). rewrite data_block_length. f_equal. lia.
Qed.

Lemma block_word b : b < nb -> block v (buildCodewords text v) b = word b.
Proof.
  intros Hb. destruct (word_spec b Hb) as [Hl _]. rewrite (fmap_lookup_seq (word b)), Hl.
  apply Forall_fmap_ext_1, Forall_seq. intros i Hi. fold nb. rewrite codewords_transposed.
  apply transposed_lookup; lia.
Qed.

Lemma word_intact b : b < nb -> intact v (word b) = true.
Proof.
  intros Hb. destruct (word_spec b Hb) as (_ & Hby & Hroot). apply forallb_forall. intros j Hj%list_elem_of_In.
  rewrite <-(st_ecc v Hst) in Hj. apply elem_of_seq in Hj. fold ec in Hj.
  assert (ec <= 26) by apply (st_ecc_small v Hst).
  assert (root j = alpha j) as -> by
    (apply Z.eqb_eq, (forallb_elem _ _ j roots_checked), elem_of_seq; lia).
  rewrite value_at_spec by (done || apply alpha_byte; lia).
  apply Z.eqb_eq, Hroot. lia.
Qed.

Lemma blocks_data : mjoin (take per <$> (word <$> seq 0 nb)) = D.
Proof.
  rewrite (fmap_lookup_seq D). unfold D at 2. rewrite (proj1 (dataCodewords_spec text v Hf)).
  rewrite <-(st_join v Hst), <-join_fmap_fmap, <-!list_fmap_compose. fold nb per. f_equal.
  apply Forall_fmap_ext_1, Forall_seq. intros b Hb. unfold compose, word.
  by rewrite take_app_length' by (symmetry; apply data_block_length).
Qed.
End Blocks.

(** ** The symbol under the reader *)

Section Symbol.
Context (text : string) (v mask : nat) (Hst : standard v) (Hv : v ∈ seq 1 6) (Hf : fits text v)
  (Hmask : mask < 8).

Let base := placeData (function_patterns v) (buildCodewords text v).
Let sym : list (list bool) := grid (n base) (fun r c => (cell (candidate base mask) (r, c) =? 1)%Z).

Lemma v_ten : v ∈ seq 1 10.
Proof. apply elem_of_seq in Hv. apply elem_of_seq. lia. Qed.

Lemma base_placed : placed (moduleCount v) (function_patterns v) base
  (codeword_bits (buildCodewords text v)) (free_modules v).
Proof. apply placeData_placed, v_ten. Qed.

Lemma base_side : n base = moduleCount v.
Proof. rewrite (pl_n _ _ _ _ _ base_placed). apply (layout_of v v_ten). Qed.

Lemma sym_square : square (moduleCount v) sym.
Proof. unfold sym. rewrite base_side. apply grid_square. Qed.

Lemma dark_bit p : in_range (moduleCount v) p -> Z.b2z (dark sym p) = module_bit sym p.
Proof.
  intros [H1 H2]. destruct sym_square as [Hl Hr]. unfold module_bit, dark, cell.
  destruct (lookup_lt_is_Some_2 sym p.1) as [row Hrow]; [lia|].
  rewrite Hrow, (list_lookup_total_correct _ _ _ Hrow). cbn.
  destruct (lookup_lt_is_Some_2 row p.2) as [b Hb].
  - pose proof (Forall_lookup_1 _ _ _ _ Hr Hrow) as Hlen. cbn in Hlen. lia.
  - rewrite Hb, (list_lookup_total_correct _ _ _ Hb). by destruct b.
Qed.

Lemma sym_version : version_of sym = Some v.
Proof.
  destruct sym_square as [Hl Hr]. unfold version_of. rewrite <-(st_side v Hst) in Hl, Hr.
  assert (forall w, length sym = side w -> w ∈ seq 1 6 -> w = v) as Huniq.
  { intros w Hw Hin%elem_of_seq. apply elem_of_seq in Hv. unfold side in *. lia. }
  destruct (list_find _ (seq 1 6)) as [[i w]|] eqn:E.
  - apply list_find_Some in E as (Hi & [Hw _] & _). cbn. f_equal. apply Huniq; [done|].
    by eapply list_elem_of_lookup_2.
  - exfalso. apply list_find_None in E. rewrite Forall_forall in E. by apply (E v).
Qed.

Lemma sym_patterns : patterns_ok v sym = true.
Proof.
  apply forallb_forall. intros p Hp%list_elem_of_In. rewrite (st_side v Hst) in Hp.
  pose proof (st_agrees v Hst p Hp) as Ha. unfold agrees in Ha.
  destruct (prescribed (kind_of v p)) as [b|]; [|done]. apply eqb_true_iff.
  pose proof (layout_of v v_ten) as Hlay.
  assert (in_range (moduleCount v) p) as Hr.
  { unfold positions in Hp. apply list_elem_of_join in Hp as (l & Hin & Hl).
    apply list_elem_of_fmap in Hl as (r & -> & Hr%elem_of_seq).
    apply list_elem_of_fmap in Hin as (c & -> & Hc'%elem_of_seq). split; cbn; lia. }
  enough (module_bit sym p = Z.b2z b) as H by (rewrite <-dark_bit in H by done; by destruct (dark sym p), b).
  apply orb_true_iff in Ha as [Ha|Ha].
  - rewrite !andb_true_iff, !negb_true_iff, bool_decide_eq_false, Z.eqb_eq in Ha.
    destruct Ha as [[Hn Hu] Hc]. rewrite <-Hc.
    apply (read_function v (moduleCount v) (function_patterns v) base _ _ mask Hlay (free_modules v) eq_refl
             base_placed); [done..|rewrite Hc; destruct b; [by right|by left]].
  - apply andb_true_iff in Ha as [->%bool_decide_eq_true ->].
    apply (read_write v (moduleCount v) (function_patterns v) base _ _ mask Hlay (free_modules v) base_placed);
      [|by right].
    unfold format_writes. apply elem_of_app. right. by apply list_elem_of_singleton.
Qed.

Lemma format_word_read at_ (cells : list (nat * nat)) :
  at_ <$> high_to_low = cells -> (forall i, i < 15 -> module_bit sym (cells !!! i) = format_bit mask i) ->
  Forall (in_range (moduleCount v)) cells -> length cells = 15 ->
  format_word sym at_ = number ((fun i => (format_bit mask i =? 1)%Z) <$> seq 0 15).
Proof.
  intros Hat Hc Hr Hl. unfold format_word. f_equal.
  change (dark sym <$> (at_ <$> high_to_low) = (fun i => (format_bit mask i =? 1)%Z) <$> seq 0 15).
  rewrite Hat. apply list_eq. intros i. rewrite !list_lookup_fmap. destruct (decide (i < 15)) as [Hi|Hi].
  - rewrite lookup_seq_lt, (list_lookup_lookup_total_lt cells) by lia. cbn. f_equal.
    rewrite <-(Hc i Hi), <-dark_bit by (eapply (Forall_lookup_total_1 (in_range _)); [exact Hr|lia]).
    by destruct (dark sym _).
  - rewrite lookup_seq_ge, (proj2 (lookup_ge_None cells i)) by lia. done.
Qed.

Lemma sym_format : QrReader.read_format v sym = Some mask.
Proof.
  pose proof (layout_of v v_ten) as Hlay.
  pose proof (fun i (Hi : i < 15) => read_copies v (moduleCount v) (function_patterns v) base _ _ mask Hlay
    (free_modules v) base_placed Hmask i Hi) as Hread.
  unfold QrReader.read_format. rewrite (st_side v Hst).
  destruct (proj1 (Forall_app _ _ _) (st_format v Hst)) as [Hr1 Hr2].
  rewrite (format_word_read copy_1 copy1 (st_copy1 v Hst)) by (done || exact (fun i Hi => proj1 (Hread i Hi))).
  rewrite (format_word_read (copy_2 (moduleCount v)) (copy2 (moduleCount v)) (st_copy2 v Hst))
    by (done || exact (fun i Hi => proj2 (Hread i Hi))).
  rewrite Z.eqb_refl. assert (mask ∈ seq 0 8) as Hin by (apply elem_of_seq; lia).
  pose proof (forallb_elem _ _ _ format_checked Hin) as H. cbv beta in H.
  apply bool_decide_eq_true_1 in H. exact H.
Qed.

Lemma sym_codewords : codewords v mask sym = buildCodewords text v.
Proof.
  unfold codewords. rewrite bytes_to_bytes, (st_data v Hst), <-list_fmap_compose.
  rewrite <-(symbol_codewords text v mask v_ten Hf Hmask). cbv zeta. fold base sym.
  replace (block_count (blocks_of v) * block_size (blocks_of v)) with (total_codewords v).
  - f_equal. apply list_fmap_ext. intros i p Hp%list_elem_of_lookup_2. unfold compose.
    apply list_elem_of_filter in Hp as [_ Hp].
    pose proof (proj1 (Forall_forall _ _) (lay_path _ _ _ _ _ _ (layout_of v v_ten)) p Hp).
    rewrite masks_agree, <-dark_bit by done. by destruct (dark sym p), (maskBit mask p.1 p.2).
  - unfold total_codewords. rewrite (st_codewords v Hst), (st_ecc v Hst), (st_blocks v Hst).
    pose proof (st_room v Hst). nia.
Qed.

Lemma sym_read : charCountBits v = 8 -> String.length text < 256 -> read sym = Some text.
Proof.
  intros Hc Hl. unfold read. rewrite sym_version. cbn [mbind option_bind].
  rewrite sym_patterns, sym_format. cbn [mbind option_bind]. rewrite sym_codewords.
  assert (block v (buildCodewords text v) <$> seq 0 (block_count (blocks_of v)) =
          word text v <$> seq 0 (block_count (blocks_of v))) as ->.
  { apply Forall_fmap_ext_1, Forall_seq. intros b Hb. apply block_word; [done..|lia]. }
  assert (forallb (intact v) (word text v <$> seq 0 (block_count (blocks_of v))) = true) as ->.
  { apply forallb_forall. intros w Hw%list_elem_of_In. apply list_elem_of_fmap in Hw as (b & -> & Hb%elem_of_seq).
    apply word_intact; [done..|lia]. }
  rewrite blocks_data by done. by apply segment_text_spec.
Qed.
End Symbol.

(** ** Properties *)

(** C21: the symbol of every text of at most 106 bytes - versions 1 to 6 - is a QR code: a
    scanner written from ISO/IEC 18004 alone ([QrReader]) accepts it and reads exactly the
    text.  The scanner checks the finder, timing and alignment patterns and the dark
    module, takes the mask from two equal BCH-valid format words of level M, collects and
    unmasks the codewords in the order of the standard, takes its blocks apart, finds every
    Reed-Solomon syndrome zero, and requires the terminator after the text. *)
Theorem qr_scan_recovers text :
  String.length text <= 106 -> exists sym, encode text = Some sym /\ read sym = Some text.
Proof.
  intros Hl. assert (Z.of_nat (String.length text) < 2 ^ 28)%Z as Hs by (change (2 ^ 28)%Z with 268435456%Z; lia).
  destruct (encode text) as [sym|] eqn:He.
  2: { apply encode_None, (chooseVersion_None text Hs) in He. lia. }
  exists sym. split; [done|]. destruct (encode_inv text sym Hs He) as (v & mask & H). cbv zeta in H.
  destruct H as (Hch & Hin & Hf & _ & Hm & _ & -> & _).
  assert (v <= 6) as H6.
  { destruct (decide (v <= 6)) as [|Hn]; [done|].
    pose proof (first_version_seq _ _ _ _ Hch 6 ltac:(lia)) as H6. unfold need_bits in H6.
    rewrite small_size in H6 by done. cbn in H6. lia. }
  assert (v ∈ seq 1 6) as Hv by (apply elem_of_seq in Hin; apply elem_of_seq; lia).
  pose proof (standard_of v Hv) as Hst. apply sym_read; [done..|apply Hst|lia].
Qed.

(** A network to join, in a symbol of version 6. *)
Definition wifi_text : string :=
  "WIFI:T:WPA;S:NEXUS-SETUP-1234567890;P:0123456789012345678901234567890123456789;H:false;;".

Lemma qr_scan_recovers_witness :
  exists sym, encode wifi_text = Some sym /\ length sym = 41 /\ read sym = Some wifi_text.
Proof.
  destruct (qr_scan_recovers wifi_text) as (sym & He & Hr); [vm_compute; lia|].
  exists sym. split; [exact He|]. split; [|exact Hr].
  enough (length <$> encode wifi_text = Some 41) as H by (rewrite He in H; by injection H).
  vm_compute. reflexivity.
Defined.
