(* ===== verification/Web.v ===== *)
(** * Web: the technician interface of the speaker

    Models [src/web]: the bearer token ([Authentication.h]), the router of the API
    ([ApiRouter.cpp]) over the callbacks of [ApiContext.h], and the server that adds the
    pages, the setup codes and the captive portal ([WebServer.cpp]).  The callbacks are
    fields of a context record, runs over a state of the caller's; a callback may throw,
    and what it throws leaves the router as it does in the code.  The texts of the two
    pages are arguments. *)

From Stdlib Require Import Ascii.
From S2P Require Import Prelude Core Json Files Config Storage Control Pairing QrCode.

(** Whether a text begins with a prefix. *)
Definition under (prefix p : string) : bool :=
  match strip_prefix prefix p with Some _ => true | None => false end.

(** ** The token *)

(* [src/src/web/Authentication.h:12-39] Authentication *)
Record Authentication := mk_auth { token_ : string }.

(* [src/src/web/Authentication.h:32-34] Authentication::constantTimeEquals *)
Fixpoint xor_bytes (a b : string) : Z :=
  match a, b with
  | String x a, String y b =>
      Z.lor (Z.lxor (Z.of_nat (nat_of_ascii x)) (Z.of_nat (nat_of_ascii y))) (xor_bytes a b)
  | _, _ => 0
  end.

(* [src/src/web/Authentication.h:30-36] Authentication::constantTimeEquals *)
Definition constantTimeEquals (a b : string) : bool :=
  if negb (String.length a =? String.length b)%nat then false else (xor_bytes a b =? 0)%Z.

(* [src/src/web/Authentication.h:22-27] Authentication::authorize *)
Definition authorize (auth : Authentication) (auth_header : string) : bool :=
  let prefix := "Bearer " in
  if (String.length auth_header <=? String.length prefix)%nat then false
  else
    match strip_prefix prefix auth_header with
    | None => false
    | Some rest => constantTimeEquals rest (token_ auth)
    end.

Lemma xor_bytes_zero a b : String.length a = String.length b -> (xor_bytes a b = 0 <-> a = b)%Z.
Proof.
  revert b. induction a as [|x a IH]; intros [|y b] Hl; simplify_eq/=; [done|].
  rewrite Z.lor_eq_0_iff, Z.lxor_eq_0_iff, IH by done. split; [|by intros [= -> ->]].
  intros [Hxy ->]. f_equal. apply Nat2Z.inj in Hxy.
  rewrite <- (ascii_nat_embedding x), <- (ascii_nat_embedding y). by f_equal.
Qed.

Lemma constantTimeEquals_iff a b : constantTimeEquals a b = true <-> a = b.
Proof.
  unfold constantTimeEquals. destruct (Nat.eqb_spec (String.length a) (String.length b)); cbn [negb].
  - rewrite Z.eqb_eq. by apply xor_bytes_zero.
  - split; [done|]. by intros ->.
Qed.

Lemma authorize_iff auth h : authorize auth h = true <-> h = "Bearer " +:+ token_ auth /\ token_ auth <> "".
Proof.
  unfold authorize. split.
  - destruct (Nat.leb_spec (String.length h) (String.length "Bearer ")) as [|Hl]; [done|].
    destruct (strip_prefix "Bearer " h) as [r|] eqn:E; [|done].
    apply strip_prefix_Some in E as ->. rewrite constantTimeEquals_iff. intros ->. split; [done|].
    intros He. rewrite He, str_app_nil in Hl. simpl in Hl. lia.
  - intros [-> Hne]. rewrite strip_prefix_app, str_app_length.
    destruct (Nat.leb_spec (String.length "Bearer " + String.length (token_ auth)) (String.length "Bearer ")) as [Hl|Hl];
      [|by apply constantTimeEquals_iff].
    destruct (token_ auth); [done|]. simpl in Hl. lia.
Qed.

(** ** Requests, responses, callbacks *)

(* [src/src/web/IWebTransport.h:12-19] HttpRequest *)
Record HttpRequest := mk_request
  { method : string; path : string; body : string; auth : string; host : string }.

(* [src/src/web/IWebTransport.h:21-27] HttpResponse *)
Record HttpResponse := mk_response
  { r_status : Z; content_type : string; r_body : string; headers : list (string * string) }.

Section Router.
Context {J : JsonLib} {W E : Type}.

Abbreviation A := (SW W E).

Definition ActionResult : Type := bool * string.

(** Each callback is absent or a run; reading the status changes nothing. *)
(* [src/src/web/ApiContext.h:13-41] ApiContext *)
Record ApiContext := mk_context
  { x_status : option (W -> Try json);
    x_health : option (A (Try json)); x_network : option (A (Try json)); x_audio : option (A (Try json));
    x_hardware : option (A (Try json)); x_calibrationStatus : option (A (Try json));
    x_calibrationResult : option (A (Try json)); x_scanWifi : option (A (Try json));
    x_logs : option (A (Try string));
    x_setVolume : option (json -> A (Try ActionResult)); x_setMute : option (json -> A (Try ActionResult));
    x_setEq : option (json -> A (Try ActionResult)); x_setDelay : option (json -> A (Try ActionResult));
    x_audioTest : option (A (Try ActionResult)); x_startCalibration : option (A (Try ActionResult));
    x_reboot : option (A (Try ActionResult)); x_update : option (A (Try ActionResult));
    x_resetNetwork : option (A (Try ActionResult)); x_factoryReset : option (A (Try ActionResult));
    x_connectWifi : option (json -> A (Try ActionResult));
    x_setSpeakerName : option (json -> A (Try ActionResult)) }.

(* [src/src/web/ApiRouter.cpp:5-7] ApiRouter::json *)
Definition json_response (status : Z) (b : json) : HttpResponse :=
  mk_response status "application/json" (dump b) [].

(* [src/src/web/ApiRouter.cpp:8-8] ApiRouter::ok *)
Definition ok (b : json) : HttpResponse := json_response 200 b.
(* [src/src/web/ApiRouter.cpp:9-11] ApiRouter::notFound *)
Definition notFound : HttpResponse := json_response 404 (jobj [("error", jstr "not found")]).
(* [src/src/web/ApiRouter.cpp:12-14] ApiRouter::unauthorized *)
Definition unauthorized : HttpResponse := json_response 401 (jobj [("error", jstr "unauthorized")]).
(* [src/src/web/ApiRouter.cpp:15-17] ApiRouter::actionResult *)
Definition actionResult (r : ActionResult) : HttpResponse :=
  json_response (if r.1 then 200 else 400) (jobj [("ok", jbool r.1); ("message", jstr r.2)]).

Definition answer {B} (f : B -> HttpResponse) (m : A (Try B)) : A (Try HttpResponse) :=
  r ← m; mret (match r with Done b => Done (f b) | Throw what => Throw what end).

(** The callback a path names runs; without it the next test of the chain follows, and the
    last is [notFound]: no path occurs twice. *)
Definition reply_with {B} (f : B -> HttpResponse) (m : option (A (Try B))) : A (Try HttpResponse) :=
  match m with Some m => answer f m | None => mret (Done notFound) end.

Definition read_status (ctx : ApiContext) : option (A (Try json)) :=
  (fun f (w : W) => (f w, w, [])) <$> x_status ctx.

(* [src/src/web/ApiRouter.cpp:34-48] ApiRouter::handleGet *)
Definition handleGet (ctx : ApiContext) (path : string) : A (Try HttpResponse) :=
  if String.eqb path "/api/status" then reply_with ok (read_status ctx)
  else if String.eqb path "/api/health" then reply_with ok (x_health ctx)
  else if String.eqb path "/api/network" then reply_with ok (x_network ctx)
  else if String.eqb path "/api/audio" then reply_with ok (x_audio ctx)
  else if String.eqb path "/api/hardware" then reply_with ok (x_hardware ctx)
  else if String.eqb path "/api/calibration/status" then reply_with ok (x_calibrationStatus ctx)
  else if String.eqb path "/api/calibration/result" then reply_with ok (x_calibrationResult ctx)
  else if String.eqb path "/api/wifi/scan" then reply_with ok (x_scanWifi ctx)
  else if String.eqb path "/api/system/logs" then
    reply_with (fun l => mk_response 200 "text/plain" l []) (x_logs ctx)
  else mret (Done notFound).

(* [src/src/web/ApiRouter.cpp:25-32] ApiRouter::isSetupMode *)
Definition isSetupMode (ctx : ApiContext) (w : W) : bool :=
  match x_status ctx with
  | None => false
  | Some f => match (j ← f w; value_bool j "setup_mode" false) with Done b => b | Throw _ => false end
  end.

(* [src/src/web/ApiRouter.cpp:59-59] ApiRouter::handlePost *)
Definition via_hotspot (q : HttpRequest) : bool :=
  under "10.42.0.1" (host q).

(* [src/src/web/ApiRouter.cpp:60-61] ApiRouter::handlePost *)
Definition setup_open (ctx : ApiContext) (q : HttpRequest) (w : W) : bool :=
  isSetupMode ctx w && via_hotspot q &&
  (String.eqb (path q) "/api/wifi/connect" || String.eqb (path q) "/api/device/name").

(* [src/src/web/ApiRouter.cpp:73-89] ApiRouter::handlePost *)
Definition run_action (ctx : ApiContext) (p : string) (b : json) : A (Try HttpResponse) :=
  let on (m : option (json -> A (Try ActionResult))) := (fun f => f b) <$> m in
  if String.eqb p "/api/audio/volume" then reply_with actionResult (on (x_setVolume ctx))
  else if String.eqb p "/api/audio/mute" then reply_with actionResult (on (x_setMute ctx))
  else if String.eqb p "/api/audio/eq" then reply_with actionResult (on (x_setEq ctx))
  else if String.eqb p "/api/audio/delay" then reply_with actionResult (on (x_setDelay ctx))
  else if String.eqb p "/api/audio/test" then reply_with actionResult (x_audioTest ctx)
  else if String.eqb p "/api/calibration/start" then reply_with actionResult (x_startCalibration ctx)
  else if String.eqb p "/api/system/reboot" then reply_with actionResult (x_reboot ctx)
  else if String.eqb p "/api/system/update" then reply_with actionResult (x_update ctx)
  else if String.eqb p "/api/system/reset-network" then reply_with actionResult (x_resetNetwork ctx)
  else if String.eqb p "/api/system/factory-reset" then reply_with actionResult (x_factoryReset ctx)
  else if String.eqb p "/api/wifi/connect" then reply_with actionResult (on (x_connectWifi ctx))
  else if String.eqb p "/api/device/name" then reply_with actionResult (on (x_setSpeakerName ctx))
  else mret (Done notFound).

(** The router is built with its server's token. *)
(* [src/src/web/ApiRouter.cpp:50-90] ApiRouter::handlePost *)
Definition handlePost (ctx : ApiContext) (a : Authentication) (q : HttpRequest) : A (Try HttpResponse) :=
  w ← get;
  if negb (setup_open ctx q w) && negb (authorize a (auth q)) then mret (Done unauthorized)
  else
    match (if String.eqb (body q) "" then Done (jobj []) else parse (body q)) with
    | Throw what => mret (Done (json_response 400 (jobj [("error", jstr ("bad json: " +:+ what))])))
    | Done b => run_action ctx (path q) b
    end.

(* [src/src/web/ApiRouter.cpp:19-23] ApiRouter::route *)
Definition route (ctx : ApiContext) (a : Authentication) (q : HttpRequest) : A (Try HttpResponse) :=
  if String.eqb (method q) "GET" then handleGet ctx (path q)
  else if String.eqb (method q) "POST" then handlePost ctx a q
  else mret (Done (json_response 405 (jobj [("error", jstr "method not allowed")]))).
End Router.
Arguments ApiContext {J} W E.

(** ** Pages *)

Fixpoint replace_from (fuel : nat) (marker r s : string) : string :=
  match fuel with
  | O => s
  | S fuel =>
      match strip_prefix marker s with
      | Some rest => r +:+ replace_from fuel marker r rest
      | None => match s with EmptyString => EmptyString | String c s => String c (replace_from fuel marker r s) end
      end
  end.

(** The loop of [find] and [replace] over the occurrences of a marker. *)
Definition replace_all (marker r s : string) : string := replace_from (S (String.length s)) marker r s.

(* [src/src/web/Frontend.h:434-439] Frontend::injectToken *)
Fixpoint js_escape (s : string) : string :=
  match s with
  | EmptyString => EmptyString
  | String c s =>
      if (nat_of_ascii c =? 92)%nat || (nat_of_ascii c =? 34)%nat || (nat_of_ascii c =? 39)%nat
      then String (ascii_of_nat 92) (String c (js_escape s))
      else String c (js_escape s)
  end.

(* [src/src/web/Frontend.h:433-446] Frontend::injectToken *)
Definition injectToken (html token : string) : string := replace_all "%AUTH_TOKEN%" (js_escape token) html.

(* [src/src/web/Frontend.h:451-459] Frontend::withLogo *)
Definition withLogo (uri html : string) : string := replace_all "%LOGO_SRC%" uri html.

(** Characters the text of a Wi-Fi code escapes. *)
(* [src/src/web/WebServer.cpp:89-89] WebServer::handle *)
Definition wifi_special (c : ascii) : bool :=
  existsb (fun n => (nat_of_ascii c =? n)%nat) [92; 59; 44; 58; 34].

(* [src/src/web/WebServer.cpp:86-93] WebServer::handle *)
Fixpoint esc (s : string) : string :=
  match s with
  | EmptyString => EmptyString
  | String c s => if wifi_special c then String (ascii_of_nat 92) (String c (esc s)) else String c (esc s)
  end.

(* [src/src/web/WebServer.cpp:96-98] WebServer::handle *)
Definition wifi_payload (ssid pass : string) : string :=
  if String.eqb pass "" then "WIFI:T:nopass;S:" +:+ esc ssid +:+ ";;"
  else "WIFI:T:WPA;S:" +:+ esc ssid +:+ ";P:" +:+ esc pass +:+ ";;".

(* [src/src/web/WebServer.cpp:56-57] WebServer::handle *)
Definition kNoCache : list (string * string) :=
  [("Cache-Control", "no-store, no-cache, must-revalidate"); ("Pragma", "no-cache")].

Definition too_long : string := "QrEncoder: text too long for version 10 (ECC-M)".

Definition dq : string := String (ascii_of_nat 34) "".
Definition error_text (m : string) : string :=
  "{" +:+ dq +:+ "error" +:+ dq +:+ ":" +:+ dq +:+ m +:+ dq +:+ "}".

(* [src/src/web/WebServer.cpp:99-103] WebServer::handle *)
Definition qr_response (text : string) : HttpResponse :=
  match encode text with
  | Some m => mk_response 200 "image/svg+xml" (toSvg m 4) []
  | None => mk_response 500 "application/json" (error_text too_long) []
  end.

Section Server.
Context {J : JsonLib} {W E : Type}.
(** The page texts with their markers, and the logo. *)
Variables (setup_text index_text logo : string).
(** [getenv]: the value of a variable that is set. *)
Variable getenv : string -> option string.

(* [src/src/web/WebServer.h:45-51] WebServer *)
Record WebServer := mk_server { s_auth : Authentication; s_ctx : ApiContext W E; s_state : ServiceState }.

(* [src/src/web/WebServer.h:31-31] WebServer::setAuthToken *)
Definition setAuthToken (t : string) (s : WebServer) : WebServer :=
  mk_server (mk_auth t) (s_ctx s) (s_state s).

(* [src/src/web/Frontend.h:119-126] Frontend::setupHtml *)
Definition setupHtml (token : string) : string := withLogo logo (injectToken setup_text token).
(* [src/src/web/Frontend.h:14-15] Frontend::indexHtml *)
Definition indexHtml : string := withLogo logo index_text.

(* [src/src/web/WebServer.cpp:79-82] WebServer::handle *)
Definition env (k dflt : string) : string :=
  match getenv k with Some v => if String.eqb v "" then dflt else v | None => dflt end.

(** [inSetupMode] reads the same callback as the router. *)
(* [src/src/web/WebServer.cpp:40-146] WebServer::handle *)
Definition handle (s : WebServer) (q : HttpRequest) : SW W E (Try HttpResponse) :=
  w ← get;
  let setup := isSetupMode (s_ctx s) w in
  let get_ := String.eqb (method q) "GET" in
  if get_ && (String.eqb (path q) "/" || String.eqb (path q) "/index.html") then
    mret (Done (mk_response 200 "text/html"
      (if setup || via_hotspot q then setupHtml (token_ (s_auth s)) else indexHtml) kNoCache))
  else if get_ && String.eqb (path q) "/setup" then
    mret (Done (mk_response 200 "text/html" (setupHtml (token_ (s_auth s))) kNoCache))
  else if get_ && String.eqb (path q) "/api/setup-qr" then
    mret (Done (qr_response (wifi_payload (env "NEXUS_HOTSPOT_SSID" "Nexus-Setup")
                                          (env "NEXUS_HOTSPOT_PASSWORD" ""))))
  else if get_ && String.eqb (path q) "/api/setup-url-qr" then mret (Done (qr_response "http://10.42.0.1"))
  else if under "/api" (path q) then route (s_ctx s) (s_auth s) q
  else if get_ && setup then
    mret (Done (mk_response 302 "text/html" "" (("Location", "http://10.42.0.1/setup") :: kNoCache)))
  else if get_ && (String.eqb (path q) "/generate_204" || String.eqb (path q) "/gen_204") then
    mret (Done (mk_response 204 "text/plain" "" []))
  else if get_ then
    mret (Done (mk_response 200 "text/html"
      "<HTML><HEAD><TITLE>Success</TITLE></HEAD><BODY>Success</BODY></HTML>" []))
  else mret (Done (mk_response 404 "application/json" (error_text "not found") [])).
End Server.

(** ** Properties *)

(** A request may run an action: it carries the token, or it is one of the two onboarding
    requests of a speaker in setup mode, addressed to the hotspot. *)
Definition allowed {J : JsonLib} {W E} (s : WebServer) (q : HttpRequest) (w : W) : bool :=
  authorize (s_auth s) (auth q) || setup_open (E := E) (s_ctx s) q w.

(** The same context with every action removed. *)
Definition read_only {J : JsonLib} {W E} (c : ApiContext W E) : ApiContext W E :=
  mk_context (x_status c) (x_health c) (x_network c) (x_audio c) (x_hardware c) (x_calibrationStatus c)
    (x_calibrationResult c) (x_scanWifi c) (x_logs c)
    None None None None None None None None None None None None.

Section WebProofs.
Context {J : JsonLib} {W E : Type} (setup_text index_text logo : string) (getenv : string -> option string).

Abbreviation serve := (handle (W := W) (E := E) setup_text index_text logo getenv).

Lemma get_run {B} (f : W -> SW W E B) w : mbind f get w = f w w.
Proof. unfold mbind, SW_bind, get. by destruct (f w w) as [[b w'] es]. Qed.

(** What is refused is refused before anything runs. *)
Lemma write_refused s q w : method q <> "GET" -> allowed s q w = false ->
  exists r, serve s q w = (Done r, w, []) /\ r_status r ∈ [401%Z; 404%Z; 405%Z].
Proof.
  unfold handle. rewrite get_run. intros Hm Hal. apply orb_false_iff in Hal as [Ha Hs]. cbv zeta.
  destruct (String.eqb_spec (method q) "GET") as [|_]; [done|]. cbn [andb].
  destruct (under "/api" (path q)); [|eexists; split; [reflexivity|set_solver]].
  unfold route. destruct (String.eqb_spec (method q) "GET") as [|_]; [done|].
  destruct (String.eqb (method q) "POST"); [|eexists; split; [reflexivity|set_solver]].
  unfold handlePost. rewrite get_run, Hs, Ha. eexists. split; [reflexivity|set_solver].
Qed.

(** What opens the server to a write, told without its own tests: the token of the device
    behind [Bearer ], where there is one ... *)
Definition has_token (s : WebServer (W := W) (E := E)) (q : HttpRequest) : Prop :=
  token_ (s_auth s) <> "" /\ auth q = "Bearer " +:+ token_ (s_auth s).

(** ... or one of the two onboarding requests, addressed to the hotspot, while the status of
    the device says that it is in setup mode. *)
Definition onboarding (s : WebServer (W := W) (E := E)) (q : HttpRequest) (w : W) : Prop :=
  (exists status j, x_status (s_ctx s) = Some status /\ status w = Done j /\
     value_bool j "setup_mode" false = Done true) /\
  (exists rest, host q = "10.42.0.1" +:+ rest) /\
  path q ∈ ["/api/wifi/connect"; "/api/device/name"].

Definition credential (s : WebServer (W := W) (E := E)) (q : HttpRequest) (w : W) : Prop :=
  has_token s q \/ onboarding s q w.

Lemma setup_open_iff s q w : setup_open (E := E) (s_ctx s) q w = true <-> onboarding s q w.
Proof.
  unfold setup_open, onboarding, isSetupMode, via_hotspot, under. rewrite !andb_true_iff.
  assert (match x_status (s_ctx s) with
          | None => false
          | Some f => match (j ← f w; value_bool j "setup_mode" false) with Done b => b | Throw _ => false end
          end = true <->
          exists status j, x_status (s_ctx s) = Some status /\ status w = Done j /\
            value_bool j "setup_mode" false = Done true) as ->.
  { destruct (x_status (s_ctx s)) as [f|]; [|split; [done|]; intros (?&?&[=]&_)].
    split.
    - intros H. exists f. destruct (f w) as [j|]; [|done]. exists j. cbn in H.
      destruct (value_bool j "setup_mode" false) as [[]|] eqn:E'; try done.
    - intros (f' & j & [= <-] & Hj & Hb). rewrite Hj. cbn. by rewrite Hb. }
  rewrite orb_true_iff, !String.eqb_eq.
  assert (forall p h, (match strip_prefix p h with Some _ => true | None => false end = true <-> exists rest, h = p +:+ rest)) as Hpre.
  { intros p h. destruct (strip_prefix p h) as [r|] eqn:E'.
    - apply strip_prefix_Some in E' as ->. split; [by exists r|done].
    - split; [done|]. intros [r ->]. by rewrite strip_prefix_app in E'. }
  rewrite Hpre. set_solver.
Qed.

Lemma allowed_iff s q w : allowed s q w = true <-> credential s q w.
Proof.
  unfold allowed, credential, has_token. rewrite orb_true_iff, authorize_iff, setup_open_iff. tauto.
Qed.

(** The actions of the interface by their paths, with what the device does for each. *)
Definition actions (ctx : ApiContext W E) (b : json) :
    list (string * option (SW W E (Try ActionResult))) :=
  let on (m : option (json -> SW W E (Try ActionResult))) := (fun f => f b) <$> m in
  [("/api/audio/volume", on (x_setVolume ctx)); ("/api/audio/mute", on (x_setMute ctx));
   ("/api/audio/eq", on (x_setEq ctx)); ("/api/audio/delay", on (x_setDelay ctx));
   ("/api/audio/test", x_audioTest ctx); ("/api/calibration/start", x_startCalibration ctx);
   ("/api/system/reboot", x_reboot ctx); ("/api/system/update", x_update ctx);
   ("/api/system/reset-network", x_resetNetwork ctx); ("/api/system/factory-reset", x_factoryReset ctx);
   ("/api/wifi/connect", on (x_connectWifi ctx)); ("/api/device/name", on (x_setSpeakerName ctx))].

Lemma run_action_named ctx p b w :
  run_action ctx p b w =
    match assoc p (actions ctx b) with
    | Some m => reply_with actionResult m w
    | None => (Done notFound, w, [])
    end.
Proof.
  unfold run_action, actions. cbn [assoc].
  repeat match goal with |- context [String.eqb p ?k] => destruct (String.eqb p k); [done|] end. done.
Qed.

(** C28: No write without a credential, and none refused that has one.  A request that is
    not a GET, does not carry the device's token, and is not a join of a Wi-Fi or a naming
    of the speaker addressed to 10.42.0.1 while the device reports setup mode, is answered
    401, 404 or 405; no callback has run and nothing has changed, whatever the body.  A POST
    to the interface with one of these credentials and an empty body or one that is JSON
    is answered with the result of the action its path names in the list of the twelve
    actions, which gets the body, or with 404 if the path names none.  A GET runs no action at all: it does what it would do
    if the server had none. *)
Theorem write_needs_credential s q w :
  (method q <> "GET" -> ~ credential s q w ->
     exists r, serve s q w = (Done r, w, []) /\ r_status r ∈ [401%Z; 404%Z; 405%Z]) /\
  (forall rest b, method q = "POST" -> path q = "/api" +:+ rest -> credential s q w ->
     (body q = "" /\ b = jobj [] \/ body q <> "" /\ parse (body q) = Done b) ->
     serve s q w =
       match assoc (path q) (actions (s_ctx s) b) with
       | Some action => reply_with actionResult action w
       | None => (Done notFound, w, [])
       end) /\
  (method q = "GET" ->
     serve s q w = serve (mk_server (s_auth s) (read_only (s_ctx s)) (s_state s)) q w).
Proof.
  split; [|split].
  - intros Hm Hc. apply write_refused; [done|]. rewrite <- allowed_iff in Hc. by destruct (allowed s q w).
  - intros rest b Hm Hp Hc Hb. apply allowed_iff in Hc. unfold handle. rewrite get_run. cbv zeta.
    rewrite Hm. change (String.eqb "POST" "GET") with false. cbn [andb].
    assert (under "/api" (path q) = true) as -> by (unfold under; by rewrite Hp, strip_prefix_app).
    unfold route. rewrite Hm. change (String.eqb "POST" "GET") with false. change (String.eqb "POST" "POST") with true.
    unfold handlePost. rewrite get_run. unfold allowed in Hc.
    assert (negb (setup_open (E := E) (s_ctx s) q w) && negb (authorize (s_auth s) (auth q)) = false) as ->.
    { apply orb_true_iff in Hc as [-> | ->]; by rewrite ?andb_false_r. }
    rewrite <-run_action_named.
    destruct Hb as [[-> ->]|[Hne Hb]]; [done|]. destruct (String.eqb_spec (body q) ""); [done|]. by rewrite Hb.
  - unfold handle. rewrite !get_run. intros Hm. cbv zeta. rewrite Hm. cbn [andb s_auth s_ctx].
    unfold route. rewrite Hm. reflexivity.
Qed.
End WebProofs.

(** What a phone reads in the text of a Wi-Fi code: a value up to the first unescaped
    semicolon, with the escapes resolved, and the text after it. *)
Fixpoint read_value (s : string) : option (string * string) :=
  match s with
  | EmptyString => None
  | String c s =>
      let keep (c : ascii) (r : option (string * string)) :=
        match r with Some (v, rest) => Some (String c v, rest) | None => None end in
      if (nat_of_ascii c =? 59)%nat then Some ("", s)
      else if (nat_of_ascii c =? 92)%nat then
        match s with EmptyString => None | String d s => keep d (read_value s) end
      else keep c (read_value s)
  end.

(** Fields [K:value;] up to a closing semicolon; keys are one letter. *)
Fixpoint read_fields (fuel : nat) (s : string) : option (list (ascii * string)) :=
  match fuel, s with
  | S fuel, String k (String c s) =>
      if (nat_of_ascii c =? 58)%nat then
        '(v, rest) ← read_value s; l ← read_fields fuel rest; Some ((k, v) :: l)
      else None
  | _, String c EmptyString => if (nat_of_ascii c =? 59)%nat then Some [] else None
  | _, _ => None
  end.

Definition read_wifi (s : string) : option (list (ascii * string)) :=
  rest ← strip_prefix "WIFI:" s; read_fields (String.length rest) rest.

Lemma read_value_esc s rest : read_value (esc s +:+ String (ascii_of_nat 59) rest) = Some (s, rest).
Proof.
  induction s as [|c s IH]; [done|]. cbn [esc].
  destruct (wifi_special c) eqn:Hc; rewrite !str_app_cons.
  - cbn [read_value]. change (nat_of_ascii (ascii_of_nat 92) =? 59)%nat with false.
    change (nat_of_ascii (ascii_of_nat 92) =? 92)%nat with true. cbn match. by rewrite IH.
  - cbn [read_value]. unfold wifi_special in Hc. cbn [existsb] in Hc. bool_to_prop.
    repeat match goal with H : (_ =? _)%nat = false |- _ => rewrite H; clear H end. by rewrite IH.
Qed.

Lemma read_fields_esc n k v rest l :
  read_fields n rest = Some l ->
  read_fields (S n) (String k (String (ascii_of_nat 58) (esc v +:+ String (ascii_of_nat 59) rest))) =
    Some ((k, v) :: l).
Proof.
  intros Hl. cbn [read_fields]. change (nat_of_ascii (ascii_of_nat 58) =? 58)%nat with true. cbn match.
  rewrite read_value_esc. cbn. by rewrite Hl.
Qed.

Lemma read_fields_more n m s l : read_fields n s = Some l -> (n <= m)%nat -> read_fields m s = Some l.
Proof.
  revert m s l. induction n as [|n IH]; intros m s l H Hm.
  - destruct s as [|c [|d s]]; [done| |done]. by destruct m.
  - destruct m as [|m]; [lia|]. destruct s as [|c [|d s]]; [done|done|]. cbn [read_fields] in H |- *.
    destruct (nat_of_ascii d =? 58)%nat; [|done]. destruct (read_value s) as [[v rest]|]; [|done].
    cbn in H |- *. destruct (read_fields n rest) as [l'|] eqn:E; [|done].
    by rewrite (IH m _ _ E ltac:(lia)).
Qed.

(** The setup code names the hotspot as it is.  A phone that reads the text of the code
    by the rules of Wi-Fi codes recovers exactly the name and the password of the access
    point, whatever characters they contain; an access point without password is announced
    as open, with no password field. *)
Theorem setup_code_names_network ssid pass :
  read_wifi (wifi_payload ssid pass) =
    Some (if String.eqb pass "" then [("T"%char, "nopass"); ("S"%char, ssid)]
          else [("T"%char, "WPA"); ("S"%char, ssid); ("P"%char, pass)]).
Proof.
  unfold read_wifi, wifi_payload.
  destruct (String.eqb pass "").
  - change (strip_prefix "WIFI:" _) with
      (Some (String "T" (String ":" (esc "nopass" +:+ String ";" (String "S" (String ":" (esc ssid +:+ ";;"))))))).
    cbn [mbind option_bind]. eapply read_fields_more.
    + apply (read_fields_esc 1), (read_fields_esc 0). reflexivity.
    + cbn [String.length esc]. rewrite ?str_app_length. cbn. lia.
  - change (strip_prefix "WIFI:" _) with
      (Some (String "T" (String ":" (esc "WPA" +:+ String ";"
         (String "S" (String ":" (esc ssid +:+ (String ";" (String "P" (String ":" (esc pass +:+ ";;"))))))))))).
    cbn [mbind option_bind]. eapply read_fields_more.
    + apply (read_fields_esc 2), (read_fields_esc 1), (read_fields_esc 0). reflexivity.
    + change (esc "WPA") with "WPA". cbn [String.length]. rewrite str_app_length. cbn. lia.
Qed.

(** ** Observations *)

(** Whoever asks for the setup page is given the token in it: the page is served on every
    network and in every state, so the token guards the writes of visitors who have not
    asked. *)
Lemma setup_page_tells_token {J : JsonLib} {W E} setup_text index_text logo getenv
    (s : WebServer (W := W) (E := E)) h w :
  handle setup_text index_text logo getenv s (mk_request "GET" "/setup" "" "" h) w =
    (Done (mk_response 200 "text/html" (setupHtml setup_text logo (token_ (s_auth s))) kNoCache), w, []).
Proof. reflexivity. Qed.

(** The address that opens the onboarding requests is the one the client wrote. *)
Lemma hotspot_is_a_header m p b a rest :
  via_hotspot (mk_request m p b a ("10.42.0.1" +:+ rest)) = true.
Proof. unfold via_hotspot, under. cbn [host]. by rewrite strip_prefix_app. Qed.

(** ** Witness *)

Definition demo_context : ApiContext Z unit :=
  mk_context (Some (fun v => Done (jobj [("setup_mode", jbool true); ("volume", jint v)])))
    None None None None None None None None
    (Some (fun b => match value_int b "volume" 0 with
                    | Done v => modify (fun _ => v);; mret (Done (true, "ok"))
                    | Throw what => mret (Throw what)
                    end))
    None None None None None None None None None None None.

Definition demo_server : WebServer := mk_server (mk_auth "nexus-SPK-1") demo_context ServiceState.Running.

Definition demo_post (auth host : string) : HttpRequest :=
  mk_request "POST" "/api/audio/volume" (dump (jobj [("volume", jint 30)])) auth host.

(** A wrong token on the hotspot's address and the path of the volume: refused.  The right
    one: carried out. *)
Lemma write_needs_credential_witness :
  let serve := handle "" "" "" (fun _ => None) demo_server in
  (exists r, serve (demo_post "Bearer nexus-SPK" "10.42.0.1") 70%Z = (Done r, 70%Z, []) /\
             r_status r ∈ [401%Z; 404%Z; 405%Z]) /\
  serve (demo_post "Bearer nexus-SPK-1" "10.0.0.7") 70%Z =
    run_action demo_context "/api/audio/volume" (jobj [("volume", jint 30)]) 70%Z /\
  state_after (serve (demo_post "Bearer nexus-SPK-1" "10.0.0.7")) 70%Z = 30%Z.
Proof.
  split; [|split; [|vm_compute; reflexivity]].
  - apply (proj1 (write_needs_credential "" "" "" (fun _ => None) demo_server
                  (demo_post "Bearer nexus-SPK" "10.42.0.1") 70%Z)); [discriminate|].
    intros [[_ H]|(_ & _ & H)]; [discriminate|]. revert H. cbn [path demo_post]. set_solver.
  - apply (proj1 (proj2 (write_needs_credential "" "" "" (fun _ => None) demo_server
                  (demo_post "Bearer nexus-SPK-1" "10.0.0.7") 70%Z)) "/audio/volume"%string).
    + reflexivity.
    + reflexivity.
    + left. split; [discriminate|reflexivity].
    + right. split; [vm_compute; discriminate|vm_compute; reflexivity].
Defined.
