(* ===== verification/Dsp.v ===== *)
(** * Dsp: the signal chain of the speaker

    Models [src/dsp]: the gain, crossover, equalizer, compressor, limiter and delay stages
    and the engine that runs them over blocks of interleaved samples
    ([DspEngine.cpp]).  A [double] is a [spec_float] of 53 bits of precision and a [float]
    one of 24; the operations round as IEEE 754 does, without contraction of products and
    sums.  The functions of the mathematical library are the class [Libm]: nothing is
    assumed of them, so the theorems hold for any.  A block is a flat list of samples,
    [frames] times [channels] long, as in the source.  The lock that keeps a
    reconfiguration out of a block in progress makes every operation one step. *)

From S2P Require Import Prelude Core Audio.
Local Open Scope Z_scope.

(** ** Numbers *)

Class Libm := {
  m_pow : spec_float -> spec_float -> spec_float;
  m_cos : spec_float -> spec_float;
  m_sin : spec_float -> spec_float;
  m_exp : spec_float -> spec_float;
  m_log10 : spec_float -> spec_float;
  m_log : spec_float -> spec_float;
  m_hypot : spec_float -> spec_float -> spec_float
}.

Definition s_add : spec_float -> spec_float -> spec_float := SFadd 24 128.
Definition s_mul : spec_float -> spec_float -> spec_float := SFmul 24 128.
Definition s_div : spec_float -> spec_float -> spec_float := SFdiv 24 128.
Definition s_of_Z (z : Z) : spec_float := binary_normalize 24 128 z 0 false.

(** A value rounded into another format. *)
Definition convert (prec emax : Z) (x : spec_float) : spec_float :=
  match x with
  | S754_finite s m e => binary_normalize prec emax (if s then Zneg m else Zpos m) e s
  | _ => x
  end.
Definition to_float : spec_float -> spec_float := convert 24 128.
Definition to_double : spec_float -> spec_float := convert 53 1024.

(** Literals of the source. *)
Definition c_1 : spec_float := f_of_Z 1.
Definition c_2 : spec_float := f_of_Z 2.
Definition c_10 : spec_float := f_of_Z 10.
Definition c_20 : spec_float := f_of_Z 20.
Definition c_milli : spec_float := S754_finite false 4611686018427388 (-62).  (* 0.001 *)
Definition c_nano : spec_float := S754_finite false 4835703278458517 (-82).   (* 1e-9 *)
Definition c_centi : spec_float := S754_finite false 5764607523034235 (-59).  (* 0.01 *)
Definition c_pi : spec_float := S754_finite false 7074237752028440 (-51).     (* M_PI *)
Definition c_q : spec_float := S754_finite false 6369051672525773 (-53).      (* 0.70710678118654752 *)
(* [src/src/dsp/Equalizer.cpp:8-8] kBandQ *)
Definition kBandQ : spec_float := S754_finite false 4841369599423283 (-50).   (* 4.3 *)

Definition f_max (a b : spec_float) : spec_float := if SFltb a b then b else a.

(** ** Blocks *)

(** [n] frames of a flat block. *)
Fixpoint frames_of (n channels : nat) (io : list spec_float) : list (list spec_float) :=
  match n with
  | O => []
  | S n => take channels io :: frames_of n channels (drop channels io)
  end.

(** A loop over the frames: [step] reads and rewrites one frame and moves the state. *)
Fixpoint run_frames {S} (step : S -> list spec_float -> S * list spec_float) (st : S)
    (fs : list (list spec_float)) : S * list (list spec_float) :=
  match fs with
  | [] => (st, [])
  | f :: fs => let '(st, f) := step st f in let '(st, fs) := run_frames step st fs in (st, f :: fs)
  end.

Definition per_frame {S} (step : S -> list spec_float -> S * list spec_float) (st : S)
    (frames channels : nat) (io : list spec_float) : S * list spec_float :=
  let '(st, fs) := run_frames step st (frames_of frames channels io) in
  (st, mjoin fs ++ drop (frames * channels) io).

Section Stages.
Context {M : Libm}.

(** ** Gain *)

(* [src/src/dsp/GainControl.h:32-33] GainControl *)
Record GainControl := mk_gain { target_ : spec_float; current_ : spec_float }.

Definition from_db (db : spec_float) : spec_float := m_pow c_10 (fdiv db c_20).

(* [src/src/dsp/GainControl.h:15-15] GainControl::setGainDb *)
Definition setGainDb (db : spec_float) (g : GainControl) : GainControl := mk_gain (from_db db) (current_ g).
(* [src/src/dsp/GainControl.h:13-13] GainControl::GainControl *)
Definition new_gain : GainControl := setGainDb f0 (mk_gain c_1 c_1).

(* [src/src/dsp/GainControl.h:20-26] GainControl::process *)
Definition gain_frame (g : GainControl) (f : list spec_float) : GainControl * list spec_float :=
  let current := fadd (current_ g) (fmul (fsub (target_ g) (current_ g)) c_milli) in
  (mk_gain (target_ g) current, (fun x => s_mul x (to_float current)) <$> f).

(* [src/src/dsp/GainControl.h:18-27] GainControl::process *)
Definition gain_process : GainControl -> nat -> nat -> list spec_float -> GainControl * list spec_float :=
  per_frame gain_frame.

(* [src/src/dsp/GainControl.h:29-29] GainControl::reset *)
Definition gain_reset (g : GainControl) : GainControl := mk_gain (target_ g) (target_ g).

(** ** Second-order sections *)

(* [src/src/dsp/Biquad.h:13-16] BiquadCoeffs *)
Record BiquadCoeffs := mk_coeffs
  { b0 : spec_float; b1 : spec_float; b2 : spec_float; a1 : spec_float; a2 : spec_float }.
(* [src/src/dsp/Biquad.h:19-22] BiquadState *)
Record BiquadState := mk_biquad { z1 : spec_float; z2 : spec_float }.
Definition rest_state : BiquadState := mk_biquad f0 f0.

Definition normalized (n0 n1 n2 a0 d1 d2 : spec_float) : BiquadCoeffs :=
  mk_coeffs (fdiv n0 a0) (fdiv n1 a0) (fdiv n2 a0) (fdiv d1 a0) (fdiv d2 a0).

Definition angle (fc fs : spec_float) : spec_float := fdiv (fmul (fmul c_2 c_pi) fc) fs.

(* [src/src/dsp/Biquad.h:25-38] peakingEq *)
Definition peakingEq (fc gainDb q fs : spec_float) : BiquadCoeffs :=
  let A := m_pow c_10 (fdiv gainDb (f_of_Z 40)) in
  let w0 := angle fc fs in
  let cosw0 := m_cos w0 in
  let alpha := fdiv (m_sin w0) (fmul c_2 q) in
  let mid := fmul (f_of_Z (-2)) cosw0 in
  normalized (fadd c_1 (fmul alpha A)) mid (fsub c_1 (fmul alpha A))
    (fadd c_1 (fdiv alpha A)) mid (fsub c_1 (fdiv alpha A)).

(* [src/src/dsp/Biquad.h:41-53] butterworthHP2 *)
Definition butterworthHP2 (fc fs : spec_float) : BiquadCoeffs :=
  let w0 := angle fc fs in
  let cosw0 := m_cos w0 in
  let alpha := fdiv (m_sin w0) (fmul c_2 c_q) in
  let s := fadd c_1 cosw0 in
  normalized (fdiv s c_2) (SFopp s) (fdiv s c_2)
    (fadd c_1 alpha) (fmul (f_of_Z (-2)) cosw0) (fsub c_1 alpha).

(* [src/src/dsp/Biquad.h:56-68] butterworthLP2 *)
Definition butterworthLP2 (fc fs : spec_float) : BiquadCoeffs :=
  let w0 := angle fc fs in
  let cosw0 := m_cos w0 in
  let alpha := fdiv (m_sin w0) (fmul c_2 c_q) in
  let s := fsub c_1 cosw0 in
  normalized (fdiv s c_2) s (fdiv s c_2)
    (fadd c_1 alpha) (fmul (f_of_Z (-2)) cosw0) (fsub c_1 alpha).

(* [src/src/dsp/Biquad.h:71-76] processSample *)
Definition processSample (c : BiquadCoeffs) (s : BiquadState) (x : spec_float) : BiquadState * spec_float :=
  let x := to_double x in
  let y := fadd (fmul (b0 c) x) (z1 s) in
  (mk_biquad (fadd (fsub (fmul (b1 c) x) (fmul (a1 c) y)) (z2 s)) (fsub (fmul (b2 c) x) (fmul (a2 c) y)),
   to_float y).

(** ** Crossover *)

(* [src/src/dsp/Crossover.h:64-72] Crossover *)
Record Crossover := mk_crossover
  { x_fs : spec_float; x_channels : nat; x_enabled : bool; hp_enabled : bool; lp_enabled : bool;
    hp_fc : spec_float; lp_fc : spec_float; hp_ : BiquadCoeffs; lp_ : BiquadCoeffs;
    hp_state : list BiquadState; lp_state : list BiquadState }.

(* [src/src/dsp/Crossover.h:59-62] Crossover::rebuild *)
Definition crossover_rebuild (x : Crossover) : Crossover :=
  mk_crossover (x_fs x) (x_channels x) (x_enabled x) (hp_enabled x) (lp_enabled x) (hp_fc x) (lp_fc x)
    (butterworthHP2 (hp_fc x) (x_fs x)) (butterworthLP2 (lp_fc x) (x_fs x)) (hp_state x) (lp_state x).

(* [src/src/dsp/Crossover.h:19-25] Crossover::configure *)
Definition crossover_configure (fs : spec_float) (channels : nat) (x : Crossover) : Crossover :=
  crossover_rebuild (mk_crossover fs channels (x_enabled x) (hp_enabled x) (lp_enabled x) (hp_fc x) (lp_fc x)
    (hp_ x) (lp_ x) (replicate channels rest_state) (replicate channels rest_state)).

(* [src/src/dsp/Crossover.h:17-17] Crossover::Crossover *)
Definition new_crossover (fs : spec_float) (channels : nat) : Crossover :=
  let unit_ := mk_coeffs c_1 f0 f0 f0 f0 in
  crossover_configure fs channels
    (mk_crossover (f_of_Z 48000) 2 false false false (f_of_Z 80) (f_of_Z 18000) unit_ unit_ [] []).

(* [src/src/dsp/Crossover.h:27-31] Crossover::setHighPass *)
Definition setHighPass (on : bool) (fc : spec_float) (x : Crossover) : Crossover :=
  crossover_rebuild (mk_crossover (x_fs x) (x_channels x) (x_enabled x) on (lp_enabled x) fc (lp_fc x)
    (hp_ x) (lp_ x) (hp_state x) (lp_state x)).
(* [src/src/dsp/Crossover.h:32-36] Crossover::setLowPass *)
Definition setLowPass (on : bool) (fc : spec_float) (x : Crossover) : Crossover :=
  crossover_rebuild (mk_crossover (x_fs x) (x_channels x) (x_enabled x) (hp_enabled x) on (hp_fc x) fc
    (hp_ x) (lp_ x) (hp_state x) (lp_state x)).
(* [src/src/dsp/Crossover.h:37-37] Crossover::setEnabled *)
Definition crossover_enable (on : bool) (x : Crossover) : Crossover :=
  mk_crossover (x_fs x) (x_channels x) on (hp_enabled x) (lp_enabled x) (hp_fc x) (lp_fc x)
    (hp_ x) (lp_ x) (hp_state x) (lp_state x).

Definition set_sections (hp lp : list BiquadState) (x : Crossover) : Crossover :=
  mk_crossover (x_fs x) (x_channels x) (x_enabled x) (hp_enabled x) (lp_enabled x) (hp_fc x) (lp_fc x)
    (hp_ x) (lp_ x) hp lp.

(** One sample of one channel. *)
(* [src/src/dsp/Crossover.h:45-47] Crossover::process *)
Definition crossover_sample (x : Crossover) (h l : BiquadState) (v : spec_float) :
  BiquadState * BiquadState * spec_float :=
  let '(h, v) := if hp_enabled x then processSample (hp_ x) h v else (h, v) in
  let '(l, v) := if lp_enabled x then processSample (lp_ x) l v else (l, v) in
  (h, l, v).

(** The channels of a frame; there is a state per channel. *)
(* [src/src/dsp/Crossover.h:42-49] Crossover::process *)
Fixpoint crossover_channels (x : Crossover) (hs ls : list BiquadState) (f : list spec_float) :
  list BiquadState * list BiquadState * list spec_float :=
  match hs, ls, f with
  | h :: hs, l :: ls, v :: f =>
      let '(h, l, v) := crossover_sample x h l v in
      let '(hs, ls, f) := crossover_channels x hs ls f in
      (h :: hs, l :: ls, v :: f)
  | _, _, _ => (hs, ls, f)
  end.

Definition crossover_frame (x : Crossover) (f : list spec_float) : Crossover * list spec_float :=
  let '(hs, ls, f) := crossover_channels x (hp_state x) (lp_state x) f in (set_sections hs ls x, f).

(* [src/src/dsp/Crossover.h:39-51] Crossover::process *)
Definition crossover_process (x : Crossover) (frames channels : nat) (io : list spec_float) : Crossover * list spec_float :=
  if negb (x_enabled x) || negb (hp_enabled x) && negb (lp_enabled x) then (x, io)
  else per_frame crossover_frame x frames channels io.

(* [src/src/dsp/Crossover.h:53-56] Crossover::reset *)
Definition crossover_reset (x : Crossover) : Crossover :=
  set_sections ((fun _ => rest_state) <$> hp_state x) ((fun _ => rest_state) <$> lp_state x) x.

(** ** Equalizer *)

(* [src/src/dsp/Equalizer.h:12-12] kEqBands *)
Definition kEqBands : nat := 32.
(* [src/src/dsp/Equalizer.h:13-17] kBandFreqs *)
Definition kBandFreqs : list spec_float :=
  f_of_Z <$> [30; 40; 50; 63; 80; 100; 125; 160; 200; 250; 315; 400; 500; 630; 800; 1000;
              1250; 1600; 2000; 2500; 3150; 4000; 5000; 6300; 8000; 10000; 12500; 14000;
              16000; 18000; 19000; 20000].

(* [src/src/dsp/Equalizer.h:45-50] Equalizer *)
Record Equalizer := mk_eq
  { e_fs : spec_float; e_channels : nat; gains_db : list spec_float; coeffs_ : list BiquadCoeffs;
    eq_state : list (list BiquadState) }.

(* [src/src/dsp/Equalizer.cpp:38-42] Equalizer::rebuild *)
Definition eq_rebuild (e : Equalizer) : Equalizer :=
  mk_eq (e_fs e) (e_channels e) (gains_db e)
    (zip_with (fun fc g => peakingEq fc g kBandQ (e_fs e)) kBandFreqs (gains_db e)) (eq_state e).

(* [src/src/dsp/Equalizer.cpp:17-20] Equalizer::setChannels *)
Definition setChannels (channels : nat) (e : Equalizer) : Equalizer :=
  let n := Nat.max 1 channels in
  mk_eq (e_fs e) n (gains_db e) (coeffs_ e) (replicate n (replicate kEqBands rest_state)).

(* [src/src/dsp/Equalizer.cpp:11-15] Equalizer::Equalizer *)
Definition new_equalizer (fs : spec_float) (channels : nat) : Equalizer :=
  eq_rebuild (setChannels channels (mk_eq fs channels (replicate kEqBands f0) [] [])).

(* [src/src/dsp/Equalizer.cpp:22-25] Equalizer::setSampleRate *)
Definition eq_setSampleRate (fs : spec_float) (e : Equalizer) : Equalizer :=
  eq_rebuild (mk_eq fs (e_channels e) (gains_db e) (coeffs_ e) (eq_state e)).

(* [src/src/dsp/Equalizer.cpp:27-30] Equalizer::setGains *)
Definition setGains (gains : list spec_float) (e : Equalizer) : Equalizer :=
  eq_rebuild (mk_eq (e_fs e) (e_channels e) ((fun g => f_clamp g (f_of_Z (-10)) c_10) <$> gains)
    (coeffs_ e) (eq_state e)).

(* [src/src/dsp/Equalizer.cpp:32-36] Equalizer::setBandGain *)
Definition setBandGain (band : Z) (gain : spec_float) (e : Equalizer) : Equalizer :=
  if (band <? 0) || (32 <=? band) then e
  else eq_rebuild (mk_eq (e_fs e) (e_channels e)
    (<[Z.to_nat band := f_clamp gain (f_of_Z (-10)) c_10]> (gains_db e)) (coeffs_ e) (eq_state e)).

(** One sample through the bands in turn. *)
(* [src/src/dsp/Equalizer.cpp:49-51] Equalizer::process *)
Fixpoint through_bands (cs : list BiquadCoeffs) (ss : list BiquadState) (v : spec_float) :
  list BiquadState * spec_float :=
  match cs, ss with
  | c :: cs, s :: ss =>
      let '(s, v) := processSample c s v in
      let '(ss, v) := through_bands cs ss v in (s :: ss, v)
  | _, _ => (ss, v)
  end.

(* [src/src/dsp/Equalizer.cpp:46-54] Equalizer::process *)
Fixpoint eq_channels (cs : list BiquadCoeffs) (chans : list (list BiquadState)) (f : list spec_float) :
  list (list BiquadState) * list spec_float :=
  match chans, f with
  | ss :: chans, v :: f =>
      let '(ss, v) := through_bands cs ss v in
      let '(chans, f) := eq_channels cs chans f in (ss :: chans, v :: f)
  | _, _ => (chans, f)
  end.

Definition eq_frame (e : Equalizer) (f : list spec_float) : Equalizer * list spec_float :=
  let '(st, f) := eq_channels (coeffs_ e) (eq_state e) f in
  (mk_eq (e_fs e) (e_channels e) (gains_db e) (coeffs_ e) st, f).

(** The equalizer goes by its own number of channels. *)
(* [src/src/dsp/Equalizer.cpp:44-55] Equalizer::process *)
Definition eq_process (e : Equalizer) (frames : nat) (io : list spec_float) : Equalizer * list spec_float :=
  per_frame eq_frame e frames (e_channels e) io.

(* [src/src/dsp/Equalizer.cpp:57-61] Equalizer::reset *)
Definition eq_reset (e : Equalizer) : Equalizer :=
  mk_eq (e_fs e) (e_channels e) (gains_db e) (coeffs_ e) ((fun ss : list BiquadState => (fun _ => rest_state) <$> ss) <$> eq_state e).

(** ** Compressor and limiter *)

(** The largest magnitude of a frame, across its channels. *)
(* [src/src/dsp/Compressor.h:36-40] Compressor::process *)
Definition peak_of (f : list spec_float) : spec_float := foldl (fun p v => f_max p (SFabs v)) f0 f.

(* [src/src/dsp/Compressor.h:60-63] Compressor::recompute *)
Definition smoothing (ms fs : spec_float) : spec_float :=
  fsub c_1 (m_exp (fdiv (f_of_Z (-1)) (fmul (fmul (f_max c_centi ms) c_milli) fs))).

(* [src/src/dsp/Compressor.h:65-74] Compressor *)
Record Compressor := mk_compressor
  { k_fs : spec_float; k_enabled : bool; k_threshold_db : spec_float; k_ratio : spec_float;
    k_attack_ms : spec_float; k_release_ms : spec_float; k_makeup : spec_float;
    k_attack : spec_float; k_release : spec_float; k_env : spec_float }.

Definition compressor_recompute (k : Compressor) : Compressor :=
  mk_compressor (k_fs k) (k_enabled k) (k_threshold_db k) (k_ratio k) (k_attack_ms k) (k_release_ms k) (k_makeup k)
    (smoothing (k_attack_ms k) (k_fs k)) (smoothing (k_release_ms k) (k_fs k)) (k_env k).

(* [src/src/dsp/Compressor.h:14-19] Compressor::Compressor, setSampleRate *)
Definition compressor_setSampleRate (fs : spec_float) (k : Compressor) : Compressor :=
  compressor_recompute (mk_compressor fs (k_enabled k) (k_threshold_db k) (k_ratio k) (k_attack_ms k)
    (k_release_ms k) (k_makeup k) (k_attack k) (k_release k) (k_env k)).

Definition new_compressor (fs : spec_float) : Compressor :=
  compressor_setSampleRate fs (mk_compressor fs false (f_of_Z (-18)) c_2 c_10 (f_of_Z 100) c_1 c_centi c_centi c_1).

(* [src/src/dsp/Compressor.h:20-31] Compressor::setThresholdDb, setRatio, setEnabled *)
Definition compressor_set (on : bool) (threshold ratio : spec_float) (k : Compressor) : Compressor :=
  mk_compressor (k_fs k) on threshold (f_max c_1 ratio) (k_attack_ms k) (k_release_ms k) (k_makeup k)
    (k_attack k) (k_release k) (k_env k).

(* [src/src/dsp/Compressor.h:36-53] Compressor::process *)
Definition compressor_frame (k : Compressor) (f : list spec_float) : Compressor * list spec_float :=
  let level_db := fmul c_20 (m_log10 (fadd (to_double (peak_of f)) c_nano)) in
  let target_db := if SFltb (k_threshold_db k) level_db
                   then let over := fsub level_db (k_threshold_db k) in SFopp (fsub over (fdiv over (k_ratio k)))
                   else f0 in
  let target := m_pow c_10 (fdiv target_db c_20) in
  let coeff := if SFltb target (k_env k) then k_attack k else k_release k in
  let env := fadd (k_env k) (fmul (fsub target (k_env k)) coeff) in
  (mk_compressor (k_fs k) (k_enabled k) (k_threshold_db k) (k_ratio k) (k_attack_ms k) (k_release_ms k)
     (k_makeup k) (k_attack k) (k_release k) env,
   (fun v => s_mul v (to_float (fmul env (k_makeup k)))) <$> f).

(* [src/src/dsp/Compressor.h:33-55] Compressor::process *)
Definition compressor_process (k : Compressor) (frames channels : nat) (io : list spec_float) :=
  if negb (k_enabled k) then (k, io) else per_frame compressor_frame k frames channels io.

(* [src/src/dsp/Compressor.h:57-57] Compressor::reset *)
Definition compressor_reset (k : Compressor) : Compressor :=
  mk_compressor (k_fs k) (k_enabled k) (k_threshold_db k) (k_ratio k) (k_attack_ms k) (k_release_ms k) (k_makeup k)
    (k_attack k) (k_release k) c_1.

(* [src/src/dsp/Limiter.h:62-69] Limiter *)
Record Limiter := mk_limiter
  { l_fs : spec_float; l_enabled : bool; l_threshold : spec_float; l_attack_ms : spec_float; l_release_ms : spec_float;
    l_attack : spec_float; l_release : spec_float; l_gain : spec_float }.

(* [src/src/dsp/Limiter.h:57-60] Limiter::recompute *)
Definition limiter_setSampleRate (fs : spec_float) (l : Limiter) : Limiter :=
  mk_limiter fs (l_enabled l) (l_threshold l) (l_attack_ms l) (l_release_ms l)
    (smoothing (l_attack_ms l) fs) (smoothing (l_release_ms l) fs) (l_gain l).

(* [src/src/dsp/Limiter.h:14-14] Limiter::Limiter *)
Definition new_limiter (fs : spec_float) : Limiter :=
  limiter_setSampleRate fs (mk_limiter fs true (from_db (f_of_Z (-1))) c_1 (f_of_Z 50) c_centi c_centi c_1).

(* [src/src/dsp/Limiter.h:20-29] Limiter::setThresholdDb, setEnabled *)
Definition limiter_set (on : bool) (threshold_db : spec_float) (l : Limiter) : Limiter :=
  mk_limiter (l_fs l) on (from_db threshold_db) (l_attack_ms l) (l_release_ms l) (l_attack l) (l_release l) (l_gain l).

(* [src/src/dsp/Limiter.h:35-50] Limiter::process *)
Definition limiter_frame (l : Limiter) (f : list spec_float) : Limiter * list spec_float :=
  let peak := to_double (peak_of f) in
  let desired := if SFltb (l_threshold l) peak then fdiv (l_threshold l) (fadd peak c_nano) else c_1 in
  let coeff := if SFltb desired (l_gain l) then l_attack l else l_release l in
  let gain := fadd (l_gain l) (fmul (fsub desired (l_gain l)) coeff) in
  (mk_limiter (l_fs l) (l_enabled l) (l_threshold l) (l_attack_ms l) (l_release_ms l) (l_attack l) (l_release l) gain,
   (fun v => s_mul v (to_float gain)) <$> f).

(* [src/src/dsp/Limiter.h:31-52] Limiter::process *)
Definition limiter_process (l : Limiter) (frames channels : nat) (io : list spec_float) :=
  if negb (l_enabled l) then (l, io) else per_frame limiter_frame l frames channels io.

(* [src/src/dsp/Limiter.h:54-54] Limiter::reset *)
Definition limiter_reset (l : Limiter) : Limiter :=
  mk_limiter (l_fs l) (l_enabled l) (l_threshold l) (l_attack_ms l) (l_release_ms l) (l_attack l) (l_release l) c_1.
End Stages.

(** ** Delay *)

(* [src/src/dsp/Delay.h:48-52] Delay *)
Record Delay := mk_delay
  { d_fs : spec_float; d_channels : nat; delay_ms_ : spec_float; buffer_ : list spec_float; pos_ : nat }.

(** [static_cast<std::size_t>((delay_ms_ / 1000.0) * fs_) * channels]. *)
(* [src/src/dsp/Delay.h:23-24] Delay::setDelayMs *)
Definition delay_samples (ms fs : spec_float) (channels : nat) : nat :=
  (Z.to_nat (f_trunc (fmul (fdiv ms (f_of_Z 1000)) fs)) * channels)%nat.

(* [src/src/dsp/Delay.h:21-27] Delay::setDelayMs *)
Definition setDelayMs (ms : spec_float) (d : Delay) : Delay :=
  let ms := if SFltb ms f0 then f0 else ms in
  mk_delay (d_fs d) (d_channels d) ms (replicate (delay_samples ms (d_fs d) (d_channels d)) f0) 0.

(* [src/src/dsp/Delay.h:15-19] Delay::configure *)
Definition delay_configure (fs : spec_float) (channels : nat) (d : Delay) : Delay :=
  setDelayMs (delay_ms_ d) (mk_delay fs channels (delay_ms_ d) (buffer_ d) (pos_ d)).

Definition new_delay (fs : spec_float) (channels : nat) : Delay :=
  delay_configure fs channels (mk_delay (f_of_Z 48000) 2 f0 [] 0).

(* [src/src/dsp/Delay.h:35-38] Delay::process *)
Definition delay_sample (d : Delay) (v : spec_float) : Delay * spec_float :=
  (mk_delay (d_fs d) (d_channels d) (delay_ms_ d) (<[pos_ d := v]> (buffer_ d))
     ((pos_ d + 1) mod length (buffer_ d)),
   nth (pos_ d) (buffer_ d) f0).

(* [src/src/dsp/Delay.h:34-39] Delay::process *)
Fixpoint delay_run (d : Delay) (io : list spec_float) : Delay * list spec_float :=
  match io with
  | [] => (d, [])
  | v :: io => let '(d, v) := delay_sample d v in let '(d, io) := delay_run d io in (d, v :: io)
  end.

(* [src/src/dsp/Delay.h:31-40] Delay::process *)
Definition delay_process (d : Delay) (frames : nat) (io : list spec_float) : Delay * list spec_float :=
  if bool_decide (buffer_ d = []) then (d, io)
  else
    let n := (frames * d_channels d)%nat in
    let '(d, out) := delay_run d (take n io) in (d, out ++ drop n io).

(* [src/src/dsp/Delay.h:42-45] Delay::reset *)
Definition delay_reset (d : Delay) : Delay :=
  mk_delay (d_fs d) (d_channels d) (delay_ms_ d) ((fun _ => f0) <$> buffer_ d) 0.

(** ** The engine *)

Section Engine.
Context {M : Libm}.

(* [src/src/dsp/DspEngine.h:63-75] DspEngine *)
Record DspEngine := mk_dsp
  { fs_ : spec_float; channels_ : nat; bypass_ : bool; phase_invert_ : bool;
    input_gain_ : GainControl; crossover_ : Crossover; eq_ : Equalizer; compressor_ : Compressor;
    limiter_ : Limiter; delay_ : Delay; output_gain_ : GainControl; dsp_state_ : ServiceState.ServiceState }.

(* [src/src/dsp/DspEngine.cpp:12-20] DspEngine::DspEngine *)
Definition new_dsp (fs : spec_float) (channels : nat) : DspEngine :=
  mk_dsp fs channels false false new_gain (new_crossover fs channels) (new_equalizer fs channels)
    (new_compressor fs) (new_limiter fs) (new_delay fs channels) new_gain ServiceState.Stopped.

(** The engine with other stages. *)
Definition with_stages (ig : GainControl) (x : Crossover) (q : Equalizer) (k : Compressor) (l : Limiter) (d : Delay)
    (og : GainControl) (e : DspEngine) : DspEngine :=
  mk_dsp (fs_ e) (channels_ e) (bypass_ e) (phase_invert_ e) ig x q k l d og (dsp_state_ e).

(* [src/src/dsp/DspEngine.cpp:32-42] DspEngine::configure *)
Definition configure (fs : spec_float) (channels : nat) (e : DspEngine) : DspEngine :=
  mk_dsp fs channels (bypass_ e) (phase_invert_ e) (input_gain_ e) (crossover_configure fs channels (crossover_ e))
    (setChannels channels (eq_setSampleRate fs (eq_ e))) (compressor_setSampleRate fs (compressor_ e))
    (limiter_setSampleRate fs (limiter_ e)) (delay_configure fs channels (delay_ e)) (output_gain_ e) (dsp_state_ e).

(** The setters. *)
Inductive Setting :=
| EqGains (g : list spec_float) | InputGain (db : spec_float) | OutputGain (db : spec_float) | DelayMs (ms : spec_float)
| LimiterTo (on : bool) (threshold_db : spec_float) | CompressorTo (on : bool) (threshold_db ratio : spec_float)
| CrossoverTo (on hp : bool) (hp_fc : spec_float) (lp : bool) (lp_fc : spec_float)
| Bypass (on : bool) | PhaseInvert (on : bool).

(* [src/src/dsp/DspEngine.cpp:44-76] DspEngine::setEqGains ... setCrossover *)
Definition apply_setting (s : Setting) (e : DspEngine) : DspEngine :=
  let '(mk_dsp fs ch by_ ph ig x q k l d og st) := e in
  match s with
  | EqGains g => mk_dsp fs ch by_ ph ig x (setGains g q) k l d og st
  | InputGain db => mk_dsp fs ch by_ ph (setGainDb db ig) x q k l d og st
  | OutputGain db => mk_dsp fs ch by_ ph ig x q k l d (setGainDb db og) st
  | DelayMs ms => mk_dsp fs ch by_ ph ig x q k l (setDelayMs ms d) og st
  | LimiterTo on t => mk_dsp fs ch by_ ph ig x q k (limiter_set on t l) d og st
  | CompressorTo on t r => mk_dsp fs ch by_ ph ig x q (compressor_set on t r k) l d og st
  | CrossoverTo on hp hf lp lf =>
      mk_dsp fs ch by_ ph ig (setLowPass lp lf (setHighPass hp hf (crossover_enable on x))) q k l d og st
  | Bypass on => mk_dsp fs ch on ph ig x q k l d og st
  | PhaseInvert on => mk_dsp fs ch by_ on ig x q k l d og st
  end.

(* [src/src/dsp/DspEngine.cpp:86-94] DspEngine::processInt16 *)
Definition invert (s : Z) : Z := if s =? -32768 then 32767 else to_signed 16 (- s).

(* [src/src/dsp/DspEngine.cpp:102-102] DspEngine::processInt16 *)
Definition to_unit (s : Z) : spec_float := s_div (s_of_Z s) (s_of_Z 32768).

(* [src/src/dsp/DspEngine.cpp:115-116] DspEngine::processInt16 *)
Definition to_sample (v : spec_float) : Z :=
  to_signed 16 (f_trunc (s_mul (f_clamp v (s_of_Z (-1)) (s_of_Z 1)) (s_of_Z 32767))).

(** The stages in order. *)
(* [src/src/dsp/DspEngine.cpp:105-111] DspEngine::processInt16 *)
Definition chain (e : DspEngine) (frames channels : nat) (buf : list spec_float) : DspEngine * list spec_float :=
  let '(ig, buf) := gain_process (input_gain_ e) frames channels buf in
  let '(x, buf) := crossover_process (crossover_ e) frames channels buf in
  let '(q, buf) := eq_process (eq_ e) frames buf in
  let '(k, buf) := compressor_process (compressor_ e) frames channels buf in
  let '(l, buf) := limiter_process (limiter_ e) frames channels buf in
  let '(d, buf) := delay_process (delay_ e) frames buf in
  let '(og, buf) := gain_process (output_gain_ e) frames channels buf in
  (with_stages ig x q k l d og e, buf).

(* [src/src/dsp/DspEngine.cpp:78-118] DspEngine::processInt16 *)
Definition processInt16 (frames channels : nat) (io : list Z) (e : DspEngine) : DspEngine * list Z :=
  let io := if phase_invert_ e then invert <$> io else io in
  if bypass_ e then (e, io)
  else
    let '(e, buf) := chain e frames channels (to_unit <$> io) in (e, to_sample <$> buf).

(* [src/src/dsp/DspEngine.cpp:120-129] DspEngine::reset *)
Definition dsp_reset (e : DspEngine) : DspEngine :=
  with_stages (gain_reset (input_gain_ e)) (crossover_reset (crossover_ e)) (eq_reset (eq_ e))
    (compressor_reset (compressor_ e)) (limiter_reset (limiter_ e)) (delay_reset (delay_ e))
    (gain_reset (output_gain_ e)) e.
End Engine.

(** ** The delay line is a queue *)

(** What the ring holds, the oldest sample first. *)
Definition content (d : Delay) : list spec_float := drop (pos_ d) (buffer_ d) ++ take (pos_ d) (buffer_ d).
Definition ring_ok (d : Delay) : Prop := (pos_ d < length (buffer_ d))%nat \/ buffer_ d = [].


Lemma ring_step {A} (l1 l2 : list A) v x :
  let p := length l1 in
  let l' := <[p := v]> (l1 ++ x :: l2) in
  let q := ((p + 1) mod length (l1 ++ x :: l2))%nat in
  drop p (l1 ++ x :: l2) ++ take p (l1 ++ x :: l2) = x :: l2 ++ l1 /\
  drop q l' ++ take q l' = (l2 ++ l1) ++ [v] /\ (q < length l')%nat.
Proof.
  intros p l' q. assert (l' = l1 ++ v :: l2) as Hl.
  { unfold l', p. rewrite <- (Nat.add_0_r (length l1)). by rewrite insert_app_r. }
  assert (length l' = length (l1 ++ x :: l2)) as Hlen by (unfold l'; apply length_insert).
  split_and!.
  - unfold p. by rewrite drop_app_length, take_app_length.
  - rewrite Hl. destruct l2 as [|y l2].
    + assert (q = 0)%nat as ->.
      { unfold q. rewrite length_app. cbn [length]. apply Nat.Div0.mod_same. }
      by rewrite drop_0, take_0, app_nil_r.
    + assert (q = length (l1 ++ [v])) as ->.
      { unfold q. rewrite Nat.mod_small; rewrite !length_app; cbn [length]; lia. }
      change (v :: y :: l2) with ([v] ++ y :: l2). rewrite app_assoc, drop_app_length, take_app_length.
      by rewrite app_assoc.
  - rewrite Hlen. apply Nat.mod_upper_bound. rewrite length_app. cbn. lia.
Qed.

Lemma delay_sample_queue d v : (pos_ d < length (buffer_ d))%nat ->
  let r := delay_sample d v in
  content d ++ [v] = r.2 :: content r.1 /\ (pos_ r.1 < length (buffer_ r.1))%nat.
Proof.
  intros Hp. destruct (lookup_lt_is_Some_2 _ _ Hp) as [x Hx].
  destruct (list_elem_of_split_length _ _ _ Hx) as (l1 & l2 & Hl & Hpos).
  unfold delay_sample, content. cbn [fst snd pos_ buffer_]. rewrite Hl, Hpos.
  destruct (ring_step l1 l2 v x) as (-> & -> & Hq). split; [|exact Hq].
  rewrite app_nth2, Nat.sub_diag by lia. cbn. by rewrite <- app_assoc.
Qed.

(** A run over the ring: what comes out followed by what is left inside is what was inside
    followed by what went in. *)
Lemma delay_run_queue d io : (pos_ d < length (buffer_ d))%nat ->
  let r := delay_run d io in
  r.2 ++ content r.1 = content d ++ io /\ length r.2 = length io /\
  (pos_ r.1 < length (buffer_ r.1))%nat /\ d_channels r.1 = d_channels d.
Proof.
  revert d. induction io as [|v io IH]; intros d Hd; cbn [delay_run]; [by rewrite app_nil_r|].
  pose proof (delay_sample_queue d v Hd) as Hs. cbv zeta in Hs.
  assert (d_channels (delay_sample d v).1 = d_channels d) as Hc by done.
  destruct (delay_sample d v) as [d1 y]. cbn [fst snd] in *. destruct Hs as [Hq Hd1].
  specialize (IH d1 Hd1). cbv zeta in IH. destruct (delay_run d1 io) as [d2 out]. cbn [fst snd] in *.
  destruct IH as (Hr & Hlen & Hd2 & Hc2). split_and!; [|cbn; congruence|done|congruence].
  cbn [app]. rewrite Hr. change (v :: io) with ([v] ++ io). by rewrite app_assoc, Hq.
Qed.

(** ** Block by block *)

Abbreviation process S := (S -> nat -> list spec_float -> S * list spec_float).

(** A stage that does the same to two blocks in turn as to the block of both, and keeps
    the lengths; [P] is what it needs of its state and keeps. *)
Record blockwise (ch : nat) {S} (P : S -> Prop) (p : process S) : Prop := {
  block_split : forall s n m a b, P s -> length a = (n * ch)%nat -> length b = (m * ch)%nat ->
    p s (n + m)%nat (a ++ b) = ((p (p s n a).1 m b).1, (p s n a).2 ++ (p (p s n a).1 m b).2);
  block_length : forall s n a, P s -> length a = (n * ch)%nat -> length (p s n a).2 = length a;
  block_keeps : forall s n a, P s -> length a = (n * ch)%nat -> P (p s n a).1
}.
Arguments block_split {ch S P p} _.
Arguments block_length {ch S P p} _.
Arguments block_keeps {ch S P p} _.

Definition andthen {S T} (p : process S) (q : process T) : process (S * T) := fun st n a =>
  ((p st.1 n a).1, (q st.2 n (p st.1 n a).2).1, (q st.2 n (p st.1 n a).2).2).

Lemma blockwise_then ch {S T} (P : S -> Prop) (Q : T -> Prop) (p : process S) (q : process T) :
  blockwise ch P p -> blockwise ch Q q -> blockwise ch (fun st => P st.1 /\ Q st.2) (andthen p q).
Proof.
  intros Hp Hq. split; unfold andthen; cbn [fst snd].
  - intros [s t] n m a b [Hs Ht] Ha Hb. cbn [fst snd] in *.
    rewrite (block_split Hp s n m a b Hs Ha Hb). cbn [fst snd].
    pose proof (block_length Hp s n a Hs Ha) as La.
    pose proof (block_length Hp _ m b (block_keeps Hp s n a Hs Ha) Hb) as Lb.
    rewrite (block_split Hq t n m) by (congruence || done). done.
  - intros [s t] n a [Hs Ht] Ha. cbn [fst snd] in *. pose proof (block_length Hp s n a Hs Ha).
    rewrite (block_length Hq) by (congruence || done). done.
  - intros [s t] n a [Hs Ht] Ha. cbn [fst snd] in *. split; [by apply (block_keeps Hp)|].
    apply (block_keeps Hq); [done|]. by rewrite (block_length Hp).
Qed.

Lemma frames_of_app n m ch a b : length a = (n * ch)%nat ->
  frames_of (n + m) ch (a ++ b) = frames_of n ch a ++ frames_of m ch b.
Proof.
  revert a. induction n as [|n IH]; intros a Ha; cbn [frames_of Nat.add].
  - by destruct a.
  - assert (ch <= length a)%nat by lia. rewrite take_app_le, drop_app_le by done. cbn [app].
    f_equal. apply IH. rewrite length_drop. lia.
Qed.

Lemma frames_of_lengths n ch a : length a = (n * ch)%nat -> Forall (fun f => length f = ch) (frames_of n ch a).
Proof.
  revert a. induction n as [|n IH]; intros a Ha; cbn [frames_of]; [constructor|].
  apply Forall_cons. split; [rewrite length_take; lia|]. apply IH. rewrite length_drop. lia.
Qed.

Lemma run_frames_app {S} (step : S -> list spec_float -> S * list spec_float) st f g :
  run_frames step st (f ++ g) =
    let r := run_frames step st f in let r' := run_frames step r.1 g in (r'.1, r.2 ++ r'.2).
Proof.
  revert st. induction f as [|x f IH]; intros st; cbn [run_frames app]; [by rewrite <- surjective_pairing|].
  destruct (step st x) as [st1 x1]. rewrite IH. cbv zeta.
  destruct (run_frames step st1 f) as [st2 f2]. cbn [fst snd]. by destruct (run_frames step st2 g).
Qed.

Lemma run_frames_length {S} (step : S -> list spec_float -> S * list spec_float) ch st fs :
  (forall s f, length (step s f).2 = length f) -> Forall (fun f => length f = ch) fs ->
  length (mjoin (run_frames step st fs).2) = (length fs * ch)%nat.
Proof.
  intros Hstep. revert st. induction fs as [|f fs IH]; intros st Hf; [done|].
  apply Forall_cons in Hf as [Hf Hfs]. cbn [run_frames]. pose proof (Hstep st f) as Hl.
  destruct (step st f) as [st1 f1]. specialize (IH st1 Hfs). destruct (run_frames step st1 fs) as [st2 fs2].
  cbn [snd] in *. change (mjoin (f1 :: fs2)) with (f1 ++ mjoin fs2). rewrite length_app, IH, Hl, Hf. done.
Qed.

Lemma frames_of_count n ch a : length (frames_of n ch a) = n.
Proof. revert a. induction n; intros a; cbn [frames_of length]; by rewrite ?IHn. Qed.

Lemma per_frame_blockwise ch {S} (step : S -> list spec_float -> S * list spec_float) (P : S -> Prop) :
  (forall s f, length (step s f).2 = length f) -> (forall s f, P s -> P (step s f).1) ->
  blockwise ch P (fun s n io => per_frame step s n ch io).
Proof.
  intros Hlen Hkeep.
  assert (forall s n a, length a = (n * ch)%nat ->
    per_frame step s n ch a =
      ((run_frames step s (frames_of n ch a)).1, mjoin (run_frames step s (frames_of n ch a)).2)) as Hrun.
  { intros s n a Ha. unfold per_frame. destruct (run_frames _ _ _). rewrite drop_ge by lia. by rewrite app_nil_r. }
  split.
  - intros s n m a b _ Ha Hb. rewrite !Hrun; [|done..|rewrite length_app; lia].
    rewrite frames_of_app by done. rewrite run_frames_app. cbn [fst snd]. by rewrite join_app.
  - intros s n a _ Ha. rewrite Hrun by done. cbn [snd].
    rewrite (run_frames_length step ch); [by rewrite frames_of_count|done|by apply frames_of_lengths].
  - intros s n a Hs Ha. rewrite Hrun by done. cbn [fst]. clear Ha.
    revert s Hs. generalize (frames_of n ch a) as fs. intros fs. induction fs as [|f fs IH]; intros s Hs; [done|].
    cbn [run_frames]. pose proof (Hkeep s f Hs) as H1. destruct (step s f) as [s1 f1].
    specialize (IH s1 H1). by destruct (run_frames step s1 fs).
Qed.

Lemma per_frame_same {S X} (step : S -> list spec_float -> S * list spec_float) (look : S -> X) s n ch a :
  (forall s f, look (step s f).1 = look s) -> look (per_frame step s n ch a).1 = look s.
Proof.
  intros Hk. unfold per_frame. generalize (frames_of n ch a) as fs. intros fs. revert s.
  induction fs as [|f fs IH]; intros s; [done|]. cbn [run_frames]. pose proof (Hk s f) as H1.
  destruct (step s f) as [s1 f1]. specialize (IH s1). destruct (run_frames step s1 fs). cbn [fst] in *. congruence.
Qed.

Lemma blockwise_if ch {S} (P : S -> Prop) (on : S -> bool) (p : process S) :
  blockwise ch P p -> (forall s n a, on (p s n a).1 = on s) ->
  blockwise ch P (fun s n a => if on s then p s n a else (s, a)).
Proof.
  intros Hp Hon. split.
  - intros s n m a b Hs Ha Hb. destruct (on s) eqn:E; cbn [fst snd].
    + rewrite Hon, E. by apply (block_split Hp).
    + by rewrite E.
  - intros s n a Hs Ha. destruct (on s); [by apply (block_length Hp)|done].
  - intros s n a Hs Ha. destruct (on s); [by apply (block_keeps Hp)|done].
Qed.

Lemma blockwise_ext ch {S} (P : S -> Prop) (p q : process S) :
  blockwise ch P p -> (forall s n a, P s -> length a = (n * ch)%nat -> q s n a = p s n a) -> blockwise ch P q.
Proof.
  intros Hp Hq. split.
  - intros s n m a b Hs Ha Hb. pose proof (block_keeps Hp s n a Hs Ha).
    rewrite (Hq s (n + m)%nat), (Hq s n a), (Hq _ m b) by (try done; rewrite length_app; lia).
    by apply (block_split Hp).
  - intros s n a Hs Ha. rewrite Hq by done. by apply (block_length Hp).
  - intros s n a Hs Ha. rewrite Hq by done. by apply (block_keeps Hp).
Qed.

(** ** The stages, block by block *)

Section Blockwise.
Context {M : Libm} (ch : nat).

Lemma gain_blockwise : blockwise ch (fun _ => True) (fun g n io => gain_process g n ch io).
Proof. apply per_frame_blockwise; [|done]. intros g f. apply length_fmap. Qed.

Lemma crossover_channels_length x hs ls f : length (crossover_channels x hs ls f).2 = length f.
Proof.
  revert ls f. induction hs as [|h hs IH]; intros [|l ls] [|v f]; try done. cbn [crossover_channels].
  destruct (crossover_sample x h l v) as [[h1 l1] v1]. specialize (IH ls f).
  destruct (crossover_channels x hs ls f) as [[hs1 ls1] f1]. cbn [snd length] in *. by rewrite IH.
Qed.

Lemma crossover_blockwise : blockwise ch (fun _ => True) (fun x n io => crossover_process x n ch io).
Proof.
  apply (blockwise_ext ch _
    (fun x n io => if negb (negb (x_enabled x) || negb (hp_enabled x) && negb (lp_enabled x))
                   then per_frame crossover_frame x n ch io else (x, io))).
  - apply (blockwise_if ch _ (fun x => negb (negb (x_enabled x) || negb (hp_enabled x) && negb (lp_enabled x)))).
    + apply per_frame_blockwise; [|done]. intros x f. unfold crossover_frame.
      pose proof (crossover_channels_length x (hp_state x) (lp_state x) f) as Hl.
      by destruct (crossover_channels x _ _ f) as [[? ?] ?].
    + intros x n a. apply (per_frame_same crossover_frame
        (fun x => negb (negb (x_enabled x) || negb (hp_enabled x) && negb (lp_enabled x)))).
      intros s f. unfold crossover_frame. by destruct (crossover_channels s _ _ f) as [[? ?] ?].
  - intros x n a _ _. unfold crossover_process. by destruct (negb (x_enabled x) || _).
Qed.

Lemma eq_channels_length cs chans f : length (eq_channels cs chans f).2 = length f.
Proof.
  revert f. induction chans as [|ss chans IH]; intros [|v f]; try done. cbn [eq_channels].
  destruct (through_bands cs ss v) as [ss1 v1]. specialize (IH f). destruct (eq_channels cs chans f).
  cbn [snd length] in *. by rewrite IH.
Qed.

Lemma eq_blockwise : blockwise ch (fun e => e_channels e = ch) eq_process.
Proof.
  apply (blockwise_ext ch _ (fun e n io => per_frame eq_frame e n ch io)).
  - apply per_frame_blockwise.
    + intros e f. unfold eq_frame. pose proof (eq_channels_length (coeffs_ e) (eq_state e) f) as Hl.
      by destruct (eq_channels _ _ f).
    + intros e f He. unfold eq_frame. by destruct (eq_channels _ _ f).
  - intros e n a He _. unfold eq_process. by rewrite He.
Qed.

Lemma compressor_blockwise : blockwise ch (fun _ => True) (fun k n io => compressor_process k n ch io).
Proof.
  apply (blockwise_ext ch _ (fun k n io => if k_enabled k then per_frame compressor_frame k n ch io else (k, io))).
  - apply blockwise_if.
    + apply per_frame_blockwise; [|done]. intros k f. apply length_fmap.
    + intros k n a. by apply (per_frame_same compressor_frame k_enabled).
  - intros k n a _ _. unfold compressor_process. by destruct (k_enabled k).
Qed.

Lemma limiter_blockwise : blockwise ch (fun _ => True) (fun l n io => limiter_process l n ch io).
Proof.
  apply (blockwise_ext ch _ (fun l n io => if l_enabled l then per_frame limiter_frame l n ch io else (l, io))).
  - apply blockwise_if.
    + apply per_frame_blockwise; [|done]. intros l f. apply length_fmap.
    + intros l n a. by apply (per_frame_same limiter_frame l_enabled).
  - intros l n a _ _. unfold limiter_process. by destruct (l_enabled l).
Qed.

Lemma delay_run_app d a b :
  delay_run d (a ++ b) = ((delay_run (delay_run d a).1 b).1, (delay_run d a).2 ++ (delay_run (delay_run d a).1 b).2).
Proof.
  revert d. induction a as [|v a IH]; intros d; cbn [delay_run app]; [by rewrite <- surjective_pairing|].
  destruct (delay_sample d v) as [d1 y]. rewrite IH. destruct (delay_run d1 a) as [d2 out]. cbn [fst snd].
  by destruct (delay_run d2 b).
Qed.

Definition delay_ready (d : Delay) : Prop := d_channels d = ch /\ ring_ok d.

Lemma delay_process_run d n a : delay_ready d -> length a = (n * ch)%nat ->
  delay_process d n a = if bool_decide (buffer_ d = []) then (d, a) else delay_run d a.
Proof.
  intros [Hc _] Ha. unfold delay_process. destruct (bool_decide _); [done|]. rewrite Hc, take_ge, drop_ge by lia.
  destruct (delay_run d a). by rewrite app_nil_r.
Qed.

Lemma delay_run_ready d a : delay_ready d -> buffer_ d <> [] ->
  length (delay_run d a).2 = length a /\ delay_ready (delay_run d a).1 /\ buffer_ (delay_run d a).1 <> [].
Proof.
  intros [Hc [Hd|?]] Hb; [|done].
  destruct (delay_run_queue d a Hd) as (_ & Hl & Hd' & Hc'). split_and!; [done|split; [congruence|by left]|].
  intros E. rewrite E in Hd'. cbn in Hd'. lia.
Qed.

Lemma delay_blockwise : blockwise ch delay_ready delay_process.
Proof.
  split.
  - intros d n m a b Hd Ha Hb.
    rewrite (delay_process_run d (n + m)%nat), (delay_process_run d n a) by (done || rewrite length_app; lia).
    destruct (bool_decide_reflect (buffer_ d = [])) as [E|E]; cbn [fst snd].
    + rewrite delay_process_run by done. by rewrite bool_decide_eq_true_2.
    + destruct (delay_run_ready d a Hd E) as (_ & Hd' & E'). rewrite delay_process_run by done.
      rewrite bool_decide_eq_false_2 by done. apply delay_run_app.
  - intros d n a Hd Ha. rewrite delay_process_run by done. destruct (bool_decide_reflect (buffer_ d = [])) as [E|E]; [done|].
    by apply delay_run_ready.
  - intros d n a Hd Ha. rewrite delay_process_run by done. destruct (bool_decide_reflect (buffer_ d = [])) as [E|E]; [done|].
    by apply delay_run_ready.
Qed.

(** ** The engine, block by block *)

(** An engine set up for [ch] channels. *)
Definition ready (e : DspEngine) : Prop := e_channels (eq_ e) = ch /\ delay_ready (delay_ e).

Definition stages : process (GainControl * Crossover * Equalizer * Compressor * Limiter * Delay * GainControl) :=
  andthen (andthen (andthen (andthen (andthen (andthen
    (fun g n io => gain_process g n ch io) (fun x n io => crossover_process x n ch io)) eq_process)
    (fun k n io => compressor_process k n ch io)) (fun l n io => limiter_process l n ch io)) delay_process)
    (fun g n io => gain_process g n ch io).

Definition stages_of (e : DspEngine) :=
  (input_gain_ e, crossover_ e, eq_ e, compressor_ e, limiter_ e, delay_ e, output_gain_ e).
Definition put_stages (st : GainControl * Crossover * Equalizer * Compressor * Limiter * Delay * GainControl)
    (e : DspEngine) : DspEngine :=
  let '(ig, x, q, k, l, d, og) := st in with_stages ig x q k l d og e.

Lemma stages_blockwise :
  blockwise ch (fun st => let '(_, _, q, _, _, d, _) := st in e_channels q = ch /\ delay_ready d) stages.
Proof.
  pose proof (blockwise_then ch _ _ _ _ gain_blockwise crossover_blockwise) as B.
  pose proof (blockwise_then ch _ _ _ _ B eq_blockwise) as B1.
  pose proof (blockwise_then ch _ _ _ _ B1 compressor_blockwise) as B2.
  pose proof (blockwise_then ch _ _ _ _ B2 limiter_blockwise) as B3.
  pose proof (blockwise_then ch _ _ _ _ B3 delay_blockwise) as B4.
  pose proof (blockwise_then ch _ _ _ _ B4 gain_blockwise) as B5.
  split.
  - intros [[[[[[ig x] q] k] l] d] og] n m a b [Hq Hd]. by apply (block_split B5).
  - intros [[[[[[ig x] q] k] l] d] og] n a [Hq Hd]. by apply (block_length B5).
  - intros [[[[[[ig x] q] k] l] d] og] n a [Hq Hd] Ha.
    assert (((((((True /\ True) /\ e_channels q = ch) /\ True) /\ True) /\ delay_ready d)) /\ True) as Hp by done.
    pose proof (block_keeps B5 (ig, x, q, k, l, d, og) n a Hp Ha) as H. revert H. unfold stages.
    destruct (andthen _ _ (ig, x, q, k, l, d, og) n a) as [[[[[[[ig' x'] q'] k'] l'] d'] og'] out]. cbn. tauto.
Qed.

Lemma chain_stages e n io :
  chain e n ch io = (put_stages (stages (stages_of e) n io).1 e, (stages (stages_of e) n io).2).
Proof.
  unfold chain, stages, stages_of, put_stages, andthen. cbn [fst snd].
  repeat match goal with |- context [let '(_, _) := ?p in _] => let x := fresh in let y := fresh in
    destruct p as [x y] eqn:?; cbn [fst snd] end. done.
Qed.
End Blockwise.

(** ** Streams *)

Section Streams.
Context {M : Libm} (ch : nat).

(** Blocks in turn; [frames] is the length of the block over the channels. *)
Fixpoint stream (e : DspEngine) (blocks : list (list Z)) : DspEngine * list Z :=
  match blocks with
  | [] => (e, [])
  | b :: blocks =>
      let '(e, out) := processInt16 (length b / ch)%nat ch b e in
      let '(e, outs) := stream e blocks in (e, out ++ outs)
  end.

(** A block of whole frames. *)
Definition whole (b : list Z) : Prop := exists n, length b = (n * ch)%nat.

Lemma whole_length b : (0 < ch)%nat -> whole b -> length b = (length b / ch * ch)%nat.
Proof. intros Hch [n ->]. by rewrite Nat.div_mul by lia. Qed.

Lemma whole_join l : Forall whole l -> whole (mjoin l).
Proof.
  induction 1 as [|b l [n Hn] _ [m Hm]]; [by exists 0%nat|]. exists (n + m)%nat.
  rewrite join_cons, length_app, Hn, Hm. lia.
Qed.

Lemma ready_new fs : (0 < ch)%nat -> ready ch (new_dsp fs ch).
Proof.
  intros Hch. split; [cbn; lia|]. split; [done|]. unfold ring_ok. cbn.
  destruct (delay_samples _ _ _); [by right|left; cbn; lia].
Qed.

Lemma ready_setting s e : ready ch e -> ready ch (apply_setting s e).
Proof.
  intros [Hq [Hc Hr]]. destruct e as [fs c by_ ph ig x q k l d og st]. cbn in *.
  destruct s; cbn; try (split; [exact Hq|by split]).
  split; [exact Hq|]. split; [exact Hc|]. unfold ring_ok. cbn.
  destruct (delay_samples _ _ _); [by right|left; cbn; lia].
Qed.

Lemma ready_settings l e : ready ch e -> ready ch (foldl (fun e s => apply_setting s e) e l).
Proof. revert e. induction l as [|s l IH]; intros e He; [exact He|]. by apply IH, ready_setting. Qed.

Lemma put_stages_look st e : stages_of (put_stages st e) = st.
Proof. by destruct st as [[[[[[ig x] q] k] l] d] og]. Qed.

Lemma put_stages_twice st st' e : put_stages st (put_stages st' e) = put_stages st e.
Proof. by destruct st as [[[[[[ig x] q] k] l] d] og], st' as [[[[[[ig' x'] q'] k'] l'] d'] og']. Qed.

Lemma put_stages_flags st e :
  bypass_ (put_stages st e) = bypass_ e /\ phase_invert_ (put_stages st e) = phase_invert_ e.
Proof. by destruct st as [[[[[[ig x] q] k] l] d] og]. Qed.

Lemma put_own_stages e : put_stages (stages_of e) e = e.
Proof. by destruct e. Qed.

(** The samples an engine works on, and one block in terms of the stages. *)
Definition polarity (e : DspEngine) (io : list Z) : list Z := if phase_invert_ e then invert <$> io else io.

Lemma process_run n io e :
  processInt16 n ch io e =
    if bypass_ e then (e, polarity e io)
    else let r := stages ch (stages_of e) n (to_unit <$> polarity e io) in
         (put_stages r.1 e, to_sample <$> r.2).
Proof.
  unfold processInt16. fold (polarity e io). destruct (bypass_ e); [done|]. rewrite chain_stages.
  by destruct (stages ch (stages_of e) n _).
Qed.

Lemma stages_empty st : stages ch st 0 [] = (st, []).
Proof.
  destruct st as [[[[[[ig x] q] k] l] d] og]. unfold stages, andthen. cbn [fst snd]. cbv beta.
  assert (forall g, gain_process g 0 ch [] = (g, [])) as Hg by done.
  assert (crossover_process x 0 ch [] = (x, [])) as Hx by (unfold crossover_process; by destruct (_ || _)).
  assert (eq_process q 0 [] = (q, [])) as Hq by done.
  assert (compressor_process k 0 ch [] = (k, [])) as Hk by (unfold compressor_process; by destruct (negb _)).
  assert (limiter_process l 0 ch [] = (l, [])) as Hl by (unfold limiter_process; by destruct (negb _)).
  assert (delay_process d 0 [] = (d, [])) as Hd by (unfold delay_process; by destruct (bool_decide _)).
  repeat (progress (rewrite ?Hg, ?Hx, ?Hq, ?Hk, ?Hl, ?Hd; cbn [fst snd])). done.
Qed.

Lemma ready_stages e : ready ch e <->
  let '(_, _, q, _, _, d, _) := stages_of e in e_channels q = ch /\ delay_ready ch d.
Proof. done. Qed.

Lemma polarity_app e a b : polarity e (a ++ b) = polarity e a ++ polarity e b.
Proof. unfold polarity. destruct (phase_invert_ e); [by rewrite fmap_app|done]. Qed.

Lemma polarity_length e a : length (polarity e a) = length a.
Proof. unfold polarity. destruct (phase_invert_ e); [apply length_fmap|done]. Qed.

Lemma process_ready n io e : ready ch e -> length io = (n * ch)%nat -> ready ch (processInt16 n ch io e).1.
Proof.
  intros He Hio. rewrite process_run. destruct (bypass_ e); [done|]. cbn [fst].
  apply ready_stages. rewrite put_stages_look. apply (block_keeps (stages_blockwise ch)); [by apply ready_stages|].
  by rewrite length_fmap, polarity_length.
Qed.

Lemma process_split n m a b e : ready ch e -> length a = (n * ch)%nat -> length b = (m * ch)%nat ->
  processInt16 (n + m)%nat ch (a ++ b) e =
    ((processInt16 m ch b (processInt16 n ch a e).1).1,
     (processInt16 n ch a e).2 ++ (processInt16 m ch b (processInt16 n ch a e).1).2).
Proof.
  intros He Ha Hb. rewrite !process_run.
  destruct (bypass_ e) eqn:Eb; cbn [fst snd]; [by rewrite Eb, polarity_app|].
  rewrite polarity_app, fmap_app.
  rewrite (block_split (stages_blockwise ch)); [|by apply ready_stages|by rewrite length_fmap, polarity_length..].
  set (st := (stages ch (stages_of e) n (to_unit <$> polarity e a)).1).
  destruct (put_stages_flags st e) as [-> Hp]. rewrite Eb. cbn [fst snd].
  assert (polarity (put_stages st e) b = polarity e b) as -> by (unfold polarity; by rewrite Hp).
  by rewrite put_stages_look, put_stages_twice, fmap_app.
Qed.

Lemma stream_whole e l : (0 < ch)%nat -> ready ch e -> Forall whole l ->
  stream e l = processInt16 (length (mjoin l) / ch)%nat ch (mjoin l) e.
Proof.
  intros Hch. revert e. induction l as [|b l IH]; intros e He Hl.
  - cbn [stream mjoin list_join length]. rewrite process_run, Nat.Div0.div_0_l. unfold polarity.
    destruct (bypass_ e); [by destruct (phase_invert_ e)|].
    replace (if phase_invert_ e then invert <$> [] else []) with (@nil Z) by by destruct (phase_invert_ e).
    cbn [fmap list_fmap]. rewrite stages_empty. cbn [fst snd]. by rewrite put_own_stages.
  - apply Forall_cons in Hl as [Hb Hl]. cbn [stream]. pose proof (whole_length b Hch Hb) as Hlen.
    pose proof (process_ready _ b e He Hlen) as He1.
    rewrite join_cons. pose proof (whole_length _ Hch (whole_join l Hl)) as Hlen'.
    assert (length (b ++ mjoin l) / ch = length b / ch + length (mjoin l) / ch)%nat as ->.
    { rewrite length_app, Hlen, Hlen', <- Nat.mul_add_distr_r, !Nat.div_mul by lia. done. }
    rewrite process_split by done. destruct (processInt16 (length b / ch) ch b e) as [e1 out]. cbn [fst snd] in *.
    rewrite IH by done. by destruct (processInt16 _ ch (mjoin l) e1).
Qed.
End Streams.

(** ** Properties *)

(** C36: Where a stream is cut into blocks cannot be heard.  Take an engine in any
    configuration reached from a new one, and a stream cut into blocks of whole frames in
    two ways: the samples that come out are the same, and so is the engine afterwards,
    every filter state and delay line included. *)
Theorem blocks_do_not_matter (M : Libm) ch fs settings l1 l2 :
  (0 < ch)%nat -> Forall (whole ch) l1 -> Forall (whole ch) l2 -> mjoin l1 = mjoin l2 ->
  let e := foldl (fun e s => apply_setting s e) (new_dsp fs ch) settings in
  stream ch e l1 = stream ch e l2.
Proof.
  intros Hch H1 H2 Hl e. assert (ready ch e) as He by by apply ready_settings, ready_new.
  by rewrite (stream_whole ch e l1), (stream_whole ch e l2), Hl.
Qed.

(** The delay stage over blocks in turn. *)
Fixpoint delay_stream (d : Delay) (blocks : list (list spec_float)) : Delay * list spec_float :=
  match blocks with
  | [] => (d, [])
  | b :: blocks =>
      let '(d, out) := delay_process d (length b / d_channels d)%nat b in
      let '(d, outs) := delay_stream d blocks in (d, out ++ outs)
  end.

Lemma delay_stream_run ch d l : (0 < ch)%nat -> delay_ready ch d ->
  Forall (fun b => exists n, length b = (n * ch)%nat) l ->
  delay_stream d l = if bool_decide (buffer_ d = []) then (d, mjoin l) else delay_run d (mjoin l).
Proof.
  intros Hch. revert d. induction l as [|b l IH]; intros d Hd Hl; [by destruct (bool_decide _)|].
  apply Forall_cons in Hl as [[n Hn] Hl]. cbn [delay_stream]. pose proof Hd as [Hc _].
  rewrite Hc, Hn, Nat.div_mul, (delay_process_run ch d n b Hd Hn), join_cons by lia.
  destruct (bool_decide_reflect (buffer_ d = [])) as [E|E].
  - rewrite IH by done. by rewrite bool_decide_eq_true_2.
  - rewrite delay_run_app. destruct (delay_run_ready ch d b Hd E) as (_ & Hd' & E').
    destruct (delay_run d b) as [d1 out]. cbn [fst snd] in *. rewrite IH by done.
    rewrite bool_decide_eq_false_2 by done. by destruct (delay_run d1 (mjoin l)).
Qed.

(** The delay delays, and does nothing else.  After the delay is set, whatever blocks
    of whole frames follow, the stage puts out the samples that went in, each once and in
    order, behind exactly the configured number of zeros. *)
Theorem delay_shifts ms d blocks :
  (0 < d_channels d)%nat -> Forall (fun b => exists n, length b = (n * d_channels d)%nat) blocks ->
  let k := delay_samples (if SFltb ms f0 then f0 else ms) (d_fs d) (d_channels d) in
  (delay_stream (setDelayMs ms d) blocks).2 = take (length (mjoin blocks)) (replicate k f0 ++ mjoin blocks).
Proof.
  intros Hch Hl k. set (d1 := setDelayMs ms d).
  assert (buffer_ d1 = replicate k f0) as Hb by done. assert (pos_ d1 = 0%nat) as Hp by done.
  assert (delay_ready (d_channels d) d1) as Hr.
  { split; [done|]. unfold ring_ok. rewrite Hb, Hp, length_replicate. destruct k; [by right|left; lia]. }
  rewrite (delay_stream_run (d_channels d)) by done. destruct (bool_decide_reflect (buffer_ d1 = [])) as [E|E].
  - rewrite <- Hb, E. cbn. by rewrite take_ge.
  - destruct Hr as [_ [Hlt|?]]; [|done]. destruct (delay_run_queue d1 (mjoin blocks) Hlt) as (Hq & Hlen & _).
    assert (content d1 = replicate k f0) as Hc by (unfold content; by rewrite Hp, Hb, app_nil_r).
    rewrite Hc in Hq. rewrite <- Hq, <- Hlen. by rewrite take_app_length.
Qed.

(** ** What the stages do to single samples *)

(** Inversion keeps the range and is its own inverse but for the one sample without a
    counterpart. *)
Lemma invert_range s : in_signed 16 s -> in_signed 16 (invert s).
Proof.
  intros Hs. unfold invert. destruct (Z.eqb_spec s (-32768)); [unfold in_signed; lia|]. by apply to_signed_bound.
Qed.

Lemma invert_invert s : in_signed 16 s -> s <> -32768 -> invert (invert s) = s.
Proof.
  intros Hs Hne. assert (in_signed 16 (- s)) as Hn by (unfold in_signed in *; lia).
  unfold invert at 2. destruct (Z.eqb_spec s (-32768)); [done|]. rewrite to_signed_small by (done || lia).
  unfold invert. destruct (Z.eqb_spec (- s) (-32768)); [unfold in_signed in *; lia|].
  rewrite Z.opp_involutive. by apply to_signed_small.
Qed.

(** A delay of 9 ms at 48 kHz is 432 samples a channel; the line is one short, because the
    quotient by 1000 is rounded down and the product is cut off. *)
Lemma nine_ms_is_one_short :
  delay_samples (f_of_Z 9) (f_of_Z 48000) 1 = 431%nat /\ delay_samples (f_of_Z 8) (f_of_Z 48000) 1 = 384%nat.
Proof. split; vm_compute; reflexivity. Qed.

(** The limiter follows a peak with its attack time: a full-scale sample after silence
    leaves it far above a threshold of one half. *)
Lemma limiter_lets_peaks_through :
  let half := S754_finite false 4503599627370496 (-53) in
  let attack := S754_finite false 5764607523034235 (-58) in  (* 0.02, close to 1 ms at 48 kHz *)
  let l := mk_limiter (f_of_Z 48000) true half c_1 (f_of_Z 50) attack c_milli c_1 in
  Forall (fun v => SFltb half (to_double v) = true) (limiter_frame l [s_of_Z 1; s_of_Z 1]).2.
Proof. intros. apply Forall_cons; split; [vm_compute; reflexivity|]. apply Forall_cons; split; [vm_compute; reflexivity|done]. Qed.

(** ** Witnesses *)

(** A mathematical library for evaluation: constants. *)
Definition flat_libm : Libm :=
  {| m_pow _ _ := c_1; m_cos _ := f0; m_sin _ := c_1; m_exp _ := f0; m_log10 _ := f0; m_log _ := f0; m_hypot _ _ := f0 |}.

Lemma blocks_do_not_matter_witness :
  let e := foldl (fun e s => apply_setting (M:=flat_libm) s e) (new_dsp (M:=flat_libm) (f_of_Z 1000) 2)
             [DelayMs c_1; PhaseInvert true] in
  (stream (M:=flat_libm) 2 e [[1000; -2000]; [300; -32768]]).2 = [0; 0; -999; 1999] /\
  stream (M:=flat_libm) 2 e [[1000; -2000]; [300; -32768]] = stream (M:=flat_libm) 2 e [[1000; -2000; 300; -32768]].
Proof.
  intros e. split; [vm_compute; reflexivity|].
  apply (blocks_do_not_matter flat_libm 2 (f_of_Z 1000) [DelayMs c_1; PhaseInvert true]); [lia| | |reflexivity].
  - apply Forall_cons; split; [by exists 1%nat|]. apply Forall_cons; split; [by exists 1%nat|constructor].
  - apply Forall_cons; split; [by exists 2%nat|constructor].
Defined.

Lemma delay_shifts_witness :
  let d := new_delay (f_of_Z 1000) 2 in
  (delay_stream (setDelayMs c_1 d) [[c_1; c_2]; [c_10; c_20]]).2 = [f0; f0; c_1; c_2].
Proof.
  intros d. rewrite (delay_shifts c_1 d [[c_1; c_2]; [c_10; c_20]]).
  - by_decision.
  - cbn. lia.
  - apply Forall_cons; split; [by exists 1%nat|]. apply Forall_cons; split; [by exists 1%nat|constructor].
Defined.
