(* ===== verification/MasterDsp.v ===== *)
(** * MasterDsp: the master chain of the streamer

    Models [streamer/src/dsp/MasterDsp.h]: the configuration of the chain with its JSON
    form, and the wrapper that keeps it in step with the speaker's [DspEngine]; and the
    access the web interface gets to it ([streamer/src/app/StreamerApp.cpp], which merges
    a partial request onto the configuration in effect). *)

From S2P Require Import Prelude Core Json Audio Dsp.

(* [src/streamer/src/dsp/MasterDsp.h:30-35] MasterDspConfig *)
Record MasterDspConfig := mk_master_config
  { bypass : bool; input_gain_db : spec_float; master_volume_db : spec_float; limiter_enabled : bool;
    limiter_threshold_db : spec_float; eq_gains_db : list spec_float }.

Definition flat_config : MasterDspConfig :=
  mk_master_config false f0 f0 true (f_of_Z (-1)) (replicate kEqBands f0).

(* [src/streamer/src/dsp/MasterDsp.h:71-75] clampEqGainDb *)
Definition clampEqGainDb (db : spec_float) : spec_float :=
  if SFltb c_10 db then c_10 else if SFltb db (f_of_Z (-10)) then f_of_Z (-10) else db.

Section Json.
Context {J : JsonLib}.

(* [src/streamer/src/dsp/MasterDsp.h:37-46] MasterDspConfig::toJson *)
Definition master_to_json (c : MasterDspConfig) : json :=
  jobj [("bypass", jbool (bypass c)); ("input_gain_db", jdbl (input_gain_db c));
        ("master_volume_db", jdbl (master_volume_db c)); ("limiter_enabled", jbool (limiter_enabled c));
        ("limiter_threshold_db", jdbl (limiter_threshold_db c)); ("eq_gains_db", jarr (jdbl <$> eq_gains_db c))].

(** Fill the bands from the numbers of an array, as far as both go. *)
(* [src/streamer/src/dsp/MasterDsp.h:61-63] MasterDspConfig::fromJson *)
Fixpoint fill_gains (gains : list spec_float) (arr : list json) : Try (list spec_float) :=
  match gains, arr with
  | g :: gains, v :: arr =>
      x ← (if is_number v then get_double v else Done g);
      rest ← fill_gains gains arr;
      mret (x :: rest)
  | _, _ => mret gains
  end.

(* [src/streamer/src/dsp/MasterDsp.h:50-66] MasterDspConfig::fromJson *)
Definition master_from_json (j : json) : Try MasterDspConfig :=
  if negb (is_object j) then Done flat_config
  else
    b ← value_bool j "bypass" (bypass flat_config);
    ig ← value_double j "input_gain_db" (input_gain_db flat_config);
    mv ← value_double j "master_volume_db" (master_volume_db flat_config);
    le ← value_bool j "limiter_enabled" (limiter_enabled flat_config);
    lt ← value_double j "limiter_threshold_db" (limiter_threshold_db flat_config);
    eq ← match jfind j "eq_gains_db" with
         | Some a => if is_array a then l ← get_array a; fill_gains (eq_gains_db flat_config) l
                     else mret (eq_gains_db flat_config)
         | None => mret (eq_gains_db flat_config)
         end;
    mret (mk_master_config b ig mv le lt eq).
End Json.

(** ** The chain *)

Section Master.
Context {J : JsonLib} {M : Libm}.

(* [src/streamer/src/dsp/MasterDsp.h:122-124] MasterDsp *)
Record MasterDsp := mk_master { engine_ : DspEngine; config_ : MasterDspConfig }.

(** The settings a configuration stands for, in the order they are made. *)
(* [src/streamer/src/dsp/MasterDsp.h:110-120] MasterDsp::apply *)
Definition settings_of (c : MasterDspConfig) : list Setting :=
  [InputGain (input_gain_db c); OutputGain (master_volume_db c);
   LimiterTo (limiter_enabled c) (limiter_threshold_db c); EqGains (eq_gains_db c); Bypass (bypass c)].

Definition apply_config (c : MasterDspConfig) (e : DspEngine) : DspEngine :=
  foldl (fun e s => apply_setting s e) e (settings_of c).

(* [src/streamer/src/dsp/MasterDsp.h:79-83] MasterDsp::MasterDsp *)
Definition new_master (fs : spec_float) (channels : nat) : MasterDsp :=
  mk_master (apply_config flat_config (new_dsp fs channels)) flat_config.

(* [src/streamer/src/dsp/MasterDsp.h:94-102] MasterDsp::setConfig *)
Definition setConfig (incoming : MasterDspConfig) (m : MasterDsp) : MasterDsp :=
  let c := mk_master_config (bypass incoming) (input_gain_db incoming) (master_volume_db incoming)
             (limiter_enabled incoming) (limiter_threshold_db incoming) (clampEqGainDb <$> eq_gains_db incoming) in
  mk_master (apply_config c (engine_ m)) c.

(* [src/streamer/src/dsp/MasterDsp.h:88-90] MasterDsp::process *)
Definition master_process (frames channels : nat) (io : list Z) (m : MasterDsp) : MasterDsp * list Z :=
  let '(e, out) := processInt16 frames channels io (engine_ m) in (mk_master e (config_ m), out).

(** The setter behind /api/dsp. *)
(* [src/streamer/src/app/StreamerApp.cpp:403-408] StreamerApp::startup, the DSP setter *)
Definition patch_dsp (patch : json) (m : MasterDsp) : Try MasterDsp :=
  let current := master_to_json (config_ m) in
  let merged := if is_object patch then jupdate current patch else current in
  c ← master_from_json merged;
  mret (setConfig c m).
End Master.

(** ** Lemmas *)

Lemma clamp_clamped g : clampEqGainDb (clampEqGainDb g) = clampEqGainDb g.
Proof.
  unfold clampEqGainDb. destruct (SFltb c_10 g) eqn:H1; [reflexivity|].
  destruct (SFltb g (f_of_Z (-10))) eqn:H2; [reflexivity|]. by rewrite H1, H2.
Qed.

(** Settled: all the bands are there, and within the range. *)
Definition settled (c : MasterDspConfig) : Prop :=
  length (eq_gains_db c) = kEqBands /\ clampEqGainDb <$> eq_gains_db c = eq_gains_db c.

Section Lemmas.
Context {J : JsonLib} {L : JsonLaws J} {M : Libm}.

Lemma fill_length gains arr l : fill_gains gains arr = Done l -> length l = length gains.
Proof.
  revert arr l. induction gains as [|g gains IH]; intros [|v arr] l; cbn [fill_gains]; try (by intros [= <-]).
  destruct (if is_number v then get_double v else Done g) as [x|]; [|done]. cbn [mbind Try_bind].
  destruct (fill_gains gains arr) as [r|] eqn:Hr; [|done]. cbn. intros [= <-]. cbn. f_equal. by eapply IH.
Qed.

Lemma fill_all gains l : length l = length gains -> fill_gains gains (jdbl <$> l) = Done l.
Proof.
  revert l. induction gains as [|g gains IH]; intros [|x l] Hl; simplify_eq/=; [done|].
  rewrite is_number_dbl, get_double_dbl. cbn [mbind Try_bind].
  by rewrite IH.
Qed.

Lemma settled_patch patch m m' : patch_dsp patch m = Done m' -> settled (config_ m').
Proof.
  unfold patch_dsp. destruct (master_from_json _) as [c|] eqn:Hc; [|done]. intros [= <-].
  unfold setConfig, settled. cbn [config_ eq_gains_db]. rewrite length_fmap. split.
  - revert Hc. unfold master_from_json. destruct (is_object _); cbn [negb]; [|by intros [= <-]].
    unfold mbind, Try_bind. repeat (case_match; try done); intros [= <-]; cbn [eq_gains_db]; try done.
    all: lazymatch goal with
      | H : fill_gains _ _ = Done _ |- _ => exact (fill_length _ _ _ H)
      | H : mret _ = Done _ |- _ => by injection H as <-
      end.
  - rewrite <- list_fmap_compose. apply list_fmap_ext. intros ? g _. apply clamp_clamped.
Qed.

Lemma settled_flat : settled flat_config.
Proof. split; reflexivity. Qed.

(** What a configuration becomes under the JSON of a patched one. *)
Lemma value_merged {A} (get : json -> Try A) j p k d : is_object j = true -> is_object p = true ->
  value_or get (jupdate j p) k d = match jfind p k with Some v => get v | None => value_or get j k d end.
Proof.
  intros Hj Hp. unfold value_or. rewrite is_object_update, jfind_update, Hj by done. by destruct (jfind p k).
Qed.

Lemma master_values c :
  (forall d, value_or get_bool (master_to_json c) "bypass" d = Done (bypass c)) /\
  (forall d, value_or get_double (master_to_json c) "input_gain_db" d = Done (input_gain_db c)) /\
  (forall d, value_or get_double (master_to_json c) "master_volume_db" d = Done (master_volume_db c)) /\
  (forall d, value_or get_bool (master_to_json c) "limiter_enabled" d = Done (limiter_enabled c)) /\
  (forall d, value_or get_double (master_to_json c) "limiter_threshold_db" d = Done (limiter_threshold_db c)) /\
  jfind (master_to_json c) "eq_gains_db" = Some (jarr (jdbl <$> eq_gains_db c)).
Proof.
  unfold master_to_json. rewrite jfind_obj.
  split_and!; try intros d; rewrite ?value_or_obj; cbn [assoc String.eqb Ascii.eqb Bool.eqb];
    by rewrite ?get_bool_bool, ?get_double_dbl.
Qed.

Lemma master_round_trip c : length (eq_gains_db c) = kEqBands -> master_from_json (master_to_json c) = Done c.
Proof.
  intros Hl. unfold master_from_json, value_bool, value_double.
  assert (is_object (master_to_json c) = true) as -> by apply is_object_obj. cbn [negb].
  destruct (master_values c) as (-> & -> & -> & -> & -> & ->). cbn [mbind Try_bind].
  rewrite is_array_arr, get_array_arr. cbn [mbind Try_bind]. rewrite fill_all by done. by destruct c.
Qed.

(** Reading a patched configuration: field by field, the patch's value or the old one. *)
Lemma patched_fields c patch n : settled c -> is_object patch = true ->
  master_from_json (jupdate (master_to_json c) patch) = Done n ->
  value_bool patch "bypass" (bypass c) = Done (bypass n) /\
  value_double patch "input_gain_db" (input_gain_db c) = Done (input_gain_db n) /\
  value_double patch "master_volume_db" (master_volume_db c) = Done (master_volume_db n) /\
  value_bool patch "limiter_enabled" (limiter_enabled c) = Done (limiter_enabled n) /\
  value_double patch "limiter_threshold_db" (limiter_threshold_db c) = Done (limiter_threshold_db n) /\
  (jfind patch "eq_gains_db" = None -> eq_gains_db n = eq_gains_db c).
Proof.
  intros [Hlen _] Hp. unfold master_from_json, value_bool, value_double.
  assert (is_object (master_to_json c) = true) as Ho by apply is_object_obj.
  rewrite is_object_update, !value_merged, jfind_update by done. cbn [negb].
  destruct (master_values c) as (-> & -> & -> & -> & -> & ->).
  unfold value_or. rewrite Hp. unfold mbind, Try_bind.
  repeat lazymatch goal with
  | |- match ?t with Done _ => _ | Throw _ => _ end = Done n -> _ => destruct t as [?x|] eqn:?; [|done]
  end.
  intros [= <-]. split_and!; try done. intros He. rewrite He, is_array_arr, get_array_arr, fill_all in * by done.
  by simplify_eq.
Qed.
End Lemmas.

(** ** Properties *)

(** A request to the master chain changes what it names and nothing else.  From a
    chain whose configuration is settled, a patch that is an object and is accepted leaves
    every field it does not name as it was, gives every field it names the patch's value,
    and ends in a settled configuration again: 32 gains, each within 10 dB.  The engine has
    been given exactly the settings of that configuration, and its JSON form, which is what
    is stored, reads back as the same configuration. *)
Theorem patch_changes_what_it_names (J : JsonLib) (L : JsonLaws J) (M : Libm) patch m m' :
  settled (config_ m) -> is_object patch = true -> patch_dsp patch m = Done m' ->
  let c := config_ m in let c' := config_ m' in
  value_bool patch "bypass" (bypass c) = Done (bypass c') /\
  value_double patch "input_gain_db" (input_gain_db c) = Done (input_gain_db c') /\
  value_double patch "master_volume_db" (master_volume_db c) = Done (master_volume_db c') /\
  value_bool patch "limiter_enabled" (limiter_enabled c) = Done (limiter_enabled c') /\
  value_double patch "limiter_threshold_db" (limiter_threshold_db c) = Done (limiter_threshold_db c') /\
  (jfind patch "eq_gains_db" = None -> eq_gains_db c' = eq_gains_db c) /\
  settled c' /\ engine_ m' = apply_config c' (engine_ m) /\
  master_from_json (master_to_json c') = Done c'.
Proof.
  intros [Hlen Hcl] Hp Hd c c'.
  pose proof (settled_patch patch m m' Hd) as Hs. fold c' in Hs.
  revert Hd. unfold patch_dsp. rewrite Hp. fold c. destruct (master_from_json _) as [n|] eqn:Hn; [|done].
  intros [= Hm]. destruct (patched_fields c patch n (conj Hlen Hcl) Hp Hn) as (Hb & Hi & Hv & Hl & Ht & He).
  assert (bypass c' = bypass n /\ input_gain_db c' = input_gain_db n /\ master_volume_db c' = master_volume_db n /\
    limiter_enabled c' = limiter_enabled n /\ limiter_threshold_db c' = limiter_threshold_db n /\
    eq_gains_db c' = clampEqGainDb <$> eq_gains_db n /\ engine_ m' = apply_config c' (engine_ m))
    as (-> & -> & -> & -> & -> & Heq & He') by (unfold c'; by rewrite <- Hm).
  split_and!; try done.
  - intros Hno. by rewrite Heq, (He Hno).
  - by apply master_round_trip, Hs.
Qed.

(** A field of another type is not skipped: the reading throws, at start-up as well, where
    the stored configuration is read. *)
Lemma wrong_type_throws (J : JsonLib) (L : JsonLaws J) v what :
  get_bool v = Throw what -> master_from_json (jobj [("bypass", v)]) = Throw what.
Proof.
  intros Hv. unfold master_from_json, value_bool. rewrite is_object_obj. cbn [negb].
  rewrite (value_or_obj get_bool _ "bypass"). cbn [assoc String.eqb Ascii.eqb Bool.eqb]. by rewrite Hv.
Qed.

Lemma patch_changes_what_it_names_witness :
  let m := new_master (M:=flat_libm) (f_of_Z 48000) 2 in
  let patch := JObj [("master_volume_db", JInt (-6)); ("bypass", JBool true)] in
  exists m', patch_dsp (J:=jvalue_lib) (M:=flat_libm) patch m = Done m' /\
    bypass (config_ m') = true /\ master_volume_db (config_ m') = f_of_Z (-6) /\
    limiter_threshold_db (config_ m') = f_of_Z (-1).
Proof.
  intros m patch. eexists. split; [reflexivity|].
  match goal with |- bypass (config_ ?m') = _ /\ _ =>
    destruct (patch_changes_what_it_names jvalue_lib jvalue_laws flat_libm patch m m' settled_flat eq_refl eq_refl)
      as (Hb & _ & Hv & _ & Ht & _) end.
  split_and!; reflexivity.
Defined.
