(* ===== verification/Application.v ===== *)
(** * Application: the speaker's components wired together

    Models [src/src/main/Application.cpp]: the subscriptions that connect the components
    (audio gating, discovery, the live signal processor), the callbacks behind the web
    API, the identify tone, and the order in which services start and stop.  The
    components are those of the other files; what they take from outside - the amplifier's
    hardware, the clock, the hash function, [std::sin], the modules of calibration and
    diagnostics - are arguments. *)

From Stdlib Require Import Ascii.
From S2P Require Import Prelude Core Json Files Config Storage Control Pairing Network.
From S2P Require Import Audio Amplifier StateMachine Web.

(** ** The live settings of the signal processor *)

(** The part of [DspEngine] that follows the configuration. *)
(* [src/src/dsp/DspEngine.h:65-75] DspEngine *)
Record DspSettings := mk_dsp
  { dsp_delay : Z; dsp_gain : spec_float; dsp_phase : bool; dsp_limiter : bool * spec_float }.

(* [src/src/dsp/Delay.h:22-22] Delay::setDelayMs *)
Definition setDelayMs (ms : Z) (d : DspSettings) : DspSettings :=
  mk_dsp (if (ms <? 0)%Z then 0 else ms)%Z (dsp_gain d) (dsp_phase d) (dsp_limiter d).
(* [src/src/dsp/DspEngine.cpp:52-55] DspEngine::setOutputGainDb *)
Definition setOutputGainDb (db : spec_float) (d : DspSettings) : DspSettings :=
  mk_dsp (dsp_delay d) db (dsp_phase d) (dsp_limiter d).
(* [src/src/dsp/DspEngine.h:53-53] DspEngine::setPhaseInvert *)
Definition setPhaseInvert (on : bool) (d : DspSettings) : DspSettings :=
  mk_dsp (dsp_delay d) (dsp_gain d) on (dsp_limiter d).
(* [src/src/dsp/DspEngine.cpp:60-64] DspEngine::setLimiter *)
Definition setLimiter (on : bool) (threshold : spec_float) (d : DspSettings) : DspSettings :=
  mk_dsp (dsp_delay d) (dsp_gain d) (dsp_phase d) (on, threshold).

(** The settings a reported change carries. *)
(* [src/src/main/Application.cpp:331-341] Application::buildServices *)
Definition dsp_event (p : Payload) (d : DspSettings) : DspSettings :=
  let d := match assoc "delay_ms" p with Some (SInt z) => setDelayMs (to_signed 32 z) d | _ => d end in
  let d := match assoc "gain_db" p with
           | Some (SDouble x) => setOutputGainDb x d
           | Some (SInt z) => setOutputGainDb (double_of_Z z) d
           | _ => d end in
  match assoc "phase_invert" p with Some (SBool b) => setPhaseInvert b d | _ => d end.

(** At boot, from the configuration. *)
(* [src/src/main/Application.cpp:592-598] Application::startup *)
Definition startup_dsp (c : SpeakerConfig) (d : DspSettings) : DspSettings :=
  let d := setDelayMs (delay_ms (audio c)) d in
  let d := setLimiter true (double_of_Z (-1)) d in
  let d := setOutputGainDb (gain_db (audio c)) d in
  setPhaseInvert (phase_invert (audio c)) d.

(** ** The application *)

Section Application.
Context {J : JsonLib} {F : FileSystem} {AW : AtomicWriter F} {Cr : Crypto}.
Context {NW NE : Type} {Hal : NetworkHal NW NE}.
(** The amplifier's answers, the hash function, the sine, the device's identity, the
    second at which a request is served, and the texts of the modules left out. *)
Variables (amp_hal : Amplifier.Hal) (sha256Hex : string -> string) (sin : spec_float -> spec_float)
  (device_id_ box_key : string) (now : Z) (calibration_state : string).

(* [src/src/main/Application.h:94-131] Application *)
Record Application := mk_app
  { a_server : Server; a_net : NetworkManager NW; a_amp : AmplifierManager; a_buffer : AudioBuffer;
    a_dsp : DspSettings; a_updates : bool; a_search : option (string * string); a_setup : bool;
    a_system : SystemState; a_streaming : bool }.

Inductive AEffect :=
| AServer (e : XEffect)
| ANetwork (e : NEffect (E := NE))
| AAmplifier (e : Event Payload)
| APublish (e : Event Payload).

Abbreviation AP := (SW Application AEffect).

Definition set_server (s : Server) (a : Application) : Application :=
  mk_app s (a_net a) (a_amp a) (a_buffer a) (a_dsp a) (a_updates a) (a_search a) (a_setup a) (a_system a) (a_streaming a).
Definition set_net (n : NetworkManager NW) (a : Application) : Application :=
  mk_app (a_server a) n (a_amp a) (a_buffer a) (a_dsp a) (a_updates a) (a_search a) (a_setup a) (a_system a) (a_streaming a).
Definition set_amplifier (m : AmplifierManager) (a : Application) : Application :=
  mk_app (a_server a) (a_net a) m (a_buffer a) (a_dsp a) (a_updates a) (a_search a) (a_setup a) (a_system a) (a_streaming a).
Definition set_audio (b : AudioBuffer) (a : Application) : Application :=
  mk_app (a_server a) (a_net a) (a_amp a) b (a_dsp a) (a_updates a) (a_search a) (a_setup a) (a_system a) (a_streaming a).
Definition set_dsp (d : DspSettings) (a : Application) : Application :=
  mk_app (a_server a) (a_net a) (a_amp a) (a_buffer a) d (a_updates a) (a_search a) (a_setup a) (a_system a) (a_streaming a).
Definition set_updates (b : bool) (a : Application) : Application :=
  mk_app (a_server a) (a_net a) (a_amp a) (a_buffer a) (a_dsp a) b (a_search a) (a_setup a) (a_system a) (a_streaming a).
Definition set_search (t : option (string * string)) (a : Application) : Application :=
  mk_app (a_server a) (a_net a) (a_amp a) (a_buffer a) (a_dsp a) (a_updates a) t (a_setup a) (a_system a) (a_streaming a).

Definition cfg (a : Application) : SpeakerConfig := config_ (config_mgr (a_server a)).

Definition on_server {A} (f : SW Server XEffect A) : AP A := zoom a_server set_server AServer f.
Definition on_cfg {A} (f : SW ConfigManager CEffect A) : AP A := on_server (on_config f).
Definition on_net {A} (f : SW (NetworkManager NW) NEffect A) : AP A := zoom a_net set_net ANetwork f.
Definition on_amp {A} (f : SW AmplifierManager (Event Payload) A) : AP A := zoom a_amp set_amplifier AAmplifier f.

Definition a_publish (t : EventType) (src : string) (p : Payload) : AP unit := tell [APublish (event t src p)].

(** *** The identify tone *)

Definition kFramesPerPacket : Z := 480.
Definition tone_packets : nat := 100.

(** 0.005, 0.25 and pi as doubles. *)
Definition kFadeSeconds : spec_float := S754_finite false 5764607523034235 (-60).
Definition kAmplitude : spec_float := S754_finite false 4503599627370496 (-54).
Definition kPi : spec_float := S754_finite false 7074237752028440 (-51).

(* [src/src/main/Application.cpp:673-679] Application::playIdentifyTone *)
Definition tone_sample (i : Z) : Z :=
  let t := fdiv (f_of_Z i) (f_of_Z 48000) in
  let env := if SFltb t kFadeSeconds then fdiv t kFadeSeconds else f_of_Z 1 in
  let remaining := fsub (f_of_Z 1) t in
  let env := if SFltb remaining kFadeSeconds
             then let q := fdiv remaining kFadeSeconds in if SFltb f0 q then q else f0
             else env in
  f_trunc (fmul (fmul (fmul kAmplitude env) (f_of_Z 32767))
                (sin (fmul (fmul (fmul (f_of_Z 2) kPi) (f_of_Z 880)) t))).

(* [src/src/main/Application.cpp:666-683] Application::playIdentifyTone *)
Definition tone_packet (p : nat) : AudioPacket :=
  mk_packet (mk_header 0 (Z.of_nat p) kFramesPerPacket 0)
    (concat ((fun f => let s := tone_sample (Z.of_nat p * kFramesPerPacket + Z.of_nat f) in [s; s])
             <$> seq 0 480)).

(* [src/src/main/Application.cpp:650-688] Application::playIdentifyTone *)
Definition playIdentifyTone : AP ActionResult :=
  a ← get;
  if muted (audio (cfg a)) then mret (false, "speaker is muted"%string)
  else
    a_publish EventType.AudioStarted "identify" [];;
    modify (fun a => set_audio (foldl (fun b p => push (tone_packet p) b) (a_buffer a) (seq 0 tone_packets)) a);;
    mret (true, "playing identify tone"%string).

(** *** The subscriptions *)

(** [data.value(k, "")]; [None] is the exception, which the bus swallows. *)
Definition text_of (p : Payload) (k : string) : option string :=
  match assoc k p with None => Some "" | Some (SStr s) => Some s | Some _ => None end.

(* [src/src/main/Application.cpp:295-308] Application::buildServices *)
Definition drive_discovery (p : Payload) : AP unit :=
  match text_of p "to", text_of p "from" with
  | Some to, Some from =>
      if String.eqb to (SystemState.toString SystemState.SearchingStreamer) then
        a ← get;
        let pr := pairing (cfg a) in
        if String.eqb (streamer_id pr) "" then mret ()
        else modify (set_search (Some (streamer_id pr, streamer_public_key pr)))
      else if String.eqb from (SystemState.toString SystemState.SearchingStreamer) then modify (set_search None)
      else mret ()
  | _, _ => mret ()
  end.

(* [src/src/main/Application.cpp:313-321] Application::buildServices *)
Definition join_on_connecting (p : Payload) : AP unit :=
  match text_of p "to" with
  | Some to =>
      if negb (String.eqb to (SystemState.toString SystemState.ConnectingNetwork)) then mret ()
      else
        a ← get;
        let pr := pairing (cfg a) in
        if negb (paired pr) || String.eqb (streamer_id pr) "" then mret ()
        else on_net (joinStreamerAp sha256Hex (streamer_id pr));; mret ()
  | None => mret ()
  end.

(* [src/src/main/Application.cpp:273-346] Application::buildServices *)
Definition on_event (e : Event Payload) : AP unit :=
  match type e with
  | EventType.CalibrationStarted => modify (set_updates false)
  | EventType.CalibrationCompleted | EventType.CalibrationFailed => modify (set_updates true)
  | EventType.AudioStarted =>
      a ← get;
      if negb (muted (audio (cfg a))) then on_amp (unmute amp_hal);; mret () else mret ()
  | EventType.AudioStopped => on_amp (mute amp_hal);; mret ()
  | EventType.StateChanged => drive_discovery (data e);; join_on_connecting (data e)
  | EventType.CommandExecuted =>
      modify (fun a => set_dsp (dsp_event (data e) (a_dsp a)) a);;
      match text_of (data e) "command" with
      | Some k => if String.eqb k "RUN_AUDIO_TEST" then playIdentifyTone;; mret () else mret ()
      | None => mret ()
      end
  | _ => mret ()
  end.

Fixpoint deliver (l : list (Event Payload)) : AP unit :=
  match l with [] => mret () | e :: l => on_event e;; deliver l end.

(** *** The callbacks of the web API *)

Definition result_of (s : Status) (done : string) : ActionResult :=
  (status_ok s, if status_ok s then done else message s).

Definition with_device_name (n : string) (c : SpeakerConfig) : SpeakerConfig :=
  let d := Config.device c in
  mk_config (schema_version c)
    (mk_device (device_id d) n (serial_number d) (model d) (hardware_version d) (software_version d))
    (pairing c) (network c) (audio c) (system c).
Definition with_wifi_configured (b : bool) (c : SpeakerConfig) : SpeakerConfig :=
  mk_config (schema_version c) (Config.device c) (pairing c) (mk_network b (connection_mode (network c)))
    (audio c) (system c).

(** A setting of the audio section: the value must be present and of its type. *)
Definition web_setting {A} (k : string) (is_T : json -> bool) (get_T : json -> Try A)
    (change : A -> AudioConfig -> AudioConfig) (after : A -> AP unit) (b : json) : AP (Try ActionResult) :=
  match jfind b k with
  | Some v =>
      if is_T v then
        match get_T v with
        | Done x =>
            s ← on_cfg (update (with_audio (change x)));
            when (status_ok s) (after x);;
            mret (Done (result_of s "ok"))
        | Throw what => mret (Throw what)
        end
      else mret (Done (false, "need " +:+ k))
  | None => mret (Done (false, "need " +:+ k))
  end.

(** The modules left out: a calibration run and the diagnostics report. *)
Variables (run_calibration : AP (Try ActionResult)) (diagnostics_report : AP (Try json)).

(* [src/src/main/Application.cpp:407-428] Application::buildApiContext *)
Definition api_status (a : Application) : Try json :=
  let c := cfg a in
  let j := jobj [("device_id", jstr device_id_); ("state", jstr (SystemState.toString (a_system a)));
                 ("software_version", jstr (software_version (Config.device c)));
                 ("volume", jint (volume (audio c))); ("muted", jbool (muted (audio c)));
                 ("eq_profile", jstr (eq_profile (audio c))); ("paired", jbool (paired (pairing c)))] in
  let j := if a_setup a then jset (jset j "setup_mode" (jbool true)) "box_public_key" (jstr box_key) else j in
  Done (if paired (pairing c) then jset j "streamer_id" (jstr (streamer_id (pairing c))) else j).

(* [src/src/main/Application.cpp:430-452] Application::buildApiContext *)
Definition api_network : AP (Try json) :=
  a ← get;
  let n := a_net a in
  let j := jobj [("connected", jbool (connected_ n)); ("ip", jstr (ip_ n)); ("mode", jstr (mode_ n))] in
  let link := link_state_ (a_server a) in
  mret (Done (if valid link then
    jset j "streamer_link"
      (jobj [("wifi_signal_dbm", jint (wifi_signal_dbm link)); ("streamer_id", jstr (s_streamer_id link));
             ("reported_at", jint (reported_at link)); ("fresh", jbool (now - reported_at link <=? 10)%Z)])
  else j)).

(* [src/src/main/Application.cpp:453-459] Application::buildApiContext *)
Definition api_audio : AP (Try json) :=
  a ← get;
  let c := audio (cfg a) in
  mret (Done (jobj [("volume", jint (volume c)); ("muted", jbool (muted c));
                    ("delay_ms", jint (delay_ms c)); ("eq_profile", jstr (eq_profile c))])).

(* [src/src/main/Application.cpp:460-464] Application::buildApiContext *)
Definition api_hardware : AP (Try json) :=
  a ← get;
  mret (Done (jobj [("amplifier", jstr (amp_toString (amp_state_ (a_amp a))));
                    ("calibration", jstr calibration_state); ("audio_streaming", jbool (a_streaming a))])).

(* [src/src/main/Application.cpp:531-540] Application::buildApiContext *)
Definition api_scan : AP (Try json) :=
  r ← on_net (on_hal scanWifi);
  let l := match r with
           | Value l => (fun n => jobj [("ssid", jstr (wn_ssid n)); ("signal_dbm", jint (signal_dbm n))]) <$> l
           | Failure _ => []
           end in
  mret (Done (jobj [("networks", jarr l)])).

(* [src/src/main/Application.cpp:473-477] Application::buildApiContext *)
Definition api_volume : json -> AP (Try ActionResult) :=
  web_setting "volume" is_number_integer get_int with_volume (fun _ => mret ()).
(* [src/src/main/Application.cpp:478-482] Application::buildApiContext *)
Definition api_mute : json -> AP (Try ActionResult) :=
  web_setting "muted" is_boolean get_bool with_muted (fun _ => mret ()).
(* [src/src/main/Application.cpp:483-488] Application::buildApiContext *)
Definition api_delay : json -> AP (Try ActionResult) :=
  web_setting "delay_ms" is_number_integer get_int with_delay
    (fun d => modify (fun a => set_dsp (setDelayMs d (a_dsp a)) a)).

(** A change of the configuration that answers with its status. *)
Definition web_update (f : SpeakerConfig -> SpeakerConfig) (done : string) : AP (Try ActionResult) :=
  s ← on_cfg (update f); mret (Done (result_of s done)).

Definition lift_try {A B} (m : Try A) (k : A -> AP (Try B)) : AP (Try B) :=
  match m with Done a => k a | Throw what => mret (Throw what) end.

(* [src/src/main/Application.cpp:489-493] Application::buildApiContext *)
Definition api_eq (b : json) : AP (Try ActionResult) :=
  lift_try (value_string b "eq_profile" "default") (fun p => web_update (with_audio (with_eq p)) "ok").

(* [src/src/main/Application.cpp:515-518] Application::buildApiContext *)
Definition api_reboot : AP (Try ActionResult) :=
  a_publish EventType.ShutdownRequested "web" [];; mret (Done (true, "rebooting"%string)).
(* [src/src/main/Application.cpp:519-519] Application::buildApiContext *)
Definition api_update : AP (Try ActionResult) := mret (Done (true, "update queued"%string)).
(* [src/src/main/Application.cpp:520-525] Application::buildApiContext *)
Definition api_reset_network : AP (Try ActionResult) := web_update (with_wifi_configured false) "network reset".
(* [src/src/main/Application.cpp:526-529] Application::buildApiContext *)
Definition api_factory_reset : AP (Try ActionResult) :=
  s ← on_cfg resetToDefaults; mret (Done (result_of s "factory reset (identity preserved)")).

(* [src/src/main/Application.cpp:544-551] Application::buildApiContext *)
Definition connect_params (b : json) : Try WifiConnectParams :=
  ssid ← value_string b "ssid" "";
  psk ← value_string b "psk" "";
  hidden ← value_bool b "hidden" false;
  band ← value_string b "band" "";
  static_ip ← value_string b "static_ip" "";
  gateway ← value_string b "gateway" "";
  dns ← value_string b "dns" "";
  mret (mk_connect ssid psk hidden band static_ip gateway dns).

(* [src/src/main/Application.cpp:543-564] Application::buildApiContext *)
Definition api_connect (b : json) : AP (Try ActionResult) :=
  lift_try (connect_params b) (fun p =>
    if String.eqb (c_ssid p) "" then mret (Done (false, "ssid required"%string))
    else if negb (String.eqb (c_band p) "") && negb (String.eqb (c_band p) "bg") && negb (String.eqb (c_band p) "a")
    then mret (Done (false, "band must be bg or a"%string))
    else
      s ← on_net (connectWifi p);
      when (status_ok s) (on_cfg (update (with_wifi_configured true));; mret ());;
      mret (Done (result_of s ("connecting to " +:+ c_ssid p)))).

(* [src/src/main/Application.cpp:566-571] Application::buildApiContext *)
Definition api_name (b : json) : AP (Try ActionResult) :=
  lift_try (value_string b "name" "") (fun n =>
    if String.eqb n "" then mret (Done (false, "name required"%string))
    else web_update (with_device_name n) "name set").

(* [src/src/main/Application.cpp:405-573] Application::buildApiContext *)
Definition buildApiContext : ApiContext Application AEffect :=
  mk_context (Some api_status) (Some diagnostics_report) (Some api_network) (Some api_audio) (Some api_hardware)
    (Some (mret (Done (jobj [("state", jstr calibration_state)]))))
    (Some (a ← get; mret (Done (jobj [("eq_profile", jstr (eq_profile (audio (cfg a))))]))))
    (Some api_scan) None
    (Some api_volume) (Some api_mute) (Some api_eq) (Some api_delay)
    (Some (r ← playIdentifyTone; mret (Done r))) (Some run_calibration)
    (Some api_reboot) (Some api_update) (Some api_reset_network) (Some api_factory_reset)
    (Some api_connect) (Some api_name).

(** The token of the device, once its identity is known. *)
(* [src/src/main/Application.cpp:589-589] Application::startup *)
Definition web_token : string := "nexus-" +:+ device_id_.

Definition web_server : WebServer := mk_server (mk_auth web_token) buildApiContext ServiceState.Running.
End Application.

(** ** Starting and stopping *)

Section Lifecycle.
(** What [start] answers, and whether the service is the configuration or the identity. *)
Variables (start_of : nat -> Status) (critical : nat -> bool) (name_of : nat -> string).

(* [src/src/main/Application.h:127-131] Application *)
Record Lifecycle := mk_lifecycle { started_ : list nat; stopped_ : bool }.

Inductive LEffect := LStart (svc : nat) | LStop (svc : nat) | LBusStop.

(* [src/src/main/Application.cpp:728-743] Application::shutdown *)
Definition shutdown : SW Lifecycle LEffect unit :=
  l ← get;
  if stopped_ l then mret ()
  else
    modify (fun l => mk_lifecycle (started_ l) true);;
    tell (LStop <$> reverse (started_ l));;
    modify (fun l => mk_lifecycle [] (stopped_ l));;
    tell [LBusStop].

(* [src/src/main/Application.cpp:690-710] Application::startInOrder *)
Fixpoint startInOrder (ordered : list nat) : SW Lifecycle LEffect Status :=
  match ordered with
  | [] => mret success
  | svc :: rest =>
      tell [LStart svc];;
      if status_ok (start_of svc) then
        modify (fun l => mk_lifecycle (started_ l ++ [svc]) (stopped_ l));; startInOrder rest
      else if critical svc then
        shutdown;; mret (error ErrorCode.ServiceStartFailed (name_of svc))
      else
        modify (fun l => mk_lifecycle (started_ l ++ [svc]) (stopped_ l));; startInOrder rest
  end.

(** The services started before the first critical one that fails, and that one. *)
Fixpoint boots (ordered : list nat) : list nat * option nat :=
  match ordered with
  | [] => ([], None)
  | svc :: rest =>
      if negb (status_ok (start_of svc)) && critical svc then ([], Some svc)
      else let r := boots rest in (svc :: r.1, r.2)
  end.

Lemma startInOrder_run ordered l :
  stopped_ l = false ->
  startInOrder ordered l =
    (match (boots ordered).2 with
     | None => (success, mk_lifecycle (started_ l ++ ordered) false, LStart <$> ordered)
     | Some svc =>
         (error ErrorCode.ServiceStartFailed (name_of svc), mk_lifecycle [] true,
          (LStart <$> (boots ordered).1 ++ [svc]) ++
          (LStop <$> reverse (started_ l ++ (boots ordered).1)) ++ [LBusStop])
     end) /\
  ((boots ordered).2 = None -> (boots ordered).1 = ordered).
Proof.
  revert l. induction ordered as [|svc rest IH]; intros [st sp] Hs; cbn [stopped_] in Hs; subst sp.
  { cbn. by rewrite app_nil_r. }
  cbn [startInOrder boots].
  destruct (negb (status_ok (start_of svc)) && critical svc) eqn:Hf.
  - apply andb_true_iff in Hf as [Hs Hc]. apply negb_true_iff in Hs. rewrite Hs, Hc.
    split; [|done]. cbn [fst snd]. rewrite !app_nil_r.
    unfold shutdown, mbind, SW_bind, get, tell, modify, mret, SW_ret. cbn. by rewrite !app_nil_r.
  - assert (forall k, (if status_ok (start_of svc) then k else
      (if critical svc then shutdown;; mret (error ErrorCode.ServiceStartFailed (name_of svc)) else k)) = k) as ->.
    { intros k. revert Hf. by destruct (status_ok (start_of svc)), (critical svc). }
    destruct (IH (mk_lifecycle (st ++ [svc]) false) eq_refl) as [IH1 IH2]. cbn [started_] in IH1.
    unfold mbind, SW_bind, tell, modify. cbn [started_ stopped_]. rewrite IH1.
    destruct (boots rest) as [b [bad|]]; cbn [fst snd] in *.
    + split; [|done]. by rewrite <- app_assoc.
    + rewrite IH2 by done. split; [|done]. by rewrite <- app_assoc.
Qed.
End Lifecycle.

(** ** Properties *)

Section LifecycleProofs.
Variables (start_of : nat -> Status) (critical : nat -> bool) (name_of : nat -> string).

Definition fatal (svc : nat) : bool := negb (status_ok (start_of svc)) && critical svc.

Lemma boots_spec ordered :
  let b := boots start_of critical ordered in
  exists rest, ordered = b.1 ++ option_list b.2 ++ rest /\ Forall (fun x => fatal x = false) b.1 /\
    Forall (fun x => fatal x = true) (option_list b.2) /\ (b.2 = None -> rest = []).
Proof.
  cbv zeta. induction ordered as [|svc ordered (rest & He & H1 & H2 & H3)]; [by exists []|].
  cbn [boots]. fold (fatal svc). destruct (fatal svc) eqn:Hf; cbn [fst snd].
  - exists ordered. split_and!; [done|constructor|by constructor|done].
  - exists rest. split_and!; [by rewrite He at 1|by constructor|done|done].
Qed.

(** Services start in order and stop in reverse, each exactly once.  The boot starts
    the services in the given order up to the first failure of a critical one; that failure
    is the only thing that fails the boot.  Then, at the failure or at the shutdown,
    whichever is first and however often it is repeated, exactly the services that were
    started are stopped, in reverse order, and then the bus. *)
Theorem services_stop_in_reverse ordered :
  exists live failed rest,
    ordered = live ++ option_list failed ++ rest /\
    Forall (fun x => fatal x = false) live /\ Forall (fun x => fatal x = true) (option_list failed) /\
    (failed = None -> rest = []) /\
    let m := s ← startInOrder start_of critical name_of ordered; shutdown;; shutdown;; mret s in
    effects_of m (mk_lifecycle [] false) =
      (LStart <$> live ++ option_list failed) ++ (LStop <$> reverse live) ++ [LBusStop] /\
    value_of m (mk_lifecycle [] false) =
      match failed with
      | None => success
      | Some svc => error ErrorCode.ServiceStartFailed (name_of svc)
      end.
Proof.
  destruct (boots_spec ordered) as (rest & He & H1 & H2 & H3).
  exists (boots start_of critical ordered).1, (boots start_of critical ordered).2, rest.
  split_and!; [done..|]. cbv zeta.
  destruct (startInOrder_run start_of critical name_of ordered (mk_lifecycle [] false) eq_refl) as [Hr Hl].
  unfold effects_of, value_of, mbind, SW_bind. rewrite Hr.
  destruct (boots start_of critical ordered) as [live [svc|]]; cbn [fst snd option_list] in *.
  - unfold shutdown, mbind, SW_bind, get, mret, SW_ret. cbn. by rewrite !app_nil_r.
  - rewrite Hl by done.
    unfold shutdown, mbind, SW_bind, get, tell, modify, mret, SW_ret. cbn. by rewrite !app_nil_r.
Qed.
End LifecycleProofs.

Section DspProofs.
Context {J : JsonLib} {L : JsonLaws J} {F : FileSystem} {FL : FileSystemLaws F} {AW : AtomicWriter F} {Cr : Crypto}.
Context {NW NE : Type} {Hal : NetworkHal NW NE}.
Variables (amp_hal : Amplifier.Hal) (sha256Hex : string -> string) (sin : spec_float -> spec_float)
  (device_id_ box_key : string) (now : Z) (calibration_state : string).

Abbreviation App := (Application (NW := NW)).
Abbreviation AP := (SW App (AEffect (NE := NE))).

(** The live settings are those of the configuration, and commands are announced. *)
Definition in_step (a : App) : Prop :=
  dsp_delay (a_dsp a) = delay_ms (audio (cfg a)) /\ dsp_gain (a_dsp a) = gain_db (audio (cfg a)) /\
  dsp_phase (a_dsp a) = phase_invert (audio (cfg a)) /\
  bus_ (a_server a) = true.

Abbreviation K := (keeps in_step).

(** A change that leaves the live settings alone. *)
Definition same_settings (c c' : SpeakerConfig) : Prop :=
  delay_ms (audio c') = delay_ms (audio c) /\ gain_db (audio c') = gain_db (audio c) /\
  phase_invert (audio c') = phase_invert (audio c).

Lemma keep_ret {A} (x : A) : respects K (mret x : AP A).
Proof. intros a H. exact H. Qed.

Lemma keep_get : respects K (get : AP App).
Proof. intros a H. exact H. Qed.

Lemma keep_bind {A B} (m : AP A) (f : A -> AP B) :
  respects K m -> (forall x, respects K (f x)) -> respects K (mbind f m).
Proof. intros Hm Hf. apply respects_bind; [exact _|done..]. Qed.

Lemma keep_net {A} (f : SW (NetworkManager NW) (NEffect (E := NE)) A) : respects K (on_net f : AP A).
Proof. intros a H. exact H. Qed.

Lemma keep_amp {A} (f : SW AmplifierManager (Event Payload) A) : respects K (on_amp f : AP A).
Proof. intros a H. exact H. Qed.

Lemma keep_tell es : respects K (tell es : AP unit).
Proof. intros a H. exact H. Qed.

Lemma keep_update f :
  (forall c, same_settings c (f c)) -> respects K (on_cfg (update f) : AP Status).
Proof.
  intros Hf a (H1 & H2 & H3 & H4). unfold in_step, cfg.
  change (config_mgr (a_server (state_after (on_cfg (update f)) a)))
    with (state_after (update f) (config_mgr (a_server a))).
  change (a_dsp (state_after (on_cfg (update f) : AP Status) a)) with (a_dsp a).
  change (bus_ (a_server (state_after (on_cfg (update f) : AP Status) a))) with (bus_ (a_server a)).
  destruct (update_memory f (config_mgr (a_server a))) as (Hc & _). rewrite Hc.
  destruct (status_ok _); [|done]. destruct (Hf (config_ (config_mgr (a_server a)))) as (-> & -> & ->). done.
Qed.

Lemma keep_modify f : (forall a : App, a_dsp (f a) = a_dsp a /\ a_server (f a) = a_server a) ->
  respects K (modify f : AP unit).
Proof.
  intros Hf a H. unfold in_step, cfg in *. cbn. destruct (Hf a) as [-> ->]. exact H.
Qed.

Create HintDb live.
Hint Resolve keep_ret keep_get keep_net keep_amp keep_tell keep_update keep_modify : live.

(** Walk through a run whose every step keeps the settings. *)
Ltac keep :=
  repeat first
    [ apply keep_bind; intros | solve [auto with live]
    | match goal with |- respects _ (match ?x with _ => _ end) => destruct x end
    | match goal with |- respects _ (if ?x then _ else _) => destruct x end ].

Lemma keep_tone : respects K (playIdentifyTone sin : AP ActionResult).
Proof. unfold playIdentifyTone, a_publish. keep. Qed.

(** An event that carries no setting. *)
Definition inert (e : Event Payload) : Prop :=
  type e = EventType.CommandExecuted ->
  assoc "delay_ms" (data e) = None /\ assoc "gain_db" (data e) = None /\ assoc "phase_invert" (data e) = None.

Lemma inert_dsp e d : inert e -> type e = EventType.CommandExecuted -> dsp_event (data e) d = d.
Proof. intros He Ht. destruct (He Ht) as (H1 & H2 & H3). unfold dsp_event. by rewrite H1, H2, H3. Qed.

(** What follows the update of the settings at an event. *)
Lemma keep_after_dsp (p : Payload) :
  respects K (match text_of p "command" with
              | Some k => if String.eqb k "RUN_AUDIO_TEST" then playIdentifyTone sin;; mret () else mret ()
              | None => mret () end : AP unit).
Proof. pose proof keep_tone. keep. Qed.

Lemma keep_event e : inert e -> respects K (on_event amp_hal sha256Hex sin e : AP unit).
Proof.
  intros He. unfold on_event. destruct (type e) eqn:Ht;
    try (unfold drive_discovery, join_on_connecting; cbv zeta; keep; fail).
  apply keep_bind; [|intros _; apply keep_after_dsp].
  intros a H. unfold in_step, cfg in *. cbn. by rewrite (inert_dsp e (a_dsp a) He Ht).
Qed.

Lemma keep_deliver l : Forall inert l -> respects K (deliver amp_hal sha256Hex sin l : AP unit).
Proof.
  induction 1 as [|e l He _ IH]; [apply keep_ret|].
  apply keep_bind; [by apply keep_event|by intros _].
Qed.

(** *** The web API *)

Variables (run_calibration : SW App (AEffect (NE := NE)) (Try ActionResult))
  (diagnostics_report : SW App (AEffect (NE := NE)) (Try json)).
(** The two modules that are arguments here keep the settings in step; [Sound] shows it of
    the calibration and of the diagnostics. *)
Hypothesis Hcal : respects K run_calibration.
Hypothesis Hdiag : respects K diagnostics_report.

Lemma keep_setting {A} k is_T (get_T : json -> Try A) change b :
  (forall x c, same_settings c (with_audio (change x) c)) ->
  respects K (web_setting k is_T get_T change (fun _ => mret ()) b : AP (Try ActionResult)).
Proof.
  intros Hc. unfold web_setting, when. pose proof (fun x => keep_update _ (Hc x)). keep.
Qed.

Lemma keep_web_update f done :
  (forall c, same_settings c (f c)) -> respects K (web_update f done : AP (Try ActionResult)).
Proof. intros Hf. pose proof (keep_update _ Hf). unfold web_update. keep. Qed.

(** The delay is set in both places. *)
Lemma keep_delay b : respects K (api_delay b : AP (Try ActionResult)).
Proof.
  unfold api_delay, web_setting. destruct (jfind b "delay_ms") as [v|]; [|apply keep_ret].
  destruct (is_number_integer v); [|apply keep_ret]. destruct (get_int v) as [d|]; [|apply keep_ret].
  intros a (H1 & H2 & H3 & H4). rewrite state_after_bind.
  change (value_of (on_cfg (update (with_audio (with_delay d)))) a)
    with (value_of (update (with_audio (with_delay d))) (config_mgr (a_server a))).
  set (a1 := state_after (on_cfg (update (with_audio (with_delay d))) : AP Status) a).
  destruct (update_memory (with_audio (with_delay d)) (config_mgr (a_server a))) as (Hc & _ & _ & Hok & _).
  assert (cfg a1 = config_ (state_after (update (with_audio (with_delay d))) (config_mgr (a_server a)))) as Ha by done.
  rewrite Hc in Ha. set (r := value_of _ _) in *. destruct (status_ok r) eqn:Hr; cbn [when]; rewrite state_after_bind.
  - destruct (Hok eq_refl) as [Hv _]. apply validate_well_formed in Hv as (_ & _ & Hd & _).
    unfold in_step. change (cfg (state_after (mret ?x) (state_after (modify ?f) a1))) with (cfg a1).
    rewrite Ha. cbn. split_and!; [|exact H2|exact H3|exact H4].
    destruct (Z.ltb_spec d 0); [cbn in Hd; lia|done].
  - unfold in_step. change (cfg (state_after (mret ?x) (state_after (mret tt) a1))) with (cfg a1).
    rewrite Ha. by split_and!.
Qed.

Lemma keep_eq b : respects K (api_eq b : AP (Try ActionResult)).
Proof.
  unfold api_eq, lift_try. destruct (value_string _ _ _); [|apply keep_ret].
  apply keep_web_update. repeat split.
Qed.

Lemma keep_name b : respects K (api_name b : AP (Try ActionResult)).
Proof.
  unfold api_name, lift_try. destruct (value_string _ _ _) as [n|]; [|apply keep_ret]. cbv beta.
  destruct (String.eqb n ""); [apply keep_ret|]. apply keep_web_update. repeat split.
Qed.

Lemma keep_connect b : respects K (api_connect b : AP (Try ActionResult)).
Proof.
  unfold api_connect, lift_try, when.
  assert (respects K (on_cfg (update (with_wifi_configured true)) : AP Status)) by (apply keep_update; by intros).
  keep.
Qed.

(** The requests that bypass the settings: the reset to the defaults. *)
Definition settled (q : HttpRequest) : Prop := path q <> "/api/system/factory-reset".

Abbreviation served := (handle (J := J) (W := App) (E := AEffect (NE := NE))).
Abbreviation server :=
  (web_server sin device_id_ box_key now calibration_state run_calibration diagnostics_report).

Lemma keep_reply {B} f (m : AP (Try B)) : respects K m -> respects K (reply_with f (Some m) : AP (Try HttpResponse)).
Proof. intros Hm. unfold reply_with, answer. keep. Qed.

Lemma keep_http setup_text index_text logo getenv q :
  settled q -> respects K (served setup_text index_text logo getenv server q).
Proof.
  unfold settled. intros Hf. unfold handle. apply keep_bind; [apply keep_get|].
  intros w. cbv zeta.
  repeat match goal with |- respects _ (if ?x then mret _ else _) => destruct x; [apply keep_ret|] end.
  destruct (under "/api" (path q)); [|keep]. unfold route.
  destruct (String.eqb (method q) "GET").
  - unfold handleGet.
    repeat match goal with |- respects _ (if ?x then _ else _) => destruct x eqn:?;
      [first [match goal with H : String.eqb _ _ = true |- _ => apply String.eqb_eq in H; congruence end
             | apply keep_reply; unfold api_network, api_audio, api_hardware, api_scan; keep
             | apply keep_ret]|] end; apply keep_ret.
  - destruct (String.eqb (method q) "POST"); [|apply keep_ret]. unfold handlePost.
    apply keep_bind; [apply keep_get|]. intros w'.
    destruct (negb _ && negb _); [apply keep_ret|].
    destruct (if String.eqb (body q) "" then _ else _) as [b|]; [|apply keep_ret].
    pose proof keep_tone. unfold run_action.
    repeat match goal with |- respects _ (if ?x then _ else _) => destruct x eqn:?; [|] end;
      try (match goal with H : String.eqb _ _ = true |- _ => apply String.eqb_eq in H; congruence end);
      try apply keep_ret; apply keep_reply.
    all: first [ apply keep_delay
               | apply keep_setting; repeat split
               | apply keep_web_update; repeat split
               | apply keep_eq | apply keep_name
               | solve [unfold api_reboot, api_update, a_publish; keep]
               | apply keep_connect | exact Hcal ].
Qed.

(** *** Commands *)

(** A run of the server that changes no configuration and announces no setting. *)
Definition quiet (s : Server) (es : list XEffect) (s' : Server) : Prop :=
  config_mgr s' = config_mgr s /\ bus_ s' = bus_ s /\ Forall inert (events es).

#[local] Instance quiet_run : RunRel quiet.
Proof.
  split; unfold quiet; [by intros|]. intros s1 e1 s2 e2 s3 (? & ? & ?) (? & ? & ?).
  rewrite events_app. split_and!; [congruence..|by apply Forall_app].
Qed.

Abbreviation X := (SW Server XEffect).

Lemma quiet_ret {A} (x : A) : respects quiet (mret x : X A).
Proof. apply respects_ret. exact _. Qed.

Lemma quiet_get : respects quiet (get : X Server).
Proof. apply respects_get. exact _. Qed.

Lemma quiet_bind {A B} (m : X A) (f : A -> X B) :
  respects quiet m -> (forall x, respects quiet (f x)) -> respects quiet (mbind f m).
Proof. intros Hm Hf. apply respects_bind; [exact _|done..]. Qed.

Lemma quiet_publish e : inert e -> respects quiet (publish e).
Proof.
  intros He s. unfold state_after, effects_of. rewrite publish_run. split_and!; [done..|].
  destruct (bus_ s); [by constructor|constructor].
Qed.

Lemma quiet_emit c : respects quiet (emit_executed c []).
Proof. apply quiet_publish. intros _. done. Qed.

Lemma quiet_try {A B} (m : Try A) (k : A -> X (Try B)) :
  (forall a, respects quiet (k a)) -> respects quiet (try_ m k).
Proof. intros Hk. destruct m; [apply Hk|apply quiet_ret]. Qed.

Lemma quiet_required {A} c k is_T (get_T : json -> Try A) msg cont :
  field c k is_T get_T = None -> respects quiet (required c k is_T get_T msg cont).
Proof.
  unfold field, required. intros H. destruct (jfind (c_payload c) k) as [v|]; [|apply quiet_ret].
  cbn [mbind option_bind] in H. destruct (is_T v); [|apply quiet_ret]. destruct (get_T v); [done|apply quiet_ret].
Qed.

(** A command that changes no setting. *)
Lemma execute_quiet env c : setting c = None -> respects quiet (execute env c).
Proof.
  intros Hs. unfold setting in Hs. unfold execute.
  apply quiet_bind; [by intros s; split_and!|]. intros _.
  apply quiet_bind; [apply quiet_publish; by intros|]. intros _.
  destruct (verb_of (c_command c)) as [[]|];
    try (destruct (field _ _ _ _) eqn:E in Hs; [done|]; by apply quiet_required);
    try (apply quiet_bind; [apply quiet_emit|intros _]); try apply quiet_ret.
  - apply quiet_bind; [apply quiet_get|intros s; apply quiet_ret].
  - destruct (value_string _ _ _); [done|apply quiet_ret].
  - unfold run_measurement. destruct (measurement_ env) as [runner|]; [|apply quiet_ret].
    apply quiet_bind; [by intros s; split_and!|]. intros _. apply quiet_try. intros r.
    apply quiet_bind; [apply quiet_emit|intros _; apply quiet_ret].
  - apply quiet_bind; [apply quiet_publish; by intros|intros _; apply quiet_ret].
  - unfold report_link. destruct (jfind _ _) as [v|]; [|apply quiet_ret].
    destruct (is_number_integer v); [|apply quiet_ret].
    apply quiet_try. intros dbm. apply quiet_try. intros sid.
    apply quiet_bind; [by intros s; split_and!|intros _; apply quiet_ret].
Qed.

(** A signed command arrives and the events it publishes are delivered. *)
Definition command (env : Env) (time : Z) (raw key : string) : AP unit :=
  a ← get;
  on_server (Control.handle env time raw device_id_ key);;
  deliver amp_hal sha256Hex sin (events (effects_of (Control.handle env time raw device_id_ key) (a_server a))).

(** What the settings commands write is what their announcement carries. *)
Lemma setting_announced c f k v :
  setting c = Some (f, k, v) ->
  forall a d, (0 <= delay_ms (f a))%Z -> dsp_delay d = delay_ms a -> dsp_gain d = gain_db a ->
    dsp_phase d = phase_invert a ->
  let d' := dsp_event (set_key k v [("command", SStr (c_command c))]) d in
  dsp_delay d' = delay_ms (f a) /\ dsp_gain d' = gain_db (f a) /\ dsp_phase d' = phase_invert (f a).
Proof.
  unfold setting. intros Hs a d Hd H1 H2 H3.
  destruct (verb_of (c_command c)) as [[]|]; try done;
    try (match type of Hs with context [field ?c ?k ?T ?g] => destruct (field c k T g) as [x|] eqn:Hf; [|done] end;
         injection Hs as <- <- <-; cbn; try done).
  - destruct (value_string _ _ _); [|done]. injection Hs as <- <- <-. by cbn.
  - unfold field in Hf. destruct (jfind _ _) as [j|]; [|done]. cbn in Hf.
    destruct (is_number_integer j); [|done]. destruct (get_int j) as [z|] eqn:Hz; [|done].
    injection Hf as ->. apply get_int_range in Hz.
    change (let d' := setDelayMs (to_signed 32 x) d in
            dsp_delay d' = x /\ dsp_gain d' = gain_db a /\ dsp_phase d' = phase_invert a).
    rewrite to_signed_small by done. cbn in Hd |- *. destruct (Z.ltb_spec x 0); [lia|done].
Qed.

Lemma keep_command env time raw key : respects K (command env time raw key).
Proof.
  intros a Ha. unfold command. rewrite state_after_bind.
  change (value_of get a) with a. change (state_after get a) with a. cbv beta. rewrite state_after_bind.
  set (s := a_server a). set (h := Control.handle env time raw device_id_ key).
  change (state_after (on_server h : AP _) a) with (set_server (state_after h s) a).
  change (value_of (on_server h : AP _) a) with (value_of h s).
  destruct (accepted time raw device_id_ key s) as [c|] eqn:Hacc.
  2: { destruct (handle_refused env time raw device_id_ key s Hacc) as [r Hr].
       unfold h, state_after at 2, effects_of. rewrite Hr. cbn.
       unfold s. by destruct a. }
  pose proof (handle_accepted env time raw device_id_ key s c Hacc) as Hh. cbv zeta in Hh. fold h in Hh.
  assert (config_mgr (state_after h s) = config_mgr (state_after (execute env c) s) /\
          bus_ (state_after h s) = bus_ (state_after (execute env c) s)) as [Hm Hb].
  { unfold state_after at 1 3. rewrite Hh. cbn. unfold remember.
    destruct (value_of (execute env c) s); [|done]. by destruct (String.eqb _ _). }
  assert (effects_of h s = effects_of (execute env c) s) as -> by (unfold effects_of at 1; by rewrite Hh).
  destruct Ha as (H1 & H2 & H3 & H4).
  destruct (setting c) as [[[f k] v]|] eqn:Hset.
  - rewrite (execute_setting _ _ _ _ _ Hset) in Hm, Hb |- *.
    revert Hm Hb. unfold state_after at 2 4, effects_of. unfold mbind at 1 2 3, SW_bind at 1 2 3, tell.
    unfold mbind, SW_bind. rewrite publish_run, apply_setting_run. cbv zeta. fold s in H4. rewrite H4.
    destruct (update_memory (with_audio f) (config_mgr s)) as (Hc & _ & _ & Hok & Hpub).
    unfold state_after, value_of, effects_of in Hc, Hok, Hpub.
    destruct (update (with_audio f) (config_mgr s)) as [[r m1] es]. cbn [fst snd] in *.
    set (a1 := set_server (state_after h s) a).
    destruct (status_ok r) eqn:Hr; cbn [fst snd config_mgr bus_ set_mgr]; intros Hm Hb.
    + destruct (Hok eq_refl) as [Hv _]. apply validate_well_formed in Hv as (_ & _ & Hd & _).
      assert (cfg a1 = with_audio f (cfg a)) as Hcfg by (unfold a1, cfg; cbn; by rewrite Hm, Hc).
      rewrite !events_app, events_config, Hpub.
      replace (state_after _ a1) with
        (state_after (on_event amp_hal sha256Hex sin
           (mk_event EventType.CommandExecuted "control" (c_command_id c)
              (set_key k v [("command"%string, SStr (c_command c))])) : AP unit) a1).
      2: { destruct (Config.has_bus (config_mgr s)); cbn [andb events omap list_omap app deliver];
             by rewrite !state_after_bind. }
      unfold on_event. cbn [type data]. rewrite state_after_bind. apply keep_after_dsp.
      destruct (setting_announced c f k v Hset (audio (cfg a)) (a_dsp a) Hd H1 H2 H3) as (D1 & D2 & D3).
      unfold in_step. change (cfg (state_after (modify ?g : AP unit) a1)) with (cfg a1). rewrite Hcfg.
      split_and!; [exact D1|exact D2|exact D3|]. cbn. by rewrite Hb.
    + apply keep_deliver.
      * rewrite !events_app, events_config, Hpub. by repeat constructor.
      * unfold in_step, a1, cfg. cbn. rewrite Hm, Hc, Hb. by split_and!.
  - destruct (execute_quiet env c Hset s) as (Q1 & Q2 & Q3). apply keep_deliver; [exact Q3|].
    unfold in_step, cfg. cbn. rewrite Hm, Hb, Q1, Q2. by split_and!.
Qed.

(** *** What may happen to a running speaker *)

Inductive Input :=
| ICommand (env : Env) (time : Z) (raw key : string)
| IHttp (q : HttpRequest)
| IEvent (e : Event Payload).

Section Inputs.
Variables (setup_text index_text logo : string) (getenv : string -> option string).

Definition take (i : Input) : AP unit :=
  match i with
  | ICommand env time raw key => command env time raw key
  | IHttp q => served setup_text index_text logo getenv server q;; mret ()
  | IEvent e => on_event amp_hal sha256Hex sin e
  end.

Fixpoint take_all (l : list Input) : AP unit :=
  match l with [] => mret () | i :: l => take i;; take_all l end.

(** Requests outside [settled] and foreign announcements of settings are not covered. *)
Definition covered (i : Input) : Prop :=
  match i with ICommand _ _ _ _ => True | IHttp q => settled q | IEvent e => inert e end.

Lemma keep_inputs l : Forall covered l -> respects K (take_all l).
Proof.
  induction 1 as [|i l Hi _ IH]; [apply keep_ret|]. apply keep_bind; [|by intros _].
  destruct i as [env time raw key|q|e]; [apply keep_command| |by apply keep_event].
  apply keep_bind; [by apply keep_http|]. intros _. apply keep_ret.
Qed.

(** The settings applied at boot are in step with the configuration, and stay so. *)
Lemma in_step_after a l :
  is_valid (cfg a) = true -> bus_ (a_server a) = true -> Forall covered l ->
  in_step (state_after (take_all l) (set_dsp (startup_dsp (cfg a) (a_dsp a)) a)).
Proof.
  intros Hv Hb Hl. apply (keep_inputs l Hl). unfold in_step.
  change (cfg (set_dsp ?d a)) with (cfg a). apply validate_well_formed in Hv as (_ & _ & Hd & _).
  cbn. split_and!; [|done..]. destruct (Z.ltb_spec (delay_ms (audio (cfg a))) 0); [lia|done].
Qed.

(** *** Settings over the web *)

Inductive WebSetting := WVolume (v : Z) | WMute (b : bool) | WDelay (d : Z) | WEq (p : string) | WName (n : string).

Definition web_path (w : WebSetting) : string :=
  match w with
  | WVolume _ => "/api/audio/volume" | WMute _ => "/api/audio/mute" | WDelay _ => "/api/audio/delay"
  | WEq _ => "/api/audio/eq" | WName _ => "/api/device/name"
  end.

Definition web_body (w : WebSetting) : json :=
  match w with
  | WVolume v => jobj [("volume", jint v)] | WMute b => jobj [("muted", jbool b)]
  | WDelay d => jobj [("delay_ms", jint d)] | WEq p => jobj [("eq_profile", jstr p)]
  | WName n => jobj [("name", jstr n)]
  end.

Definition web_change (w : WebSetting) : SpeakerConfig -> SpeakerConfig :=
  match w with
  | WVolume v => with_audio (with_volume v) | WMute b => with_audio (with_muted b)
  | WDelay d => with_audio (with_delay d) | WEq p => with_audio (with_eq p)
  | WName n => with_device_name n
  end.

(** A value its type can hold. *)
Definition web_value_ok (w : WebSetting) : Prop :=
  match w with WVolume z | WDelay z => in_signed 32 z | WName n => n <> "" | _ => True end.

Definition web_post (w : WebSetting) (host : string) : HttpRequest :=
  mk_request "POST" (web_path w) (dump (web_body w)) ("Bearer " +:+ web_token device_id_) host.

(** The action a setting's request runs. *)
Definition web_run (w : WebSetting) (after : AP unit) (done : string) : AP (Try ActionResult) :=
  s ← on_cfg (update (web_change w)); when (status_ok s) after;; mret (Done (result_of s done)).

Lemma web_update_run w done a : web_update (web_change w) done a = web_run w (mret ()) done a.
Proof.
  unfold web_update, web_run, mbind, SW_bind.
  destruct (on_cfg (update (web_change w)) a) as [[s a1] es]. by destruct (status_ok s).
Qed.

Lemma answer_run {B} (f : B -> HttpResponse) (m m' : AP (Try B)) a : m a = m' a -> answer f m a = answer f m' a.
Proof. unfold answer, mbind, SW_bind. by intros ->. Qed.

Lemma web_action w : web_value_ok w ->
  exists after done, (forall a : App, a_server (state_after (after : AP unit) a) = a_server a) /\
    forall a, run_action (s_ctx server) (web_path w) (web_body w) a = answer actionResult (web_run w after done) a.
Proof.
  destruct w as [v|b|d|p|n]; intros Hw.
  1-3: eexists _, "ok"%string; (split; [|
    cbn [run_action web_path web_body s_ctx web_server buildApiContext String.eqb Ascii.eqb Bool.eqb
         reply_with fmap option_fmap option_map x_setVolume x_setMute x_setDelay];
    unfold api_volume, api_mute, api_delay, web_setting; rewrite jfind_obj; cbn [assoc String.eqb Ascii.eqb Bool.eqb];
    rewrite ?is_number_integer_int, ?is_boolean_bool, ?get_int_int, ?get_bool_bool by done; reflexivity]); by intros a.
  - exists (mret ()), "ok"%string. split; [by intros a|]. intros a.
    change (answer actionResult (api_eq (jobj [("eq_profile", jstr p)])) a =
            answer actionResult (web_run (WEq p) (mret ()) "ok") a).
    apply answer_run. unfold api_eq, value_string. rewrite value_or_obj. cbn [assoc String.eqb Ascii.eqb Bool.eqb].
    rewrite get_string_str. exact (web_update_run (WEq p) "ok" a).
  - exists (mret ()), "name set"%string. split; [by intros a|]. intros a.
    change (answer actionResult (api_name (jobj [("name", jstr n)])) a =
            answer actionResult (web_run (WName n) (mret ()) "name set") a).
    apply answer_run. unfold api_name, value_string. rewrite value_or_obj. cbn [assoc String.eqb Ascii.eqb Bool.eqb].
    rewrite get_string_str. cbn [lift_try]. destruct (String.eqb_spec n ""); [done|].
    exact (web_update_run (WName n) "name set" a).
Qed.

(** A request with the token whose body parses reaches its action. *)
Lemma served_post w host a :
  dump (web_body w) <> "" -> dumpable (web_body w) ->
  served setup_text index_text logo getenv server (web_post w host) a =
    run_action (s_ctx server) (web_path w) (web_body w) a.
Proof.
  intros Hne Hd. unfold handle. rewrite get_bind_run. cbv zeta. cbn [method path web_post].
  change (String.eqb "POST" "GET") with false. cbn [andb].
  assert (under "/api" (web_path w) = true) as -> by (by destruct w).
  unfold route. change (String.eqb (method (web_post w host)) "GET") with false.
  change (String.eqb (method (web_post w host)) "POST") with true. unfold handlePost. rewrite get_bind_run.
  assert (authorize (s_auth server) (auth (web_post w host)) = true) as ->.
  { apply authorize_iff. split; [done|]. cbn. unfold web_token. done. }
  rewrite andb_false_r. cbn [body web_post]. destruct (String.eqb_spec (dump (web_body w)) ""); [done|].
  by rewrite parse_dump by done.
Qed.

(** A setting sent over the web is applied exactly when it is acknowledged.  A POST of
    a volume, a mute, a delay, an equaliser profile or a name that carries the device's
    token is answered 200 only when the new configuration is valid, held in memory and
    written to the file, and 400 otherwise, the configuration being what it was. *)
Theorem web_setting_applied_iff_acknowledged w host a :
  web_value_ok w -> dump (web_body w) <> "" -> dumpable (web_body w) ->
  let m := served setup_text index_text logo getenv server (web_post w host) in
  let a' := state_after m a in
  exists r, value_of m a = Done r /\
    (r_status r = 200%Z /\ is_valid (web_change w (cfg a)) = true /\ cfg a' = web_change w (cfg a) /\
       visible (disk (config_mgr (a_server a'))) (path_ (config_mgr (a_server a))) =
         Some (dump_indented (to_json (web_change w (cfg a)))) \/
     r_status r = 400%Z /\ cfg a' = cfg a).
Proof.
  intros Hw Hne Hd m a'. destruct (web_action w Hw) as (after & done & Haft & Hrun).
  assert (m a = answer actionResult (web_run w after done) a) as Hm.
  { unfold m. rewrite served_post by done. apply Hrun. }
  unfold a', value_of, state_after. rewrite Hm. clear m a' Hm Hrun.
  unfold answer, web_run, mbind, SW_bind, on_cfg, on_server, zoom.
  unfold value_of, state_after, effects_of, on_config. cbn [fst snd].
  destruct (update_memory (web_change w) (config_mgr (a_server a))) as (Hc & _ & _ & Hok & _).
  set (u := update (web_change w) (config_mgr (a_server a))) in *.
  fold (value_of (update (web_change w)) (config_mgr (a_server a))).
  fold (state_after (update (web_change w)) (config_mgr (a_server a))).
  set (r := value_of _ (config_mgr (a_server a))) in *.
  set (mgr' := state_after _ (config_mgr (a_server a))) in *.
  set (a1 := set_server (set_mgr mgr' (a_server a)) a).
  destruct (status_ok r) eqn:Hr; cbn [when].
  - pose proof (Haft a1) as H1. unfold state_after in H1. destruct (after a1) as [[[] a2] es2]. cbn [fst snd] in H1 |- *.
    eexists. split; [reflexivity|]. left. destruct (Hok eq_refl) as [Hv Hf].
    unfold result_of, actionResult. rewrite Hr. unfold cfg. cbn [mret SW_ret fst snd].
    rewrite H1. split_and!; [done|exact Hv|exact Hc|exact Hf].
  - eexists. split; [reflexivity|]. right. unfold result_of, actionResult. rewrite Hr. by split.
Qed.
End Inputs.
End DspProofs.

(** ** Observations *)

Section Tone.
Context {J : JsonLib} {F : FileSystem} {AW : AtomicWriter F} {Cr : Crypto} {NW NE : Type}.
Variable sin : spec_float -> spec_float.

Lemma push_queue p b :
  (0 < capacity_ b)%nat -> (length (queue_ b) <= capacity_ b)%nat ->
  queue_ (push p b) = last_n (capacity_ b) (queue_ b ++ [p]) /\ capacity_ (push p b) = capacity_ b.
Proof.
  intros Hc Hl. unfold push, last_n. rewrite length_app. cbn [length].
  destruct (Nat.leb_spec (capacity_ b) (length (queue_ b))); split; try done; cbn [queue_].
  - replace (length (queue_ b) + 1 - capacity_ b)%nat with 1%nat by lia.
    destruct (queue_ b); [cbn in *; lia|done].
  - by replace (length (queue_ b) + 1 - capacity_ b)%nat with 0%nat by lia.
Qed.

Lemma push_all_queue l b :
  (0 < capacity_ b)%nat -> (length (queue_ b) <= capacity_ b)%nat ->
  queue_ (foldl (fun b p => push p b) b l) = last_n (capacity_ b) (queue_ b ++ l) /\
  capacity_ (foldl (fun b p => push p b) b l) = capacity_ b.
Proof.
  intros Hc Hl. induction l as [|p l [IH1 IH2]] using rev_ind.
  { cbn. rewrite app_nil_r. unfold last_n. by replace (length (queue_ b) - capacity_ b)%nat with 0%nat by lia. }
  rewrite foldl_app. cbn [foldl].
  destruct (push_queue p (foldl (fun b p => push p b) b l)) as [H1 H2].
  - by rewrite IH2.
  - rewrite IH1, IH2, last_n_length. lia.
  - rewrite H1, H2, IH1, IH2. split; [|done]. by rewrite last_n_last_n, <- app_assoc.
Qed.

(** The identify tone is pushed at once: with the buffer of the application, half of it is
    dropped before anything is played, its fade-in included. *)
Lemma tone_loses_its_first_half (a : Application (NW := NW)) :
  a_buffer a = new_buffer 10 50 -> muted (audio (cfg a)) = false ->
  queue_ (a_buffer (state_after (playIdentifyTone sin : SW _ (AEffect (NE := NE)) _) a)) =
    tone_packet sin <$> seq 50 50.
Proof.
  intros Hb Hm. unfold playIdentifyTone. rewrite state_after_bind.
  change (value_of get a) with a. change (state_after get a) with a. cbv beta. rewrite Hm.
  rewrite !state_after_bind. unfold a_publish, tell, modify, state_after. cbn [fst snd set_audio a_buffer].
  rewrite Hb.
  assert (forall l b, foldl (fun b p => push (tone_packet sin p) b) b l =
            foldl (fun b p => push p b) b (tone_packet sin <$> l)) as ->
    by (induction l as [|x l IH]; intros b; [done|apply IH]).
  unfold mret, SW_ret. cbn [fst snd set_audio a_buffer].
  destruct (push_all_queue (tone_packet sin <$> seq 0 tone_packets) (new_buffer 10 50)) as [-> _]; [cbn; lia..|].
  unfold last_n. rewrite length_app, length_fmap. cbn [queue_ new_buffer capacity_ app].
  change (length (seq 0 tone_packets)) with 100%nat. by rewrite <- fmap_drop.
Qed.
End Tone.

(** A factory reset over the web changes the configuration and not the sound. *)
Lemma reset_keeps_the_delay {J : JsonLib} {F : FileSystem} {FL : FileSystemLaws F} {AW : AtomicWriter F}
    {Cr : Crypto} {NW NE} (a : Application (NW := NW)) :
  let a' := state_after (api_factory_reset : SW _ (AEffect (NE := NE)) _) a in
  a_dsp a' = a_dsp a /\ (cfg a' = defaults \/ cfg a' = cfg a).
Proof.
  cbv zeta. split; [done|].
  assert (cfg (state_after (api_factory_reset : SW _ (AEffect (NE := NE)) _) a) =
          config_ (state_after (update (fun _ => defaults)) (config_mgr (a_server a)))) as ->.
  { transitivity (config_ (state_after resetToDefaults (config_mgr (a_server a)))); [reflexivity|].
    unfold state_after. by rewrite resetToDefaults_update. }
  destruct (update_memory (fun _ => defaults) (config_mgr (a_server a))) as [-> _].
  destruct (status_ok _); auto.
Qed.

(** The announcement of an older command, still queued when a newer delay arrives over the
    web, puts the older delay back. *)
Lemma stale_announcement (d : DspSettings) :
  dsp_delay (dsp_event [("delay_ms"%string, SInt 5)] (setDelayMs 7 d)) = 5%Z.
Proof. reflexivity. Qed.

(** ** Witnesses *)

Section Witnesses.
#[local] Existing Instance mdisk_laws.
#[local] Existing Instance posix_writer.

Definition demo_hal : Amplifier.Hal :=
  mk_hal success success (fun _ => success) (Failure success) (Failure success).

Definition demo_app : Application (NW := NetworkStatus) :=
  mk_app Control.demo_server (new_network no_network true) (new_amp true f0 f0) (new_buffer 10 50)
    (mk_dsp 3 f0 true (false, f0)) true None true SystemState.SetupMode false.

Definition no_sin (x : spec_float) : spec_float := f0.
Definition no_run : SW (Application (NW := NetworkStatus)) (AEffect (NE := unit)) (Try ActionResult) :=
  mret (Done (true, "")).
Definition no_report : SW (Application (NW := NetworkStatus)) (AEffect (NE := unit)) (Try json) :=
  mret (Done (jobj [])).

Lemma web_setting_applied_iff_acknowledged_witness :
  let m := handle "" "" "" (fun _ => None)
             (web_server no_sin "SPK-1" "" 1500 "IDLE" no_run no_report) in
  (exists r, value_of (m (web_post "SPK-1" (WVolume 30) "x")) demo_app = Done r /\ r_status r = 200%Z) /\
  (exists r, value_of (m (web_post "SPK-1" (WVolume 101) "x")) demo_app = Done r /\
     (r_status r = 400%Z /\ cfg (state_after (m (web_post "SPK-1" (WVolume 101) "x")) demo_app) = cfg demo_app)).
Proof.
  intros m. split.
  - exists (ok (jobj [("ok", jbool true); ("message", jstr "ok")])). split; [vm_compute; reflexivity|reflexivity].
  - destruct (web_setting_applied_iff_acknowledged (FL := mdisk_laws) no_sin "SPK-1" "" 1500 "IDLE" no_run
                no_report "" "" "" (fun _ => None) (WVolume 101) "x" demo_app) as (r & Hv & H);
      [by split|by vm_compute|done|].
    exists r. split; [exact Hv|]. destruct H as [(_ & H & _)|H]; [|exact H].
    exfalso. revert H. by vm_compute.
Defined.
End Witnesses.
