(* ===== verification/Discovery.v ===== *)
(** * Discovery: finding the paired streamer, reporting to it, and the Bluetooth sink

    Models [src/src/discovery/DiscoveryService.cpp] (over the class [DiscoveryHal]; the
    continuous search is a list of rounds, one browse each), [src/src/status/StatusService.cpp]
    (heartbeats and immediate alerts) and [src/src/bluetooth/BluetoothManager.cpp] (over the
    class [BluetoothHal]). *)

From S2P Require Import Prelude Core Json Files Config.

(** ** Streamer discovery *)

(* [src/src/discovery/IDiscoveryHal.h:12-17] StreamerRecord *)
Record StreamerRecord := mk_streamer
  { sr_streamer_id : string; sr_host : string; sr_port : Z; sr_public_key : string }.

#[export] Instance StreamerRecord_eq_dec : EqDecision StreamerRecord.
Proof. solve_decision. Defined.

(* [src/src/discovery/IDiscoveryHal.h:20-28] SpeakerBeacon *)
Record SpeakerBeacon := mk_beacon
  { b_device_id : string; b_serial_number : string; b_model : string; b_software_version : string;
    b_box_public_key : string; b_control_port : Z; b_setup_mode : bool }.

(* [src/src/discovery/IDiscoveryHal.h:32-42] IDiscoveryHal *)
Class DiscoveryHal (W E : Type) := {
  publishBeacon : SpeakerBeacon -> SW W E Status;
  stopBeacon : SW W E Status;
  browseStreamers : SW W E (Result (list StreamerRecord))
}.

Section Discovery.
Context {W E : Type} {Hal : DiscoveryHal W E}.

(* [src/src/discovery/DiscoveryService.h:58-70] DiscoveryService *)
Record DiscoveryService := mk_discovery
  { d_hal : W; d_bus : bool; d_state : ServiceState; advertising_ : bool; searching_ : bool;
    target_id_ : string; target_key_ : string }.

Inductive DEffect := DPublish (e : Event Payload) | DOut (e : E).

Abbreviation D := (SW DiscoveryService DEffect).

Definition set_d_hal (w : W) (d : DiscoveryService) : DiscoveryService :=
  mk_discovery w (d_bus d) (d_state d) (advertising_ d) (searching_ d) (target_id_ d) (target_key_ d).
Definition set_d_state (s : ServiceState) (d : DiscoveryService) : DiscoveryService :=
  mk_discovery (d_hal d) (d_bus d) s (advertising_ d) (searching_ d) (target_id_ d) (target_key_ d).
Definition set_advertising (b : bool) (d : DiscoveryService) : DiscoveryService :=
  mk_discovery (d_hal d) (d_bus d) (d_state d) b (searching_ d) (target_id_ d) (target_key_ d).
Definition set_searching (b : bool) (d : DiscoveryService) : DiscoveryService :=
  mk_discovery (d_hal d) (d_bus d) (d_state d) (advertising_ d) b (target_id_ d) (target_key_ d).
Definition set_target (id key : string) (d : DiscoveryService) : DiscoveryService :=
  mk_discovery (d_hal d) (d_bus d) (d_state d) (advertising_ d) (searching_ d) id key.

Definition on_hal {A} (f : SW W E A) : D A := zoom d_hal set_d_hal DOut f.

Definition d_publish (t : EventType) (p : Payload) : D unit :=
  d ← get; when (d_bus d) (tell [DPublish (event t "discovery" p)]).

(** The record the trust check accepts. *)
(* [src/src/discovery/DiscoveryService.cpp:66-74] DiscoveryService::matchOnce *)
Definition trusted (id key : string) (r : StreamerRecord) : bool :=
  String.eqb (sr_streamer_id r) id && (String.eqb key "" || String.eqb (sr_public_key r) key).

(* [src/src/discovery/DiscoveryService.cpp:61-77] DiscoveryService::matchOnce *)
Definition matchOnce (id key : string) : D (Result StreamerRecord) :=
  found ← on_hal browseStreamers;
  mret (match found with
        | Failure s => Failure s
        | Value l =>
            match list_find (fun r => trusted id key r = true) l with
            | Some (_, r) => Value r
            | None => Failure (error ErrorCode.NotFound ("streamer not found: " +:+ id))
            end
        end).

(* [src/src/discovery/DiscoveryService.cpp:79-87] DiscoveryService::publishFound *)
Definition publishFound (r : StreamerRecord) : D unit :=
  d_publish EventType.StreamerFound
    [("streamer_id", SStr (sr_streamer_id r)); ("host", SStr (sr_host r)); ("port", SInt (sr_port r))].

(* [src/src/discovery/DiscoveryService.cpp:89-102] DiscoveryService::findStreamer *)
Definition findStreamer (id key : string) : D (Result StreamerRecord) :=
  r ← matchOnce id key;
  match r with
  | Value rec => publishFound rec;; mret r
  | Failure s => d_publish EventType.StreamerLost [("streamer_id", SStr id)];; mret (Failure s)
  end.

(** The search thread; joining it is the end of its rounds. *)
(* [src/src/discovery/DiscoveryService.cpp:121-129] DiscoveryService::stopSearching *)
Definition stopSearching : D unit := modify (set_searching false).

(* [src/src/discovery/DiscoveryService.cpp:104-119] DiscoveryService::startSearching *)
Definition startSearching (id key : string) : D unit :=
  stopSearching;; modify (set_target id key);; modify (set_searching true).

(** One round of the worker, up to its wait. *)
(* [src/src/discovery/DiscoveryService.cpp:143-153] DiscoveryService::searchLoop *)
Definition search_round : D unit :=
  d ← get;
  if searching_ d then
    r ← matchOnce (target_id_ d) (target_key_ d);
    match r with
    | Value rec => publishFound rec;; modify (set_searching false)
    | Failure _ => mret ()
    end
  else mret ().

(* [src/src/discovery/DiscoveryService.cpp:131-154] DiscoveryService::searchLoop *)
Fixpoint searchLoop (rounds : nat) : D unit :=
  match rounds with O => mret () | S n => search_round;; searchLoop n end.

(* [src/src/discovery/DiscoveryService.cpp:45-54] DiscoveryService::advertise *)
Definition advertise (b : SpeakerBeacon) : D Status :=
  s ← on_hal (publishBeacon b);
  if negb (status_ok s) then mret s else modify (set_advertising true);; mret success.

(* [src/src/discovery/DiscoveryService.cpp:56-59] DiscoveryService::stopAdvertising *)
Definition stopAdvertising : D Status := modify (set_advertising false);; on_hal stopBeacon.

(* [src/src/discovery/DiscoveryService.cpp:33-36] DiscoveryService::start *)
Definition discovery_start : D Status := modify (set_d_state ServiceState.Running);; mret success.

(* [src/src/discovery/DiscoveryService.cpp:38-43] DiscoveryService::stop *)
Definition discovery_stop : D Status :=
  stopSearching;;
  d ← get;
  when (advertising_ d) (stopAdvertising;; mret ());;
  modify (set_d_state ServiceState.Stopped);;
  mret success.

(** ** What a search announces *)

Definition found_events (es : list DEffect) : list (Event Payload) :=
  omap (fun e => match e with DPublish e => Some e | DOut _ => None end) es.

Definition found (r : StreamerRecord) : Event Payload :=
  event EventType.StreamerFound "discovery"
    [("streamer_id", SStr (sr_streamer_id r)); ("host", SStr (sr_host r)); ("port", SInt (sr_port r))].

(** What the network answers to the browse of a state, and the first record of it that the
    search may accept. *)
Definition answer (w : W) : option (list StreamerRecord) :=
  match value_of browseStreamers w with Value l => Some l | Failure _ => None end.

Definition accepts (id key : string) (w : W) : option StreamerRecord :=
  l ← answer w; snd <$> list_find (fun r => trusted id key r = true) l.

(** The world at the [n]-th browse. *)
Definition world (n : nat) (w : W) : W := Nat.iter n (state_after browseStreamers) w.

(** The first of [n] browses from [w] with an acceptable record. *)
Fixpoint first_match (id key : string) (n : nat) (w : W) : option StreamerRecord :=
  match n with
  | O => None
  | S n =>
      match accepts id key w with
      | Some r => Some r
      | None => first_match id key n (state_after browseStreamers w)
      end
  end.

Lemma found_events_app a b : found_events (a ++ b) = found_events a ++ found_events b.
Proof. apply omap_app. Qed.

Lemma found_events_out l : found_events (DOut <$> l) = [].
Proof. by induction l. Qed.

Lemma accepts_trusted id key w r :
  accepts id key w = Some r -> exists l, answer w = Some l /\ r ∈ l /\ sr_streamer_id r = id /\
    (key <> "" -> sr_public_key r = key).
Proof.
  unfold accepts. destruct (answer w) as [l|]; [|done]. cbn. intros (x & Hx & ->)%fmap_Some.
  destruct x as [i r]. apply list_find_Some in Hx as (Hi & Ht & _). exists l. split; [done|].
  split; [by eapply list_elem_of_lookup_2|].
  unfold trusted in Ht. apply andb_true_iff in Ht as [Hid Hk]. apply String.eqb_eq in Hid. split; [done|].
  intros Hne. apply orb_true_iff in Hk as [Hk|Hk]; apply String.eqb_eq in Hk; done.
Qed.

Lemma matchOnce_run id key d :
  matchOnce id key d =
    (match value_of browseStreamers (d_hal d) with
     | Failure s => Failure s
     | Value _ => match accepts id key (d_hal d) with
                  | Some r => Value r
                  | None => Failure (error ErrorCode.NotFound ("streamer not found: " +:+ id))
                  end
     end,
     set_d_hal (state_after browseStreamers (d_hal d)) d, DOut <$> effects_of browseStreamers (d_hal d)).
Proof.
  unfold matchOnce, mbind, SW_bind, on_hal, zoom, mret, SW_ret. cbn [fst snd]. rewrite app_nil_r.
  unfold accepts, answer. destruct (value_of browseStreamers (d_hal d)) as [l|s]; [|done].
  cbn. destruct (list_find _ l) as [[i r]|]; done.
Qed.

Lemma search_round_run d :
  searching_ d = true ->
  let d1 := set_d_hal (state_after browseStreamers (d_hal d)) d in
  search_round d =
    match accepts (target_id_ d) (target_key_ d) (d_hal d) with
    | Some r => ((), set_searching false d1,
                 (DOut <$> effects_of browseStreamers (d_hal d)) ++ if d_bus d then [DPublish (found r)] else [])
    | None => ((), d1, DOut <$> effects_of browseStreamers (d_hal d))
    end.
Proof.
  intros Hs d1. unfold search_round. rewrite get_bind_run, Hs. unfold mbind at 1, SW_bind at 1.
  rewrite matchOnce_run. fold d1.
  destruct (accepts (target_id_ d) (target_key_ d) (d_hal d)) as [r|] eqn:Ha.
  - unfold accepts, answer in Ha. destruct (value_of browseStreamers (d_hal d)); [|done].
    unfold publishFound, d_publish, mbind, SW_bind, get, modify. cbn.
    destruct (d_bus d); cbn; by rewrite ?app_nil_r.
  - destruct (value_of browseStreamers (d_hal d)); cbn; by rewrite app_nil_r.
Qed.

Lemma search_idle n d : searching_ d = false -> searchLoop n d = ((), d, []).
Proof.
  intros Hs. induction n as [|n IH]; [done|]. cbn [searchLoop]. unfold mbind, SW_bind, search_round.
  unfold mbind, SW_bind, get. rewrite Hs. cbn. by rewrite IH.
Qed.

(** The search accepts the paired streamer only, once, and as soon as it answers.  Over
    any number of browses, with whatever the network answers to each, the search announces
    exactly the first record that carries the paired id and, when a key was stored at
    pairing, that key; it stops at that moment; misses announce nothing. *)
Theorem search_finds_paired_streamer id key n d :
  d_bus d = true ->
  let d1 := state_after (startSearching id key) d in
  let run := searchLoop n in
  let r := first_match id key n (d_hal d) in
  found_events (effects_of run d1) = option_list (found <$> r) /\
  searching_ (state_after run d1) = match r with Some _ => false | None => true end /\
  forall rec, r = Some rec ->
    sr_streamer_id rec = id /\ (key <> "" -> sr_public_key rec = key) /\
    exists k l, (k < n)%nat /\ answer (world k (d_hal d)) = Some l /\ rec ∈ l.
Proof.
  intros Hb d1 run r.
  assert (d_hal d1 = d_hal d /\ searching_ d1 = true /\ target_id_ d1 = id /\ target_key_ d1 = key /\ d_bus d1 = true)
    as (Hh & Hs & Hi & Hk & Hb1) by done.
  clearbody d1. subst r run. rewrite <- Hh. clear Hh Hb d.
  revert d1 Hs Hi Hk Hb1. induction n as [|n IH]; intros d Hs Hi Hk Hb; [done|].
  cbn [searchLoop first_match]. rewrite effects_of_bind, state_after_bind, found_events_app.
  pose proof (search_round_run d Hs) as Hr. cbv zeta in Hr. rewrite Hi, Hk in Hr.
  rewrite (f_equal snd Hr : effects_of search_round d = _), (f_equal (fun p => p.1.2) Hr : state_after search_round d = _).
  destruct (accepts id key (d_hal d)) as [rec|] eqn:Ha; cbn [fst snd].
  - unfold effects_of, state_after. rewrite search_idle by done. cbn [fst snd].
    rewrite Hb, found_events_app, found_events_out. cbn. split_and!; [done|done|].
    intros rec' [= <-]. destruct (accepts_trusted _ _ _ _ Ha) as (l & Hl & Hin & Hid & Hkey).
    split_and!; [done|done|]. exists 0%nat, l. split_and!; [lia|done|done].
  - rewrite found_events_out.
    destruct (IH (set_d_hal (state_after browseStreamers (d_hal d)) d) Hs Hi Hk Hb) as (H1 & H2 & H3).
    cbn [d_hal set_d_hal] in H1, H2, H3. split_and!; [exact H1|exact H2|].
    intros rec Hrec. destruct (H3 rec Hrec) as (? & ? & k & l & Hkn & Hl & Hin). split_and!; [done|done|].
    exists (S k), l. split_and!; [lia| |done]. unfold world in *. by rewrite Nat.iter_succ_r.
Qed.
End Discovery.

(** The stub of the development hosts. *)
(* [src/src/discovery/IDiscoveryHal.h:46-68] StubDiscoveryHal *)
#[global] Instance stub_discovery : DiscoveryHal (option SpeakerBeacon) unit :=
  {| publishBeacon := fun b => modify (fun _ => Some b);; mret success;
     stopBeacon := modify (fun _ => None);; mret success;
     browseStreamers :=
       mret (Value [mk_streamer "STR-1ab01234" "streamer.local" 6789 "c3RyZWFtZXItcHVibGljLWtleQ=="]) |}.

Definition demo_discovery : DiscoveryService :=
  mk_discovery (None : option SpeakerBeacon) true ServiceState.Running false false "" "".

Lemma search_finds_paired_streamer_witness :
  let d1 := state_after (startSearching (E := unit) "STR-1ab01234" "c3RyZWFtZXItcHVibGljLWtleQ==") demo_discovery in
  found_events (effects_of (searchLoop (E := unit) 5) d1) =
    [found (mk_streamer "STR-1ab01234" "streamer.local" 6789 "c3RyZWFtZXItcHVibGljLWtleQ==")] /\
  first_match "STR-1ab01234" "another key" 5 (None : option SpeakerBeacon) = None.
Proof.
  cbv zeta. split; [|reflexivity].
  exact (proj1 (search_finds_paired_streamer "STR-1ab01234" "c3RyZWFtZXItcHVibGljLWtleQ==" 5 demo_discovery eq_refl)).
Defined.

(** ** Status reports *)

Section Status.
Context {J : JsonLib}.

(** Alerts and heartbeats go to the sink, when one is set, or to the bus. *)
Inductive StatusEffect := ToSink (j : json) | ToBus (t : EventType) (j : json).

(* [src/src/status/StatusService.h:56-69] StatusService *)
Record StatusService := mk_status
  { st_device : string; st_config : SpeakerConfig; st_sink : bool; st_bus : bool; heartbeat_count_ : Z;
    st_state : ServiceState; st_subscribed : bool }.

Abbreviation T := (SW StatusService StatusEffect).

(* [src/src/status/StatusService.cpp:22-34] StatusService::buildHeartbeat *)
Definition buildHeartbeat (now : Z) (s : StatusService) : json :=
  let c := st_config s in
  jobj [("type", jstr "heartbeat"); ("device_id", jstr (st_device s)); ("state", jstr "ONLINE");
        ("volume", jint (volume (audio c))); ("muted", jbool (muted (audio c)));
        ("software_version", jstr (software_version (device c))); ("paired", jbool (paired (pairing c)));
        ("timestamp", jint now)].

(* [src/src/status/StatusService.cpp:36-44] StatusService::dispatch *)
Definition dispatch (j : json) : T unit :=
  s ← get;
  if st_sink s then tell [ToSink j] else when (st_bus s) (tell [ToBus EventType.CommandExecuted j]).

(* [src/src/status/StatusService.cpp:46-49] StatusService::sendHeartbeat *)
Definition sendHeartbeat (now : Z) : T unit :=
  s ← get;
  dispatch (buildHeartbeat now s);;
  modify (fun s => mk_status (st_device s) (st_config s) (st_sink s) (st_bus s)
                     (wrap 64 (heartbeat_count_ s + 1)) (st_state s) (st_subscribed s)).

(* [src/src/status/StatusService.cpp:53-64] StatusService::onEvent *)
Definition alert_of (t : EventType) : option string :=
  match t with
  | EventType.AmplifierOverheat => Some "AMPLIFIER_OVERHEAT"
  | EventType.AmplifierFault => Some "AMPLIFIER_FAULT"
  | EventType.AmplifierProtection => Some "AMPLIFIER_PROTECTION"
  | EventType.AudioLost => Some "AUDIO_LOST"
  | EventType.StreamerDisconnected => Some "STREAMER_DISCONNECTED"
  | EventType.UpdateFailed => Some "UPDATE_FAILED"
  | EventType.MicFailure => Some "MICROPHONE_FAILURE"
  | EventType.TempWarning => Some "TEMP_WARNING"
  | _ => None
  end.

(* [src/src/status/StatusService.cpp:51-73] StatusService::onEvent *)
Definition status_on_event (now : Z) (t : EventType) : T unit :=
  match alert_of t with
  | None => mret ()
  | Some a =>
      s ← get;
      dispatch (jobj [("type", jstr "alert"); ("device_id", jstr (st_device s)); ("alert", jstr a);
                      ("timestamp", jint now)])
  end.

Definition set_status_state (st : ServiceState) (sub : bool) (s : StatusService) : StatusService :=
  mk_status (st_device s) (st_config s) (st_sink s) (st_bus s) (heartbeat_count_ s) st sub.

(* [src/src/status/StatusService.cpp:75-81] StatusService::start *)
Definition status_start : T Status := modify (set_status_state ServiceState.Running true);; mret success.
(* [src/src/status/StatusService.cpp:95-108] StatusService::stop *)
Definition status_stop : T Status := modify (set_status_state ServiceState.Stopped false);; mret success.

(** A report never causes another: what the default sink puts on the bus is no alert. *)
Lemma reports_do_not_echo now t s e :
  e ∈ effects_of (status_on_event now t) s -> match e with ToBus t' _ => alert_of t' = None | ToSink _ => True end.
Proof.
  unfold status_on_event, effects_of. destruct (alert_of t) as [a|]; [|cbn; set_solver].
  rewrite get_bind_run. unfold dispatch. rewrite get_bind_run. unfold when, tell.
  destruct (st_sink s); cbn; [by intros ->%list_elem_of_singleton|].
  destruct (st_bus s); cbn; [by intros ->%list_elem_of_singleton|set_solver].
Qed.
End Status.

(** ** The Bluetooth sink *)

(* [src/src/bluetooth/IBluetoothHal.h:10-15] BluetoothStatus *)
Record BluetoothStatus := mk_bt_status
  { available : bool; discoverable : bool; bt_link : bool; bt_device : string }.

(* [src/src/bluetooth/IBluetoothHal.h:25-40] IBluetoothHal *)
Class BluetoothHal (W E : Type) := {
  enableSink : string -> SW W E Status;
  hal_pairing_window : Z -> SW W E Status;
  bt_disable : SW W E Status;
  bt_status : SW W E (Result BluetoothStatus)
}.

Section Bluetooth.
Context {W E : Type} {Hal : BluetoothHal W E}.

(* [src/src/bluetooth/BluetoothManager.h:45-50] BluetoothManager *)
Record BluetoothManager := mk_bluetooth
  { alias_ : string; bt_hal : W; bt_state : ServiceState; bt_connected : bool; device_name_ : string }.

Inductive BEffect := BPublish (e : Event Payload) | BOut (e : E).

Abbreviation B := (SW BluetoothManager BEffect).

Definition set_bt_hal (w : W) (b : BluetoothManager) : BluetoothManager :=
  mk_bluetooth (alias_ b) w (bt_state b) (bt_connected b) (device_name_ b).
Definition set_bt_state (s : ServiceState) (b : BluetoothManager) : BluetoothManager :=
  mk_bluetooth (alias_ b) (bt_hal b) s (bt_connected b) (device_name_ b).
Definition set_bt_link (c : bool) (n : string) (b : BluetoothManager) : BluetoothManager :=
  mk_bluetooth (alias_ b) (bt_hal b) (bt_state b) c n.

Definition on_bt {A} (f : SW W E A) : B A := zoom bt_hal set_bt_hal BOut f.

(* [src/src/bluetooth/BluetoothManager.cpp:82-98] BluetoothManager::refreshConnection *)
Definition refreshConnection : B unit :=
  st ← on_bt bt_status;
  match st with
  | Failure _ => mret ()
  | Value st =>
      b ← get;
      let now := bt_link st in
      if Bool.eqb now (bt_connected b) then mret ()
      else
        let device_name := if now then bt_device st else EmptyString in
        modify (set_bt_link now device_name);;
        tell [BPublish (if now then event EventType.AudioStarted "bluetooth"
                                      [("source", SStr "bluetooth"); ("device", SStr device_name)]
                        else event EventType.AudioStopped "bluetooth" [("source", SStr "bluetooth")])]
  end.

(* [src/src/bluetooth/BluetoothManager.cpp:34-54] BluetoothManager::start *)
Definition bluetooth_start : B Status :=
  st ← on_bt bt_status;
  if negb (match st with Value st => available st | Failure _ => false end) then
    modify (set_bt_state ServiceState.Degraded);; mret success
  else
    b ← get;
    s ← on_bt (enableSink (alias_ b));
    if negb (status_ok s) then modify (set_bt_state ServiceState.Degraded);; mret success
    else modify (set_bt_state ServiceState.Running);; refreshConnection;; mret success.

(* [src/src/bluetooth/BluetoothManager.cpp:56-62] BluetoothManager::stop *)
Definition bluetooth_stop : B Status :=
  on_bt bt_disable;;
  modify (set_bt_state ServiceState.Stopped);;
  modify (set_bt_link false "");;
  mret success.

(* [src/src/bluetooth/BluetoothManager.cpp:64-71] BluetoothManager::healthCheck *)
Definition bluetooth_health : B Status :=
  b ← get;
  if bool_decide (bt_state b = ServiceState.Degraded) then mret success
  else
    refreshConnection;;
    b ← get;
    mret (if bool_decide (bt_state b = ServiceState.Running) then success
          else error ErrorCode.Unknown "bluetooth not running").

(* [src/src/bluetooth/BluetoothManager.cpp:73-80] BluetoothManager::openPairingWindow *)
Definition bt_openPairingWindow (seconds : Z) : B Status :=
  b ← get;
  if negb (bool_decide (bt_state b = ServiceState.Running)) then
    mret (error ErrorCode.Unknown "bluetooth not running")
  else on_bt (hal_pairing_window seconds).

Inductive BtCall := BtStart | BtHealth | BtWindow (seconds : Z).

Definition bt_call (c : BtCall) : B unit :=
  match c with
  | BtStart => bluetooth_start;; mret ()
  | BtHealth => bluetooth_health;; mret ()
  | BtWindow n => bt_openPairingWindow n;; mret ()
  end.

Fixpoint bt_calls (l : list BtCall) : B unit :=
  match l with [] => mret () | c :: l => bt_call c;; bt_calls l end.

Definition announced (es : list BEffect) : list EventType :=
  omap (fun e => match e with BPublish e => Some (type e) | BOut _ => None end) es.

(** Starts and stops take turns, beginning with a start where nothing is connected, and the
    last one tells whether something is. *)
Fixpoint alternates (playing : bool) (l : list EventType) : option bool :=
  match l with
  | [] => Some playing
  | t :: l =>
      if playing then if bool_decide (t = EventType.AudioStopped) then alternates false l else None
      else if bool_decide (t = EventType.AudioStarted) then alternates true l else None
  end.

Definition turns (b : BluetoothManager) (es : list BEffect) (b' : BluetoothManager) : Prop :=
  alternates (bt_connected b) (announced es) = Some (bt_connected b').

Lemma alternates_app p a b :
  alternates p (a ++ b) = match alternates p a with Some p => alternates p b | None => None end.
Proof.
  revert p. induction a as [|t a IH]; intros p; [done|]. cbn. destruct p; case_bool_decide; auto.
Qed.

#[local] Instance turns_run : RunRel turns.
Proof.
  split; unfold turns; [done|]. intros s1 e1 s2 e2 s3 H1 H2.
  unfold announced in *. by rewrite omap_app, alternates_app, H1.
Qed.

Lemma turns_hal {A} (f : SW W E A) : respects turns (on_bt f).
Proof.
  intros b. unfold turns, on_bt, zoom, effects_of, state_after. cbn [fst snd].
  assert (announced (BOut <$> (f (bt_hal b)).2) = []) as -> by (by induction (f (bt_hal b)).2). done.
Qed.

Lemma turns_refresh : respects turns refreshConnection.
Proof.
  apply respects_bind; [exact _|apply turns_hal|]. intros [st|s]; [|apply respects_ret; exact _].
  intros b. unfold turns, effects_of, state_after. rewrite get_bind_run. cbv zeta.
  destruct (Bool.eqb (bt_link st) (bt_connected b)) eqn:Heq; [done|].
  unfold mbind, SW_bind, modify, tell. cbn.
  by destruct (bt_link st), (bt_connected b).
Qed.

Lemma turns_state s : respects turns (modify (set_bt_state s)).
Proof. apply respects_modify. by intros b. Qed.

(** Amplifier gating gets one start and one stop per connection. *)
Lemma bluetooth_turns l : respects turns (bt_calls l).
Proof.
  assert (forall {A} (a : A), respects turns (mret a)) as Hr by (intros; apply respects_ret; exact _).
  assert (respects turns get) as Hg by (apply respects_get; exact _).
  pose proof turns_refresh. pose proof turns_state.
  assert (forall {A C} (m : B A) (f : A -> B C), respects turns m -> (forall a, respects turns (f a)) ->
            respects turns (mbind f m)) as Hb by (intros; apply respects_bind; [exact _|done..]).
  induction l as [|c l IH]; [apply Hr|]. apply Hb; [|by intros _].
  destruct c as [| |n]; (apply Hb; [|intros _; apply Hr]).
  - unfold bluetooth_start. apply Hb; [apply turns_hal|]. intros st. destruct (negb _); [by apply Hb|].
    apply Hb; [done|]. intros b. apply Hb; [apply turns_hal|]. intros s. destruct (negb _); [by apply Hb|].
    apply Hb; [done|]. intros _. by apply Hb.
  - unfold bluetooth_health. apply Hb; [done|]. intros b. destruct (bool_decide _); [apply Hr|].
    apply Hb; [done|]. intros _. by apply Hb.
  - unfold bt_openPairingWindow. apply Hb; [done|]. intros b. destruct (negb _); [apply Hr|apply turns_hal].
Qed.
End Bluetooth.
