(* ===== verification/StreamerApi.v ===== *)
(** * StreamerApi: the web interface of the streamer

    Models [streamer/src/web/StreamerApiRouter.cpp].  The router reads and changes the
    registry, the zones and the provisioning window itself; everything else it reaches
    through callbacks, which are fields of a context.  A callback is a run over the whole
    site: pairing over an access point, for one, changes the registry.  Every use of a
    callback is recorded as a [Call] in the output of the run, so that a theorem can say
    what a request made the streamer do.  What a callback or the JSON library throws
    leaves the router as a [Throw]. *)

From Stdlib Require Import Ascii.
From S2P Require Import Prelude Core Json Files Storage Control Pairing QrCode Speakers Zones.
From S2P Require Import Gateway Onboarding Web.

(** ** The site *)

(** What the router works on; [rest] is whatever its callbacks reach beyond that. *)
(* [src/streamer/src/web/StreamerApiRouter.h:172-203] StreamerApiRouter *)
Record Site (W : Type) := mk_site
  { registry_ : SpeakerRegistry; zones_ : option ZoneManager; window_ : option ProvisioningWindow; rest : W }.
Arguments mk_site {W} _ _ _ _.
Arguments registry_ {W} _.
Arguments zones_ {W} _.
Arguments window_ {W} _.
Arguments rest {W} _.

Definition set_reg {W} (l : SpeakerRegistry) (s : Site W) : Site W := mk_site l (zones_ s) (window_ s) (rest s).
Definition set_zone_mgr {W} (z : ZoneManager) (s : Site W) : Site W := mk_site (registry_ s) (Some z) (window_ s) (rest s).
Definition set_win {W} (w : ProvisioningWindow) (s : Site W) : Site W := mk_site (registry_ s) (zones_ s) (Some w) (rest s).

(* [src/streamer/src/sources/SourceFactory.h:17-20] SourceSpec *)
Record SourceSpec := mk_source_spec { kind : string; uri : string }.

(* [src/streamer/src/sources/CaptureDevices.h:33-37] CaptureDevice *)
Record CaptureDevice := mk_capture { cd_id : string; cd_name : string; loopback : bool }.

(** A use of a callback. *)
Inductive Call `{JsonLib} :=
| CSend (target : Speaker) (command : string) (payload : json)
| CPair (host : string) (params : PairingParams)
| CDiscover | CScan | CScanAps
| COnboard (body : json)
| CTransport (action : string) (target : Speaker)
| CDevice (target : Speaker) (method path payload : string)
| CPlayZone (zone : string) (spec : SourceSpec)
| CRetarget (zone : string)
| CPersist | CDspGet | CDspSet (patch : json) | CLevels.

Section Router.
Context {J : JsonLib} {W E : Type}.

(** Output of a run: the calls of the router and what the callbacks emit. *)
Inductive Output := Called (c : Call) | Inside (e : E).

Abbreviation C := (SW (Site W) E).
Abbreviation R := (SW (Site W) Output).

(* [src/streamer/src/web/StreamerApiRouter.h:47-157] StreamerApiRouter *)
Record StreamerContext := mk_streamer_context
  { x_sender : Speaker -> string -> json -> C (Try (Result CommandReply));
    x_pairing : option (string -> PairingParams -> C (Try (Result PairingReply)));
    x_discoverer : option (C (Result (list DiscoveredSpeaker)));
    x_scanner : option (C json); x_ap_scanner : option (C json);
    x_onboarder : option (json -> C (Try json));
    x_transport : option (string -> Speaker -> C Status);
    x_speaker_http : option (Speaker -> string -> string -> string -> C (Z * string));
    x_play_zone : option (string -> SourceSpec -> C (Try Status));
    x_retarget_zone : option (string -> C (Try Status));
    x_persist : option (C unit);
    x_dsp_get : option (C json); x_dsp_set : option (json -> C (Try json)); x_levels : option (C json);
    x_mac_lookup : option (string -> string);
    x_store : option (Site W -> Store); x_now : Site W -> Z; x_clock : Site W -> Z;
    x_devices : list CaptureDevice; x_kinds : list string;
    x_auth : option Authentication; x_page : string }.

Definition call {A} (c : Call) (m : C A) : R A :=
  tell [Called c];; zoom (fun s => s) (fun s _ => s) Inside m.

(* [src/streamer/src/web/StreamerApiRouter.cpp:17-17] notFound *)
Definition notFound : HttpResponse := json_response 404 (jobj [("error", jstr "not found")]).
(* [src/streamer/src/web/StreamerApiRouter.cpp:18-18] badRequest *)
Definition badRequest (m : string) : HttpResponse := json_response 400 (jobj [("error", jstr m)]).
Definition failure (status : Z) (m : string) : HttpResponse :=
  json_response status (jobj [("error", jstr m)]).
Definition refused (status : Z) (m : string) : HttpResponse :=
  json_response status (jobj [("ok", jbool false); ("message", jstr m)]).
Definition done_ (l : list (string * json)) : HttpResponse := ok (jobj (("ok", jbool true) :: l)).

Definition answer_with (r : HttpResponse) : R (Try HttpResponse) := mret (Done r).

Variable ctx : StreamerContext.

(** [if (persist_) persist_();] *)
Definition persist : R unit :=
  match x_persist ctx with Some m => call CPersist m | None => mret () end.

(* [src/streamer/src/web/StreamerApiRouter.cpp:610-634] StreamerApiRouter::sendToSpeaker *)
Definition sendToSpeaker (body : json) (command : string) (payload : json) : R (Try HttpResponse) :=
  let? id := mret (value_string body "speaker" "") in
  if String.eqb id "" then answer_with (badRequest "speaker required")
  else
    s ← get;
    match get_speaker id (registry_ s) with
    | None => answer_with (failure 404 ("unknown speaker: " +:+ id))
    | Some target =>
        let? reply := call (CSend target command payload) (x_sender ctx target command payload) in
        match reply with
        | Failure e => answer_with (refused 502 (message e))
        | Value r =>
            s ← get;
            let out := jobj [("ok", jbool (p_ok r)); ("message", jstr (p_message r)); ("data", p_data r)] in
            let out := match x_store ctx with
                       | Some st =>
                           match get_state id (st s) with
                           | Some x => jset out "confirmed" (state_to_json x (x_now ctx s))
                           | None => out
                           end
                       | None => out
                       end in
            answer_with (ok out)
        end
    end.

(** ** Reading *)

(* [src/streamer/src/web/StreamerApiRouter.cpp:50-71] StreamerApiRouter::handleGet, /api/speakers *)
Definition speaker_entry (s : Site W) (sp : Speaker) : json :=
  let entry := jobj [("device_id", jstr (device_id sp)); ("name", jstr (sp_name sp));
                     ("host", jstr (Speakers.host sp)); ("control_port", jint (control_port sp))] in
  let entry := match x_mac_lookup ctx with
               | Some f => if String.eqb (Speakers.host sp) "" then entry
                           else if String.eqb (f (Speakers.host sp)) "" then entry
                           else jset entry "mac" (jstr (f (Speakers.host sp)))
               | None => entry
               end in
  match x_store ctx with
  | None => entry
  | Some st =>
      match get_state (device_id sp) (st s) with
      | Some x => jupdate entry (state_to_json x (x_now ctx s))
      | None => jset (jset entry "online" (jbool false)) "confirmed" (jbool false)
      end
  end.

Definition zone_entry (z : Zone) : json :=
  jobj [("zone_id", jstr (zone_id z)); ("name", jstr (z_name z)); ("members", jarr (jstr <$> members z))].

Definition found_entry (d : DiscoveredSpeaker) : json :=
  jobj [("device_id", jstr (d_device_id d)); ("host", jstr (d_host d));
        ("box_public_key", jstr (d_box_public_key d)); ("control_port", jint (d_control_port d));
        ("setup_mode", jbool (d_setup_mode d))].

Definition device_entry (d : CaptureDevice) : json :=
  jobj [("id", jstr (cd_id d)); ("name", jstr (cd_name d)); ("loopback", jbool (loopback d))].

Definition window_response (now : Z) (w : ProvisioningWindow) : HttpResponse :=
  json_response 200 (jobj [("open", jbool (isOpen now w)); ("seconds_remaining", jint (secondsRemaining now w))]).

(* [src/streamer/src/web/StreamerApiRouter.cpp:155-156] StreamerApiRouter::handleGet, /api/control-qr *)
Definition unreserved (c : ascii) : bool :=
  let n := nat_of_ascii c in
  ((65 <=? n) && (n <=? 90) || (97 <=? n) && (n <=? 122) || (48 <=? n) && (n <=? 57)
   || (n =? 45) || (n =? 95) || (n =? 46) || (n =? 126))%nat.

(* [src/streamer/src/web/StreamerApiRouter.cpp:160-160] StreamerApiRouter::handleGet, /api/control-qr *)
Definition kHex : string := "0123456789ABCDEF".
Definition hex_char (n : nat) : ascii := default zero (String.get n kHex).

(* [src/streamer/src/web/StreamerApiRouter.cpp:154-165] StreamerApiRouter::handleGet, /api/control-qr *)
Fixpoint percent_encode (s : string) : string :=
  match s with
  | EmptyString => EmptyString
  | String c s =>
      if unreserved c then String c (percent_encode s)
      else String "%"%char (String (hex_char (nat_of_ascii c / 16)) (String (hex_char (nat_of_ascii c mod 16))
             (percent_encode s)))
  end.

(* [src/streamer/src/web/StreamerApiRouter.cpp:151-165] StreamerApiRouter::handleGet, /api/control-qr *)
Definition control_url (host token : string) : string :=
  "http://" +:+ host +:+ "/?t=" +:+ percent_encode token.

(* [src/streamer/src/web/StreamerApiRouter.cpp:149-171] StreamerApiRouter::handleGet, /api/control-qr *)
Definition control_qr (host : string) : HttpResponse :=
  if String.eqb host "" then failure 503 "cannot determine own address"
  else
    match encode (control_url host (match x_auth ctx with Some a => token_ a | None => "" end)) with
    | Some m => mk_response 200 "image/svg+xml" (toSvg m 4) []
    | None => failure 500 too_long
    end.

(** The callback of a route that only hands its JSON on. *)
Definition handed_on (c : Call) (m : option (C json)) (missing : string) (f : json -> json) : R (Try HttpResponse) :=
  match m with
  | None => answer_with (failure 501 missing)
  | Some m => j ← call c m; answer_with (ok (f j))
  end.

(* [src/streamer/src/web/StreamerApiRouter.cpp:39-173] StreamerApiRouter::handleGet *)
Definition handleGet (path host : string) : R (Try HttpResponse) :=
  s ← get;
  if String.eqb path "/" || String.eqb path "/index.html" then
    answer_with (mk_response 200 "text/html; charset=utf-8" (x_page ctx) [])
  else if String.eqb path "/api/speakers" then
    answer_with (ok (jobj [("speakers", jarr (speaker_entry s <$> registry_ s))]))
  else if String.eqb path "/api/discover" then
    match x_discoverer ctx with
    | None => answer_with (failure 501 "discovery not available")
    | Some m =>
        found ← call CDiscover m;
        answer_with (match found with
                     | Failure e => failure 502 (message e)
                     | Value l => ok (jobj [("speakers", jarr (found_entry <$> l))])
                     end)
    end
  else if String.eqb path "/api/scan-network" then
    handed_on CScan (x_scanner ctx) "network scan not available" (fun j => jobj [("speakers", j)])
  else if String.eqb path "/api/scan-setup-aps" then
    handed_on CScanAps (x_ap_scanner ctx) "no spare wifi radio for setup scanning"
      (fun j => jobj [("access_points", j)])
  else if String.eqb path "/api/zones" then
    answer_with (match zones_ s with
                 | None => failure 501 "zones not available"
                 | Some z => ok (jobj [("zones", jarr (zone_entry <$> Zones.zones_ z))])
                 end)
  else if String.eqb path "/api/sources" then
    answer_with (ok (jobj [("kinds", jarr (jstr <$> x_kinds ctx)); ("devices", jarr (device_entry <$> x_devices ctx))]))
  else if String.eqb path "/api/dsp" then
    handed_on CDspGet (x_dsp_get ctx) "dsp not available" (fun j => j)
  else if String.eqb path "/api/levels" then
    handed_on CLevels (x_levels ctx) "levels not available" (fun j => j)
  else if String.eqb path "/api/provisioning-window" then
    answer_with (match window_ s with
                 | None => failure 503 "provisioning unavailable"
                 | Some w => window_response (x_clock ctx s) w
                 end)
  else if String.eqb path "/api/control-qr" then answer_with (control_qr host)
  else answer_with notFound.

(** ** Writing *)

(* [src/streamer/src/web/StreamerApiRouter.cpp:188-200] StreamerApiRouter::handlePost, /api/speakers *)
Definition post_speakers (b : json) : R (Try HttpResponse) :=
  if negb (contains b "device_id" && contains b "host") then answer_with (badRequest "device_id and host required")
  else
    let? id := mret (value_string b "device_id" "") in
    let? name := mret (value_string b "name" id) in
    let? h := mret (value_string b "host" "") in
    let? port := mret (value_int b "control_port" 45455) in
    s ← get;
    let '(added, l) := upsert (mk_speaker id name h port) (registry_ s) in
    modify (set_reg l);;
    persist;;
    answer_with (done_ [("added", jbool added)]).

(* [src/streamer/src/web/StreamerApiRouter.cpp:201-205] StreamerApiRouter::handlePost, /api/speakers/remove *)
Definition post_speakers_remove (b : json) : R (Try HttpResponse) :=
  let? id := mret (value_string b "device_id" "") in
  s ← get;
  let '(removed, l) := remove_speaker id (registry_ s) in
  modify (set_reg l);;
  persist;;
  answer_with (ok (jobj [("ok", jbool removed)])).

(* [src/streamer/src/web/StreamerApiRouter.cpp:215-238] StreamerApiRouter::handlePost, /api/device *)
Definition post_device (b : json) : R (Try HttpResponse) :=
  match x_speaker_http ctx with
  | None => answer_with (failure 501 "device proxy not available")
  | Some http =>
      let? id := mret (value_string b "speaker" "") in
      if String.eqb id "" then answer_with (badRequest "speaker required")
      else
        s ← get;
        match get_speaker id (registry_ s) with
        | None => answer_with (failure 404 ("unknown speaker: " +:+ id))
        | Some target =>
            let? method := mret (value_string b "method" "GET") in
            let? path := mret (value_string b "path" "") in
            if negb (under "/api/" path) then answer_with (badRequest "path must start with /api/")
            else
              let payload := match jfind b "body" with
                             | Some v => if is_null v then "" else dump v
                             | None => ""
                             end in
              r ← call (CDevice target method path payload) (http target method path payload);
              let '(status, text) := r in
              if (status =? 0)%Z then answer_with (refused 502 "speaker unreachable")
              else
                let data := match parse text with Done j => j | Throw _ => jstr text end in
                answer_with (json_response status
                  (jobj [("ok", jbool ((200 <=? status) && (status <? 300))%Z); ("data", data)]))
        end
  end.

(** An operation of the zone manager, with its outcome. *)
Definition on_zones {A} (f : ZoneManager -> A * ZoneManager) (z : ZoneManager) : R A :=
  let '(a, z) := f z in modify (set_zone_mgr z);; mret a.

Definition zone_status (bad : Status -> HttpResponse) (s : Status) : R (Try HttpResponse) :=
  if negb (status_ok s) then answer_with (bad s) else persist;; answer_with (done_ []).

(* [src/streamer/src/web/StreamerApiRouter.cpp:244-249] StreamerApiRouter::handlePost, /api/zones *)
Definition zones_create (z : ZoneManager) (b : json) : R (Try HttpResponse) :=
  let? name := mret (value_string b "name" "") in
  r ← on_zones (create name) z;
  match r with
  | Failure e => answer_with (failure 400 (message e))
  | Value z => persist;; answer_with (done_ [("zone_id", jstr (zone_id z)); ("name", jstr (z_name z))])
  end.

(* [src/streamer/src/web/StreamerApiRouter.cpp:250-254] StreamerApiRouter::handlePost, /api/zones/remove *)
Definition zones_remove (z : ZoneManager) (b : json) : R (Try HttpResponse) :=
  let? id := mret (value_string b "zone_id" "") in
  removed ← on_zones (remove_zone id) z;
  persist;;
  answer_with (ok (jobj [("ok", jbool removed)])).

(** The two arguments are read right to left or left to right; both readings throw the
    same on the same bodies unless both fields have a wrong type. *)
(* [src/streamer/src/web/StreamerApiRouter.cpp:255-260] StreamerApiRouter::handlePost, /api/zones/rename *)
Definition zones_rename (z : ZoneManager) (b : json) : R (Try HttpResponse) :=
  let? id := mret (value_string b "zone_id" "") in
  let? name := mret (value_string b "name" "") in
  s ← on_zones (rename id name) z;
  zone_status (fun s => failure 404 (message s)) s.

(* [src/streamer/src/web/StreamerApiRouter.cpp:261-270] StreamerApiRouter::handlePost, /api/zones/members *)
Definition zones_members (z : ZoneManager) (b : json) : R (Try HttpResponse) :=
  let? id := mret (value_string b "zone_id" "") in
  let? device := mret (value_string b "device_id" "") in
  let? add := mret (value_bool b "add" true) in
  s ← get;
  r ← on_zones (if add then addMember (registry_ s) id device else removeMember id device) z;
  zone_status (fun s => json_response 400 (jobj [("ok", jbool false); ("error", jstr (message s))])) r.

(** The outcome of a callback that starts or points the audio. *)
Definition audio_status (s : Status) : R (Try HttpResponse) :=
  answer_with (if negb (status_ok s) then refused 400 (message s) else done_ []).

(* [src/streamer/src/web/StreamerApiRouter.cpp:271-279] StreamerApiRouter::handlePost, /api/zones/play *)
Definition zones_play (b : json) : R (Try HttpResponse) :=
  match x_play_zone ctx with
  | None => answer_with (failure 501 "playback not available")
  | Some play =>
      let? k := mret (value_string b "kind" "file") in
      let? u := mret (value_string b "uri" "") in
      let? id := mret (value_string b "zone_id" "") in
      let? s := call (CPlayZone id (mk_source_spec k u)) (play id (mk_source_spec k u)) in
      audio_status s
  end.

(* [src/streamer/src/web/StreamerApiRouter.cpp:283-288] StreamerApiRouter::handlePost, /api/zones/retarget *)
Definition zones_retarget (b : json) : R (Try HttpResponse) :=
  match x_retarget_zone ctx with
  | None => answer_with (failure 501 "retarget not available")
  | Some retarget =>
      let? id := mret (value_string b "zone_id" "") in
      let? s := call (CRetarget id) (retarget id) in
      audio_status s
  end.

(* [src/streamer/src/web/StreamerApiRouter.cpp:299-306] StreamerApiRouter::handlePost, /api/zones/volume *)
Definition member_entry (sp : Speaker) (reply : Result CommandReply) : bool * json :=
  match reply with
  | Failure e =>
      (false, jobj [("device_id", jstr (device_id sp)); ("ok", jbool false); ("message", jstr (message e))])
  | Value r =>
      let entry := jobj [("device_id", jstr (device_id sp)); ("ok", jbool (p_ok r)); ("message", jstr (p_message r))] in
      (p_ok r, match jfind (p_data r) "volume" with Some v => jset entry "volume" v | None => entry end)
  end.

(* [src/streamer/src/web/StreamerApiRouter.cpp:295-307] StreamerApiRouter::handlePost, /api/zones/volume *)
Fixpoint volume_each (v : json) (l : list Speaker) : R (Try (list (bool * json))) :=
  match l with
  | [] => mret (Done [])
  | sp :: l =>
      let payload := jobj [("volume", v)] in
      let? reply := call (CSend sp "SET_VOLUME" payload) (x_sender ctx sp "SET_VOLUME" payload) in
      let? others := volume_each v l in
      mret (Done (member_entry sp reply :: others))
  end.

(* [src/streamer/src/web/StreamerApiRouter.cpp:289-309] StreamerApiRouter::handlePost, /api/zones/volume *)
Definition zones_volume (z : ZoneManager) (b : json) : R (Try HttpResponse) :=
  match jfind b "volume" with
  | None => answer_with (badRequest "volume required")
  | Some v =>
      let? id := mret (value_string b "zone_id" "") in
      s ← get;
      let? results := volume_each v (zone_members (registry_ s) id z) in
      answer_with (ok (jobj [("ok", jbool (forallb fst results)); ("results", jarr (snd <$> results))]))
  end.

(* [src/streamer/src/web/StreamerApiRouter.cpp:241-311] StreamerApiRouter::handlePost, /api/zones *)
Definition post_zones (p : string) (b : json) : R (Try HttpResponse) :=
  s ← get;
  match zones_ s with
  | None => answer_with (failure 501 "zones not available")
  | Some z =>
      if String.eqb p "/api/zones" then zones_create z b
      else if String.eqb p "/api/zones/remove" then zones_remove z b
      else if String.eqb p "/api/zones/rename" then zones_rename z b
      else if String.eqb p "/api/zones/members" then zones_members z b
      else if String.eqb p "/api/zones/play" then zones_play b
      else if String.eqb p "/api/zones/retarget" then zones_retarget b
      else if String.eqb p "/api/zones/volume" then zones_volume z b
      else answer_with notFound
  end.

(* [src/streamer/src/web/StreamerApiRouter.cpp:317-322] StreamerApiRouter::handlePost, /api/dsp *)
Definition post_dsp (b : json) : R (Try HttpResponse) :=
  match x_dsp_set ctx with
  | None => answer_with (failure 501 "dsp not available")
  | Some set =>
      let? applied := call (CDspSet b) (set b) in
      persist;;
      answer_with (ok applied)
  end.

(** ** Onboarding and pairing *)

(** One entry of the list of a bulk request: [None] for an entry without a network. *)
(* [src/streamer/src/web/StreamerApiRouter.cpp:350-355] StreamerApiRouter::handlePost, /api/onboard-ap-bulk *)
Definition bulk_item (b : json) (wifi_ssid : json) (sp : json) : Try (option (string * json)) :=
  ssid ← (if is_string sp then get_string sp else value_string sp "ssid" "");
  if String.eqb ssid "" then mret None
  else
    psk ← value_string b "wifi_psk" "";
    let one := jobj [("ssid", jstr ssid); ("wifi_ssid", wifi_ssid); ("wifi_psk", jstr psk)] in
    mret (Some (ssid, match jfind sp "name" with Some n => jset one "name" n | None => one end)).

(* [src/streamer/src/web/StreamerApiRouter.cpp:357-362] StreamerApiRouter::handlePost, /api/onboard-ap-bulk *)
Definition onboard_result (ssid : string) (r : json) : Try (bool * json) :=
  good ← value_bool r "ok" false;
  device ← value_string r "device_id" "";
  msg ← value_string r "message" "";
  mret (good, jobj [("ssid", jstr ssid); ("ok", jbool good); ("device_id", jstr device); ("message", jstr msg)]).

(* [src/streamer/src/web/StreamerApiRouter.cpp:349-363] StreamerApiRouter::handlePost, /api/onboard-ap-bulk *)
Fixpoint onboard_each (onboard : json -> C (Try json)) (b wifi_ssid : json) (l : list json) :
  R (Try (list (bool * json))) :=
  match l with
  | [] => mret (Done [])
  | sp :: l =>
      let? item := mret (bulk_item b wifi_ssid sp) in
      match item with
      | None => onboard_each onboard b wifi_ssid l
      | Some (ssid, one) =>
          let? r := call (COnboard one) (onboard one) in
          let? entry := mret (onboard_result ssid r) in
          let? others := onboard_each onboard b wifi_ssid l in
          mret (Done (entry :: others))
      end
  end.

Definition count_good (l : list (bool * json)) : Z := Z.of_nat (length (filter (fun e => e.1 = true) l)).

(* [src/streamer/src/web/StreamerApiRouter.cpp:340-369] StreamerApiRouter::handlePost, /api/onboard-ap-bulk *)
Definition post_onboard_bulk (b : json) : R (Try HttpResponse) :=
  match x_onboarder ctx with
  | None => answer_with (failure 501 "no spare wifi radio for onboarding")
  | Some onboard =>
      match jfind b "speakers" with
      | Some sps =>
          if negb (is_array sps) then answer_with (badRequest "speakers array required")
          else
            let? wifi := mret (value_string b "wifi_ssid" "") in
            if String.eqb wifi "" then answer_with (badRequest "wifi_ssid required")
            else
              let? l := mret (get_array sps) in
              let? results := onboard_each onboard b (default (jstr wifi) (jfind b "wifi_ssid")) l in
              answer_with (ok (jobj [("results", jarr (snd <$> results)); ("connected", jint (count_good results));
                                     ("total", jint (Z.of_nat (length results)))]))
      | None => answer_with (badRequest "speakers array required")
      end
  end.

(* [src/streamer/src/web/StreamerApiRouter.cpp:371-377] StreamerApiRouter::handlePost, /api/onboard-ap *)
Definition post_onboard (b : json) : R (Try HttpResponse) :=
  match x_onboarder ctx with
  | None => answer_with (failure 501 "no spare wifi radio for onboarding")
  | Some onboard =>
      let? ssid := mret (value_string b "ssid" "") in
      if String.eqb ssid "" then answer_with (badRequest "ssid required")
      else
        let? wifi := mret (value_string b "wifi_ssid" "") in
        if String.eqb wifi "" then answer_with (badRequest "wifi_ssid required")
        else
          let? res := call (COnboard b) (onboard b) in
          let? good := mret (value_bool res "ok" false) in
          answer_with (json_response (if good then 200 else 400) res)
  end.

(* [src/streamer/src/web/StreamerApiRouter.cpp:388-392] StreamerApiRouter::handlePost, /api/provisioning-window *)
Definition window_ttl (b : json) : Try (option Z) :=
  match jfind b "ttl" with
  | None => mret (Some 600%Z)
  | Some v => if is_number_integer v then ttl ← get_int v; mret (Some ttl) else mret None
  end.

(* [src/streamer/src/web/StreamerApiRouter.cpp:383-399] StreamerApiRouter::handlePost, /api/provisioning-window *)
Definition post_window (b : json) : R (Try HttpResponse) :=
  s ← get;
  match window_ s with
  | None => answer_with (failure 503 "provisioning unavailable")
  | Some w =>
      match jfind b "open" with
      | Some v =>
          if negb (is_boolean v) then answer_with (badRequest "missing 'open'")
          else
            let now := x_clock ctx s in
            let? opening := mret (get_bool v) in
            if opening : bool then
              let? ttl := mret (window_ttl b) in
              match ttl with
              | None => answer_with (badRequest "ttl must be an integer")
              | Some ttl =>
                  modify (set_win (window_open now ttl w));;
                  answer_with (window_response now (window_open now ttl w))
              end
            else
              modify (set_win (window_close w));;
              answer_with (window_response now (window_close w))
      | None => answer_with (badRequest "missing 'open'")
      end
  end.

(* [src/streamer/src/web/StreamerApiRouter.cpp:408-414] StreamerApiRouter::handlePost, /api/pair *)
Definition pair_params (b : json) (host : string) : Try PairingParams :=
  site ← value_string b "site_id" "default";
  name ← value_string b "name" host;
  code ← value_string b "setup_code" "";
  ssid ← value_string b "wifi_ssid" "";
  psk ← value_string b "wifi_psk" "";
  box ← value_string b "box_public_key" "";
  mret (mk_params "" "" "" site name code ssid psk box).

(* [src/streamer/src/web/StreamerApiRouter.cpp:401-431] StreamerApiRouter::handlePost, /api/pair *)
Definition post_pair (b : json) : R (Try HttpResponse) :=
  match x_pairing ctx with
  | None => answer_with (failure 501 "pairing not available")
  | Some pairing =>
      let? h := mret (value_string b "host" "") in
      if String.eqb h "" then answer_with (badRequest "host required")
      else if negb (contains b "setup_code" && contains b "box_public_key") then
        answer_with (badRequest "setup_code and box_public_key required")
      else
        let? params := mret (pair_params b h) in
        let? reply := call (CPair h params) (pairing h params) in
        match reply with
        | Failure e => answer_with (refused 502 (message e))
        | Value y =>
            if negb (y_ok y) then answer_with (refused 400 (y_message y))
            else
              let? name := mret (value_string b "name" (y_device_id y)) in
              let? port := mret (value_int b "control_port" 45455) in
              modify (fun s => set_reg (upsert (mk_speaker (y_device_id y) name h port) (registry_ s)).2 s);;
              persist;;
              answer_with (done_ [("device_id", jstr (y_device_id y))])
        end
  end.

(** ** Commands *)

(** [if (!body.contains(key)) return badRequest(key + " required");] and the command with
    that field alone. *)
Definition post_field (key command : string) (b : json) : R (Try HttpResponse) :=
  match jfind b key with
  | None => answer_with (badRequest (key +:+ " required"))
  | Some v => sendToSpeaker b command (jobj [(key, v)])
  end.

(** The loop that copies the fields a body has. *)
Definition picked (keys : list string) (b : json) : json :=
  jobj (omap (fun k => (fun v => (k, v)) <$> jfind b k) keys).

(** What a bulk action sends, or the message of its refusal. *)
(* [src/streamer/src/web/StreamerApiRouter.cpp:452-468] StreamerApiRouter::handlePost, /api/bulk *)
Definition bulk_action (action : string) (b : json) : string + (string * json) :=
  let with_field key command :=
    match jfind b key with Some v => inr (command, jobj [(key, v)]) | None => inl (key +:+ " required") end in
  if String.eqb action "volume" then with_field "volume" "SET_VOLUME"
  else if String.eqb action "mute" then with_field "muted" "SET_MUTE"
  else if String.eqb action "eq" then with_field "eq_profile" "SET_EQ"
  else if String.eqb action "reboot" then inr ("REBOOT", jobj [])
  else inl ("unknown action: " +:+ action).

(* [src/streamer/src/web/StreamerApiRouter.cpp:472-479] StreamerApiRouter::handlePost, /api/bulk *)
Fixpoint bulk_each (command : string) (payload : json) (l : list json) : R (Try (list (bool * json))) :=
  match l with
  | [] => mret (Done [])
  | id :: l =>
      if negb (is_string id) then bulk_each command payload l
      else
        let? res := sendToSpeaker (jobj [("speaker", id)]) command payload in
        let good := (r_status res =? 200)%Z in
        let? others := bulk_each command payload l in
        mret (Done ((good, jobj [("speaker", id); ("ok", jbool good)]) :: others))
  end.

(* [src/streamer/src/web/StreamerApiRouter.cpp:445-481] StreamerApiRouter::handlePost, /api/bulk *)
Definition post_bulk (b : json) : R (Try HttpResponse) :=
  match jfind b "speakers" with
  | Some sps =>
      if negb (is_array sps) then answer_with (badRequest "speakers array required")
      else
        let? action := mret (value_string b "action" "") in
        match bulk_action action b with
        | inl m => answer_with (badRequest m)
        | inr (command, payload) =>
            let? l := mret (get_array sps) in
            let? results := bulk_each command payload l in
            answer_with (ok (jobj [("results", jarr (snd <$> results)); ("ok_count", jint (count_good results));
                                   ("total", jint (Z.of_nat (length results)))]))
        end
  | None => answer_with (badRequest "speakers array required")
  end.

(* [src/streamer/src/web/StreamerApiRouter.cpp:524-529] StreamerApiRouter::handlePost, /api/transport *)
Definition transport_command (action : string) : option string :=
  if String.eqb action "play" then Some "START_AUDIO"
  else if String.eqb action "pause" then Some "PAUSE_AUDIO"
  else if String.eqb action "resume" then Some "RESUME_AUDIO"
  else if String.eqb action "stop" then Some "STOP_AUDIO"
  else None.

(* [src/streamer/src/web/StreamerApiRouter.cpp:522-546] StreamerApiRouter::handlePost, /api/transport *)
Definition post_transport (b : json) : R (Try HttpResponse) :=
  let? action := mret (value_string b "action" "") in
  match transport_command action with
  | None => answer_with (badRequest "action must be play|pause|resume|stop")
  | Some command =>
      match x_transport ctx with
      | None => sendToSpeaker b command jnull
      | Some transport =>
          let? id := mret (value_string b "speaker" "") in
          if String.eqb id "" then answer_with (badRequest "speaker required")
          else
            s ← get;
            match get_speaker id (registry_ s) with
            | None => answer_with (failure 404 ("unknown speaker: " +:+ id))
            | Some target =>
                st ← call (CTransport action target) (transport action target);
                if negb (status_ok st) then answer_with (refused 500 (message st))
                else sendToSpeaker b command jnull
            end
      end
  end.

Definition confirm_required : string := "confirm:true required — this command changes device state".
Definition acknowledge_required : string :=
  "acknowledge_unpair:" +:+ dq +:+ "yes" +:+ dq +:+
  " required — factory reset erases pairing and the speaker will need to be provisioned again".

(* [src/streamer/src/web/StreamerApiRouter.cpp:583-606] StreamerApiRouter::handlePost, destructive *)
Definition post_destructive (p : string) (b : json) : R (Try HttpResponse) :=
  let? confirmed := mret (value_bool b "confirm" false) in
  if negb confirmed then answer_with (badRequest confirm_required)
  else if String.eqb p "/api/reboot" then sendToSpeaker b "REBOOT" jnull
  else if String.eqb p "/api/reset-network" then sendToSpeaker b "RESET_NETWORK" jnull
  else if String.eqb p "/api/update" then
    sendToSpeaker b "UPDATE_SOFTWARE" (picked ["url"; "version"; "checksum"] b)
  else
    let? ack := mret (value_string b "acknowledge_unpair" "") in
    if negb (String.eqb ack "yes") then answer_with (badRequest acknowledge_required)
    else sendToSpeaker b "FACTORY_RESET" jnull.

(** ** Routing *)

(* [src/streamer/src/web/StreamerApiRouter.cpp:187-608] StreamerApiRouter::handlePost *)
Definition run_post (p : string) (b : json) : R (Try HttpResponse) :=
  if String.eqb p "/api/speakers" then post_speakers b
  else if String.eqb p "/api/speakers/remove" then post_speakers_remove b
  else if String.eqb p "/api/device" then post_device b
  else if under "/api/zones" p then post_zones p b
  else if String.eqb p "/api/dsp" then post_dsp b
  else if String.eqb p "/api/onboard-ap-bulk" then post_onboard_bulk b
  else if String.eqb p "/api/onboard-ap" then post_onboard b
  else if String.eqb p "/api/provisioning-window" then post_window b
  else if String.eqb p "/api/pair" then post_pair b
  else if String.eqb p "/api/status" then sendToSpeaker b "GET_STATUS" jnull
  else if String.eqb p "/api/identify" then sendToSpeaker b "RUN_AUDIO_TEST" jnull
  else if String.eqb p "/api/bulk" then post_bulk b
  else if String.eqb p "/api/volume" then post_field "volume" "SET_VOLUME" b
  else if String.eqb p "/api/mute" then post_field "muted" "SET_MUTE" b
  else if String.eqb p "/api/eq" then post_field "eq_profile" "SET_EQ" b
  else if String.eqb p "/api/delay" then post_field "delay_ms" "SET_DELAY" b
  else if String.eqb p "/api/gain" then post_field "gain_db" "SET_GAIN" b
  else if String.eqb p "/api/phase" then post_field "phase_invert" "SET_PHASE_INVERT" b
  else if String.eqb p "/api/measure" then
    sendToSpeaker b "RUN_MEASUREMENT"
      (picked ["duration_s"; "f0"; "f1"; "amplitude"; "hardware_rtl_ms"; "network_rtl_ms";
               "speed_of_sound"; "temperature_c"] b)
  else if String.eqb p "/api/transport" then post_transport b
  else if String.eqb p "/api/calibrate" then sendToSpeaker b "RUN_CALIBRATION" (picked ["duration_s"; "profile"] b)
  else if String.eqb p "/api/self-test" then sendToSpeaker b "RUN_SELF_TEST" jnull
  else if String.eqb p "/api/audio-test" then
    sendToSpeaker b "RUN_AUDIO_TEST" (picked ["duration_s"; "frequency"; "channel"] b)
  else if String.eqb p "/api/reboot" || String.eqb p "/api/update" || String.eqb p "/api/reset-network"
          || String.eqb p "/api/factory-reset" then post_destructive p b
  else answer_with notFound.

(* [src/streamer/src/web/StreamerApiRouter.cpp:175-185] StreamerApiRouter::handlePost *)
Definition handlePost (q : HttpRequest) : R (Try HttpResponse) :=
  match (if String.eqb (body q) "" then Done (jobj []) else parse (body q)) with
  | Throw what => answer_with (badRequest ("bad json: " +:+ what))
  | Done b => run_post (path q) b
  end.

Definition unauthorized : HttpResponse :=
  mk_response 401 "application/json" (dump (jobj [("error", jstr "unauthorized")])) [("WWW-Authenticate", "Bearer")].

(* [src/streamer/src/web/StreamerApiRouter.cpp:21-37] StreamerApiRouter::route *)
Definition route (q : HttpRequest) : R (Try HttpResponse) :=
  let denied := match x_auth ctx with
                | Some a => under "/api/" (path q) && negb (authorize a (auth q))
                | None => false
                end in
  if denied then answer_with unauthorized
  else if String.eqb (method q) "GET" then handleGet (path q) (Web.host q)
  else if String.eqb (method q) "POST" then handlePost q
  else answer_with (json_response 405 (jobj [("error", jstr "method not allowed")])).
End Router.
Arguments StreamerContext {J} W E.
Arguments Output {J} E.

(** ** What a run emits *)

Section Emits.
Context {J : JsonLib} {W E : Type} (ctx : StreamerContext W E) (G : Call -> Prop).

(** Every call of a run satisfies [G]. *)
Definition good (o : Output E) : Prop := match o with Called c => G c | Inside _ => True end.
Definition emits {A} (m : SW (Site W) (Output E) A) : Prop := respects (fun _ es _ => Forall good es) m.

#[local] Instance emits_rel : RunRel (fun (_ : Site W) es (_ : Site W) => Forall good es).
Proof. split; [constructor|]. intros. by apply Forall_app. Qed.

Lemma emits_ret {A} (a : A) : emits (mret a).
Proof. apply respects_ret; exact _. Qed.

Lemma emits_bind {A B} (f : A -> SW (Site W) (Output E) B) m : emits m -> (forall a, emits (f a)) -> emits (mbind f m).
Proof. apply respects_bind; exact _. Qed.

Lemma emits_get {B} (f : Site W -> SW (Site W) (Output E) B) : (forall s, emits (f s)) -> emits (mbind f get).
Proof. intros Hf. apply emits_bind; [intros s; constructor|exact Hf]. Qed.

Lemma emits_try {A B} (m : SW (Site W) (Output E) (Try A)) (f : A -> SW (Site W) (Output E) (Try B)) :
  emits m -> (forall a, emits (f a)) -> emits (try_bind m f).
Proof. intros Hm Hf. apply emits_bind; [exact Hm|]. intros [a|w]; [apply Hf|apply emits_ret]. Qed.

(** The pure steps: what is read decides the rest. *)
Lemma emits_read {A B} (t : Try A) (f : A -> SW (Site W) (Output E) (Try B)) :
  (forall a, t = Done a -> emits (f a)) -> emits (try_bind (mret t) f).
Proof.
  intros Hf s. unfold try_bind. autorewrite with nexus_simpl. cbn [value_of state_after effects_of mret SW_ret fst snd].
  destruct t as [a|w]; [by apply Hf|constructor].
Qed.

Lemma emits_modify f : emits (modify f).
Proof. intros s. constructor. Qed.

Lemma emits_call {A} c (m : SW (Site W) E A) : G c -> emits (call c m).
Proof.
  intros Hc. apply emits_bind; [intros s; by constructor|]. intros _ s.
  unfold zoom, effects_of. cbn [snd]. by apply Forall_fmap, Forall_true.
Qed.

Lemma emits_persist : G CPersist -> emits (persist ctx).
Proof. intros Hc. unfold persist. destruct (x_persist ctx); [by apply emits_call|apply emits_ret]. Qed.
End Emits.

(** Walk over a handler: split its steps and its tests, discharge the calls. *)
Ltac emits_step :=
  first
    [ apply emits_ret
    | apply emits_get; intros ?
    | apply emits_read; intros ? ?
    | apply emits_modify
    | apply emits_persist
    | apply emits_call
    | apply emits_try; [|intros ?]
    | apply emits_bind; [|intros ?]
    | case_match ].
Ltac emits_walk := repeat emits_step.

(** ** Commands that change what a speaker is *)

Section Destructive.
Context {J : JsonLib} {W E : Type} (ctx : StreamerContext W E).

Definition lifecycle (command : string) : Prop :=
  command ∈ ["REBOOT"; "UPDATE_SOFTWARE"; "RESET_NETWORK"; "FACTORY_RESET"].

#[local] Instance lifecycle_dec c : Decision (lifecycle c).
Proof. unfold lifecycle. apply _. Defined.

Definition ordinary (c : Call) : Prop :=
  match c with CSend _ command _ => ~ lifecycle command | _ => True end.

Lemma send_ordinary b command payload : ~ lifecycle command -> emits ordinary (sendToSpeaker ctx b command payload).
Proof. intros Hc. unfold sendToSpeaker. emits_walk; by try exact Hc. Qed.

Lemma field_ordinary k command b : ~ lifecycle command -> emits ordinary (post_field ctx k command b).
Proof. intros Hc. unfold post_field. case_match; [by apply send_ordinary|apply emits_ret]. Qed.

Lemma volume_each_ordinary v l : emits ordinary (volume_each ctx v l).
Proof.
  induction l as [|sp l IH]; cbn [volume_each]; emits_walk; try exact IH.
  by_decision.
Qed.

Lemma zones_ordinary p b : emits ordinary (post_zones ctx p b).
Proof.
  unfold post_zones, zones_create, zones_remove, zones_rename, zones_members, zones_play, zones_retarget,
    zones_volume, on_zones, zone_status, audio_status, answer_with.
  emits_walk; try exact I. apply volume_each_ordinary.
Qed.

Lemma onboard_each_ordinary (onboard : json -> SW (Site W) E (Try json)) b wifi l : emits ordinary (onboard_each onboard b wifi l).
Proof. induction l as [|sp l IH]; cbn [onboard_each]; emits_walk; try exact IH; exact I. Qed.

Lemma transport_ordinary b : emits ordinary (post_transport ctx b).
Proof.
  unfold post_transport, answer_with. apply emits_read. intros action _. unfold transport_command.
  repeat case_match; simplify_eq/=;
    repeat first [apply send_ordinary; by_decision | exact I | emits_step].
Qed.

(** The handlers of the routes that are neither bulk nor destructive. *)
Lemma run_post_ordinary p b :
  p <> "/api/bulk" ->
  String.eqb p "/api/reboot" || String.eqb p "/api/update" || String.eqb p "/api/reset-network"
    || String.eqb p "/api/factory-reset" = false ->
  emits ordinary (run_post ctx p b).
Proof.
  intros Hb Hd. unfold run_post. rewrite Hd.
  repeat lazymatch goal with
  | |- emits _ (if String.eqb p "/api/bulk" then _ else _) =>
      destruct (String.eqb_spec p "/api/bulk"); [done|]
  | |- emits _ (if ?x then _ else _) => destruct x
  end;
  try first [apply send_ordinary; by_decision | apply field_ordinary; by_decision
            | apply zones_ordinary | apply transport_ordinary];
  unfold post_speakers, post_speakers_remove, post_device, post_dsp, post_onboard_bulk, post_onboard,
    post_window, post_pair, answer_with; emits_walk; try exact I; apply onboard_each_ordinary.
Qed.

Lemma get_ordinary path host : emits ordinary (handleGet ctx path host).
Proof.
  unfold handleGet, handed_on, answer_with. apply emits_get. intros s.
  repeat lazymatch goal with |- emits _ (if ?x then _ else _) => destruct x end; emits_walk; exact I.
Qed.

(** The speaker a request names. *)
Definition addressed (b : json) (s : Site W) (sp : Speaker) : Prop :=
  exists id, value_string b "speaker" "" = Done id /\ get_speaker id (registry_ s) = Some sp.

Definition sends_to (b : json) (s : Site W) (command : string) (c : Call) : Prop :=
  match c with CSend sp command' _ => command' = command /\ addressed b s sp | _ => False end.

Lemma sendToSpeaker_sends b command payload s :
  Forall (good (sends_to b s command)) (effects_of (sendToSpeaker ctx b command payload) s).
Proof.
  unfold sendToSpeaker. destruct (value_string b "speaker" "") as [id|w] eqn:Hid; [|constructor].
  unfold try_bind at 1. rewrite effects_of_bind. cbn [value_of state_after effects_of mret SW_ret fst snd app].
  destruct (String.eqb id ""); [constructor|]. rewrite effects_of_bind.
  cbn [get value_of state_after effects_of fst snd app].
  destruct (get_speaker id (registry_ s)) as [target|] eqn:Hsp; [|constructor].
  apply (emits_try (sends_to b s command)).
  - apply emits_call. split; [done|]. by exists id.
  - intros [e|r]; unfold answer_with; emits_walk.
Qed.

(** What a destructive route asks of its body. *)
Definition route_of (command : string) : string :=
  if String.eqb command "REBOOT" then "/api/reboot"
  else if String.eqb command "UPDATE_SOFTWARE" then "/api/update"
  else if String.eqb command "RESET_NETWORK" then "/api/reset-network"
  else "/api/factory-reset".

Definition confirmed_for (p : string) (b : json) (command : string) : Prop :=
  p = route_of command /\
  value_bool b "confirm" false = Done true /\
  (command = "FACTORY_RESET" -> value_string b "acknowledge_unpair" "" = Done "yes").

Lemma destructive_sends p b s :
  String.eqb p "/api/reboot" || String.eqb p "/api/update" || String.eqb p "/api/reset-network"
    || String.eqb p "/api/factory-reset" = true ->
  Forall (good (fun c => match c with
    | CSend sp command _ => confirmed_for p b command /\ addressed b s sp | _ => False end))
    (effects_of (post_destructive ctx p b) s).
Proof.
  intros Hp. unfold post_destructive, try_bind at 1.
  rewrite effects_of_bind. cbn [value_of state_after effects_of mret SW_ret fst snd app].
  destruct (value_bool b "confirm" false) as [[]|] eqn:Hc; cbn [negb]; [|constructor..].
  assert (forall c pl, confirmed_for p b c -> Forall (good (fun c => match c with
    | CSend sp command _ => confirmed_for p b command /\ addressed b s sp | _ => False end))
    (effects_of (sendToSpeaker ctx b c pl) s)) as Hsend.
  { intros c pl Hcf. eapply Forall_impl; [apply sendToSpeaker_sends|].
    intros [[]|]; cbn; try done. by intros [-> ?]. }
  destruct (String.eqb_spec p "/api/reboot") as [->|]; [by apply Hsend|].
  destruct (String.eqb_spec p "/api/reset-network") as [->|]; [by apply Hsend|].
  destruct (String.eqb_spec p "/api/update") as [->|]; [by apply Hsend|].
  destruct (String.eqb_spec p "/api/factory-reset") as [->|]; [|done].
  unfold try_bind at 1. rewrite effects_of_bind. cbn [value_of state_after effects_of mret SW_ret fst snd app].
  destruct (value_string b "acknowledge_unpair" "") as [a|] eqn:Ha; [|constructor].
  destruct (String.eqb_spec a "yes") as [->|]; [by apply Hsend|constructor].
Qed.

Definition only (command : string) (c : Call) : Prop :=
  match c with CSend _ command' _ => command' = command | _ => False end.

Lemma send_only b command payload : emits (only command) (sendToSpeaker ctx b command payload).
Proof.
  intros s. eapply Forall_impl; [apply sendToSpeaker_sends|]. intros [[]|]; cbn; try done. by intros [-> _].
Qed.

Lemma bulk_each_only command payload l : emits (only command) (bulk_each ctx command payload l).
Proof.
  induction l as [|id l IH]; cbn [bulk_each];
    repeat first [apply send_only | apply IH | emits_step].
Qed.

(** A bulk request sends one command, and of the lifecycle commands only the reboot. *)
Lemma bulk_sends b :
  emits (fun c => match c with
    | CSend _ command _ => lifecycle command -> command = "REBOOT" /\ value_string b "action" "" = Done "reboot"
    | _ => False end) (post_bulk ctx b).
Proof.
  unfold post_bulk, answer_with. case_match; [|apply emits_ret]. case_match; [apply emits_ret|].
  apply emits_read. intros action Ha. destruct (bulk_action action b) as [m|[command payload]] eqn:Hb; [apply emits_ret|].
  apply emits_read. intros l _. apply emits_try; [|intros ?; apply emits_ret].
  intros s. eapply Forall_impl; [apply bulk_each_only|]. intros [[]|]; cbn; try done. intros -> Hl.
  unfold bulk_action in Hb.
  repeat lazymatch type of Hb with
  | (if String.eqb action "reboot" then _ else _) = _ => destruct (String.eqb_spec action "reboot") as [->|]
  | (if ?x then _ else _) = _ => destruct x
  | context [jfind b ?k] => destruct (jfind b k)
  end; simplify_eq; try by split.
  all: exfalso; revert Hl; refine (bool_decide_eq_true_1 (~ lifecycle _) _); vm_compute; reflexivity.
Qed.

Lemma run_post_destructive p b :
  String.eqb p "/api/reboot" || String.eqb p "/api/update" || String.eqb p "/api/reset-network"
    || String.eqb p "/api/factory-reset" = true -> run_post ctx p b = post_destructive ctx p b.
Proof.
  intros Hp. unfold run_post. rewrite Hp.
  repeat (apply orb_true_iff in Hp as [Hp|Hp]); apply String.eqb_eq in Hp as ->; reflexivity.
Qed.

Lemma destructive_path p b command s sp :
  confirmed_for p b command /\ addressed b s sp \/
  command = "REBOOT" /\ p = "/api/bulk" /\ value_string b "action" "" = Done "reboot" ->
  under "/api/" p = true.
Proof.
  intros [[[-> _] _]|(_ & -> & _)]; [|done]. unfold route_of.
  repeat case_match; reflexivity.
Qed.

(** ** Who may use the interface *)

(** A request without the token: the answer does not depend on the site, which it leaves
    as it is. *)
Lemma post_elsewhere p b : under "/api/" p = false -> run_post ctx p b = answer_with notFound.
Proof.
  intros Hp. unfold run_post.
  assert (forall q, under "/api/" q = true -> String.eqb p q = false) as Hne.
  { intros q Hq. destruct (String.eqb_spec p q) as [->|]; congruence. }
  assert (under "/api/zones" p = false) as ->.
  { unfold under in *. destruct (strip_prefix "/api/zones" p) as [r|] eqn:Hr; [|done].
    apply strip_prefix_Some in Hr as ->. exfalso. revert Hp. by vm_compute. }
  by rewrite !Hne by reflexivity.
Qed.

Lemma get_elsewhere path host s : under "/api/" path = false ->
  exists r, handleGet ctx path host s = (Done r, s, []) /\ (r_status r = 200%Z -> r_body r = x_page ctx) /\
            r = (if String.eqb path "/" || String.eqb path "/index.html"
                 then mk_response 200 "text/html; charset=utf-8" (x_page ctx) [] else notFound).
Proof.
  intros Hp. unfold handleGet. rewrite get_bind_run.
  assert (forall q, under "/api/" q = true -> String.eqb path q = false) as Hne.
  { intros q Hq. destruct (String.eqb_spec path q) as [->|]; congruence. }
  destruct (String.eqb path "/" || String.eqb path "/index.html"); [by eexists|].
  rewrite !Hne by reflexivity. by eexists.
Qed.
End Destructive.

(** ** The link to the interface *)

(** A browser's reading of the query of a link ([URLSearchParams]). *)
Definition hex_value (c : ascii) : option nat :=
  let n := nat_of_ascii c in
  if ((48 <=? n) && (n <=? 57))%nat then Some (n - 48)
  else if ((65 <=? n) && (n <=? 70))%nat then Some (n - 55)
  else if ((97 <=? n) && (n <=? 102))%nat then Some (n - 87) else None.

Fixpoint query_decode (s : string) : option string :=
  match s with
  | EmptyString => Some EmptyString
  | String c s =>
      if bool_decide (c = "%"%char) then
        match s with
        | String h (String l s) =>
            h ← hex_value h; l ← hex_value l; s ← query_decode s;
            Some (String (ascii_of_nat (h * 16 + l)) s)
        | _ => None
        end
      else if bool_decide (c = "+"%char) then String " "%char <$> query_decode s
      else String c <$> query_decode s
  end.

Fixpoint all_chars (P : ascii -> bool) (s : string) : bool :=
  match s with EmptyString => true | String c s => P c && all_chars P s end.

Definition url_safe (c : ascii) : bool := unreserved c || bool_decide (c = "%"%char).

Lemma unreserved_plain c : unreserved c = true ->
  bool_decide (c = "%"%char) = false /\ bool_decide (c = "+"%char) = false.
Proof. by destruct c as [[] [] [] [] [] [] [] []]. Qed.

Lemma hex_pair c :
  let h := hex_char (nat_of_ascii c / 16) in
  let l := hex_char (nat_of_ascii c mod 16) in
  (a ← hex_value h; b ← hex_value l; Some (ascii_of_nat (a * 16 + b))) = Some c /\
  unreserved h = true /\ unreserved l = true.
Proof. by destruct c as [[] [] [] [] [] [] [] []]. Qed.

Lemma query_decode_encode s :
  query_decode (percent_encode s) = Some s /\ all_chars url_safe (percent_encode s) = true.
Proof.
  induction s as [|c s [IH Hs]]; [done|]. cbn [percent_encode].
  destruct (unreserved c) eqn:Hc.
  - cbn [query_decode all_chars]. destruct (unreserved_plain c Hc) as [-> ->]. rewrite IH, Hs.
    unfold url_safe. by rewrite Hc.
  - destruct (hex_pair c) as (Hp & Hh & Hl).
    set (h := hex_char (nat_of_ascii c / 16)) in *. set (l := hex_char (nat_of_ascii c mod 16)) in *.
    cbn [query_decode all_chars]. rewrite bool_decide_eq_true_2 by done. rewrite IH, Hs.
    unfold url_safe at 2 3. rewrite Hh, Hl. split; [|done]. revert Hp.
    destruct (hex_value h); [|done]. destruct (hex_value l); [|done]. cbn. by intros [= ->].
Qed.

(** ** Properties *)

(** C33: Without the token the interface gives nothing away and does nothing.  When the
    streamer has a token, the answer to a request that does not carry it is the same
    whatever the site holds; the request changes nothing and uses no callback; under
    /api/ the answer is a 401, reads included, and elsewhere the only thing served is
    the page. *)
Theorem api_needs_token (J : JsonLib) (W E : Type) (ctx : StreamerContext W E) a q :
  x_auth ctx = Some a -> auth q <> "Bearer " +:+ token_ a ->
  exists r, (forall s, route ctx q s = (Done r, s, [])) /\
    (under "/api/" (path q) = true -> r_status r = 401%Z) /\
    (r_status r = 200%Z -> r_body r = x_page ctx).
Proof.
  intros Ha Hq. unfold route. rewrite Ha.
  destruct (authorize a (auth q)) eqn:Hauth; [by apply authorize_iff in Hauth as []|]. rewrite andb_true_r.
  destruct (under "/api/" (path q)) eqn:Hp; [by exists unauthorized|].
  destruct (String.eqb (method q) "GET").
  { eexists. split; [|split; [done|]].
    - intros s. destruct (get_elsewhere ctx (path q) (Web.host q) s Hp) as (r & -> & _ & ->). reflexivity.
    - destruct (String.eqb (path q) "/" || String.eqb (path q) "/index.html"); done. }
  destruct (String.eqb (method q) "POST"); [|by eexists].
  unfold handlePost. destruct (if String.eqb (body q) "" then _ else _) as [b|w]; [|by eexists].
  rewrite post_elsewhere by done. by eexists.
Qed.

(** C34: The commands that change what a speaker is are sent only when asked for in so many
    words.  If a request makes the router send REBOOT, UPDATE_SOFTWARE, RESET_NETWORK or
    FACTORY_RESET, then it is an authorised POST with a JSON body, and either it came to
    the route of that command, the body says confirm:true - for a factory reset also
    acknowledge_unpair:yes - and the command goes to the registered speaker the body
    names; or it is a bulk request whose action is reboot. *)
Theorem destructive_needs_confirmation (J : JsonLib) (L : JsonLaws J) (W E : Type)
    (ctx : StreamerContext W E) q s sp command payload :
  Called (CSend sp command payload) ∈ effects_of (route ctx q) s -> lifecycle command ->
  (forall a, x_auth ctx = Some a -> auth q = "Bearer " +:+ token_ a) /\ method q = "POST" /\
  exists b, (if String.eqb (body q) "" then Done (jobj []) else parse (body q)) = Done b /\
    (confirmed_for (path q) b command /\ addressed b s sp \/
     command = "REBOOT" /\ path q = "/api/bulk" /\ value_string b "action" "" = Done "reboot").
Proof.
  intros Hin Hl. pose proof (Forall_forall (good (E:=E) ordinary)) as Hall.
  unfold route in Hin. destruct (match x_auth ctx with Some _ => _ | None => _ end) eqn:Hd; [by apply not_elem_of_nil in Hin|].
  destruct (String.eqb_spec (method q) "GET").
  { exfalso. by apply (proj1 (Hall _) (get_ordinary ctx (path q) (Web.host q) s) _ Hin). }
  destruct (String.eqb_spec (method q) "POST"); [|by apply not_elem_of_nil in Hin].
  unfold handlePost in Hin. destruct (if String.eqb (body q) "" then _ else _) as [b|w] eqn:Hb; [|by apply not_elem_of_nil in Hin].
  assert (confirmed_for (path q) b command /\ addressed b s sp \/
     command = "REBOOT" /\ path q = "/api/bulk" /\ value_string b "action" "" = Done "reboot") as Hc.
  { destruct (String.eqb_spec (path q) "/api/bulk") as [Hp|Hp].
    - right. unfold run_post in Hin. rewrite Hp in Hin. cbn [String.eqb Ascii.eqb Bool.eqb] in Hin.
      change (under "/api/zones" "/api/bulk") with false in Hin.
      pose proof (proj1 (Forall_forall _ _) (bulk_sends ctx b s) _ Hin Hl) as [? ?]. done.
    - destruct (String.eqb (path q) "/api/reboot" || String.eqb (path q) "/api/update"
        || String.eqb (path q) "/api/reset-network" || String.eqb (path q) "/api/factory-reset") eqn:Hdes.
      + left. rewrite run_post_destructive in Hin by done.
        exact (proj1 (Forall_forall _ _) (destructive_sends ctx (path q) b s Hdes) _ Hin).
      + exfalso. by apply (proj1 (Hall _) (run_post_ordinary ctx (path q) b Hp Hdes s) _ Hin). }
  split_and!; [|done|by exists b].
  intros a Ha. rewrite Ha, (destructive_path _ _ _ _ _ Hc) in Hd.
  apply negb_false_iff, authorize_iff in Hd as [? _]. done.
Qed.

(** The link behind the QR code carries the token intact.  Whatever bytes the token
    has, the link is http, the address of the request and a query whose value a browser
    reads back as exactly the token; and the query has no character that means anything in
    a link but the percent sign. *)
Theorem control_url_carries_token host token :
  exists query, control_url host token = "http://" +:+ host +:+ "/?t=" +:+ query /\
    query_decode query = Some token /\ all_chars url_safe query = true.
Proof. exists (percent_encode token). split; [done|]. apply query_decode_encode. Qed.

(** ** What the routes do not do *)

Section Divergences.
Context {J : JsonLib} {L : JsonLaws J} {W E : Type} (ctx : StreamerContext W E).

(** A speaker that refused a command is answered with status 200, which the bulk route
    takes for its success. *)
Lemma bulk_counts_refusals id sp command payload s :
  id <> "" -> get_speaker id (registry_ s) = Some sp ->
  (forall s', exists r, value_of (x_sender ctx sp command payload) s' = Done (Value r) /\ p_ok r = false) ->
  value_of (bulk_each ctx command payload [jstr id]) s =
    Done [(true, jobj [("speaker", jstr id); ("ok", jbool true)])].
Proof.
  intros Hid Hsp Hs. cbn [bulk_each]. rewrite is_string_str. cbn [negb].
  unfold try_bind at 1. rewrite value_of_bind.
  assert (exists r, value_of (sendToSpeaker ctx (jobj [("speaker", jstr id)]) command payload) s = Done r /\
                    r_status r = 200%Z) as (r & -> & Hr).
  { unfold sendToSpeaker, value_string. rewrite value_or_obj. cbn [assoc String.eqb Ascii.eqb Bool.eqb].
    rewrite get_string_str. unfold try_bind at 1. rewrite value_of_bind. cbn [value_of state_after mret SW_ret fst snd].
    destruct (String.eqb_spec id "") as [|_]; [done|]. rewrite value_of_bind. cbn [get value_of state_after fst snd].
    rewrite Hsp. unfold try_bind. rewrite value_of_bind. unfold call at 1. rewrite value_of_bind.
    cbn [tell value_of state_after fst snd]. destruct (Hs s) as (r & Hv & _).
    change (value_of (zoom (fun s => s) (fun s _ => s) (Inside (E:=E)) (x_sender ctx sp command payload)) s)
      with (value_of (x_sender ctx sp command payload) s). rewrite Hv, value_of_bind. by eexists. }
  unfold try_bind. cbn [bulk_each]. rewrite value_of_bind. cbn. by rewrite Hr.
Qed.

End Divergences.

(** ** Witnesses *)

Section Witnesses.
Local Existing Instance jvalue_lib.

(** A site with one speaker, whose line answers every command with a refusal. *)
Definition kitchen : Speaker := mk_speaker "SPK-1" "Kitchen" "10.0.0.7" 45455.
Definition demo_site : Site unit := mk_site [kitchen] None None tt.
Definition demo_context : StreamerContext unit unit := {|
  x_sender _ _ _ := mret (Done (Value (mk_reply "c" false "busy" 7 (JObj []))));
  x_pairing := None; x_discoverer := None; x_scanner := None; x_ap_scanner := None; x_onboarder := None;
  x_transport := None; x_speaker_http := None; x_play_zone := None; x_retarget_zone := None;
  x_persist := None; x_dsp_get := None; x_dsp_set := None; x_levels := None; x_mac_lookup := None;
  x_store := None; x_now _ := 0%Z; x_clock _ := 0%Z; x_devices := []; x_kinds := [];
  x_auth := Some (mk_auth "secret"); x_page := "page" |}.

Definition demo_post (p token : string) (l : list (string * JValue)) : HttpRequest :=
  mk_request "POST" p (dump (JObj l)) ("Bearer " +:+ token) "10.0.0.2:8090".

Definition reset_request : HttpRequest :=
  demo_post "/api/factory-reset" "secret"
    [("speaker", JStr "SPK-1"); ("confirm", JBool true); ("acknowledge_unpair", JStr "yes")].
Definition bulk_reboot_request : HttpRequest :=
  demo_post "/api/bulk" "secret" [("speakers", JArr [JStr "SPK-1"]); ("action", JStr "reboot")].

(** The bulk route reboots a speaker without a confirmation, and reports as done what the
    speaker refused. *)
Lemma bulk_reboot_unconfirmed :
  let r := route demo_context bulk_reboot_request demo_site in
  r.2 = [Called (CSend kitchen "REBOOT" (JObj []))] /\
  value_bool (JObj [("speakers", JArr [JStr "SPK-1"]); ("action", JStr "reboot")]) "confirm" false = Done false /\
  r.1.1 = Done (ok (JObj [("results", JArr [JObj [("speaker", JStr "SPK-1"); ("ok", JBool true)]]);
                          ("ok_count", JInt 1); ("total", JInt 1)])).
Proof. intros r. split; [|split]; reflexivity. Qed.

Lemma api_needs_token_witness :
  route demo_context (demo_post "/api/factory-reset" "guess" []) demo_site = (Done unauthorized, demo_site, []) /\
  exists r, forall s : Site unit, route demo_context (demo_post "/api/factory-reset" "guess" []) s = (Done r, s, []).
Proof.
  split; [reflexivity|].
  destruct (api_needs_token jvalue_lib unit unit demo_context (mk_auth "secret")
    (demo_post "/api/factory-reset" "guess" []) eq_refl) as (r & Hr & _); [vm_compute; discriminate|].
  by exists r.
Defined.

Lemma destructive_needs_confirmation_witness :
  route demo_context reset_request demo_site =
    (Done (ok (JObj [("ok", JBool false); ("message", JStr "busy"); ("data", JObj [])])), demo_site,
     [Called (CSend kitchen "FACTORY_RESET" JNull)]) /\
  method reset_request = "POST".
Proof.
  split; [reflexivity|].
  destruct (destructive_needs_confirmation jvalue_lib jvalue_laws unit unit demo_context reset_request demo_site
    kitchen "FACTORY_RESET" JNull) as (_ & Hm & _); [| |exact Hm].
  - assert (effects_of (route demo_context reset_request) demo_site = [Called (CSend kitchen "FACTORY_RESET" JNull)])
      as -> by reflexivity.
    apply list_elem_of_here.
  - by_decision.
Defined.
End Witnesses.
