(* ===== verification/Sources.v ===== *)
(** * Sources: where the streamer's audio comes from

    Models [streamer/src/sources]: the WAV reader with its chunk walk and its resampler
    ([WavFileSource.cpp]), raw PCM from a pipe ([StdinPcmSource.h], [ProcessPcmSource.h]),
    the enumeration of capture devices on Linux ([CaptureDevices.cpp]) and the factory of
    them all ([SourceFactory.h]).  A file is the list of its bytes from the read position
    on; a byte is a number below 256.  What C++ leaves undefined, reading past the end of a
    header or erasing past the end of a vector, is an outcome of its own. *)

From Stdlib Require Import Ascii.
From Stdlib Require String.
From stdpp Require Import pretty.
From S2P Require Import Prelude Core Files Audio Sender Pairing Network StreamerApi.
Local Open Scope Z_scope.

(** ** Bytes *)

Definition byte_of (l : list Z) (i : nat) : Z := nth i l 0.

(* [src/streamer/src/sources/WavFileSource.cpp:17-20] le16 *)
Definition le16 (l : list Z) (i : nat) : Z := Z.lor (byte_of l i) (Z.shiftl (byte_of l (S i)) 8).
(* [src/streamer/src/sources/WavFileSource.cpp:13-16] le32 *)
Definition le32 (l : list Z) (i : nat) : Z :=
  Z.lor (Z.lor (byte_of l i) (Z.shiftl (byte_of l (i + 1)) 8))
    (Z.lor (Z.shiftl (byte_of l (i + 2)) 16) (Z.shiftl (byte_of l (i + 3)) 24)).

(** The first [n] elements, or all, and the rest; [n] may be far beyond the length. *)
Definition front {A} (n : Z) (l : list A) : list A :=
  if Z.of_nat (length l) <=? n then l else take (Z.to_nat n) l.
Definition after {A} (n : Z) (l : list A) : list A :=
  if Z.of_nat (length l) <=? n then [] else drop (Z.to_nat n) l.

Definition tag (s : string) : list Z := (fun c => Z.of_nat (nat_of_ascii c)) <$> String.list_ascii_of_string s.

(** ** WAV files *)

(* [src/streamer/src/sources/WavFileSource.h:49-59] WavFileSource *)
Record WavFileSource := mk_wav
  { file_ : list Z; src_rate_ : Z; src_channels_ : Z; data_remaining_ : Z; exhausted_ : bool;
    w_pos_ : spec_float; pending_ : list (Z * Z); source_eof_ : bool }.

(** What opening a file comes to. *)
Inductive Opening := Opened (s : WavFileSource) | Refused (s : Status) | Undefined.

Definition invalid (m : string) : Opening := Refused (error ErrorCode.InvalidArg m).
Definition no_data (path : string) : Opening := invalid ("wav has no data chunk: " +:+ path).

(** The checks on a format chunk, in their order; the fields are read first. *)
(* [src/streamer/src/sources/WavFileSource.cpp:53-68] WavFileSource::open *)
Definition check_format (fmt : list Z) : Opening + (Z * Z) :=
  if (length fmt <? 16)%nat then inl Undefined
  else
    let channels := le16 fmt 2 in
    let rate := to_signed 32 (le32 fmt 4) in
    let bits := le16 fmt 14 in
    if negb (le16 fmt 0 =? 1) then
      inl (invalid ("wav is not uncompressed PCM (format " +:+ pretty (le16 fmt 0) +:+
                    "); use a file source that decodes it"))
    else if negb (bits =? 16) then inl (invalid ("unsupported wav bit depth: " +:+ pretty bits))
    else if (channels <? 1) || (rate <=? 0) then inl (invalid "wav header has invalid rate/channels")
    else inr (channels, rate).

(** The walk over the chunks; a round takes the 8 bytes of a chunk header, so as many
    rounds as there are bytes are enough.  [have] is the format, once there is one. *)
(* [src/streamer/src/sources/WavFileSource.cpp:45-80] WavFileSource::open *)
Fixpoint walk (fuel : nat) (path : string) (f : list Z) (have : option (Z * Z)) : Opening :=
  match fuel with
  | O => no_data path
  | S fuel =>
      if (length f <? 8)%nat then no_data path
      else
        let id := take 4 f in
        let size := le32 f 4 in
        let rest := drop 8 f in
        if bool_decide (id = tag "fmt ") then
          if Z.of_nat (length rest) <? size then no_data path
          else
            match check_format (take (Z.to_nat size) rest) with
            | inl r => r
            | inr fmt => walk fuel path (drop (Z.to_nat size) rest) (Some fmt)
            end
        else if bool_decide (id = tag "data") then
          match have with
          | None => invalid "wav data chunk before fmt"
          | Some (channels, rate) => Opened (mk_wav rest rate channels size false f0 [] false)
          end
        else walk fuel path (after (wrap 32 (size + Z.land size 1)) rest) have
  end.

(** [file] is what the path names, if it can be opened. *)
(* [src/streamer/src/sources/WavFileSource.cpp:28-81] WavFileSource::open *)
Definition open_wav (path : string) (file : option (list Z)) : Opening :=
  match file with
  | None => Refused (error ErrorCode.NotFound ("cannot open wav: " +:+ path))
  | Some f =>
      if (length f <? 12)%nat || negb (bool_decide (take 4 f = tag "RIFF"))
         || negb (bool_decide (take 4 (drop 8 f) = tag "WAVE"))
      then invalid ("not a RIFF/WAVE file: " +:+ path)
      else walk (length f) path (drop 12 f) None
  end.

(** The frames of a raw block, widened to stereo. *)
(* [src/streamer/src/sources/WavFileSource.cpp:96-102] WavFileSource::readSourceFrames *)
Fixpoint widen (n : nat) (channels : Z) (raw : list Z) : list (Z * Z) :=
  match n with
  | O => []
  | S n =>
      let l := to_signed 16 (le16 raw 0) in
      let r := if 1 <? channels then to_signed 16 (le16 raw 2) else l in
      (l, r) :: widen n channels (drop (Z.to_nat (channels * 2)) raw)
  end.

Definition set_file (f : list Z) (remaining : Z) (s : WavFileSource) : WavFileSource :=
  mk_wav f (src_rate_ s) (src_channels_ s) remaining (exhausted_ s) (w_pos_ s) (pending_ s) (source_eof_ s).
Definition set_exhausted (s : WavFileSource) : WavFileSource :=
  mk_wav (file_ s) (src_rate_ s) (src_channels_ s) (data_remaining_ s) true (w_pos_ s) (pending_ s) (source_eof_ s).

(* [src/streamer/src/sources/WavFileSource.cpp:84-104] WavFileSource::readSourceFrames *)
Definition readSourceFrames (frames : nat) (s : WavFileSource) : list (Z * Z) * WavFileSource :=
  if (frames =? 0)%nat || (data_remaining_ s =? 0) then ([], s)
  else
    let bytes_per_frame := src_channels_ s * 2 in
    let want := Z.min (Z.of_nat frames * bytes_per_frame) (data_remaining_ s) in
    let raw := front want (file_ s) in
    let got := Z.of_nat (length raw) in
    (widen (Z.to_nat (got / bytes_per_frame)) (src_channels_ s) raw,
     set_file (after want (file_ s)) (data_remaining_ s - got) s).

Definition interleaved (l : list (Z * Z)) : list Z := mjoin ((fun p => [p.1; p.2]) <$> l).

(** The fast path, at the wire rate. *)
(* [src/streamer/src/sources/WavFileSource.cpp:109-114] WavFileSource::read *)
Definition read_native (max_frames : nat) (s : WavFileSource) : list Z * nat * WavFileSource :=
  let '(l, s) := readSourceFrames max_frames s in
  (interleaved l, length l, if (length l =? 0)%nat then set_exhausted s else s).

(** Fill the window until the frame after next is there; a round reads at least one frame
    or finds the end. *)
(* [src/streamer/src/sources/WavFileSource.cpp:121-126] WavFileSource::read *)
Fixpoint fill_window (fuel need : nat) (s : WavFileSource) : WavFileSource :=
  match fuel with
  | O => s
  | S fuel =>
      if source_eof_ s || (need <? length (pending_ s))%nat then s
      else
        let '(l, s) := readSourceFrames 1024 s in
        fill_window fuel need
          (mk_wav (file_ s) (src_rate_ s) (src_channels_ s) (data_remaining_ s) (exhausted_ s) (w_pos_ s)
             (pending_ s ++ l) (bool_decide (l = [])))
  end.

(** One interpolated sample: the conversion drops the fraction. *)
(* [src/streamer/src/sources/WavFileSource.cpp:138-143] WavFileSource::read *)
Definition between (a b : Z) (frac : spec_float) : Z :=
  to_signed 16 (f_trunc (fadd (f_of_Z a) (fmul (fsub (f_of_Z b) (f_of_Z a)) frac))).

(** The position after a frame, and the window without the frames behind it; [None] when
    more is erased than is there. *)
(* [src/streamer/src/sources/WavFileSource.cpp:145-152] WavFileSource::read *)
Definition advance (step : spec_float) (s : WavFileSource) : option WavFileSource :=
  let pos := fadd (w_pos_ s) step in
  let moved pos pending := mk_wav (file_ s) (src_rate_ s) (src_channels_ s) (data_remaining_ s) (exhausted_ s) pos
                             pending (source_eof_ s) in
  if SFltb (f_of_Z 4096) pos then
    let n := f_trunc pos - 1 in
    if Z.of_nat (length (pending_ s)) <? n then None
    else Some (moved (fsub pos (f_of_Z n)) (after n (pending_ s)))
  else Some (moved pos (pending_ s)).

(** The loop over the frames to produce; a position in a file stays far below the [nat]s
    computed here, since the window holds it. *)
(* [src/streamer/src/sources/WavFileSource.cpp:120-153] WavFileSource::read *)
Fixpoint resample (todo : nat) (step : spec_float) (s : WavFileSource) : option (list (Z * Z) * WavFileSource) :=
  match todo with
  | O => Some ([], s)
  | S todo =>
      let i := Z.to_nat (f_trunc (w_pos_ s)) in
      let s := fill_window (i + 4) (i + 2) s in
      match pending_ s !! i, pending_ s !! S i with
      | Some a, Some b =>
          let frac := fsub (w_pos_ s) (f_of_Z (Z.of_nat i)) in
          s ← advance step s;
          '(l, s) ← resample todo step s;
          Some ((between a.1 b.1 frac, between a.2 b.2 frac) :: l, s)
      | _, _ => Some ([], if source_eof_ s then set_exhausted s else s)
      end
  end.

(* [src/streamer/src/sources/WavFileSource.cpp:106-157] WavFileSource::read *)
Definition wav_read (max_frames : nat) (s : WavFileSource) : option (list Z * nat * WavFileSource) :=
  if exhausted_ s || (max_frames =? 0)%nat then Some ([], 0%nat, s)
  else if src_rate_ s =? 48000 then Some (read_native max_frames s)
  else
    let step := fdiv (f_of_Z (src_rate_ s)) (f_of_Z 48000) in
    '(l, s) ← resample max_frames step s;
    Some (interleaved l, length l, if (length l =? 0)%nat then set_exhausted s else s).

(** The source as the sender sees it; where a read is undefined it is taken to give
    nothing, which no theorem relies on. *)
#[global] Instance wav_source : AudioSource WavFileSource :=
  {| read n s := default ([], 0%nat, s) (wav_read n s); exhausted := exhausted_ |}.

(** ** Raw PCM *)

(** [channels] items of two bytes make a frame; what does not fill a frame is dropped. *)
(* [src/streamer/src/sources/StdinPcmSource.h:47-49] StdinPcmSource *)
Record StdinPcmSource := mk_stdin { in_ : list Z; p_channels : nat; eof_ : bool }.

(** The 16-bit items of a little-endian byte list. *)
Fixpoint items (n : nat) (raw : list Z) : list Z :=
  match n with O => [] | S n => to_signed 16 (le16 raw 0) :: items n (drop 2 raw) end.

(* [src/streamer/src/sources/StdinPcmSource.h:27-38] StdinPcmSource::read *)
Definition stdin_read (max_frames : nat) (s : StdinPcmSource) : list Z * nat * StdinPcmSource :=
  let want := (max_frames * p_channels s)%nat in
  let got := (want `min` (length (in_ s) / 2))%nat in
  let frames := (got / p_channels s)%nat in
  (items (frames * p_channels s) (in_ s), frames,
   mk_stdin (drop (want * 2) (in_ s)) (p_channels s) (eof_ s || (got =? 0)%nat)).

(* [src/streamer/src/sources/ProcessPcmSource.h:61-63] ProcessPcmSource *)
Record ProcessPcmSource := mk_process { pipe_ : bool; live_ : bool; inner_ : StdinPcmSource }.

(* [src/streamer/src/sources/ProcessPcmSource.h:39-42] ProcessPcmSource::read *)
Definition process_read (max_frames : nat) (s : ProcessPcmSource) : list Z * nat * ProcessPcmSource :=
  if negb (pipe_ s) then ([], 0%nat, s)
  else let '(l, n, i) := stdin_read max_frames (inner_ s) in (l, n, mk_process (pipe_ s) (live_ s) i).

(* [src/streamer/src/sources/ProcessPcmSource.h:46-46] ProcessPcmSource::exhausted *)
Definition process_exhausted (s : ProcessPcmSource) : bool := if live_ s then false else eof_ (inner_ s).

(** ** Capture devices *)

Definition lower (c : ascii) : ascii :=
  let n := nat_of_ascii c in if ((65 <=? n) && (n <=? 90))%nat then ascii_of_nat (n + 32) else c.
Fixpoint lowercase (s : string) : string :=
  match s with EmptyString => EmptyString | String c s => String (lower c) (lowercase s) end.

(** The text from the first occurrence of a needle on. *)
Fixpoint find_from (needle s : string) : option string :=
  match strip_prefix needle s with
  | Some _ => Some s
  | None => match s with EmptyString => None | String _ s => find_from needle s end
  end.

(* [src/streamer/src/sources/CaptureDevices.h:44-57] isLoopbackName *)
Definition isLoopbackName (name : string) : bool :=
  existsb (fun needle => bool_decide (is_Some (find_from needle (lowercase name))))
    ["blackhole"; "loopback"; "monitor"; "soundflower"; "virtual"].

Definition double_quote : ascii := ascii_of_nat 34.

Fixpoint without_last_quote (s : string) : string :=
  match s with
  | EmptyString => EmptyString
  | String c EmptyString => if bool_decide (c = double_quote) then EmptyString else s
  | String c s => String c (without_last_quote s)
  end.

Definition unquote (s : string) : string :=
  without_last_quote (match s with
                      | String c r => if bool_decide (c = double_quote) then r else s
                      | EmptyString => s
                      end).

(** One line of the list of PipeWire nodes. *)
(* [src/streamer/src/sources/CaptureDevices.cpp:112-124] listCaptureDevices *)
Definition device_of_line (line : string) : option CaptureDevice :=
  match find_from "node.name = " line with
  | None => None
  | Some from =>
      let name := unquote (str_drop 12 from) in
      if String.eqb name "" then None else Some (mk_capture name name (isLoopbackName name))
  end.

(** The output of the command; empty when it could not be run. *)
(* [src/streamer/src/sources/CaptureDevices.cpp:105-125] listCaptureDevices *)
Definition listCaptureDevices (out : string) : list CaptureDevice := omap device_of_line (Network.lines out).

(* [src/streamer/src/sources/CaptureDevices.cpp:131-142] captureCommandFor *)
Definition captureCommandFor (device_id : string) : string :=
  if String.eqb device_id "" then ""
  else "pw-record --target " +:+ shq device_id +:+ " --rate 48000 --channels 2 --format s16 - 2>/dev/null".

(** ** The factory *)

Inductive Source :=
| SWav (s : WavFileSource) | SProcess (command : string) (live : bool) | SStdin | SMemory (s : MemoryAudioSource).

(** [spawn] tells whether a command could be started; a pipe to an empty shell would be. *)
(* [src/streamer/src/sources/ProcessPcmSource.h:28-35] ProcessPcmSource::spawn *)
Definition spawn (started : string -> bool) (command : string) (live : bool) : Result Source :=
  if started command then Value (SProcess command live)
  else Failure (error ErrorCode.IoError "failed to start source process").

(* [src/streamer/src/sources/SourceFactory.h:44-45] makeSource *)
Definition decoder_command (path : string) : string :=
  "ffmpeg -v quiet -i " +:+ shq path +:+ " -ar 48000 -ac 2 -f s16le -".

(** [files] gives the contents of a path; [None] is a header the reader does not survive. *)
(* [src/streamer/src/sources/SourceFactory.h:31-84] makeSource *)
Definition makeSource (files : string -> option (list Z)) (started : string -> bool) (spec : SourceSpec) :
  option (Result Source) :=
  if String.eqb (kind spec) "stdin" then Some (Value SStdin)
  else if String.eqb (kind spec) "file" then
    if String.eqb (uri spec) "" then Some (Failure (error ErrorCode.InvalidArg "file source needs a path"))
    else
      match open_wav (uri spec) (files (uri spec)) with
      | Opened w => Some (Value (SWav w))
      | Undefined => None
      | Refused e =>
          match spawn started (decoder_command (uri spec)) false with
          | Value s => Some (Value s)
          | Failure _ => Some (Failure (error ErrorCode.InvalidArg ("cannot play " +:+ uri spec +:+ " (" +:+ message e +:+
                                          "; ffmpeg fallback also failed)")))
          end
      end
  else if String.eqb (kind spec) "process" then
    if String.eqb (uri spec) "" then Some (Failure (error ErrorCode.InvalidArg "process source needs a command"))
    else Some (spawn started (uri spec) true)
  else if String.eqb (kind spec) "device" then
    if String.eqb (uri spec) "" then Some (Failure (error ErrorCode.InvalidArg "device source needs a device id"))
    else if String.eqb (captureCommandFor (uri spec)) "" then
      Some (Failure (error ErrorCode.NotImplemented "no capture backend on this host (see docs: maccapture/pw-record)"))
    else Some (spawn started (captureCommandFor (uri spec)) true)
  else Some (Failure (error ErrorCode.InvalidArg ("unknown source kind: " +:+ kind spec))).

(** ** A WAV file as it is written *)

(** The [n] bytes of a number, the lowest first. *)
Fixpoint le_bytes (n : nat) (v : Z) : list Z :=
  match n with O => [] | S n => v mod 256 :: le_bytes n (v / 256) end.

(** A chunk: tag, length, contents, and a byte to fill up an odd length. *)
Definition chunk (id : string) (payload : list Z) : list Z :=
  tag id ++ le_bytes 4 (Z.of_nat (length payload)) ++ payload ++ (if Nat.odd (length payload) then [0] else []).

Definition format_fields (channels rate : Z) : list Z :=
  le_bytes 2 1 ++ le_bytes 2 channels ++ le_bytes 4 rate ++ le_bytes 4 (rate * channels * 2) ++
  le_bytes 2 (channels * 2) ++ le_bytes 2 16.

Definition chunks (cs : list (string * list Z)) : list Z := mjoin ((fun c => chunk c.1 c.2) <$> cs).

(** What follows the tag and the size of the file: the kind, the format, with what may
    extend it, the data, and other chunks before, between and after them. *)
Definition wav_body (before between_ after_ : list (string * list Z)) (channels rate : Z) (ext data : list Z) : list Z :=
  tag "WAVE" ++ chunks before ++ chunk "fmt " (format_fields channels rate ++ ext) ++ chunks between_ ++
  chunk "data" data ++ chunks after_.

(** A file of plain 16-bit PCM; the size is that of all that follows it. *)
Definition wav_file (before between_ after_ : list (string * list Z)) (channels rate : Z) (ext data : list Z) : list Z :=
  let body := wav_body before between_ after_ channels rate ext data in
  tag "RIFF" ++ le_bytes 4 (Z.of_nat (length body)) ++ body.

(** Chunks the reader skips. *)
Definition skipped (c : string * list Z) : Prop :=
  length (tag c.1) = 4%nat /\ tag c.1 <> tag "fmt " /\ tag c.1 <> tag "data" /\ Z.of_nat (length c.2) < 2 ^ 32 - 1.

Lemma lor_shift a b k : 0 <= a < 2 ^ k -> 0 <= k -> Z.lor a (Z.shiftl b k) = a + b * 2 ^ k.
Proof. intros Ha Hk. rewrite Z.shiftl_mul_pow2, Z.lor_comm, lor_disjoint by done. lia. Qed.

Lemma le16_bytes v rest : 0 <= v < 2 ^ 16 -> le16 (le_bytes 2 v ++ rest) 0 = v.
Proof.
  intros Hv. unfold le16, byte_of. cbn [le_bytes app nth].
  rewrite (Z.mod_small (v / 256)) by (split; [apply Z.div_pos; lia|apply Z.div_lt_upper_bound; lia]).
  rewrite lor_shift; [|apply Z.mod_pos_bound; lia|lia].
  change (2 ^ 8) with 256. pose proof (Z.div_mod v 256). lia.
Qed.

Lemma le32_bytes v rest : 0 <= v < 2 ^ 32 -> le32 (le_bytes 4 v ++ rest) 0 = v.
Proof.
  change (2 ^ 32) with 4294967296. intros Hv. unfold le32, byte_of. cbn [le_bytes app nth Nat.add].
  set (b0 := v mod 256). set (b1 := v / 256 mod 256). set (b2 := v / 256 / 256 mod 256).
  set (b3 := v / 256 / 256 / 256 mod 256).
  assert (v = b0 + b1 * 2 ^ 8 + b2 * 2 ^ 16 + b3 * 2 ^ 24) as Hsum.
  { unfold b3. rewrite (Z.mod_small (v / 256 / 256 / 256)).
    - unfold b0, b1, b2. pose proof (Z.div_mod v 256). pose proof (Z.div_mod (v / 256) 256).
      pose proof (Z.div_mod (v / 256 / 256) 256). lia.
    - split; [repeat apply Z.div_pos; lia|]. repeat (apply Z.div_lt_upper_bound; [lia|]). lia. }
  assert (0 <= b0 < 256 /\ 0 <= b1 < 256 /\ 0 <= b2 < 256 /\ 0 <= b3 < 256) as (H0 & H1 & H2 & H3)
    by (unfold b0, b1, b2, b3; repeat split; apply Z.mod_pos_bound; lia).
  rewrite (lor_shift b0 b1 8) by lia.
  assert (Z.lor (Z.shiftl b2 16) (Z.shiftl b3 24) = Z.shiftl (b2 + b3 * 2 ^ 8) 16) as ->.
  { rewrite <- (lor_shift b2 b3 8) by lia. rewrite Z.shiftl_lor, Z.shiftl_shiftl by lia. done. }
  change (2 ^ 8) with 256 in *. rewrite lor_shift; [|change (2 ^ 16) with 65536; lia|lia]. lia.
Qed.

Lemma le_bytes_length n v : length (le_bytes n v) = n.
Proof. revert v. induction n; intros v; cbn; by rewrite ?IHn. Qed.

Lemma front_take {A} n (l : list A) : 0 <= n -> front n l = take (Z.to_nat n) l.
Proof. intros Hn. unfold front. destruct (Z.leb_spec (Z.of_nat (length l)) n); [by rewrite take_ge by lia|done]. Qed.

Lemma after_drop {A} n (l : list A) : 0 <= n -> after n l = drop (Z.to_nat n) l.
Proof. intros Hn. unfold after. destruct (Z.leb_spec (Z.of_nat (length l)) n); [by rewrite drop_ge by lia|done]. Qed.

(** ** The walk finds the data *)

Lemma chunk_header id (payload f : list Z) : length (tag id) = 4%nat -> Z.of_nat (length payload) < 2 ^ 32 ->
  let c := tag id ++ le_bytes 4 (Z.of_nat (length payload)) ++ f in
  (length c <? 8)%nat = false /\ take 4 c = tag id /\ le32 c 4 = Z.of_nat (length payload) /\ drop 8 c = f.
Proof.
  intros Ht Hl c. assert (length c = 8 + length f)%nat as Hc.
  { unfold c. rewrite !length_app, Ht, le_bytes_length. lia. }
  split; [apply Nat.ltb_ge; lia|]. split; [unfold c; by rewrite take_app_length'|]. split.
  - assert (forall l r, length l = 4%nat -> le32 (l ++ r) 4 = le32 r 0) as Hskip.
    { intros [|a [|b [|d [|e [|]]]]] r Hr; try done. }
    unfold c. rewrite Hskip by done. apply le32_bytes. lia.
  - unfold c. rewrite app_assoc, drop_app_length'; [done|]. by rewrite length_app, Ht, le_bytes_length.
Qed.

Lemma walk_skip fuel path c f have : skipped c ->
  walk (S fuel) path (chunk c.1 c.2 ++ f) have = walk fuel path f have.
Proof.
  intros (Ht & Hf & Hd & Hl). unfold chunk. rewrite <- !app_assoc. cbn [walk].
  destruct (chunk_header c.1 c.2 (c.2 ++ (if Nat.odd (length c.2) then [0] else []) ++ f)) as (-> & -> & -> & ->);
    [done|lia|].
  rewrite !bool_decide_eq_false_2 by done. f_equal.
  assert (Z.land (Z.of_nat (length c.2)) 1 = Z.of_nat (length (if Nat.odd (length c.2) then [0] else []))) as Hpad.
  { change 1 with (Z.ones 1). rewrite Z.land_ones by lia. change (2 ^ 1) with 2. rewrite Zmod_odd.
    assert (Z.odd (Z.of_nat (length c.2)) = Nat.odd (length c.2)) as ->; [|by destruct (Nat.odd (length c.2))].
    apply eq_true_iff_eq. rewrite Z.odd_spec, Nat.odd_spec. split; intros [m Hm]; [exists (Z.to_nat m)|exists (Z.of_nat m)]; lia. }
  rewrite Hpad, after_drop, <- Nat2Z.inj_add by (apply Z.mod_pos_bound; lia).
  unfold wrap. rewrite Z.mod_small, Nat2Z.id by (destruct (Nat.odd _); cbn [length]; lia).
  rewrite app_assoc, drop_app_length'; [done|]. by rewrite length_app.
Qed.

Lemma walk_skips cs fuel path f have : Forall skipped cs ->
  walk (length cs + fuel) path (mjoin ((fun c => chunk c.1 c.2) <$> cs) ++ f) have = walk fuel path f have.
Proof.
  induction 1 as [|c cs Hc _ IH]; [done|]. rewrite fmap_cons, join_cons, <- app_assoc.
  cbn [length Nat.add]. by rewrite walk_skip.
Qed.

Definition format_ok (channels rate : Z) : Prop := 1 <= channels < 2 ^ 15 /\ 0 < rate < 2 ^ 31.

Lemma check_format_fields channels rate ext :
  format_ok channels rate -> check_format (format_fields channels rate ++ ext) = inr (channels, rate).
Proof.
  intros [Hc Hr]. unfold check_format, format_fields. rewrite <- !app_assoc.
  rewrite !length_app, !le_bytes_length. cbn [Nat.ltb Nat.leb Nat.add].
  assert (forall a b r i, le16 (a :: b :: r) (S (S i)) = le16 r i) as H16 by done.
  assert (forall a b r i, le32 (a :: b :: r) (S (S i)) = le32 r i) as H32 by done.
  assert (forall v r, le_bytes 2 v ++ r = v mod 256 :: v / 256 mod 256 :: r) as E2 by done.
  rewrite (le16_bytes 1) by lia. cbn [Z.eqb Pos.eqb negb].
  change (2 ^ 15) with 32768 in *. change (2 ^ 31) with 2147483648 in *.
  assert (forall r, le16 (le_bytes 2 1 ++ le_bytes 2 channels ++ r) 2 = channels) as ->.
  { intros r. rewrite (E2 1), H16. apply le16_bytes. lia. }
  rewrite (E2 1), H32. rewrite (E2 channels), H32, le32_bytes by lia.
  rewrite !H16.
  assert (forall v r i, le16 (le_bytes 4 v ++ r) (S (S (S (S i)))) = le16 r i) as Hl4 by done.
  rewrite !Hl4, (E2 (channels * 2)), H16, (le16_bytes 16) by lia. cbn [Z.eqb Pos.eqb negb].
  replace (to_signed 32 rate) with rate.
  - destruct (Z.ltb_spec channels 1); [lia|]. by destruct (Z.leb_spec rate 0); [lia|].
  - symmetry. apply to_signed_small; [lia|]. unfold in_signed. change (2 ^ (32 - 1)) with 2147483648. lia.
Qed.

Lemma format_length channels rate ext : length (format_fields channels rate ++ ext) = (16 + length ext)%nat.
Proof. unfold format_fields. by rewrite !length_app, !le_bytes_length. Qed.

Lemma walk_format fuel path channels rate ext f have :
  format_ok channels rate -> Nat.even (length ext) = true -> Z.of_nat (16 + length ext) < 2 ^ 32 ->
  walk (S fuel) path (chunk "fmt " (format_fields channels rate ++ ext) ++ f) have =
    walk fuel path f (Some (channels, rate)).
Proof.
  intros Hf He Hsize. set (fmt := format_fields channels rate ++ ext).
  assert (length fmt = (16 + length ext)%nat) as Hl by apply format_length.
  assert (Nat.odd (length fmt) = false) as Hodd.
  { rewrite Hl. change (Nat.odd (16 + length ext)) with (Nat.odd (length ext)). unfold Nat.odd. by rewrite He. }
  unfold chunk. rewrite Hodd. cbn [app]. rewrite <- !app_assoc. cbn [app walk].
  destruct (chunk_header "fmt " fmt (fmt ++ f)) as (-> & -> & -> & ->); [done|rewrite Hl; exact Hsize|].
  rewrite bool_decide_eq_true_2 by done.
  rewrite length_app. destruct (Z.ltb_spec (Z.of_nat (length fmt + length f)) (Z.of_nat (length fmt))); [lia|].
  rewrite Nat2Z.id, take_app_length', drop_app_length' by done. unfold fmt. by rewrite check_format_fields.
Qed.

Lemma walk_data fuel path channels rate (data trailer : list Z) : Z.of_nat (length data) < 2 ^ 32 ->
  walk (S fuel) path (tag "data" ++ le_bytes 4 (Z.of_nat (length data)) ++ data ++ trailer) (Some (channels, rate)) =
    Opened (mk_wav (data ++ trailer) rate channels (Z.of_nat (length data)) false f0 [] false).
Proof.
  intros Hd. cbn [walk].
  destruct (chunk_header "data" data (data ++ trailer)) as (-> & -> & -> & ->); [done|done|].
  by rewrite bool_decide_eq_false_2, bool_decide_eq_true_2.
Qed.

Lemma chunks_long cs : (length cs <= length (chunks cs))%nat.
Proof.
  unfold chunks. induction cs as [|c cs IH]; [done|]. rewrite fmap_cons, join_cons, length_app. cbn [length].
  unfold chunk at 1. rewrite !length_app, le_bytes_length. lia.
Qed.

(** What stands after the data: its own filling byte, and the other chunks. *)
Definition behind (data : list Z) (after_ : list (string * list Z)) : list Z :=
  (if Nat.odd (length data) then [0] else []) ++ chunks after_.

(** The size of the file bounds those of its parts. *)
Lemma wav_parts_fit before between_ after_ channels rate ext data :
  (length (wav_body before between_ after_ channels rate ext data) =
   4 + length (chunks before) + (8 + (16 + length ext) + (if Nat.odd (16 + length ext) then 1 else 0)) +
   length (chunks between_) + (8 + length data + length (behind data after_)))%nat.
Proof.
  pose proof (format_length channels rate []) as Hf. rewrite app_nil_r in Hf. cbn [length] in Hf.
  unfold wav_body, chunk, behind. rewrite !length_app, Hf, !le_bytes_length.
  change (length (tag "WAVE")) with 4%nat. change (length (tag "fmt ")) with 4%nat. change (length (tag "data")) with 4%nat.
  rewrite Nat.add_0_r. destruct (Nat.odd (16 + length ext)), (Nat.odd (length data)); cbn [length]; lia.
Qed.

(** Every chunk before the data costs the walk a round. *)
Lemma open_wav_file path before between_ after_ channels rate ext data :
  Forall skipped before -> Forall skipped between_ -> format_ok channels rate -> Nat.even (length ext) = true ->
  Z.of_nat (length (wav_body before between_ after_ channels rate ext data)) < 2 ^ 32 ->
  open_wav path (Some (wav_file before between_ after_ channels rate ext data)) =
    Opened (mk_wav (data ++ behind data after_) rate channels (Z.of_nat (length data)) false f0 [] false).
Proof.
  intros Hbe Hbt Hf He Hfit. pose proof (wav_parts_fit before between_ after_ channels rate ext data) as Hparts.
  set (data_chunk := chunk "data" data ++ chunks after_).
  set (tail := chunks before ++ chunk "fmt " (format_fields channels rate ++ ext) ++ chunks between_ ++ data_chunk).
  set (n := Z.of_nat (length (wav_body before between_ after_ channels rate ext data))) in *.
  change (wav_file before between_ after_ channels rate ext data)
    with (tag "RIFF" ++ le_bytes 4 n ++ tag "WAVE" ++ tail).
  unfold open_wav.
  replace (length (tag "RIFF" ++ le_bytes 4 n ++ tag "WAVE" ++ tail)) with (12 + length tail)%nat by done.
  change (take 4 (tag "RIFF" ++ le_bytes 4 n ++ tag "WAVE" ++ tail)) with (tag "RIFF").
  change (take 4 (drop 8 (tag "RIFF" ++ le_bytes 4 n ++ tag "WAVE" ++ tail))) with (tag "WAVE").
  change (drop 12 (tag "RIFF" ++ le_bytes 4 n ++ tag "WAVE" ++ tail)) with tail.
  rewrite !bool_decide_eq_true_2 by done. destruct (Nat.ltb_spec (12 + length tail) 12); [lia|]. cbn [orb negb].
  assert (exists k, (12 + length tail = length before + S (length between_ + S k))%nat) as [k ->].
  { pose proof (chunks_long before). pose proof (chunks_long between_). unfold tail. rewrite !length_app.
    exists (10 + (length (chunks before) - length before) + length (chunk "fmt " (format_fields channels rate ++ ext)) +
      (length (chunks between_) - length between_) + length data_chunk)%nat. lia. }
  unfold tail. unfold chunks at 1 2. rewrite walk_skips, walk_format, walk_skips by (done || lia).
  unfold data_chunk, chunk, behind. rewrite <- !app_assoc. apply walk_data. lia.
Qed.

(** ** A WAV at the wire rate is a finite source of stereo *)

Lemma widen_app a b channels raw :
  widen (a + b) channels raw = widen a channels raw ++ widen b channels (drop (a * Z.to_nat (channels * 2)) raw).
Proof.
  revert raw. induction a as [|a IH]; intros raw; [by rewrite Nat.mul_0_l, drop_0|].
  cbn [widen Nat.add app]. by rewrite IH, drop_drop.
Qed.

Lemma nth_take i m (l : list Z) : (i < m)%nat -> nth i (take m l) 0 = nth i l 0.
Proof. revert m l. induction i; intros [|m] [|x l] H; try lia; try done. apply IHi. lia. Qed.

Lemma widen_take n channels m raw : 1 <= channels -> (n * Z.to_nat (channels * 2) <= m)%nat ->
  widen n channels (take m raw) = widen n channels raw.
Proof.
  intros Hc. revert m raw. induction n as [|n IH]; intros m raw Hm; [done|]. cbn [widen]. f_equal.
  - unfold le16, byte_of. destruct (Z.ltb_spec 1 channels); by rewrite !nth_take by lia.
  - rewrite skipn_firstn_comm. apply IH. lia.
Qed.

Lemma widen_length n channels raw : length (widen n channels raw) = n.
Proof. revert raw. induction n; intros raw; cbn; by rewrite ?IHn. Qed.

Lemma interleaved_app l k : interleaved (l ++ k) = interleaved l ++ interleaved k.
Proof. unfold interleaved. by rewrite fmap_app, join_app. Qed.

Lemma interleaved_length l : length (interleaved l) = (length l * 2)%nat.
Proof. unfold interleaved. induction l as [|p l IH]; [done|]. rewrite fmap_cons, join_cons, length_app, IH. simpl. lia. Qed.

Lemma widen_in_range n channels raw : Forall (in_signed 16) (interleaved (widen n channels raw)).
Proof.
  revert raw. induction n as [|n IH]; intros raw; [constructor|].
  unfold interleaved. cbn [widen]. rewrite fmap_cons, join_cons. repeat constructor; try apply IH.
  all: cbn [fst snd]; destruct (1 <? channels); apply to_signed_bound; lia.
Qed.

(** The stereo frames of a block of bytes. *)
Definition stereo (channels : Z) (body : list Z) : list (Z * Z) :=
  widen (length body / Z.to_nat (channels * 2)) channels body.

(** What is left to play, in bytes: a file may be shorter than its header says. *)
Definition body (s : WavFileSource) : list Z := front (data_remaining_ s) (file_ s).
Definition wav_pcm (s : WavFileSource) : list Z := interleaved (stereo (src_channels_ s) (body s)).

Definition native_ok (s : WavFileSource) : Prop :=
  src_rate_ s = 48000 /\ 1 <= src_channels_ s /\ 0 <= data_remaining_ s /\
  (exhausted_ s = true -> (length (body s) < Z.to_nat (src_channels_ s * 2))%nat).

Lemma stereo_drop channels n b : 1 <= channels ->
  stereo channels (drop (n * Z.to_nat (channels * 2)) b) = drop n (stereo channels b).
Proof.
  intros Hc. unfold stereo. rewrite length_drop. set (w := Z.to_nat (channels * 2)).
  assert (0 < w)%nat as Hw by (unfold w; lia).
  destruct (decide (n <= length b / w)%nat) as [Hn|Hn].
  - replace (length b / w)%nat with (n + (length b / w - n))%nat by lia.
    rewrite widen_app, drop_app_length' by (by rewrite widen_length). f_equal.
    pose proof (Nat.div_mod_eq (length b) w). pose proof (Nat.mod_upper_bound (length b) w).
    symmetry. apply (Nat.div_unique _ _ _ (length b mod w)); nia.
  - rewrite (drop_ge (widen _ _ b)) by (rewrite widen_length; lia).
    rewrite Nat.div_small; [done|]. pose proof (Nat.div_mod_eq (length b) w). pose proof (Nat.mod_upper_bound (length b) w). nia.
Qed.

Lemma stereo_nil channels b : (length b < Z.to_nat (channels * 2))%nat -> stereo channels b = [].
Proof. intros H. unfold stereo. by rewrite Nat.div_small. Qed.

Lemma stereo_take channels n b : 1 <= channels ->
  stereo channels (take (n * Z.to_nat (channels * 2)) b) = take n (stereo channels b).
Proof.
  intros Hc. unfold stereo. rewrite length_take. set (w := Z.to_nat (channels * 2)).
  assert (0 < w)%nat as Hw by (unfold w; lia).
  pose proof (Nat.div_mod_eq (length b) w). pose proof (Nat.mod_upper_bound (length b) w).
  destruct (decide (n <= length b / w)%nat) as [Hn|Hn].
  - rewrite Nat.min_l by nia. rewrite Nat.div_mul by lia. rewrite widen_take by (fold w; lia).
    replace (length b / w)%nat with (n + (length b / w - n))%nat by lia.
    by rewrite widen_app, take_app_length' by (by rewrite widen_length).
  - rewrite Nat.min_r by nia. rewrite widen_take by (fold w; nia).
    symmetry. apply take_ge. rewrite widen_length. lia.
Qed.

(** What one read at the wire rate does to the bytes left. *)
Lemma readSourceFrames_spec n s : 1 <= src_channels_ s -> 0 <= data_remaining_ s ->
  (readSourceFrames n s).1 = take n (stereo (src_channels_ s) (body s)) /\
  stereo (src_channels_ s) (body (readSourceFrames n s).2) = drop n (stereo (src_channels_ s) (body s)) /\
  src_channels_ (readSourceFrames n s).2 = src_channels_ s /\ src_rate_ (readSourceFrames n s).2 = src_rate_ s /\
  exhausted_ (readSourceFrames n s).2 = exhausted_ s /\ 0 <= data_remaining_ (readSourceFrames n s).2.
Proof.
  intros Hc Hr. unfold readSourceFrames.
  destruct (Nat.eqb_spec n 0) as [->|Hn]; cbn [orb fst snd]; [rewrite take_0, drop_0; by split_and!|].
  destruct (Z.eqb_spec (data_remaining_ s) 0) as [H0|H0]; cbn [orb fst snd].
  { assert (body s = []) as -> by (unfold body; by rewrite H0, front_take by lia).
    rewrite stereo_nil by (cbn; lia). rewrite take_nil, drop_nil. by split_and!. }
  set (w := Z.to_nat (src_channels_ s * 2)). set (want := Z.min _ _).
  assert (front want (file_ s) = take (n * w) (body s)) as ->.
  { unfold body. rewrite !front_take by lia. rewrite take_take. f_equal. lia. }
  cbn [fst snd set_file src_channels_ src_rate_ exhausted_ data_remaining_].
  assert (body s = take (Z.to_nat (data_remaining_ s)) (file_ s)) as Hb by (unfold body; by rewrite front_take).
  assert (length (body s) <= Z.to_nat (data_remaining_ s))%nat as Hlen by (rewrite Hb, length_take; lia).
  assert (body (set_file (after want (file_ s)) (data_remaining_ s - Z.of_nat (length (take (n * w) (body s)))) s)
            = drop (n * w) (body s)) as ->.
  { unfold body at 1, set_file. cbn [file_ data_remaining_]. rewrite after_drop, front_take by (rewrite ?length_take; lia).
    rewrite Hb. set (r := Z.to_nat (data_remaining_ s)). rewrite !length_take.
    destruct (decide (n * w <= length (take r (file_ s)))%nat) as [Hl|Hl]; rewrite length_take in Hl.
    - rewrite skipn_firstn_comm. f_equal; [lia|]. f_equal. lia.
    - rewrite (drop_ge (take r _)) by (rewrite length_take; lia).
      apply nil_length_inv. rewrite length_take, length_drop. lia. }
  split_and!; try done.
  - rewrite <- stereo_take by done. fold w. unfold stereo. f_equal.
    fold w. replace (src_channels_ s * 2) with (Z.of_nat w) by lia. by rewrite <- Nat2Z.inj_div, Nat2Z.id.
  - by apply stereo_drop.
  - rewrite length_take. lia.
Qed.

#[global] Instance wav_finite : FiniteSource WavFileSource 2 native_ok wav_pcm.
Proof.
  split.
  - intros s _. apply widen_in_range.
  - intros n s (Hr & Hc & Hd & He). exists (n `min` length (stereo (src_channels_ s) (body s)))%nat.
    unfold wav_pcm. rewrite interleaved_length.
    cbn [read wav_source]. unfold wav_read. destruct (exhausted_ s) eqn:Ex.
    { rewrite (stereo_nil _ (body s)) by auto. cbn [length interleaved]. rewrite Nat.min_0_r.
      unfold native_ok. cbn. rewrite (stereo_nil _ (body s)) by auto. split_and!; auto; lia. }
    destruct (Nat.eqb_spec n 0) as [->|Hn]; cbn [orb].
    { unfold native_ok. cbn [default fst snd Nat.min Nat.mul]. rewrite take_0, drop_0. cbn [id snd]. rewrite Ex. by split_and!. }
    rewrite (proj2 (Z.eqb_eq _ _) Hr). unfold read_native.
    destruct (readSourceFrames_spec n s Hc Hd) as (Hl & Hb & Hch & Hrate & Hex & Hrem).
    destruct (readSourceFrames n s) as [l s']. cbn [fst snd default] in *. subst l.
    set (frames := stereo (src_channels_ s) (body s)) in *.
    assert (interleaved frames = interleaved (take n frames) ++ interleaved (drop n frames)) as Hsplit
      by (by rewrite <- interleaved_app, take_drop).
    assert (forall q, src_channels_ q = src_channels_ s' -> file_ q = file_ s' -> data_remaining_ q = data_remaining_ s' ->
      interleaved (stereo (src_channels_ q) (body q)) = drop (n `min` length frames * 2) (interleaved frames)) as Hp.
    { intros q H1 H2 H3. unfold body. rewrite H1, H2, H3. fold (body s'). rewrite Hch, Hb.
      rewrite Hsplit, drop_app_length'; [done|].
      by rewrite interleaved_length, length_take. }
    split_and!.
    + lia.
    + rewrite length_take. f_equal. rewrite Hsplit, take_app_length'; [done|]. by rewrite interleaved_length, length_take.
    + destruct (_ =? 0)%nat; by apply Hp.
    + unfold native_ok. destruct (Nat.eqb_spec (length (take n frames)) 0) as [H0|H0]; cbn.
      * split_and!; try congruence. intros _. change (body (set_exhausted s')) with (body s').
        rewrite Hch. rewrite length_take in H0. assert (length frames = 0%nat) as Hf by lia.
        assert (stereo (src_channels_ s) (body s') = []) as Hnil.
        { rewrite Hb. apply nil_length_inv. rewrite length_drop. lia. }
        apply (f_equal length) in Hnil. unfold stereo in Hnil. rewrite widen_length in Hnil.
        apply Nat.div_small_iff in Hnil; lia.
      * rewrite Hch, Hrate, Hex, Ex. by split_and!.
  - intros s (_ & _ & _ & He) Hx. unfold wav_pcm. rewrite stereo_nil; [done|]. by apply He.
Qed.

(** ** What is written is what is read *)

(** A frame of 16-bit samples, one a channel, as the file has it; the two the speaker gets. *)
Definition frame_bytes (f : list Z) : list Z := mjoin ((fun x => le_bytes 2 (wrap 16 x)) <$> f).
Definition to_stereo (f : list Z) : Z * Z :=
  match f with [] => (0, 0) | [m] => (m, m) | l :: r :: _ => (l, r) end.
Definition frame_ok (channels : Z) (f : list Z) : Prop := Z.of_nat (length f) = channels /\ Forall (in_signed 16) f.

Lemma frame_bytes_length f : length (frame_bytes f) = (length f * 2)%nat.
Proof. unfold frame_bytes. induction f as [|x f IH]; [done|]. rewrite fmap_cons, join_cons, length_app, IH. cbn. lia. Qed.

Lemma sample_back x rest : in_signed 16 x -> to_signed 16 (le16 (le_bytes 2 (wrap 16 x) ++ rest) 0) = x.
Proof.
  intros Hx. pose proof (wrap_bound 16 x ltac:(lia)) as Hw. unfold in_unsigned in Hw.
  rewrite le16_bytes by lia. by apply to_signed_wrap.
Qed.

Lemma frame_back channels f rest : 1 <= channels -> frame_ok channels f ->
  let raw := frame_bytes f ++ rest in
  (to_signed 16 (le16 raw 0), if 1 <? channels then to_signed 16 (le16 raw 2) else to_signed 16 (le16 raw 0)) = to_stereo f.
Proof.
  intros Hc [Hl Hf] raw. unfold raw.
  destruct f as [|l [|r f]]; cbn [length] in Hl; [lia| |]; unfold frame_bytes;
    rewrite !fmap_cons, !join_cons, <- !app_assoc; inv Hf.
  - rewrite sample_back by done. by destruct (Z.ltb_spec 1 (Z.of_nat 1)).
  - rewrite sample_back by done. destruct (Z.ltb_spec 1 (Z.of_nat (S (S (length f))))); [|lia].
    match goal with H : Forall _ (_ :: _) |- _ => inv H end.
    change (le16 (le_bytes 2 (wrap 16 l) ++ le_bytes 2 (wrap 16 r) ++ mjoin ((fun x => le_bytes 2 (wrap 16 x)) <$> f) ++ rest) 2)
      with (le16 (le_bytes 2 (wrap 16 r) ++ mjoin ((fun x => le_bytes 2 (wrap 16 x)) <$> f) ++ rest) 0).
    by rewrite sample_back.
Qed.

Definition pcm_bytes (frames : list (list Z)) : list Z := mjoin (frame_bytes <$> frames).

Lemma pcm_bytes_length channels frames : Forall (frame_ok channels) frames ->
  length (pcm_bytes frames) = (length frames * Z.to_nat (channels * 2))%nat.
Proof.
  unfold pcm_bytes. induction 1 as [|f fs [Hl _] _ IH]; [done|].
  rewrite fmap_cons, join_cons, length_app, IH, frame_bytes_length. cbn [length]. lia.
Qed.

Lemma stereo_pcm channels frames : 1 <= channels -> Forall (frame_ok channels) frames ->
  stereo channels (pcm_bytes frames) = to_stereo <$> frames.
Proof.
  intros Hc Hf. unfold stereo. rewrite (pcm_bytes_length channels), Nat.div_mul by (done || lia).
  induction Hf as [|f fs Hok _ IH]; [done|]. cbn [length widen]. rewrite fmap_cons. unfold pcm_bytes.
  rewrite fmap_cons, join_cons. f_equal; [by apply (frame_back channels)|].
  destruct Hok as [Hl _]. rewrite drop_app_length'; [done|]. rewrite frame_bytes_length. lia.
Qed.

(** ** Where the reader is undefined *)

(** A format chunk of less than 16 bytes is read past its end. *)
Lemma short_format_undefined path :
  open_wav path (Some (tag "RIFF" ++ le_bytes 4 0 ++ tag "WAVE" ++ tag "fmt " ++ le_bytes 4 2 ++ [1; 0])) = Undefined.
Proof. reflexivity. Qed.

(** A format chunk of odd length is not skipped with its filling byte: the chunk after it is
    not recognised, and a well-formed file is refused as one without data. *)
Lemma odd_format_loses_data path :
  open_wav path (Some (wav_file [] [] [] 1 48000 [7] [1; 2])) = no_data path.
Proof. reflexivity. Qed.

(** At 192 kHz a step is four frames, and the last step of a file of 4098 frames goes so
    far beyond the window that more is erased than is there. *)
Lemma resampler_erases_past_end :
  exists w, open_wav "a.wav" (Some (wav_file [] [] [] 1 192000 [] (replicate (2 * 4098) 0))) = Opened w /\
    wav_read 1024 w <> None /\ wav_read 1025 w = None.
Proof.
  eexists. split; [apply open_wav_file; [constructor|constructor|unfold format_ok; lia|done|by vm_compute]|].
  split; vm_compute; congruence.
Qed.

(** The fallback gets the path as one argument, whatever is in it. *)
Lemma decoder_gets_path path :
  sh_words (decoder_command path) =
    Some ["ffmpeg"; "-v"; "quiet"; "-i"; path; "-ar"; "48000"; "-ac"; "2"; "-f"; "s16le"; "-"].
Proof.
  unfold decoder_command.
  change (sh_words ("ffmpeg -v quiet -i" +:+ String space (shq path +:+ String space "-ar 48000 -ac 2 -f s16le -")) =
    Some (["ffmpeg"; "-v"; "quiet"; "-i"] ++ [path] ++ ["-ar"; "48000"; "-ac"; "2"; "-f"; "s16le"; "-"])).
  rewrite (sh_words_app "ffmpeg -v quiet -i" ["ffmpeg"; "-v"; "quiet"; "-i"]) by done.
  by rewrite (sh_words_app _ [path] _ (sh_words_shq path)).
Qed.

(** ** Properties *)

(** C35: A WAV file plays as it was recorded.  A well-formed file of plain 16-bit PCM (format
    1) at the wire rate, of any number of channels - its size in its head, a format chunk of
    16 bytes or extended by an even number of them, the data filled up to an even length, any
    other chunks around the two - opens; draining it ends, and the speaker's decoder reads
    from the datagrams exactly the stereo of the recording, the first two channels of every
    frame or a mono channel doubled. *)
Theorem wav_file_streams path before between_ after_ channels ext frames fuel now block k :
  Forall skipped before -> Forall skipped between_ -> 1 <= channels < 2 ^ 15 -> Nat.even (length ext) = true ->
  Forall (frame_ok channels) frames ->
  Z.of_nat (length (wav_body before between_ after_ channels 48000 ext (pcm_bytes frames))) < 2 ^ 32 ->
  (0 < block)%nat -> in_unsigned 32 (Z.of_nat block) ->
  pk_channels k = 2%nat -> in_unsigned 64 (pk_sequence k) -> (2 * length frames < fuel)%nat ->
  exists w ps s',
    open_wav path (Some (wav_file before between_ after_ channels 48000 ext (pcm_bytes frames))) = Opened w /\
    runToEnd fuel now (mk_sender w k [] block) = Some (length ps, s') /\
    (fun d => unpackPacket d 2) <$> datagrams_ s' = Some <$> ps /\
    mjoin (samples <$> ps) = interleaved (to_stereo <$> frames).
Proof.
  intros Hbe Hbt Hc He Hf Hl Hb Hb32 Hk Hseq Hfuel.
  rewrite open_wav_file by (done || unfold format_ok; lia).
  set (w := mk_wav _ _ _ _ _ _ _ _). exists w.
  assert (body w = pcm_bytes frames) as Hbody.
  { unfold body, w. cbn [data_remaining_ file_]. rewrite front_take, Nat2Z.id by lia. by rewrite take_app_length. }
  assert (wav_pcm w = interleaved (to_stereo <$> frames)) as Hpcm.
  { unfold wav_pcm. rewrite Hbody. cbn [src_channels_ w]. by rewrite stereo_pcm by (done || lia). }
  unfold runToEnd. cbn [pk_ source_ datagrams_ block_frames_].
  set (k' := if started_ (ts_ k) then k else _).
  assert (pk_channels k' = 2%nat /\ in_unsigned 64 (pk_sequence k')) as [Hk' Hseq'] by (unfold k'; by destruct (started_ _)).
  destruct (drain_streams 2 native_ok wav_pcm fuel (mk_sender w k' [] block) 0) as (ps & s' & Hd & Hg & _ & Hs); try done.
  - lia.
  - unfold native_ok, w. cbn. split_and!; [done|lia|lia|done].
  - cbn [source_]. rewrite Hpcm, interleaved_length, length_fmap. lia.
  - exists ps, s'. split; [done|]. split; [by rewrite Hd|]. rewrite Hg. cbn [app datagrams_].
    destruct Hs as [Hj Hs]. split; [|cbn [source_] in Hj; congruence].
    rewrite <- list_fmap_compose. apply list_fmap_ext. intros i p Hp. destruct (Hs i p Hp) as [_ _ _ _ Hpk].
    cbn [pk_] in Hpk. rewrite Hk' in Hpk. unfold compose. rewrite <- (app_nil_r (packPacket p)).
    apply packet_round_trip; [done|lia].
Qed.

(** Three mono frames, a format chunk with an empty extension, a list before it and one
    after the data. *)
Lemma wav_file_streams_witness :
  exists w ps s',
    open_wav "a.wav" (Some (wav_file [("LIST", [1; 2; 3])] [] [("id3 ", [9])] 1 48000 [0; 0]
                              (pcm_bytes [[-5]; [32767]; [7]]))) = Opened w /\
    runToEnd 7 (f_of_Z 1000) (mk_sender w (mk_packetizer (new_timestamper 48000 2 (f_of_Z 1)) 2 0) [] 2) = Some (length ps, s') /\
    (fun d => unpackPacket d 2) <$> datagrams_ s' = Some <$> ps /\
    mjoin (samples <$> ps) = [-5; -5; 32767; 32767; 7; 7].
Proof.
  apply (wav_file_streams "a.wav" [("LIST", [1; 2; 3])] [] [("id3 ", [9])] 1 [0; 0] [[-5]; [32767]; [7]] 7 (f_of_Z 1000) 2
           (mk_packetizer (new_timestamper 48000 2 (f_of_Z 1)) 2 0)).
  - repeat constructor; try (by vm_compute); done.
  - constructor.
  - lia.
  - done.
  - unfold frame_ok, in_signed. repeat constructor; cbn; lia.
  - by vm_compute.
  - lia.
  - unfold in_unsigned. lia.
  - done.
  - unfold in_unsigned. cbn. lia.
  - cbn. lia.
Defined.
