(* ===== verification/StreamerApp.v ===== *)
(** * StreamerApp: the streamer as a whole

    Models [streamer/src/app/StreamerApp.cpp]: the callbacks it hands to the web router, as
    a [StreamerContext] over the gateway, the store, the zones, the configuration and the
    master chain of the other files; the onboarding of a speaker over its setup access
    point ([streamer/src/discovery/ApJoiner.cpp]); playing to a zone; and the start-up with
    the order of the services.  The calls of the audio engine and of the packet sink are
    effects: [Engine] models what the engine makes of them.  The network behind the
    control lines, the radio's command line and the services' own starts are arguments. *)

From Stdlib Require Import Ascii.
From S2P Require Import Prelude Core Json Files Config Audio Storage Control Pairing Network Speakers Zones.
From S2P Require Import Gateway StreamerConfig Onboarding Web Dsp MasterDsp StreamerApi Sources.

(** ** The radio *)

Section Radio.
Context {W E : Type}.
(** Run a command: its output and its exit code. *)
Variable run_ : string -> SW W E (string * Z).

Definition kProfile : string := "nexus-onboard".
Definition kIface : string := "wlan0".
Definition quietly (cmd : string) : string := cmd +:+ " >/dev/null 2>&1".

Definition delete_profile (p : string) : string := quietly ("nmcli connection delete " +:+ shq p).

(** The profile the joiner holds, empty when there is none, is its state; a new joiner has
    none. *)
(* [src/streamer/src/discovery/ApJoiner.cpp:80-92] ApJoiner::leave *)
Definition leave (profile : string) : SW W E string :=
  if String.eqb profile "" then run_ (delete_profile kProfile);; mret ""
  else run_ (quietly ("nmcli connection down " +:+ shq profile));; run_ (delete_profile profile);; mret "".

(* [src/streamer/src/discovery/ApJoiner.cpp:50-78] ApJoiner::join *)
Definition join (ssid profile : string) : SW W E (Status * string) :=
  if String.eqb ssid "" then mret (error ErrorCode.InvalidArg "ssid required", profile)
  else
    profile ← leave profile;
    run_ (delete_profile kProfile);;
    added ← run_ (quietly ("nmcli connection add type wifi ifname " +:+ shq kIface +:+ " con-name " +:+
                           shq kProfile +:+ " ssid " +:+ shq ssid +:+ " connection.autoconnect no"));
    if negb (added.2 =? 0)%Z then mret (error ErrorCode.IoError "cannot create onboarding profile", profile)
    else
      up ← run_ (quietly ("nmcli -w 30 connection up " +:+ shq kProfile));
      if negb (up.2 =? 0)%Z then
        run_ (delete_profile kProfile);;
        mret (error ErrorCode.IoError ("cannot join setup network '" +:+ ssid +:+ "'"), profile)
      else mret (success, kProfile).

(** [trim] of the end of a line. *)
(* [src/streamer/src/discovery/ApJoiner.cpp:43-46] trim *)
Definition trim_end (s : string) : string :=
  let blank c := bool_decide (c = ascii_of_nat 10) || bool_decide (c = ascii_of_nat 13) || bool_decide (c = ascii_of_nat 32) in
  (fix go s := match s with
               | EmptyString => EmptyString
               | String c s => match go s with
                               | EmptyString => if blank c then EmptyString else String c EmptyString
                               | t => String c t
                               end
               end) s.

(* [src/streamer/src/discovery/ApJoiner.cpp:94-107] ApJoiner::gateway *)
Definition gateway_address (profile : string) : SW W E string :=
  if String.eqb profile "" then mret ""
  else
    r ← run_ ("nmcli -g IP4.GATEWAY device show " +:+ shq kIface +:+ " 2>/dev/null");
    mret (if negb (r.2 =? 0)%Z then ""
          else default "" (head (filter (fun l => l <> "" /\ l <> "--") (trim_end <$> Network.lines r.1)))).
End Radio.

(** ** The application *)

Section App.
Context {J : JsonLib} {F : FileSystem} {AW : AtomicWriter F} {Cr : Crypto} {M : Libm} {W E : Type}.

(** What the application makes the rest of the streamer do. *)
Inductive SEffect :=
| ELine (e : GEffect E)            (* an exchange: events of the store, the transport *)
| EDisk (d : Disk)                 (* a point of a save at which the power may be cut *)
| EOut (e : E)                     (* the radio, the handshake of a pairing *)
| ETargets (l : list (string * Z)) (* [sink_.setTargets] *)
| ECount (n : nat)                 (* [audio_->setTargetCount] *)
| EOpen (spec : SourceSpec)        (* [makeSource] *)
| EPlay (s : Source) | EPause | EResume | EStop.

(** What the application holds besides the registry, the zones and the window; [r_audio]
    tells whether the engine has been made. *)
(* [src/streamer/src/app/StreamerApp.h:140-181] StreamerApp *)
Record Rest := mk_rest
  { r_identity : StreamerIdentity; r_config : option (StreamerConfigManager (F:=F)); r_world : World W;
    r_dsp : MasterDsp; r_audio : bool }.

Abbreviation Site := (Site Rest).
Abbreviation A := (SW Site SEffect).

(** The control lines, the sealing of secrets, the radio's command line, the sink's answer
    to a change of targets, the sources as [Sources.makeSource] gives them, and the
    environment of an exchange. *)
Variable request : string -> Z -> string -> SW W E (Result string).
Variable fromBase64 : string -> Result string.
Variable sealTo : string -> string -> Result string.
Variable run_ : string -> SW W E (string * Z).
Variable set_targets : list (string * Z) -> Status.
Variable make_source : SourceSpec -> Result Source.
Variable moment : W -> Moment.

Definition set_world (w : World W) (s : Site) : Site :=
  mk_site (registry_ s) (zones_ s) (window_ s)
    (mk_rest (r_identity (rest s)) (r_config (rest s)) w (r_dsp (rest s)) (r_audio (rest s))).
Definition set_outside (o : W) (s : Site) : Site :=
  set_world (mk_world (gateway (r_world (rest s))) (store (r_world (rest s))) o) s.
Definition set_master (d : MasterDsp) (s : Site) : Site :=
  mk_site (registry_ s) (zones_ s) (window_ s)
    (mk_rest (r_identity (rest s)) (r_config (rest s)) (r_world (rest s)) d (r_audio (rest s))).

(** The part of the application that pairing and saving work on. *)
Definition app_of (s : Site) : App (W:=W) :=
  mk_app (r_identity (rest s)) (registry_ s) (Zones.zones_ <$> zones_ s)
    (Some (master_to_json (config_ (r_dsp (rest s))))) (r_config (rest s)) (outside (r_world (rest s))).
Definition put_app (a : App (W:=W)) (s : Site) : Site :=
  mk_site (Onboarding.registry_ a) (zones_ s) (window_ s)
    (mk_rest (identity_ a) (cfg_mgr a)
       (mk_world (gateway (r_world (rest s))) (store (r_world (rest s))) (out a))
       (r_dsp (rest s)) (r_audio (rest s))).

Definition of_app (e : AEffect (E:=E)) : SEffect := match e with ASave d => EDisk d | AOut e => EOut e end.

Definition on_app {X} (f : SW (App (W:=W)) (AEffect (E:=E)) X) : A X := zoom app_of put_app of_app f.
Definition on_line {X} (f : SW (World W) (GEffect E) X) : A X :=
  zoom (fun s => r_world (rest s)) set_world ELine f.
Definition on_radio {X} (f : SW W E X) : A X := zoom (fun s => outside (r_world (rest s))) set_outside EOut f.

(* [src/streamer/src/app/StreamerApp.cpp:364-364] StreamerApp::startup, the persist callback *)
Definition app_persist : A unit := on_app persist_app.

(* [src/streamer/src/app/StreamerApp.cpp:265-266] StreamerApp::startup, the command callback *)
Definition app_send (target : Speaker) (command : string) (payload : json) : A (Try (Result CommandReply)) :=
  s ← get; on_line (send request (moment (outside (r_world (rest s)))) target command payload 30).

(* [src/streamer/src/app/StreamerApp.cpp:272-278] StreamerApp::startup, the pairing callback *)
Definition app_pair (host : string) (params : PairingParams) : A (Try (Result PairingReply)) :=
  s ← get;
  on_radio (Onboarding.pair fromBase64 sealTo request host 45455 (with_identity (r_identity (rest s)) params)).

(** ** Onboarding over a setup access point *)

Definition refusal_json (m : string) : json := jobj [("ok", jbool false); ("message", jstr m)].

(* [src/streamer/src/app/StreamerApp.cpp:330-336] StreamerApp::startup, the onboarding callback *)
Definition onboard_params (body : json) (ssid : string) : Try PairingParams :=
  site ← value_string body "site_id" "default";
  name ← value_string body "name" ssid;
  code ← value_string body "setup_code" "";
  wifi ← value_string body "wifi_ssid" "";
  psk ← value_string body "wifi_psk" "";
  box ← value_string body "box_public_key" "";
  mret (mk_params "" "" "" site name code wifi psk box).

(** The name of the new speaker is read once more; by then it has been read as a string. *)
Definition onboard_name (body : json) (id : string) : string :=
  match value_string body "name" id with Done n => n | Throw _ => id end.

(* [src/streamer/src/app/StreamerApp.cpp:346-351] StreamerApp::startup, the onboarding callback *)
Definition onboard_answer (reply : Result PairingReply) : json :=
  match reply with
  | Failure e => refusal_json (message e)
  | Value y =>
      if negb (y_ok y) then refusal_json (y_message y)
      else jobj [("ok", jbool true); ("device_id", jstr (y_device_id y));
                 ("message", jstr "paired; the speaker is joining the network")]
  end.

(** The joiner is a local object: its profile is passed on. *)
(* [src/streamer/src/app/StreamerApp.cpp:316-352] StreamerApp::startup, the onboarding callback *)
Definition app_onboard (body : json) : A (Try json) :=
  let? ssid := mret (value_string body "ssid" "") in
  joined ← on_radio (join run_ ssid "");
  let '(st, profile) := joined in
  if negb (status_ok st) then mret (Done (refusal_json (message st)))
  else
    host ← on_radio (gateway_address run_ profile);
    if String.eqb host "" then
      on_radio (leave run_ profile);;
      mret (Done (refusal_json "joined the setup network but found no speaker on it"))
    else
      let? params := mret (onboard_params body ssid) in
      let? reply := on_app (pairAndRegister fromBase64 sealTo request host params "" (onboard_name body)) in
      on_radio (leave run_ profile);;
      mret (Done (onboard_answer reply)).

(** ** Playing *)

Definition engine_missing : Status := error ErrorCode.InvalidArg "audio engine not started".
Definition zones_missing : Status := error ErrorCode.InvalidArg "zones not available".

Definition targets_of (l : list ZoneEndpoint) : list (string * Z) := (fun e => (ep_host e, ep_port e)) <$> l.

(** Point the sink and, if it takes the targets, tell the engine how many there are. *)
Definition point (l : list (string * Z)) : A Status :=
  tell [ETargets l];;
  if negb (status_ok (set_targets l)) then mret (set_targets l)
  else tell [ECount (length l)];; mret (set_targets l).

(** The engine takes any source that is not null. *)
(* [src/streamer/src/app/StreamerApp.cpp:447-458] StreamerApp::playTo *)
Definition playTo (l : list ZoneEndpoint) (src : Source) : A Status :=
  s ← get;
  if negb (r_audio (rest s)) then mret engine_missing
  else
    st ← point (targets_of l);
    if negb (status_ok st) then mret st else tell [EPlay src];; mret success.

(* [src/streamer/src/app/StreamerApp.cpp:464-485] StreamerApp::onTransport *)
Definition onTransport (action : string) (target : Speaker) : A Status :=
  s ← get;
  if negb (r_audio (rest s)) then mret engine_missing
  else if String.eqb action "play" then point [(Speakers.host target, kDefaultPort)]
  else if String.eqb action "pause" then tell [EPause];; mret success
  else if String.eqb action "resume" then tell [EResume];; mret success
  else if String.eqb action "stop" then tell [EStop];; mret success
  else mret (error ErrorCode.InvalidArg ("unknown transport action: " +:+ action)).

(** Tell every member of a zone to start; the replies are not looked at. *)
(* [src/streamer/src/app/StreamerApp.cpp:504-506] StreamerApp::playZone *)
Fixpoint start_members (l : list Speaker) : A (Try unit) :=
  match l with
  | [] => mret (Done ())
  | sp :: l => let? _ := app_send sp "START_AUDIO" (jobj []) in start_members l
  end.

Definition resolve (id : string) (z : ZoneManager) (s : Site) : Result (list ZoneEndpoint) :=
  resolveTargets (known_offline (Some (store (r_world (rest s))))) (registry_ s) id z.

(* [src/streamer/src/app/StreamerApp.cpp:487-508] StreamerApp::playZone *)
Definition playZone (id : string) (spec : SourceSpec) : A (Try Status) :=
  s ← get;
  match zones_ s with
  | None => mret (Done zones_missing)
  | Some z =>
      match resolve id z s with
      | Failure e => mret (Done e)
      | Value [] => mret (Done (error ErrorCode.NotFound "zone has no reachable speakers"))
      | Value targets =>
          tell [EOpen spec];;
          match make_source spec with
          | Failure e => mret (Done e)
          | Value src =>
              let? _ := start_members (zone_members (registry_ s) id z) in
              st ← playTo targets src;
              mret (Done st)
          end
      end
  end.

(* [src/streamer/src/app/StreamerApp.cpp:510-530] StreamerApp::retargetZone *)
Definition retargetZone (id : string) : A (Try Status) :=
  s ← get;
  match zones_ s with
  | None => mret (Done zones_missing)
  | Some z =>
      if negb (r_audio (rest s)) then mret (Done engine_missing)
      else
        match resolve id z s with
        | Failure e => mret (Done e)
        | Value targets =>
            st ← point (targets_of targets);
            if negb (status_ok st) then mret (Done st)
            else let? _ := start_members (zone_members (registry_ s) id z) in mret (Done success)
        end
  end.

(* [src/streamer/src/app/StreamerApp.cpp:402-402] StreamerApp::startup, the DSP getter *)
Definition app_dsp_get : A json := s ← get; mret (master_to_json (config_ (r_dsp (rest s)))).

(* [src/streamer/src/app/StreamerApp.cpp:403-408] StreamerApp::startup, the DSP setter *)
Definition app_dsp_set (patch : json) : A (Try json) :=
  s ← get;
  let? d := mret (patch_dsp patch (r_dsp (rest s))) in
  modify (set_master d);;
  mret (Done (master_to_json (config_ d))).

(** The router's context; what scans the network or the radio, reads the meters or proxies
    a request is handed in. *)
(* [src/streamer/src/app/StreamerApp.cpp:263-365] StreamerApp::startup *)
Definition app_context (scan aps levels : A json) (http : Speaker -> string -> string -> string -> A (Z * string))
    (mac : string -> string) (now clock : Site -> Z) (devices : list CaptureDevice) (kinds : list string)
    (token page : string) : StreamerContext Rest SEffect := {|
  x_sender := app_send; x_pairing := Some app_pair; x_discoverer := None; x_scanner := Some scan;
  x_ap_scanner := Some aps; x_onboarder := Some app_onboard; x_transport := Some onTransport;
  x_speaker_http := Some http; x_play_zone := Some playZone; x_retarget_zone := Some retargetZone;
  x_persist := Some app_persist; x_dsp_get := Some app_dsp_get; x_dsp_set := Some app_dsp_set;
  x_levels := Some levels; x_mac_lookup := Some mac; x_store := Some (fun s => store (r_world (rest s)));
  x_now := now; x_clock := clock;
  x_devices := devices; x_kinds := kinds; x_auth := Some (mk_auth token); x_page := page |}.
End App.
Arguments Rest {J F} W.
Arguments mk_rest {J F W} _ _ _ _ _.
Arguments r_world {J F W} _.
Arguments SEffect {F} E.

(** ** What every request keeps *)

(** One entry per device with a port a C [int] holds; zones apart; the master chain with
    all its bands. *)
Definition site_sound {J : JsonLib} {F : FileSystem} {W} (s : Site (Rest W)) : Prop :=
  registry_ok (registry_ s) /\ Forall (fun sp => in_signed 32 (control_port sp)) (registry_ s) /\
  (forall z, zones_ s = Some z -> zones_ok (Zones.zones_ z)) /\ settled (config_ (r_dsp (rest s))).

Lemma upsert_forall (P : Speaker -> Prop) sp l : P sp -> Forall P l -> Forall P (upsert sp l).2.
Proof.
  intros Hsp. induction 1 as [|x l Hx Hl IH]; cbn [upsert]; [by repeat constructor|].
  destruct (String.eqb _ _); [by constructor|]. destruct (upsert sp l). by constructor.
Qed.

Section Sound.
Context {J : JsonLib} {L : JsonLaws J} {F : FileSystem} {AW : AtomicWriter F} {Cr : Crypto} {M : Libm} {W E : Type}.

Definition sound {O X} (m : SW (Site (Rest W)) O X) : Prop := respects (keeps site_sound) m.

Lemma sound_ret {O X} (x : X) : sound (O:=O) (mret x).
Proof. apply respects_ret; exact _. Qed.
Lemma sound_bind {O X Y} (f : X -> SW (Site (Rest W)) O Y) m : sound m -> (forall x, sound (f x)) -> sound (mbind f m).
Proof. apply respects_bind; exact _. Qed.
Lemma sound_get {O Y} (f : Site (Rest W) -> SW (Site (Rest W)) O Y) :
  (forall s, site_sound s -> sound (f s)) -> sound (mbind f get).
Proof. intros Hf s Hs. rewrite state_after_bind. by apply Hf. Qed.
Lemma sound_read {O X Y} (t : Try X) (f : X -> SW (Site (Rest W)) O (Try Y)) :
  (forall x, t = Done x -> sound (f x)) -> sound (try_bind (mret t) f).
Proof.
  intros Hf s. unfold try_bind. rewrite state_after_bind. cbn [value_of state_after mret SW_ret fst snd].
  destruct t as [x|w]; [by apply Hf|]. by intros Hs.
Qed.
Lemma sound_try {O X Y} (m : SW (Site (Rest W)) O (Try X)) (f : X -> SW (Site (Rest W)) O (Try Y)) :
  sound m -> (forall x, sound (f x)) -> sound (try_bind m f).
Proof. intros Hm Hf. apply sound_bind; [done|]. intros [x|w]; [apply Hf|apply sound_ret]. Qed.
Lemma sound_tell {O} (es : list O) : sound (tell es).
Proof. intros s Hs. exact Hs. Qed.
Lemma sound_call {X} c (m : SW (Site (Rest W)) (SEffect E) X) : sound m -> sound (call c m).
Proof. intros Hm. apply sound_bind; [apply sound_tell|]. intros _ s Hs. by apply Hm. Qed.

(** A change of the parts the invariant does not read. *)
Lemma sound_same {O X} (m : SW (Site (Rest W)) O X) :
  (forall s, registry_ (state_after m s) = registry_ s /\ zones_ (state_after m s) = zones_ s /\
             r_dsp (rest (state_after m s)) = r_dsp (rest s)) -> sound m.
Proof. intros Hm s. destruct (Hm s) as (H1 & H2 & H3). unfold keeps, site_sound. by rewrite H1, H2, H3. Qed.

Lemma sound_upsert {O} sp : in_signed 32 (control_port sp) ->
  sound (O:=O) (modify (fun s => set_reg (upsert sp (registry_ s)).2 s)).
Proof. intros Hp s (H1 & H2 & H3). split; [by apply upsert_ok|]. split; [by apply upsert_forall|exact H3]. Qed.

Lemma sound_set_reg {O} l : registry_ok l -> Forall (fun sp => in_signed 32 (control_port sp)) l ->
  sound (O:=O) (modify (set_reg l)).
Proof. intros H1 H2 s (_ & _ & H3). split; [done|]. split; [done|exact H3]. Qed.

Lemma sound_set_zones {O} z : zones_ok (Zones.zones_ z) -> sound (O:=O) (modify (set_zone_mgr z)).
Proof. intros Hz s (H1 & H2 & _ & H3). do 3 (split; [first [done | by intros ? [= <-]]|]). exact H3. Qed.

Lemma sound_window {O} w : sound (O:=O) (modify (set_win w)).
Proof. by apply sound_same. Qed.

(** ** The application's callbacks *)

Variable request : string -> Z -> string -> SW W E (Result string).
Variable fromBase64 : string -> Result string.
Variable sealTo : string -> string -> Result string.
Variable run_ : string -> SW W E (string * Z).
Variable set_targets : list (string * Z) -> Status.
Variable make_source : SourceSpec -> Result Source.
Variable moment : W -> Moment.

Lemma on_line_sound {X} (f : SW (World W) (GEffect E) X) : sound (on_line f).
Proof. apply sound_same. intros s. split; [|split]; reflexivity. Qed.
Lemma on_radio_sound {X} (f : SW W E X) : sound (on_radio f).
Proof. apply sound_same. intros s. split; [|split]; reflexivity. Qed.

Lemma persist_app_registry (a : App (W:=W)) : Onboarding.registry_ (state_after (persist_app (E:=E)) a) = Onboarding.registry_ a.
Proof. unfold persist_app, state_after. by destruct (cfg_mgr a). Qed.

Lemma persist_sound : sound (app_persist (W:=W) (E:=E)).
Proof. apply sound_same. intros s. split; [apply (persist_app_registry (app_of s))|]. split; reflexivity. Qed.

Lemma send_sound sp c p : sound (app_send request moment sp c p).
Proof. apply sound_get. intros. apply on_line_sound. Qed.

Lemma pair_sound h p : sound (app_pair request fromBase64 sealTo h p).
Proof. apply sound_get. intros. apply on_radio_sound. Qed.

(** Registering a speaker changes one entry, on the standard port. *)
Lemma register_registry h p sh (nf : string -> string) (a : App (W:=W)) :
  let a' := state_after (pairAndRegister fromBase64 sealTo request h p sh nf) a in
  Onboarding.registry_ a' = Onboarding.registry_ a \/
  exists id, Onboarding.registry_ a' = (upsert (mk_speaker id (nf id) sh 45455) (Onboarding.registry_ a)).2.
Proof.
  cbv zeta. unfold pairAndRegister. rewrite !state_after_bind. cbn [get value_of state_after fst snd].
  set (m := on_out _). assert (Onboarding.registry_ (state_after m a) = Onboarding.registry_ a) as Hm by done.
  destruct (value_of m a) as [[y|]|]; [|by left..]. destruct (y_ok y); [|by left].
  right. exists (y_device_id y). rewrite !state_after_bind.
  cbn [mret SW_ret state_after modify fst snd]. rewrite persist_app_registry. cbn [set_registry Onboarding.registry_].
  by rewrite Hm.
Qed.

Lemma register_sound h p sh nf : sound (on_app (pairAndRegister fromBase64 sealTo request h p sh nf)).
Proof.
  intros s (H1 & H2 & H3). unfold on_app, zoom, state_after at 1. cbn [fst snd].
  assert (forall l, registry_ok l -> Forall (fun sp => in_signed 32 (control_port sp)) l ->
    forall a, Onboarding.registry_ a = l -> site_sound (put_app a s)) as Hput.
  { intros l Hl1 Hl2 a <-. split; [done|]. split; [done|exact H3]. }
  destruct (register_registry h p sh nf (app_of s)) as [Hr|[id Hr]]; eapply Hput; try exact Hr; cbn.
  - exact H1.
  - exact H2.
  - by apply upsert_ok.
  - apply upsert_forall; [cbn; unfold in_signed; lia|exact H2].
Qed.

Create HintDb sound.
#[local] Hint Resolve sound_window on_line_sound on_radio_sound persist_sound send_sound pair_sound register_sound : sound.

(** Walk over a run by its head; what is not a step of the monad is left to the lemmas. *)
Ltac sound_step :=
  lazymatch goal with
  | |- sound (mret _) => apply sound_ret
  | |- sound (answer_with _) => apply sound_ret
  | |- sound (tell _) => apply sound_tell
  | |- sound (call _ _) => apply sound_call
  | |- sound (try_bind (mret _) _) => apply sound_read; intros ? ?
  | |- sound (try_bind _ _) => apply sound_try; [|intros ?]
  | |- sound (mbind _ get) => apply sound_get; intros ? ?
  | |- sound (mbind _ _) => apply sound_bind; [|intros ?]
  | |- sound (match _ with _ => _ end) => case_match
  | |- _ => solve [auto with sound]
  end.
Ltac sound_walk := repeat sound_step.

Lemma onboard_sound b : sound (app_onboard request fromBase64 sealTo run_ b).
Proof. unfold app_onboard. sound_walk. Qed.

Lemma playTo_sound l src : sound (O := SEffect E) (playTo set_targets l src).
Proof. unfold playTo, point. sound_walk. Qed.

Lemma transport_sound a sp : sound (O := SEffect E) (onTransport set_targets a sp).
Proof. unfold onTransport, point. sound_walk. Qed.
#[local] Hint Resolve onboard_sound playTo_sound transport_sound : sound.

Lemma start_members_sound l : sound (start_members request moment l).
Proof. induction l as [|sp l IH]; cbn [start_members]; sound_walk. Qed.
#[local] Hint Resolve start_members_sound : sound.

Lemma playZone_sound id spec : sound (playZone request set_targets make_source moment id spec).
Proof. unfold playZone. sound_walk. Qed.

Lemma retargetZone_sound id : sound (retargetZone request set_targets moment id).
Proof. unfold retargetZone, point. sound_walk. Qed.

Lemma dsp_set_sound patch : sound (O := SEffect E) (app_dsp_set patch).
Proof.
  unfold app_dsp_set. apply sound_get. intros s Hs. apply sound_read. intros d Hd. apply sound_bind.
  - intros s' (H1 & H2 & H3 & _). do 3 (split; [done|]). by eapply settled_patch.
  - intros _. apply sound_ret.
Qed.
#[local] Hint Resolve playZone_sound retargetZone_sound dsp_set_sound : sound.

(** ** The router over these callbacks *)

Context (scan aps levels : SW (Site (Rest W)) (SEffect E) json)
  (http : Speaker -> string -> string -> string -> SW (Site (Rest W)) (SEffect E) (Z * string))
  (mac : string -> string) (now clock : Site (Rest W) -> Z) (devices : list CaptureDevice) (kinds : list string)
  (token page : string).
(** What is handed in changes nothing of the site. *)
Context (Hscan : sound scan) (Haps : sound aps) (Hlevels : sound levels)
  (Hhttp : forall sp m p b, sound (http sp m p b)).

Abbreviation ctx := (app_context request fromBase64 sealTo run_ set_targets make_source moment
  scan aps levels http mac now clock devices kinds token page).

Abbreviation handler_sound m := (sound (O := Output (SEffect E)) m).

Lemma api_persist_sound : handler_sound (persist ctx).
Proof. apply sound_call, persist_sound. Qed.
#[local] Hint Resolve api_persist_sound : sound.

Lemma api_send_sound b c p : handler_sound (sendToSpeaker ctx b c p).
Proof. unfold sendToSpeaker. cbn [x_sender app_context]. sound_walk. Qed.
#[local] Hint Resolve api_send_sound : sound.

Lemma on_zones_sound {X} (f : ZoneManager -> X * ZoneManager) z :
  zones_ok (Zones.zones_ (f z).2) -> handler_sound (on_zones f z).
Proof.
  intros Hz. unfold on_zones. destruct (f z) as [x z']. apply sound_bind; [by apply sound_set_zones|].
  intros _. apply sound_ret.
Qed.
#[local] Hint Resolve on_zones_sound create_ok remove_zone_ok rename_ok addMember_ok removeMember_ok : sound.

Lemma volume_each_sound v l : handler_sound (volume_each ctx v l).
Proof. induction l as [|sp l IH]; cbn [volume_each x_sender app_context]; sound_walk. Qed.
#[local] Hint Resolve volume_each_sound : sound.

Lemma zones_sound p b : handler_sound (post_zones ctx p b).
Proof.
  unfold post_zones. apply sound_get. intros s (Hr & Hp & Hz & Hd). destruct (zones_ s) as [z|]; [|apply sound_ret].
  specialize (Hz z eq_refl).
  unfold zones_create, zones_remove, zones_rename, zones_members, zones_play, zones_retarget, zones_volume,
    zone_status, audio_status.
  cbn [x_play_zone x_retarget_zone app_context]. sound_walk.
  apply on_zones_sound. case_match; auto with sound.
Qed.
#[local] Hint Resolve zones_sound : sound.

Lemma onboard_each_sound b wifi l : handler_sound (onboard_each (app_onboard request fromBase64 sealTo run_) b wifi l).
Proof. induction l as [|sp l IH]; cbn [onboard_each]; sound_walk. Qed.

Lemma bulk_each_sound c p l : handler_sound (bulk_each ctx c p l).
Proof. induction l as [|id l IH]; cbn [bulk_each]; sound_walk. Qed.
#[local] Hint Resolve onboard_each_sound bulk_each_sound : sound.

Lemma value_int_range b k d x : in_signed 32 d -> value_int b k d = Done x -> in_signed 32 x.
Proof.
  intros Hd. unfold value_int, value_or. case_match; [|done]. case_match; [apply get_int_range|by intros [= <-]].
Qed.

Lemma standard_port : in_signed 32 45455.
Proof. unfold in_signed. lia. Qed.
#[local] Hint Resolve value_int_range standard_port : sound.

Lemma speakers_sound b : handler_sound (post_speakers ctx b).
Proof.
  unfold post_speakers. case_match; [sound_step|].
  repeat (apply sound_read; intros ? ?). apply sound_get. intros s (Hr & Hp & _).
  destruct (upsert _ _) as [added l] eqn:Hu. apply (f_equal snd) in Hu. cbn [snd] in Hu.
  apply sound_bind; [|intros ?; sound_walk].
  apply sound_set_reg; subst l; [by apply upsert_ok|]. apply upsert_forall; [|done]. cbn [control_port]. eauto with sound.
Qed.

Lemma remove_sound b : handler_sound (post_speakers_remove ctx b).
Proof.
  unfold post_speakers_remove. apply sound_read. intros id _. apply sound_get. intros s (Hr & Hp & _).
  destruct (remove_speaker _ _) as [removed l] eqn:Hu. apply (f_equal snd) in Hu. cbn [snd] in Hu.
  apply sound_bind; [|intros ?; sound_walk].
  apply sound_set_reg; subst l; [by apply remove_speaker_ok|].
  apply Forall_forall. intros x Hx. eapply Forall_forall in Hp; [exact Hp|].
  eapply elem_of_sublist; [exact Hx|apply remove_speaker_sublist].
Qed.
#[local] Hint Resolve speakers_sound remove_sound : sound.

Lemma pair_route_sound b : handler_sound (post_pair ctx b).
Proof.
  unfold post_pair. cbn [x_pairing app_context]. sound_walk. apply sound_upsert. cbn [control_port]. eauto with sound.
Qed.

Lemma transport_route_sound b : handler_sound (post_transport ctx b).
Proof. unfold post_transport. cbn [x_transport app_context]. sound_walk. Qed.

Lemma field_sound k c b : handler_sound (post_field ctx k c b).
Proof. unfold post_field. sound_walk. Qed.
#[local] Hint Resolve pair_route_sound transport_route_sound field_sound : sound.

Lemma run_post_sound p b : handler_sound (run_post ctx p b).
Proof.
  unfold run_post.
  repeat lazymatch goal with |- sound (if ?x then _ else _) => destruct x end; auto with sound;
  unfold post_device, post_dsp, post_onboard_bulk, post_onboard, post_window, post_bulk, post_destructive;
  cbn [x_speaker_http x_dsp_set x_onboarder app_context]; sound_walk.
Qed.

Lemma get_sound p h : handler_sound (handleGet ctx p h).
Proof.
  unfold handleGet, handed_on. apply sound_get. intros s _.
  repeat lazymatch goal with |- sound (if ?x then _ else _) => destruct x end;
  cbn [x_discoverer x_scanner x_ap_scanner x_dsp_get x_levels app_context]; unfold app_dsp_get; sound_walk.
Qed.

Lemma route_sound q : handler_sound (route ctx q).
Proof.
  unfold route. set (denied := match x_auth ctx with Some _ => _ | None => _ end). destruct denied; [apply sound_ret|].
  destruct (String.eqb (method q) "GET"); [apply get_sound|].
  destruct (String.eqb (method q) "POST"); [|apply sound_ret].
  unfold handlePost. destruct (if String.eqb (Web.body q) "" then _ else _); [apply run_post_sound|apply sound_ret].
Qed.

(** What works on the site: the requests, the automatic pairing, and the threads that talk
    to the speakers (the polls of the monitor and the link reports). *)
Inductive site_step : Site (Rest W) -> Site (Rest W) -> Prop :=
| step_request q s : site_step s (state_after (route ctx q) s)
| step_auto_pair d code s : site_step s (state_after (on_app (auto_pair fromBase64 sealTo request d code)) s)
| step_exchange {X} (f : SW (World W) (GEffect E) X) s : site_step s (state_after (on_line f) s).

Lemma auto_pair_app d code (a : App (W:=W)) : exists x sh nf h,
  state_after (auto_pair fromBase64 sealTo request d code) a =
    state_after (pairAndRegister fromBase64 sealTo request h x sh nf) a.
Proof.
  unfold auto_pair. do 4 eexists. rewrite state_after_bind. by destruct (value_of _ a) as [[]|].
Qed.

Lemma step_sound s s' : site_step s s' -> site_sound s -> site_sound s'.
Proof.
  intros [q s1|d code s1|X f s1] Hs.
  - by apply route_sound.
  - destruct (auto_pair_app d code (app_of s1)) as (x & sh & nf & h & Ha).
    unfold on_app, zoom, state_after at 1. cbn [fst snd]. rewrite Ha.
    by apply (register_sound h x sh nf s1).
  - by apply on_line_sound.
Qed.
End Sound.

(** ** Starting up *)

Section Startup.
Context {J : JsonLib} {F : FileSystem} {AW : AtomicWriter F} {Cr : Crypto} {M : Libm} {W : Type}.

(* [src/streamer/src/app/StreamerApp.cpp:121-123] StreamerApp::startup *)
Definition hydrate (l : list SpeakerRecord) : SpeakerRegistry :=
  foldl (fun reg r => (upsert (mk_speaker (s_device_id r) (s_name r) (s_host r) (s_control_port r)) reg).2) [] l.

(* [src/streamer/src/app/StreamerApp.cpp:142-143] StreamerApp::startup *)
Definition loaded_zones (l : list ZoneRecord) : list Zone :=
  (fun z => mk_zone (z_zone_id z) (StreamerConfig.z_name z) (z_members z)) <$> l.

Definition with_token (token : string) (c : StreamerConfig) : StreamerConfig :=
  mk_streamer_config (schema c) (identity c) (speakers c) (zones c) (audio_settings c) (dsp c)
    (network_settings c) (mk_web (w_port (web c)) token (w_bind_address (web c))) (log_level_ c).

(** Load the configuration, make the token on the first run; what a save reports is not
    looked at.  [fresh] is the random token. *)
(* [src/streamer/src/app/StreamerApp.cpp:114-137] StreamerApp::startup *)
Definition boot_config (fresh : string) (m : StreamerConfigManager) : string * StreamerConfigManager :=
  let m := state_after start_config m in
  let token := w_auth_token (web (get_config m)) in
  if String.eqb token "" then (fresh, state_after (update_config (with_token fresh)) m) else (token, m).

(** The objects of the application before its services start: without a configuration path
    everything is empty.  The master chain refuses a saved setting of the wrong type with
    an exception, which nothing catches. *)
(* [src/streamer/src/app/StreamerApp.cpp:111-179] StreamerApp::startup *)
Definition boot_site (identity : StreamerIdentity) (fresh : string) (fs : spec_float) (channels : nat)
    (config : option StreamerConfigManager) (outside : W) : Try (string * Site (Rest W)) :=
  let world := mk_world (mk_gateway (secret_ identity) (id_ identity) 0) (mk_store true ∅) outside in
  let site reg zs cfg d := mk_site reg (Some zs) (Some (mk_window false 0)) (mk_rest identity cfg world d true) in
  match config with
  | None => Done (fresh, site [] (new_zones None) None (new_master fs channels))
  | Some m =>
      let '(token, m) := boot_config fresh m in
      c ← master_from_json (dsp (get_config m));
      Done (token, site (hydrate (speakers (get_config m)))
                     (replaceAll (loaded_zones (zones (get_config m))) (new_zones None)) (Some m)
                     (setConfig c (new_master fs channels)))
  end.
End Startup.

(** ** The services *)

Inductive Service := AudioService | LinkService | MonitorService | DiscoveryService.
#[global] Instance Service_eq_dec : EqDecision Service.
Proof. solve_decision. Defined.

Inductive UEffect := UThread | UThreadStop | UStart (s : Service) | UStop (s : Service) | UWebStart | UWebStop.

(* [src/streamer/src/app/StreamerApp.h:190-192] StreamerApp *)
Record Running := mk_running { web_started_ : bool; sweeping_ : bool; started_ : list Service }.

(* [src/streamer/src/app/StreamerApp.cpp:422-445] StreamerApp::shutdown *)
Definition shutdown : SW Running UEffect unit :=
  u ← get;
  when (web_started_ u) (tell [UWebStop]);;
  when (sweeping_ u) (tell [UThreadStop]);;
  tell (UStop <$> reverse (started_ u));;
  modify (fun _ => mk_running false false []).

Section Services.
(** What the start of a service answers, its name, and the answer of the web server. *)
Variable start_of : Service -> Status.
Variable name_of : Service -> string.
Variable web_start : Status.

(* [src/streamer/src/app/StreamerApp.cpp:187-202] StreamerApp::startup *)
Definition ordered (with_link with_monitor : bool) : list Service :=
  [AudioService] ++ (if with_link then [LinkService] else []) ++
  (if with_monitor then [MonitorService] else []) ++ [DiscoveryService].

(* [src/streamer/src/app/StreamerApp.cpp:253-259] StreamerApp::startup *)
Fixpoint start_services (l : list Service) : SW Running UEffect Status :=
  match l with
  | [] => mret success
  | svc :: l =>
      tell [UStart svc];;
      if negb (status_ok (start_of svc)) then
        shutdown;; mret (error (code (start_of svc)) (name_of svc +:+ ": " +:+ message (start_of svc)))
      else
        modify (fun u => mk_running (web_started_ u) (sweeping_ u) (started_ u ++ [svc]));; start_services l
  end.

(* [src/streamer/src/app/StreamerApp.cpp:410-419] StreamerApp::startup *)
Definition start_web : SW Running UEffect Status :=
  tell [UWebStart];;
  if negb (status_ok web_start) then
    shutdown;; mret (error (code web_start) ("web: " +:+ message web_start))
  else
    modify (fun u => mk_running true (sweeping_ u) (started_ u));; mret success.

(* [src/streamer/src/app/StreamerApp.cpp:240-259] StreamerApp::startup *)
Definition start_all (with_link with_monitor : bool) : SW Running UEffect Status :=
  modify (fun u => mk_running (web_started_ u) true (started_ u));; tell [UThread];;
  s ← start_services (ordered with_link with_monitor);
  if negb (status_ok s) then mret s else start_web.
End Services.

(** ** What a restart finds *)

(** Two sites with the same speakers, zones and master chain settings. *)
Definition alike {J : JsonLib} {F : FileSystem} {W} (s s' : Site (Rest W)) : Prop :=
  registry_ s = registry_ s' /\ Zones.zones_ <$> zones_ s = Zones.zones_ <$> zones_ s' /\
  config_ (r_dsp (rest s)) = config_ (r_dsp (rest s')).

Section Restart.
Context {J : JsonLib} {L : JsonLaws J} {F : FileSystem} {FL : FileSystemLaws F} {AW : AtomicWriter F} {Cr : Crypto} {M : Libm} {W E : Type}.

Definition zone_record (z : Zone) : ZoneRecord := mk_zone_record (zone_id z) (Zones.z_name z) (members z).

(** The configuration holds what the site does. *)
Record saved (s : Site (Rest W)) (c : StreamerConfig) : Prop := mk_saved {
  sv_speakers : speakers c = record_of <$> registry_ s;
  sv_zones : exists z, zones_ s = Some z /\ zones c = zone_record <$> Zones.zones_ z;
  sv_dsp : dsp c = master_to_json (config_ (r_dsp (rest s)))
}.

Lemma rebuild_saved s z c : zones_ s = Some z -> saved s (rebuild (W:=W) (app_of s) c).
Proof.
  intros Hz. split; [done| |done]. exists z. split; [done|]. unfold rebuild, app_of. cbn [zones zone_list]. by rewrite Hz.
Qed.

Lemma rebuild_ints s c : site_sound s -> streamer_ints c -> streamer_ints (rebuild (W:=W) (app_of s) c).
Proof.
  intros (_ & Hp & _) [H1 _ H3 H4 _]. split; try done.
  - unfold rebuild, app_of. cbn [speakers Onboarding.registry_]. apply Forall_fmap. eapply Forall_impl; [exact Hp|].
    intros sp Hsp. split; [exact Hsp|]. unfold in_signed. cbn. lia.
  - apply is_object_obj.
Qed.

Lemma upsert_append sp l : device_id sp ∉ (device_id <$> l) -> (upsert sp l).2 = l ++ [sp].
Proof.
  induction l as [|e l IH]; [done|]. rewrite fmap_cons, not_elem_of_cons. intros [He Hl]. cbn [upsert].
  destruct (String.eqb_spec (device_id e) (device_id sp)); [congruence|].
  specialize (IH Hl). destruct (upsert sp l). cbn [snd] in *. by rewrite IH.
Qed.

Lemma hydrate_records l : registry_ok l -> hydrate (record_of <$> l) = l.
Proof.
  unfold hydrate. enough (forall acc, registry_ok (acc ++ l) ->
    foldl (fun reg r => (upsert (mk_speaker (s_device_id r) (s_name r) (s_host r) (s_control_port r)) reg).2) acc
      (record_of <$> l) = acc ++ l) as H by (intros Hl; by apply (H [])).
  induction l as [|sp l IH]; intros acc Hok; [by rewrite app_nil_r|]. rewrite fmap_cons. cbn [foldl].
  assert (mk_speaker (s_device_id (record_of sp)) (s_name (record_of sp)) (s_host (record_of sp))
            (s_control_port (record_of sp)) = sp) as -> by (by destruct sp).
  rewrite upsert_append.
  - rewrite IH; [by rewrite <- app_assoc|]. by rewrite <- app_assoc.
  - unfold registry_ok in Hok. rewrite fmap_app, fmap_cons in Hok. apply NoDup_app in Hok as (_ & Hd & _).
    intros Hin. apply (Hd _ Hin). by apply list_elem_of_here.
Qed.

Lemma loaded_zone_records l : loaded_zones (zone_record <$> l) = l.
Proof. unfold loaded_zones. rewrite <- list_fmap_compose. rewrite <- (list_fmap_id l) at 2. apply list_fmap_ext. by intros i [] _. Qed.

Lemma setConfig_settled c m : settled c -> config_ (setConfig c m) = c.
Proof. intros [_ Hc]. unfold setConfig. cbn [config_]. rewrite Hc. by destruct c. Qed.

Lemma persist_run (s : Site (Rest W)) m : r_config (rest s) = Some m ->
  app_persist (E:=E) s =
    ((), mk_site (registry_ s) (zones_ s) (window_ s)
           (mk_rest (r_identity (rest s)) (Some (state_after (update_config (rebuild (app_of s))) m)) (r_world (rest s))
              (r_dsp (rest s)) (r_audio (rest s))),
     EDisk <$> effects_of (update_config (rebuild (app_of s))) m).
Proof.
  intros Hm. destruct s as [reg zs win [ident cfg [g st o] d au]]. cbn in Hm. subst cfg.
  unfold app_persist, on_app, zoom, persist_app, value_of, state_after, effects_of. cbn.
  by rewrite <- list_fmap_compose.
Qed.

(** A start on a disk that holds what a site saved. *)
Lemma boot_saved s c identity fresh fs ch d path w :
  site_sound s -> saved s c -> streamer_ints c -> dumpable (streamer_to_json c) -> w_auth_token (web c) <> "" ->
  visible d path = Some (dump_indented (streamer_to_json c)) ->
  exists s', boot_site identity fresh fs ch (Some (new_streamer_manager d path)) w = Done (w_auth_token (web c), s') /\
    alike s' s.
Proof.
  intros (Hr & Hp & Hz & Hd) [Hs (z & Hzs & Hzc) Hdsp] Hi Hdump Ht Hv.
  unfold boot_site, boot_config. 
  assert (state_after start_config (new_streamer_manager d path) = mk_streamer_manager d path c ServiceState.Running)
    as -> by (unfold state_after; by rewrite (start_config_reads d path c)).
  cbn [get_config m_config].
  destruct (String.eqb_spec (w_auth_token (web c)) ""); [done|]. cbn [get_config m_config].
  rewrite Hdsp, master_round_trip by apply Hd. eexists. split; [reflexivity|].
  split; [|split].
  - cbn [registry_]. by rewrite Hs, hydrate_records.
  - cbn [zones_]. rewrite Hzs, Hzc. cbn. by rewrite loaded_zone_records.
  - cbn [rest r_dsp]. by apply setConfig_settled.
Qed.
End Restart.

(** ** The order of the services *)

Lemma shutdown_run u : shutdown u =
  ((), mk_running false false [],
   (if web_started_ u then [UWebStop] else []) ++ (if sweeping_ u then [UThreadStop] else []) ++ (UStop <$> reverse (started_ u))).
Proof.
  unfold shutdown. rewrite get_bind_run. destruct u as [[] [] st]; cbn [web_started_ sweeping_ started_ when];
    unfold mbind, SW_bind, tell, modify, mret, SW_ret; by rewrite app_nil_r.
Qed.

Section Order.
Variable start_of : Service -> Status.
Variable name_of : Service -> string.

Lemma start_services_run l b : exists live later, l = live ++ later /\ Forall (fun x => status_ok (start_of x) = true) live /\
  forall st, start_services start_of name_of l (mk_running false b st) =
    match later with
    | [] => (success, mk_running false b (st ++ l), UStart <$> l)
    | svc :: _ => (error (code (start_of svc)) (name_of svc +:+ ": " +:+ message (start_of svc)), mk_running false false [],
                   (UStart <$> live ++ [svc]) ++ (if b then [UThreadStop] else []) ++ (UStop <$> reverse (st ++ live)))
    end /\
    match later with [] => True | svc :: _ => status_ok (start_of svc) = false end.
Proof.
  induction l as [|svc l IH].
  { exists [], []. split; [done|]. split; [constructor|]. intros st. cbn. by rewrite app_nil_r. }
  destruct (status_ok (start_of svc)) eqn:Hs.
  - destruct IH as (live & later & Hl & Hf & Hr). exists (svc :: live), later. split; [by rewrite Hl|].
    split; [by constructor|]. intros st. destruct (Hr (st ++ [svc])) as [Hr1 Hr2]. split; [|exact Hr2].
    cbn [start_services]. unfold mbind, SW_bind, tell, modify. rewrite Hs. cbn [negb web_started_ sweeping_ started_].
    rewrite Hr1. rewrite <- app_assoc. cbn [app]. destruct later; [done|]. by rewrite <- app_assoc.
  - exists [], (svc :: l). split; [done|]. split; [constructor|]. intros st. split; [|done].
    cbn [start_services]. unfold mbind, SW_bind, tell. rewrite Hs. cbn [negb].
    rewrite shutdown_run. cbn [web_started_ sweeping_ started_ mret SW_ret fmap list_fmap app].
    by rewrite !app_nil_r.
Qed.

End Order.

(** ** Playing to a zone *)

Section Playing.
Context {J : JsonLib} {F : FileSystem} {AW : AtomicWriter F} {Cr : Crypto} {W E : Type}.
Variable request : string -> Z -> string -> SW W E (Result string).
Variable set_targets : list (string * Z) -> Status.
Variable make_source : SourceSpec -> Result Source.
Variable moment : W -> Moment.

(** The speakers of the registry with the given ids, in the order of the ids. *)
Definition registered (reg : SpeakerRegistry) (ids : list string) : list Speaker :=
  omap (fun d => head (filter (fun sp => device_id sp = d) reg)) ids.

(** Those of them whose last known state is not that they are offline. *)
Definition audible (s : Site (Rest W)) (ids : list string) : list Speaker :=
  filter (fun sp => match get_state (device_id sp) (store (r_world (rest s))) with
                    | Some st => online st | None => true end = true)
    (registered (registry_ s) ids).

Definition endpoint (sp : Speaker) : string * Z := (Speakers.host sp, kDefaultPort).

Lemma get_speaker_head reg d : get_speaker d reg = head (filter (fun sp => device_id sp = d) reg).
Proof.
  induction reg as [|e reg IH]; [done|]. cbn [get_speaker]. rewrite filter_cons.
  destruct (String.eqb_spec (device_id e) d); [by rewrite decide_True|by rewrite decide_False].
Qed.

Lemma zone_members_registered reg id z zn : get_zone id z = Some zn ->
  zone_members reg id z = registered reg (members zn).
Proof.
  intros Hz. unfold zone_members, registered. rewrite Hz. induction (members zn) as [|d l IH]; [done|].
  cbn [omap list_omap]. by rewrite get_speaker_head, IH.
Qed.

Lemma resolve_audible s id z zn : get_zone id z = Some zn ->
  exists l, resolve id z s = Value l /\ targets_of l = endpoint <$> audible s (members zn).
Proof.
  intros Hz. unfold resolve, resolveTargets, audible, registered, known_offline. rewrite Hz. eexists.
  split; [reflexivity|].
  induction (members zn) as [|d l IH]; [done|]. cbn [omap list_omap]. rewrite get_speaker_head.
  destruct (head (filter _ (registry_ s))) as [sp|] eqn:Hg; [|exact IH].
  rewrite <- get_speaker_head in Hg. destruct (get_speaker_Some _ _ _ Hg) as [_ Hd]. rewrite filter_cons, Hd. destruct (get_state d (store (r_world (rest s)))) as [st|].
  - destruct (online st) eqn:Ho; cbn [negb decide]; [|exact IH].
    unfold targets_of in *. rewrite fmap_cons, IH. done.
  - unfold targets_of in *. cbn [decide]. rewrite fmap_cons, IH. done.
Qed.

(** The members told one after the other to start, each by an exchange of [Gateway.send];
    the last argument but one is the exception that ended it early. *)
Inductive told_to_start : list Speaker -> World W -> list (GEffect E) -> option string -> World W -> Prop :=
| told_all w : told_to_start [] w [] None w
| told_next sp l w r w1 es1 es o w2 :
    send request (moment (outside w)) sp "START_AUDIO" (jobj []) 30 w = (Done r, w1, es1) ->
    told_to_start l w1 es o w2 -> told_to_start (sp :: l) w (es1 ++ es) o w2
| told_throws sp l w what w1 es1 :
    send request (moment (outside w)) sp "START_AUDIO" (jobj []) 30 w = (Throw what, w1, es1) ->
    told_to_start (sp :: l) w es1 (Some what) w1.

(** The exchanges with the members; they leave the application's own objects alone. *)
Lemma start_members_run l (s : Site (Rest W)) : exists ls o w,
  told_to_start l (r_world (rest s)) ls o w /\
  start_members request moment l s =
    (match o with Some what => Throw what | None => Done () end, set_world w s, ELine <$> ls).
Proof.
  revert s. induction l as [|sp l IH]; intros s; cbn [start_members].
  { exists [], None, (r_world (rest s)). split; [constructor|]. by destruct s as [? ? ? []]. }
  assert (app_send request moment sp "START_AUDIO" (jobj []) s =
    on_line (send request (moment (outside (r_world (rest s)))) sp "START_AUDIO" (jobj []) 30) s) as Happ
    by (unfold app_send; by rewrite get_bind_run).
  unfold try_bind, mbind, SW_bind. rewrite Happ. clear Happ.
  change (on_line ?m s) with (value_of m (r_world (rest s)), set_world (state_after m (r_world (rest s))) s,
    ELine <$> effects_of m (r_world (rest s))).
  unfold value_of, state_after, effects_of.
  destruct (send request (moment (outside (r_world (rest s)))) sp "START_AUDIO" (jobj []) 30 (r_world (rest s)))
    as [[[r|what] w1] es1] eqn:Hs; cbn [fst snd].
  - destruct (IH (set_world w1 s)) as (ls & o & w & Ht & Hr). cbn [rest set_world r_world] in Ht.
    exists (es1 ++ ls), o, w. split; [by eapply told_next|]. rewrite Hr, fmap_app. done.
  - exists es1, (Some what), w1. split; [by apply told_throws|]. cbn [mret SW_ret]. by rewrite app_nil_r.
Qed.

Lemma point_run l (s : Site (Rest W)) :
  point (E:=E) set_targets l s =
    (set_targets l, s, ETargets l :: (if status_ok (set_targets l) then [ECount (length l)] else [])).
Proof. unfold point, mbind, SW_bind, tell, mret, SW_ret. by destruct (status_ok (set_targets l)). Qed.

Lemma playTo_run l src (s : Site (Rest W)) : r_audio (rest s) = true ->
  let ok := status_ok (set_targets (targets_of l)) in
  playTo (E:=E) set_targets l src s =
    (if ok then success else set_targets (targets_of l), s,
     ETargets (targets_of l) :: (if ok then [ECount (length (targets_of l)); EPlay src] else [])).
Proof.
  intros Ha. cbv zeta. unfold playTo. rewrite get_bind_run, Ha. cbn [negb].
  unfold mbind, SW_bind. rewrite point_run. by destruct (status_ok (set_targets (targets_of l))) eqn:Ho; cbn; rewrite ?Ho.
Qed.
End Playing.

(** ** Properties *)

(** C31: What the dashboard shows survives a restart.  When the application saves, nothing of
    the site changes; if the disk took the save, the next start finds the same token, the
    same speakers and zones in the same order and the same settings of the master chain;
    if it did not, the next start finds what the site had at the save before.  And after a
    power cut at any point of the save the start finds one of the two. *)
Theorem dashboard_survives_restart (J : JsonLib) (L : JsonLaws J) (F : FileSystem) (FL : FileSystemLaws F)
    (AW : AtomicWriter F) (M : Libm) (W E : Type) (s s0 : Site (Rest W)) z m identity fresh fs ch w :
  let save := update_config (rebuild (app_of s)) in
  let m' := state_after save m in
  let run := app_persist (E:=E) in
  let boots d s1 := exists s',
    boot_site identity fresh fs ch (Some (new_streamer_manager d (m_path m))) w =
      Done (w_auth_token (web (m_config m)), s') /\ alike s' s1 in
  site_sound s -> zones_ s = Some z -> r_config (rest s) = Some m ->
  site_sound s0 -> saved s0 (m_config m) ->
  streamer_ints (m_config m) -> dumpable (streamer_to_json (m_config m)) ->
  dumpable (streamer_to_json (rebuild (app_of s) (m_config m))) -> w_auth_token (web (m_config m)) <> "" ->
  visible (m_disk m) (m_path m) = Some (dump_indented (streamer_to_json (m_config m))) ->
  (forall y, survives (m_disk m) (m_path m) y -> y = visible (m_disk m) (m_path m)) ->
  alike (state_after run s) s /\ r_config (rest (state_after run s)) = Some m' /\
  boots (m_disk m') (if status_ok (value_of save m) then s else s0) /\
  forall d d', d = m_disk m' \/ EDisk d ∈ effects_of run s -> reboot d d' -> boots d' s \/ boots d' s0.
Proof.
  cbv zeta. intros Hs Hz Hm Hs0 Hsv Hi Hd Hd' Ht Hfile Hdur.
  set (c' := rebuild (app_of s) (m_config m)) in *. set (text' := dump_indented (streamer_to_json c')).
  set (boots d s1 := exists s', _ = Done _ /\ alike s' s1).
  assert (forall d, visible d (m_path m) = Some text' -> boots d s) as Hnew.
  { intros d Hv. apply (boot_saved s c'); try done; [by apply (rebuild_saved s z)|by apply rebuild_ints]. }
  assert (forall d, visible d (m_path m) = visible (m_disk m) (m_path m) -> boots d s0) as Hold.
  { intros d Hv. apply (boot_saved s0 (m_config m)); try done. by rewrite Hv. }
  unfold value_of, state_after at 1 2, effects_of at 1. rewrite (persist_run s m Hm). cbn [fst snd rest r_config].
  unfold value_of, state_after, effects_of. rewrite update_config_run. cbv zeta. cbn [fst snd m_config m_disk].
  fold c' text'. destruct (save_text_spec (m_path m) text' (m_disk m)) as [Hok Herr Hpts].
  split; [by split_and!|]. split; [done|]. split.
  - destruct (status_ok _) eqn:Ho; [by apply Hnew, Hok|]. apply Hold. by destruct (Herr eq_refl).
  - intros d d' Hin Hr. assert (d ∈ state_after (save_text (m_path m) text') (m_disk m) ::
      effects_of (save_text (m_path m) text') (m_disk m)) as Hx.
    { destruct Hin as [->|Hin]; [by apply list_elem_of_here|]. apply list_elem_of_further.
      by apply list_elem_of_fmap in Hin as (x & [= ->] & ?). }
    eapply Forall_forall in Hpts as [_ Hsurv]; [|exact Hx].
    destruct (Hsurv _ (reboot_survives d d' (m_path m) Hr)) as [Ho|Hn]; [right|left; by apply Hnew].
    apply Hold. by apply Hdur.
Qed.

(** C30: Requests keep the site well formed.  Whatever requests arrive, in whatever order and
    with whatever bodies, between automatic pairings, polls and link reports: the registry
    keeps one entry per device, with a port that fits a C int, the zones stay apart with
    one zone per id and one zone per speaker, and the master chain keeps all its bands,
    within their range. *)
Theorem requests_keep_site_sound (J : JsonLib) (L : JsonLaws J) (F : FileSystem) (AW : AtomicWriter F) (Cr : Crypto)
    (M : Libm) (W E : Type) request fromBase64 sealTo run_ set_targets make_source moment scan aps levels http
    mac now clock devices kinds token page (s s' : Site (Rest W)) :
  sound (O := SEffect E) scan -> sound aps -> sound levels -> (forall sp m p b, sound (http sp m p b)) ->
  rtc (site_step request fromBase64 sealTo run_ set_targets make_source moment scan aps levels http
         mac now clock devices kinds token page) s s' ->
  site_sound s -> site_sound s'.
Proof.
  intros H1 H2 H3 H4 Hr. induction Hr as [|s1 s2 s3 Hstep _ IH]; [done|]. intros Hs. apply IH.
  eapply step_sound; [exact H1|exact H2|exact H3|exact H4|exact Hstep|exact Hs].
Qed.

(** C29: Playing to a zone is all in order.  An unknown zone, a zone none of whose registered
    members can be heard, and a source that does not open are refused before anything is
    sent.  Otherwise every registered member of the zone is sent the command START_AUDIO, one
    after the other and before anything else; then the sink is pointed at exactly the members
    that are registered and not known to be offline, in the order of the zone, on the audio
    port 50005; and only if it takes them does the engine get the source.  An exchange that
    throws ends the request before the sink is touched.  Nothing of the site changes but what
    the exchanges change. *)
Theorem zone_plays_in_order (J : JsonLib) (F : FileSystem) (Cr : Crypto) (W E : Type)
    request set_targets make_source moment id spec (s : Site (Rest W)) z :
  zones_ s = Some z -> r_audio (rest s) = true ->
  let play := playZone (E:=E) request set_targets make_source moment id spec in
  match get_zone id z with
  | None => play s = (Done (unknown_zone id), s, [])
  | Some zn =>
      let targets := (fun sp => (Speakers.host sp, 50005%Z)) <$> audible s (members zn) in
      let ok := status_ok (set_targets targets) in
      match targets, make_source spec with
      | [], _ => play s = (Done (error ErrorCode.NotFound "zone has no reachable speakers"), s, [])
      | _, Failure e => play s = (Done e, s, [EOpen spec])
      | _, Value src => exists ls o w,
          told_to_start request moment (registered (registry_ s) (members zn)) (r_world (rest s)) ls o w /\
          play s =
            match o with
            | Some what => (Throw what, set_world w s, EOpen spec :: (ELine <$> ls))
            | None =>
                (Done (if ok then success else set_targets targets), set_world w s,
                 EOpen spec :: (ELine <$> ls) ++ ETargets targets ::
                   (if ok then [ECount (length targets); EPlay src] else []))
            end
      end
  end.
Proof.
  intros Hz Ha. cbv zeta. unfold playZone. rewrite get_bind_run, Hz.
  destruct (get_zone id z) as [zn|] eqn:Hg; [|by unfold resolve, resolveTargets; rewrite Hg].
  destruct (resolve_audible s id z zn Hg) as (l & Hl & Ht). rewrite Hl.
  change ((fun sp => (Speakers.host sp, 50005%Z)) <$> audible s (members zn)) with (endpoint <$> audible s (members zn)).
  rewrite <- Ht. destruct l as [|e l]; [done|]. cbn [targets_of fmap list_fmap]. fold (targets_of l).
  change ((ep_host e, ep_port e) :: targets_of l) with (targets_of (e :: l)).
  destruct (make_source spec) as [src|st]; [|done].
  rewrite (zone_members_registered _ _ _ _ Hg).
  destruct (start_members_run request moment (registered (registry_ s) (members zn)) s) as (ls & o & w & Htold & Hrun).
  exists ls, o, w. split; [exact Htold|].
  unfold try_bind, mbind, SW_bind. cbn [tell]. rewrite Hrun.
  destruct o as [what|]; [cbn; by rewrite app_nil_r|].
  rewrite playTo_run by exact Ha. cbn [fst snd mret SW_ret]. by rewrite app_nil_r.
Qed.

(** The streamer comes up whole or not at all.  The services start in order after the
    pairing thread, and the web server only when all of them run.  If one refuses, or the
    web server does, the start reports its error, and the thread and exactly the services
    that had started have been stopped, the last first; nothing is left running.  A later
    shutdown stops the web server before the thread and the services; one more does
    nothing. *)
Theorem streamer_starts_whole start_of name_of web_start with_link with_monitor :
  let u0 := mk_running false false [] in
  let start := start_all start_of name_of web_start with_link with_monitor in
  let all := ordered with_link with_monitor in
  exists live later, all = live ++ later /\ Forall (fun x => status_ok (start_of x) = true) live /\
    match later with
    | [] =>
        if status_ok web_start then
          start u0 = (success, mk_running true true all, UThread :: (UStart <$> all) ++ [UWebStart]) /\
          (shutdown;; shutdown) (mk_running true true all) = ((), u0, [UWebStop; UThreadStop] ++ (UStop <$> reverse all))
        else
          start u0 = (error (code web_start) ("web: " +:+ message web_start), u0,
                      UThread :: (UStart <$> all) ++ [UWebStart; UThreadStop] ++ (UStop <$> reverse all))
    | svc :: _ => status_ok (start_of svc) = false /\
        start u0 = (error (code (start_of svc)) (name_of svc +:+ ": " +:+ message (start_of svc)), u0,
                    UThread :: (UStart <$> live ++ [svc]) ++ UThreadStop :: (UStop <$> reverse live))
    end.
Proof.
  cbv zeta. set (all := ordered with_link with_monitor).
  destruct (start_services_run start_of name_of all true) as (live & later & Hall & Hf & Hr).
  exists live, later. split; [done|]. split; [done|]. destruct (Hr []) as [Hr1 Hr2]. clear Hr.
  unfold start_all, start_web. fold all. unfold mbind, SW_bind, modify, tell. cbn [web_started_ started_ sweeping_].
  rewrite Hr1. destruct later as [|svc later].
  - change (status_ok success) with true. destruct (status_ok web_start); cbn [negb started_ sweeping_].
    + split; [done|]. rewrite shutdown_run. cbn [web_started_ sweeping_ started_]. rewrite shutdown_run. cbn. by rewrite !app_nil_r.
    + rewrite shutdown_run. cbn [web_started_ sweeping_ started_ app mret SW_ret]. by rewrite !app_nil_r.
  - split; [exact Hr2|].
    change (status_ok (error (code (start_of svc)) (name_of svc +:+ ": " +:+ message (start_of svc))))
      with (status_ok (start_of svc)).
    rewrite Hr2. cbn [negb mret SW_ret app]. by rewrite <- app_assoc, !app_nil_r.
Qed.

(** ** Witnesses *)

Section Witnesses.
#[local] Existing Instance jvalue_lib.
#[local] Existing Instance jvalue_laws.
#[local] Existing Instance mdisk_system.
#[local] Existing Instance mdisk_laws.
#[local] Existing Instance posix_writer.
#[local] Existing Instance demo_crypto.
#[local] Existing Instance flat_libm.

Definition living_room : Zone := mk_zone "zone-1" "Living room" ["SPK-1"%string].
Definition demo_streamer_identity : StreamerIdentity := mk_streamer_identity "STR-1" "pub" "key".

(** The configuration of an empty site, and the disk that holds it. *)
Definition empty_config : StreamerConfig :=
  mk_streamer_config 1 default_identity [] [] default_audio (master_to_json flat_config) default_network
    (mk_web 8090 "token" "127.0.0.1") "info".
Definition empty_manager : StreamerConfigManager :=
  mk_streamer_manager (disk_with (dump_indented (streamer_to_json empty_config))) "c" empty_config ServiceState.Running.

Definition site_with (reg : SpeakerRegistry) (zs : list Zone) : Site (Rest unit) :=
  mk_site reg (Some (mk_zones None 0 zs 2)) (Some (mk_window false 0))
    (mk_rest demo_streamer_identity (Some empty_manager)
       (mk_world (mk_gateway "key" "STR-1" 0) (mk_store true ∅) tt) (new_master (f_of_Z 48000) 2) true).
Definition empty_site : Site (Rest unit) := site_with [] [].
Definition kitchen_site : Site (Rest unit) := site_with [kitchen] [living_room].

Lemma zones_ok_one z : NoDup (members z) -> zones_ok [z].
Proof. intros H. split; [apply NoDup_singleton|]. cbn. by rewrite app_nil_r. Qed.

Lemma site_with_sound reg zs : registry_ok reg -> Forall (fun sp => in_signed 32 (control_port sp)) reg ->
  zones_ok zs -> site_sound (site_with reg zs).
Proof. intros H1 H2 H3. split; [done|]. split; [done|]. split; [by intros z [= <-]|]. split; vm_compute; reflexivity. Qed.

Lemma empty_site_sound : site_sound empty_site.
Proof. apply site_with_sound; [constructor|constructor|]. split; constructor. Qed.
Lemma kitchen_site_sound : site_sound kitchen_site.
Proof.
  apply site_with_sound; [apply NoDup_singleton|repeat constructor; cbn; lia|].
  apply zones_ok_one. apply NoDup_singleton.
Qed.

Lemma dashboard_survives_restart_witness :
  exists s', boot_site demo_streamer_identity "fresh" (f_of_Z 48000) 2
    (Some (new_streamer_manager (m_disk (state_after (update_config (rebuild (app_of kitchen_site))) empty_manager)) "c")) tt
      = Done ("token"%string, s') /\ registry_ s' = [kitchen] /\
    Zones.zones_ <$> zones_ s' = Some [living_room].
Proof.
  destruct (dashboard_survives_restart jvalue_lib jvalue_laws mdisk_system mdisk_laws posix_writer flat_libm unit unit
    kitchen_site empty_site (mk_zones None 0 [living_room] 2) empty_manager demo_streamer_identity "fresh" (f_of_Z 48000) 2 tt)
    as (_ & _ & (s' & Hb & Hr & Hz & _) & _).
  - apply kitchen_site_sound.
  - done.
  - done.
  - apply empty_site_sound.
  - split; [done|by exists (mk_zones None 0 [] 2)|reflexivity].
  - split; try done; unfold in_signed; repeat constructor; cbn; lia.
  - exact I.
  - exact I.
  - done.
  - vm_compute. reflexivity.
  - intros y Hy. apply list_elem_of_singleton in Hy. rewrite Hy. vm_compute. reflexivity.
  - assert (status_ok (value_of (update_config (rebuild (app_of kitchen_site))) empty_manager) = true) as Hok
      by (vm_compute; reflexivity).
    rewrite Hok in Hr, Hz. exists s'. split; [exact Hb|]. split; [exact Hr|exact Hz].
Defined.

(** A line nobody answers. *)
Definition silent (_ : string) (_ : Z) (_ : string) : SW unit string (Result string) :=
  mret (Failure (error ErrorCode.NotFound "no answer")).
Definition any_moment (_ : unit) : Moment := mk_moment 1000 1 1 1 3.

Lemma zone_plays_in_order_witness :
  let play := playZone (E:=string) silent (fun _ => success) (fun _ => Value SStdin) any_moment "zone-1"
                (mk_source_spec "stdin" "") in
  exists ls w, told_to_start silent any_moment [kitchen] (r_world (rest kitchen_site)) ls None w /\
    play kitchen_site = (Done success, set_world w kitchen_site,
      EOpen (mk_source_spec "stdin" "") :: (ELine <$> ls) ++ [ETargets [("10.0.0.7"%string, 50005%Z)]; ECount 1; EPlay SStdin]).
Proof.
  pose proof (zone_plays_in_order jvalue_lib mdisk_system demo_crypto unit string silent (fun _ => success)
    (fun _ => Value SStdin) any_moment "zone-1" (mk_source_spec "stdin" "") kitchen_site
    (mk_zones None 0 [living_room] 2) eq_refl eq_refl) as (ls & o & w & Ht & H).
  destruct o as [what|].
  - exfalso. assert (match value_of (playZone (E:=string) silent (fun _ => success) (fun _ => Value SStdin) any_moment "zone-1"
      (mk_source_spec "stdin" "")) kitchen_site with Throw _ => false | Done _ => true end = true) as Hd by (vm_compute; reflexivity).
    unfold value_of in Hd. rewrite H in Hd. discriminate.
  - exists ls, w. split; [exact Ht|exact H].
Defined.

(** A radio on which every command succeeds, and which logs them. *)
Definition logged (cmd : string) : SW unit string (string * Z) := tell [cmd];; mret ("10.42.0.1"%string, 0%Z).
Definition no_seal (_ _ : string) : Result string := Failure (error ErrorCode.InvalidArg "bad key").
Definition nothing : SW (Site (Rest unit)) (SEffect string) JValue := mret JNull.
Definition proxy (_ : Speaker) (_ _ _ : string) : SW (Site (Rest unit)) (SEffect string) (Z * string) := mret (0%Z, ""%string).

Definition add_kitchen_request : HttpRequest :=
  demo_post "/api/speakers" "token" [("device_id", JStr "SPK-1"); ("name", JStr "Kitchen"); ("host", JStr "10.0.0.7")].

Lemma requests_keep_site_sound_witness :
  let ctx := app_context silent (fun s => Value s) no_seal logged (fun _ => success) (fun _ => Value SStdin) any_moment
    nothing nothing nothing proxy (fun _ => ""%string) (fun _ => 0%Z) (fun _ => 0%Z) [] [] "token" "page" in
  let s' := state_after (route ctx add_kitchen_request) empty_site in
  registry_ s' = [kitchen] /\ site_sound s'.
Proof.
  intros ctx s'. split; [reflexivity|].
  apply (requests_keep_site_sound jvalue_lib jvalue_laws mdisk_system posix_writer demo_crypto flat_libm unit string
    silent (fun s => Value s) no_seal logged (fun _ => success) (fun _ => Value SStdin) any_moment
    nothing nothing nothing proxy (fun _ => ""%string) (fun _ => 0%Z) (fun _ => 0%Z) [] [] "token" "page" empty_site).
  - apply sound_ret.
  - apply sound_ret.
  - apply sound_ret.
  - intros. apply sound_ret.
  - apply rtc_once, step_request.
  - apply empty_site_sound.
Defined.

(** A body whose [site_id] is a number makes the callback throw after the radio has joined
    the access point: the profile is left up. *)
Lemma thrown_onboarding_strands_radio :
  let r := app_onboard silent (fun s => Value s) no_seal logged (JObj [("ssid", JStr "NEXUS-1"); ("site_id", JInt 5)])
             kitchen_site in
  (exists w, r.1.1 = Throw w) /\
  r.2 = EOut <$> [delete_profile kProfile; delete_profile kProfile;
    quietly ("nmcli connection add type wifi ifname 'wlan0' con-name 'nexus-onboard' ssid 'NEXUS-1'" +:+
             " connection.autoconnect no");
    quietly "nmcli -w 30 connection up 'nexus-onboard'"; "nmcli -g IP4.GATEWAY device show 'wlan0' 2>/dev/null"]%string.
Proof. intros r. split; [eexists|]; reflexivity. Qed.
End Witnesses.
