(* ===== verification/Transport.v ===== *)
(** * Transport: the sockets under the control channel and the audio

    Models the two ends of a control exchange, [streamer/src/control/TcpLineTransport.cpp]
    and [src/control/TcpCommandTransport.cpp], and the fan-out of the audio,
    [streamer/src/send/UdpPacketSink.cpp], with the receiving loop of
    [src/audio/UdpAudioSource.cpp].  What the kernel answers to the system calls of one
    connection is a list of results: how much of a write it takes, and the chunks a read
    brings, which need not follow the writes of the other end. *)

From Stdlib Require Import Ascii String.
From S2P Require Import Prelude Core Json Files Config Control Network Speakers Gateway.

(** ** One connection *)

(** What [recv] gives: a positive number of bytes, the end of the stream, or an error. *)
Inductive Recv := Got (s : string) | Closed | Broken (why : string).

Definition newline : string := String line_feed "".

(** The text before the first newline, if there is one. *)
Definition line_of (s : string) : option string := fst <$> split_at line_feed s.
Definition cut_line (s : string) : string := default s (line_of s).

Definition io_error (m : string) : Status := error ErrorCode.IoError m.

(** ** The streamer's end *)

(** The loop that writes what is [left_]: an answer of [send] is a number and the text of
    [errno].  The result, and the bytes the kernel took; [None] when it has no answer: the
    call waits. *)
(* [src/streamer/src/control/TcpLineTransport.cpp:60-67] TcpLineTransport::request *)
Fixpoint send_all (answers : list (Z * string)) (left_ : string) : option (Result unit * string) :=
  match left_, answers with
  | EmptyString, _ => Some (Value (), "")
  | _, [] => None
  | _, (n, why) :: answers =>
      if (n <=? 0)%Z then Some (Failure (io_error ("send: " +:+ why)), "")
      else
        '(r, out) ← send_all answers (str_drop (Z.to_nat n) left_);
        Some (r, str_take (Z.to_nat n) left_ +:+ out)
  end.

(* [src/streamer/src/control/TcpLineTransport.cpp:72-81] TcpLineTransport::request *)
Fixpoint read_response (l : list Recv) (resp : string) : option (Result string) :=
  match l with
  | [] => None
  | Broken why :: _ => Some (Failure (io_error ("recv: " +:+ why)))
  | Closed :: _ => Some (Value resp)
  | Got s :: l => if bool_decide (is_Some (line_of (resp +:+ s))) then Some (Value (resp +:+ s))
                  else read_response l (resp +:+ s)
  end.

(** What the system answers to one call of [request]. *)
Record Wire := mk_wire
  { resolved : bool; socket_error : option string; connect_error : option string;
    sends : list (Z * string); receives : list Recv }.

(** The outcome and the bytes the kernel took; [None] when the call waits. *)
(* [src/streamer/src/control/TcpLineTransport.cpp:29-87] TcpLineTransport::request *)
Definition tcp_request (w : Wire) (host request : string) : option (Result string * string) :=
  if negb (resolved w) then Some (Failure (io_error ("resolve failed: " +:+ host)), "")
  else
    match socket_error w, connect_error w with
    | Some why, _ => Some (Failure (io_error ("socket: " +:+ why)), "")
    | None, Some why => Some (Failure (io_error ("connect: " +:+ why)), "")
    | None, None =>
        '(r, out) ← send_all (sends w) (request +:+ newline);
        match r with
        | Failure s => Some (Failure s, out)
        | Value _ =>
            resp ← read_response (receives w) "";
            Some (match resp with
                  | Failure s => Failure s
                  | Value resp => if String.eqb (cut_line resp) "" then Failure (io_error "empty response")
                                  else Value (cut_line resp)
                  end, out)
        end
    end.

(** ** The speaker's end *)

Definition request_limit : nat := 64 * 1024.

(** The loop that reads one request; an end or an error of the stream ends it. *)
(* [src/src/control/TcpCommandTransport.cpp:61-69] TcpCommandTransport::acceptLoop *)
Fixpoint read_request (l : list Recv) (req : string) : option string :=
  match l with
  | [] => None
  | Got s :: l =>
      let req := req +:+ s in
      if bool_decide (is_Some (line_of req)) || (request_limit <? String.length req) then Some req
      else read_request l req
  | _ :: _ => Some req
  end.

(** The request handed to the handler, and the bytes given to the one [send]; the kernel
    takes the first [taken] of them. *)
(* [src/src/control/TcpCommandTransport.cpp:61-75] TcpCommandTransport::acceptLoop *)
Definition serve {S E} (handler : string -> SW S E (Try string)) (l : list Recv) (taken : nat) :
  option (SW S E (Try string)) :=
  req ← read_request l "";
  Some (reply ← handler (cut_line req);
        mret (match reply with Done r => Done (str_take taken (r +:+ newline)) | Throw w => Throw w end)).

(** The listening sockets of the two servers: the descriptor, [-1] when there is none, and
    the flag their threads run under. *)
Record Listener := mk_listener { listen_fd_ : Z; running_ : bool }.

Section Listening.
(** The answers of [socket], [bind] and [listen] with the text of [errno]. *)
Variable socket_ : Z * string.
Variable bind_ listen_ : Z -> Z -> Z * string.

(* [src/src/control/TcpCommandTransport.cpp:20-52] TcpCommandTransport::start *)
Definition tcp_start (port : Z) (t : Listener) : Status * Listener :=
  let fd := socket_.1 in
  if (fd <? 0)%Z then (io_error ("socket: " +:+ socket_.2), mk_listener fd (running_ t))
  else if negb ((bind_ fd (wrap 16 port)).1 =? 0)%Z then
    (io_error ("bind: " +:+ (bind_ fd (wrap 16 port)).2), mk_listener (-1) (running_ t))
  else if negb ((listen_ fd 8).1 =? 0)%Z then
    (io_error ("listen: " +:+ (listen_ fd 8).2), mk_listener (-1) (running_ t))
  else (success, mk_listener fd true).

(* [src/src/audio/UdpAudioSource.cpp:20-46] UdpAudioSource::start *)
Definition udp_start (port : Z) (t : Listener) : Status * Listener :=
  let fd := socket_.1 in
  if (fd <? 0)%Z then (io_error ("socket: " +:+ socket_.2), mk_listener fd (running_ t))
  else if negb ((bind_ fd (wrap 16 port)).1 =? 0)%Z then
    (io_error ("bind: " +:+ (bind_ fd (wrap 16 port)).2), mk_listener (-1) (running_ t))
  else (success, mk_listener fd true).
End Listening.

(** The descriptors closed. *)
(* [src/src/control/TcpCommandTransport.cpp:79-88] TcpCommandTransport::stop *)
Definition listener_stop (t : Listener) : Status * Listener * list Z :=
  if negb (running_ t) then (success, t, [])
  else if (0 <=? listen_fd_ t)%Z then (success, mk_listener (-1) false, [listen_fd_ t])
  else (success, mk_listener (listen_fd_ t) false, []).

(** ** The audio fan-out *)

(* [src/streamer/src/send/UdpPacketSink.h:35-39] UdpPacketSink::Target *)
Record Target := mk_target { t_host : string; t_port : Z; t_addr : Z }.

(* [src/streamer/src/send/UdpPacketSink.h:46-48] UdpPacketSink *)
Record UdpPacketSink := mk_udp_sink { fd_ : option Z; targets_ : list Target }.

Section Sink.
(** [inet_pton] and [getaddrinfo]; and the answer of [sendto] for an address and a port. *)
Variable lookup_host : string -> option Z.
Variable sendto : Z -> Z -> list Z -> Z.

(* [src/streamer/src/send/UdpPacketSink.cpp:32-46] UdpPacketSink::resolveIpv4 *)
Definition resolveIpv4 (host : string) : Result Z :=
  match lookup_host host with
  | Some a => Value a
  | None => Failure (error ErrorCode.InvalidArg ("cannot resolve target host: " +:+ host))
  end.

(* [src/streamer/src/send/UdpPacketSink.cpp:22-30] UdpPacketSink::open *)
Definition udp_open (socket_ : Z * string) (k : UdpPacketSink) : Status * UdpPacketSink :=
  if (socket_.1 <? 0)%Z then (io_error ("socket: " +:+ socket_.2), mk_udp_sink None (targets_ k))
  else (success, mk_udp_sink (Some socket_.1) (targets_ k)).

(* [src/streamer/src/send/UdpPacketSink.cpp:48-54] UdpPacketSink::addTarget *)
Definition addTarget (host : string) (port : Z) (k : UdpPacketSink) : Status * UdpPacketSink :=
  match resolveIpv4 host with
  | Failure s => (s, k)
  | Value a => (success, mk_udp_sink (fd_ k) (targets_ k ++ [mk_target host port a]))
  end.

(* [src/streamer/src/send/UdpPacketSink.cpp:58-63] UdpPacketSink::removeTarget *)
Fixpoint remove_target (host : string) (port : Z) (l : list Target) : list Target :=
  match l with
  | [] => []
  | t :: l => if String.eqb (t_host t) host && (t_port t =? port)%Z then l else t :: remove_target host port l
  end.

(* [src/streamer/src/send/UdpPacketSink.cpp:56-64] UdpPacketSink::removeTarget *)
Definition removeTarget (host : string) (port : Z) (k : UdpPacketSink) : UdpPacketSink :=
  mk_udp_sink (fd_ k) (remove_target host port (targets_ k)).

(* [src/streamer/src/send/UdpPacketSink.cpp:74-80] UdpPacketSink::setTargets *)
Fixpoint resolve_all (l : list (string * Z)) : Result (list Target) :=
  match l with
  | [] => Value []
  | (host, port) :: l =>
      match resolveIpv4 host with
      | Failure s => Failure s
      | Value a => match resolve_all l with
                   | Failure s => Failure s
                   | Value next => Value (mk_target host port a :: next)
                   end
      end
  end.

(* [src/streamer/src/send/UdpPacketSink.cpp:71-84] UdpPacketSink::setTargets *)
Definition setTargets (l : list (string * Z)) (k : UdpPacketSink) : Status * UdpPacketSink :=
  match resolve_all l with
  | Failure s => (s, k)
  | Value next => (success, mk_udp_sink (fd_ k) next)
  end.

(** The sends made, and whether all of them took the whole datagram. *)
(* [src/streamer/src/send/UdpPacketSink.cpp:86-104] UdpPacketSink::send *)
Definition udp_send (datagram : list Z) (k : UdpPacketSink) : bool * list (Z * Z) :=
  match fd_ k with
  | None => (false, [])
  | Some _ =>
      let sent := (fun t => (t_addr t, wrap 16 (t_port t))) <$> targets_ k in
      (forallb (fun p => (sendto p.1 p.2 datagram =? Z.of_nat (length datagram))%Z) sent, sent)
  end.

(** A change of the targets is made whole or not at all. *)
Lemma setTargets_whole l k :
  let '(s, k') := setTargets l k in
  if status_ok s then fd_ k' = fd_ k /\ (fun t => (t_host t, t_port t)) <$> targets_ k' = l /\
                      Forall (fun t => lookup_host (t_host t) = Some (t_addr t)) (targets_ k')
  else k' = k /\ exists h p, (h, p) ∈ l /\ lookup_host h = None.
Proof.
  unfold setTargets.
  assert (match resolve_all l with
          | Value next => (fun t => (t_host t, t_port t)) <$> next = l /\
                          Forall (fun t => lookup_host (t_host t) = Some (t_addr t)) next
          | Failure s => status_ok s = false /\ exists h p, (h, p) ∈ l /\ lookup_host h = None
          end) as H.
  { induction l as [|[h p] l IH]; cbn [resolve_all]; [by split; [|constructor]|]. unfold resolveIpv4.
    destruct (lookup_host h) as [a|] eqn:Ha.
    - destruct (resolve_all l) as [next|s].
      + destruct IH as [Hm Hf]. split; [by rewrite fmap_cons, Hm|by constructor].
      + destruct IH as (Hs & h' & p' & Hin & Hn). split; [done|]. exists h', p'. split; [by right|done].
    - split; [done|]. exists h, p. split; [left|done]. }
  destruct (resolve_all l) as [next|s]; [by split|]. destruct H as [Hs Hex]. rewrite Hs. by split.
Qed.
End Sink.

(** The datagrams a receive brings to the handler: an empty one or an error is passed over. *)
(* [src/src/audio/UdpAudioSource.cpp:48-58] UdpAudioSource::recvLoop *)
Definition recvLoop (l : list (option (list Z))) : list (list Z) :=
  omap (fun r => match r with Some [] | None => None | Some d => Some d end) l.

(** ** Lines across chunks *)

Lemma split_at_app_Some c a x y b : split_at c a = Some (x, y) -> split_at c (a +:+ b) = Some (x, y +:+ b).
Proof.
  revert x y. induction a as [|d a IH]; intros x y H; [done|]. rewrite str_app_cons. cbn [split_at] in *.
  destruct (bool_decide (d = c)); [by injection H as <- <-|].
  destruct (split_at c a) as [[u v]|]; [|done]. injection H as <- <-. by rewrite (IH u v).
Qed.

Lemma split_at_app_None c a b : split_at c a = None ->
  split_at c (a +:+ b) = (fun p => (a +:+ p.1, p.2)) <$> split_at c b.
Proof.
  induction a as [|d a IH]; intros H.
  { change ("" +:+ b) with b. by destruct (split_at c b) as [[]|]. }
  rewrite str_app_cons. cbn [split_at] in *. destruct (bool_decide (d = c)); [done|].
  destruct (split_at c a) as [[]|]; [done|]. rewrite IH by done. by destruct (split_at c b) as [[]|].
Qed.

Lemma ascii_list_length s : length (list_ascii_of_string s) = String.length s.
Proof. induction s as [|c s IH]; cbn; by rewrite ?IH. Qed.

Definition one_line (s : string) : Prop := split_at line_feed s = None.

Lemma one_line_newline s : one_line s -> split_at line_feed (s +:+ newline) = Some (s, "").
Proof. intros H. rewrite split_at_app_None by done. cbn [split_at newline].
  rewrite bool_decide_eq_true_2 by done. cbn. by rewrite str_app_nil. Qed.

Lemma line_of_app a b : line_of (a +:+ b) = match line_of a with Some l => Some l | None => (fun l => a +:+ l) <$> line_of b end.
Proof.
  unfold line_of. destruct (split_at line_feed a) as [[x y]|] eqn:Ha.
  - by rewrite (split_at_app_Some _ _ _ _ _ Ha).
  - rewrite split_at_app_None by done. by destruct (split_at line_feed b) as [[]|].
Qed.

Lemma line_of_None s : line_of s = None <-> one_line s.
Proof. unfold line_of, one_line. by destruct (split_at line_feed s). Qed.

(** A text without a newline in front of a line is a part of it. *)
Lemma before_line a b l : one_line a -> line_of (a +:+ b) = Some l -> (String.length a <= String.length l)%nat.
Proof.
  intros Ha. rewrite line_of_app, (proj2 (line_of_None a) Ha). intros (k & _ & ->)%fmap_Some.
  rewrite str_app_length. lia.
Qed.

Fixpoint joined_text (l : list string) : string := match l with [] => "" | s :: l => s +:+ joined_text l end.

Lemma line_of_newline s : one_line s -> line_of (s +:+ newline) = Some s.
Proof. intros H. unfold line_of. by rewrite one_line_newline. Qed.

Lemma cut_line_app_line a b l : line_of a = Some l -> cut_line (a +:+ b) = l.
Proof. intros H. unfold cut_line. by rewrite line_of_app, H. Qed.

(** The client reads a whole stream up to its first line, in whatever pieces it comes. *)
Lemma read_response_stream cs acc : one_line acc ->
  exists resp, read_response ((Got <$> cs) ++ [Closed]) acc = Some (Value resp) /\
               cut_line resp = cut_line (acc +:+ joined_text cs).
Proof.
  revert acc. induction cs as [|c cs IH]; intros acc Ha; cbn [joined_text].
  { exists acc. by rewrite str_app_nil. }
  cbn [fmap list_fmap app read_response]. rewrite <- str_app_assoc.
  destruct (line_of (acc +:+ c)) as [k|] eqn:Hk.
  - rewrite bool_decide_eq_true_2 by done. exists (acc +:+ c). split; [done|].
    rewrite (cut_line_app_line _ (joined_text cs) _ Hk). unfold cut_line. by rewrite Hk.
  - rewrite bool_decide_eq_false_2 by (by intros [? [=]]). apply IH. by apply line_of_None.
Qed.

Lemma read_request_line cs acc more l : one_line acc -> line_of (acc +:+ joined_text cs) = Some l ->
  (String.length l <= request_limit)%nat ->
  exists req, read_request ((Got <$> cs) ++ more) acc = Some req /\ cut_line req = l.
Proof.
  intros Ha Hl Hlen. revert acc Ha Hl. induction cs as [|c cs IH]; intros acc Ha Hl; cbn [joined_text] in Hl.
  { rewrite str_app_nil, (proj2 (line_of_None acc) Ha) in Hl. done. }
  cbn [fmap list_fmap app read_request]. rewrite <- str_app_assoc in Hl. pose proof Hl as Hl'. rewrite line_of_app in Hl'.
  destruct (line_of (acc +:+ c)) as [k|] eqn:Hk.
  - rewrite bool_decide_eq_true_2 by done. injection Hl' as ->. exists (acc +:+ c). split; [done|].
    unfold cut_line. by rewrite Hk.
  - apply line_of_None in Hk. pose proof (before_line _ _ _ Hk Hl) as Hb.
    rewrite bool_decide_eq_false_2 by (by intros [? [=]]). cbn [orb].
    destruct (Nat.ltb_spec request_limit (String.length (acc +:+ c))); [lia|]. by apply IH.
Qed.

(** A kernel that always takes something takes everything, once. *)
Lemma send_all_all answers s : Forall (fun a => 0 < a.1)%Z answers -> (String.length s <= length answers)%nat ->
  send_all answers s = Some (Value (), s).
Proof.
  revert s. induction answers as [|[n why] answers IH]; intros s Hpos Hlen; [by destruct s; [|cbn in Hlen; lia]|].
  destruct s as [|c s]; [done|]. inv Hpos. cbn [send_all fst] in *. destruct (Z.leb_spec n 0); [lia|].
  rewrite IH; [|done|].
  - change (Some (Value (), str_take (Z.to_nat n) (String c s) +:+ str_drop (Z.to_nat n) (String c s)) =
      Some (Value (), String c s)). by rewrite str_take_drop.
  - rewrite str_drop_length. cbn [String.length length] in *. lia.
Qed.

(** ** The two ends together *)

Section Joined.
Context {S E : Type}.
(** How the network cuts a stream into chunks, how the kernel of the client takes a text,
    and how much of a reply the kernel of the speaker takes. *)
Variable up down : string -> list string.
Variable takes : string -> list (Z * string).
Variable taken : nat.
Variable handler : string -> SW S E (Try string).

(** One exchange over a connection that is made and loses nothing: what the client sent
    reaches the speaker, what the kernel of the speaker took reaches the client, and each
    end sees the other close.  [None] when one of the two waits or the handler throws. *)
Definition exchange (host line : string) : SW S E (option (Result string)) := fun s =>
  match send_all (takes (line +:+ newline)) (line +:+ newline) with
  | None => (None, s, [])
  | Some (_, sent) =>
      match serve handler ((Got <$> up sent) ++ [Closed]) taken with
      | None => (None, s, [])
      | Some m =>
          match m s with
          | (Throw _, s', es) => (None, s', es)
          | (Done bytes, s', es) =>
              (fst <$> tcp_request (mk_wire true None None (takes (line +:+ newline))
                                            ((Got <$> down bytes) ++ [Closed])) host line, s', es)
          end
      end
  end.

Hypothesis up_joined : forall x, joined_text (up x) = x.
Hypothesis down_joined : forall x, joined_text (down x) = x.
Hypothesis takes_all : forall x, Forall (fun a => 0 < a.1)%Z (takes x) /\ (String.length x <= length (takes x))%nat.

(** What the client makes of the bytes [bytes] that came down. *)
Lemma client_reads host line bytes :
  tcp_request (mk_wire true None None (takes (line +:+ newline)) ((Got <$> down bytes) ++ [Closed])) host line =
    Some (if String.eqb (cut_line bytes) "" then Failure (io_error "empty response") else Value (cut_line bytes),
          line +:+ newline).
Proof using down_joined takes_all.
  unfold tcp_request. cbn [resolved negb socket_error connect_error sends receives].
  destruct (takes_all (line +:+ newline)) as [Hp Hl]. rewrite send_all_all by done. cbn [mbind option_bind].
  destruct (read_response_stream (down bytes) "") as (resp & -> & Hc); [done|].
  cbn [mbind option_bind]. rewrite Hc. by rewrite down_joined.
Qed.

Lemma serve_handled cs line reply s s' es :
  joined_text cs = line +:+ newline -> one_line line -> (String.length line <= request_limit)%nat ->
  handler line s = (Done reply, s', es) ->
  exists m, serve handler ((Got <$> cs) ++ [Closed]) taken = Some m /\
            m s = (Done (str_take taken (reply +:+ newline)), s', es).
Proof.
  intros Hj Hl Hlen Hh. unfold serve.
  destruct (read_request_line cs "" [Closed] line) as (req & -> & Hc); [done| |done|].
  { rewrite Hj. apply line_of_newline, Hl. }
  eexists. split; [reflexivity|]. rewrite Hc. unfold mbind, SW_bind. rewrite Hh. cbn. by rewrite app_nil_r.
Qed.

(** One exchange, whatever part of the reply the kernel of the speaker takes. *)
Lemma exchange_handled host line reply s s' es :
  one_line line -> (String.length line <= request_limit)%nat ->
  handler line s = (Done reply, s', es) ->
  exchange host line s =
    (let got := cut_line (str_take taken (reply +:+ newline)) in
     Some (if String.eqb got "" then Failure (io_error "empty response") else Value got), s', es).
Proof using up_joined down_joined takes_all.
  intros Hl Hlen Hh. unfold exchange. destruct (takes_all (line +:+ newline)) as [Hp Hle].
  rewrite send_all_all by done.
  destruct (serve_handled (up (line +:+ newline)) line reply s s' es) as (m & -> & ->); [apply up_joined|done..|].
  by rewrite client_reads.
Qed.
End Joined.

(** C32: the sockets implement what the client and the speaker assume of each other: over a
    connection that loses nothing, however the network cuts the two streams into reads and
    however small the writes the streamer's kernel takes, a request line of at most the
    speaker's limit is handed to the handler exactly as the streamer gave it and once, and
    the handler's one-line reply is what the streamer's call returns, provided the speaker's
    kernel takes the reply whole. *)
Theorem exchange_delivers {S E} (up down : string -> list string) (takes : string -> list (Z * string))
    (taken : nat) (handler : string -> SW S E (Try string)) host line reply s s' es
  (Hup : forall x, joined_text (up x) = x) (Hdown : forall x, joined_text (down x) = x)
  (Htakes : forall x, Forall (fun a => 0 < a.1)%Z (takes x) /\ (String.length x <= length (takes x))%nat)
  (Hline : one_line line) (Hlimit : (String.length line <= request_limit)%nat)
  (Hreply : one_line reply) (Hsome : reply <> "") (Htaken : (String.length reply < taken)%nat)
  (Hhandled : handler line s = (Done reply, s', es)) :
  exchange up down takes taken handler host line s = (Some (Value reply), s', es).
Proof.
  rewrite (exchange_handled up down takes taken handler Hup Hdown Htakes host line reply s s' es) by done.
  rewrite str_take_all by (rewrite str_app_length; cbn; lia). unfold cut_line. rewrite line_of_newline by done.
  cbn. by destruct (String.eqb_spec reply "").
Qed.

Lemma exchange_delivers_witness :
  exchange (fun x => [str_take 3 x; str_drop 3 x]) (fun x => [x])
    (fun x => (fun _ => (1%Z, "")) <$> list_ascii_of_string x) 6
    (fun line n => (Done (line +:+ "!"), Datatypes.S n, [n])) "speaker.local" "ping" 7 =
  (Some (Value "ping!"), 8, [7]).
Proof.
  apply (exchange_delivers (fun x => [str_take 3 x; str_drop 3 x]) (fun x => [x])
    (fun x => (fun _ => (1%Z, "")) <$> list_ascii_of_string x) 6
    (fun line n => (Done (line +:+ "!"), Datatypes.S n, [n]))).
  - intros x. cbn [joined_text]. rewrite str_app_nil. apply str_take_drop.
  - intros x. apply str_app_nil.
  - intros x. split.
    + apply Forall_fmap, Forall_forall. intros c _. reflexivity.
    + rewrite length_fmap, ascii_list_length. reflexivity.
  - reflexivity.
  - apply Nat.leb_le. vm_compute. reflexivity.
  - reflexivity.
  - discriminate.
  - apply Nat.ltb_lt. reflexivity.
  - reflexivity.
Defined.

(** The speaker makes one [send] of the reply and passes its result by; when the kernel
    takes a part of it, the client takes that part for the reply: the end of the stream is
    as good to it as the newline. *)
Lemma cut_reply_is_a_reply :
  exchange (fun x => [x]) (fun x => [x]) (fun x => (fun _ => (1%Z, "")) <$> list_ascii_of_string x) 3
    (fun line n => (Done (line +:+ "!"), Datatypes.S n, [n])) "speaker.local" "ping" 7 =
  (Some (Value "pin"), 8, [7]).
Proof. reflexivity. Qed.

(** A request over the limit is handed to the handler cut, and not refused: a run of text
    without a newline that is longer than the limit is a request. *)
Lemma long_request_is_cut c l : one_line c -> (request_limit < String.length c)%nat ->
  read_request (Got c :: l) "" = Some c.
Proof.
  intros Hc Hlen. cbn [read_request]. change ("" +:+ c) with c.
  destruct (Nat.ltb_spec request_limit (String.length c)); [|lia]. by rewrite orb_true_r.
Qed.
