(* ===== verification/Scanners.v ===== *)
(** * Scanners: how the streamer sees what is around it

    Models [streamer/src/discovery/NetworkScanner.cpp] (the sweep of the subnet by a pool of
    threads, as a step relation over their interleavings),
    [streamer/src/discovery/ApScanner.cpp] (setup access points over nmcli, hardware
    addresses over the neighbour table), [streamer/src/net/WifiSignal.cpp] (the streamer's
    own signal, the Linux branch), and the JSON the application makes of the scans. *)

From Stdlib Require Import Ascii.
From stdpp Require Import pretty numbers.
From S2P Require Import Prelude Core Json Files Network.

(** ** Text *)

Definition dot : ascii := ascii_of_nat 46.
Definition slash : ascii := ascii_of_nat 47.
Definition tab : ascii := ascii_of_nat 9.

(** The text before the last [c] ([rfind]). *)
Fixpoint before_last (c : ascii) (s : string) : option string :=
  match s with
  | EmptyString => None
  | String d s =>
      match before_last c s with
      | Some r => Some (String d r)
      | None => if bool_decide (d = c) then Some "" else None
      end
  end.

(** [isspace] of the C locale, and the words that [operator>>] reads. *)
Definition is_space (c : ascii) : bool :=
  let n := nat_of_ascii c in (n =? 32)%nat || ((9 <=? n)%nat && (n <=? 13)%nat).

Fixpoint words_from (acc s : string) : list string :=
  match s with
  | EmptyString => if String.eqb acc "" then [] else [acc]
  | String c s =>
      if is_space c then (if String.eqb acc "" then [] else [acc]) ++ words_from "" s
      else words_from (acc +:+ String c "") s
  end.

Definition digit (c : ascii) : option Z :=
  let n := nat_of_ascii c in
  if (48 <=? n)%nat && (n <=? 57)%nat then Some (Z.of_nat n - 48)%Z else None.

(** The digits a number begins with, after the value read so far. *)
Fixpoint digits (acc : option Z) (s : string) : option Z :=
  match s with
  | EmptyString => acc
  | String c s =>
      match digit c with
      | Some d => digits (Some (10 * default 0 acc + d)%Z) s
      | None => acc
      end
  end.

Fixpoint skip_space (s : string) : string :=
  match s with String c r => if is_space c then skip_space r else s | EmptyString => s end.

(** The number a text begins with, after leading space and a sign; [None] for want of a
    digit. *)
Definition number_of (s : string) : option Z :=
  match skip_space s with
  | String c r => if bool_decide (c = ascii_of_nat 45) then Z.opp <$> digits None r
                  else if bool_decide (c = ascii_of_nat 43) then digits None r
                  else digits None (String c r)
  | EmptyString => None
  end.

(** [std::stoi]: [None] where it throws, for want of a digit or of room. *)
Definition stoi (s : string) : option Z :=
  n ← number_of s;
  if (- 2 ^ 31 <=? n)%Z && (n <? 2 ^ 31)%Z then Some n else None.

(** ** The sweep of the subnet *)

(* [src/streamer/src/discovery/NetworkScanner.h:11-19] ScannedSpeaker *)
Record ScannedSpeaker := mk_scanned
  { sc_ip : string; sc_device_id : string; sc_state : string; sc_software_version : string;
    sc_paired : bool; sc_setup_mode : bool; sc_box_public_key : string }.

(* [src/streamer/src/discovery/NetworkScanner.cpp:19-26] subnetBase *)
Definition subnetBase (cidr_or_ip : string) : string :=
  let ip := match split_at slash cidr_or_ip with Some (a, _) => a | None => cidr_or_ip end in
  match before_last dot ip with Some a => a +:+ "." | None => "" end.

Section Sweep.
Context {J : JsonLib}.
(** [GET http://host:port/api/status] with a timeout: the status and the body. *)
Variable get_status : string -> Z -> Z -> option (Z * string).

(* [src/streamer/src/discovery/NetworkScanner.cpp:38-48] probe *)
Definition scanned_of (ip body : string) : Try (option ScannedSpeaker) :=
  j ← parse body;
  device_id ← value_string j "device_id" "";
  if String.eqb device_id "" then mret None
  else
    state ← value_string j "state" "";
    version ← value_string j "software_version" "";
    paired ← value_bool j "paired" false;
    setup_mode ← value_bool j "setup_mode" false;
    key ← value_string j "box_public_key" "";
    mret (Some (mk_scanned ip device_id state version paired setup_mode key)).

(* [src/streamer/src/discovery/NetworkScanner.cpp:30-52] probe *)
Definition probe (ip : string) (port timeout_ms : Z) : option ScannedSpeaker :=
  '(status, body) ← get_status ip port timeout_ms;
  if negb (status =? 200)%Z then None
  else match scanned_of ip body with Done r => r | Throw _ => None end.

(** A worker is between two hosts, in the probe of one, about to add what it found, or has
    returned. *)
(* [src/streamer/src/discovery/NetworkScanner.cpp:66-76] scanSubnet, the worker *)
Inductive Worker := Idle | Probing (host : Z) | Adding (s : ScannedSpeaker) | Returned.

(* [src/streamer/src/discovery/NetworkScanner.cpp:58-65] scanSubnet *)
Record Sweep := mk_sweep { next : Z; pool : list Worker; found : list ScannedSpeaker }.

Section Run.
Variables (base : string) (port timeout_ms : Z).

Definition probe_host (host : Z) : option ScannedSpeaker := probe (base +:+ pretty host) port timeout_ms.

(** One step of one worker: the fetch of a host, the return of its probe, the addition
    under the lock. *)
(* [src/streamer/src/discovery/NetworkScanner.cpp:66-76] scanSubnet, the worker *)
Inductive sweep_step : Sweep -> Sweep -> Prop :=
| step_fetch n a b l : (n <= 254)%Z ->
    sweep_step (mk_sweep n (a ++ Idle :: b) l) (mk_sweep (n + 1) (a ++ Probing n :: b) l)
| step_return n a b l : (254 < n)%Z ->
    sweep_step (mk_sweep n (a ++ Idle :: b) l) (mk_sweep (n + 1) (a ++ Returned :: b) l)
| step_miss n a b l h : probe_host h = None ->
    sweep_step (mk_sweep n (a ++ Probing h :: b) l) (mk_sweep n (a ++ Idle :: b) l)
| step_hit n a b l h s : probe_host h = Some s ->
    sweep_step (mk_sweep n (a ++ Probing h :: b) l) (mk_sweep n (a ++ Adding s :: b) l)
| step_add n a b l s :
    sweep_step (mk_sweep n (a ++ Adding s :: b) l) (mk_sweep n (a ++ Idle :: b) (l ++ [s])).

(** The pool at its start; the sweep is over when every worker has returned. *)
(* [src/streamer/src/discovery/NetworkScanner.cpp:78-83] scanSubnet *)
Definition sweep_start (concurrency : Z) : Sweep :=
  mk_sweep 1 (replicate (Z.to_nat (if concurrency <? 1 then 1 else if 254 <? concurrency then 254 else concurrency)%Z) Idle) [].
Definition sweep_over (c : Sweep) : Prop := Forall (fun w => w = Returned) (pool c).
End Run.

(** What a sweep may return. *)
(* [src/streamer/src/discovery/NetworkScanner.cpp:56-84] scanSubnet *)
Definition scanSubnet (cidr_or_ip : string) (port timeout_ms concurrency : Z) (l : list ScannedSpeaker) : Prop :=
  let base := subnetBase cidr_or_ip in
  if String.eqb base "" then l = []
  else exists c, rtc (sweep_step base port timeout_ms) (sweep_start concurrency) c /\ sweep_over c /\ found c = l.

(** The reference: one host after the other. *)
Definition swept (base : string) (port timeout_ms : Z) : list ScannedSpeaker :=
  omap (probe_host base port timeout_ms) (seqZ 1 254).
End Sweep.

(** The outbound address of the host, when the system calls find one. *)
(* [src/streamer/src/discovery/NetworkScanner.cpp:86-111] localSubnetOr *)
Definition localSubnetOr (own_address : option string) (fallback : string) : string :=
  match own_address with
  | Some ip => match before_last dot ip with Some a => a +:+ ".0/24" | None => fallback end
  | None => fallback
  end.

(** ** Access points *)

(* [src/streamer/src/discovery/ApScanner.h:17-22] ScannedAp *)
Record ScannedAp := mk_ap { ap_ssid : string; ap_bssid : string; ap_signal : Z; ap_secured : bool }.

(** The fields of a line, from the one begun. *)
(* [src/streamer/src/discovery/ApScanner.cpp:32-50] splitTerse *)
Fixpoint split_from (cur line : string) : list string :=
  match line with
  | EmptyString => [cur]
  | String c rest =>
      match rest with
      | String d rest' =>
          if bool_decide (c = backslash) then split_from (cur +:+ String d "") rest'
          else if bool_decide (c = colon) then cur :: split_from "" rest
          else split_from (cur +:+ String c "") rest
      | EmptyString => if bool_decide (c = colon) then [cur; ""] else [cur +:+ String c ""]
      end
  end.
(* [src/streamer/src/discovery/ApScanner.cpp:32-50] splitTerse *)
Definition splitTerse (line : string) : list string := split_from "" line.

(* [src/streamer/src/discovery/ApScanner.cpp:83-98] scanAccessPoints *)
Definition ap_of_line (ssid_prefix line : string) : option ScannedAp :=
  if String.eqb line "" then None
  else
    match splitTerse line with
    | ssid :: bssid :: signal :: security :: _ =>
        if String.eqb ssid "" then None
        else if String.prefix ssid_prefix ssid then
          Some (mk_ap ssid bssid (default 0%Z (stoi signal)) (negb (String.eqb security "")))
        else None
    | _ => None
    end.

Section Commands.
Context {W E : Type}.
(** [popen], reading to the end of a text without NUL bytes, [pclose]: [None] when the
    process cannot be made, else what it printed and its exit code, if it has one. *)
Variable popen : string -> SW W E (option (string * option Z)).

(* [src/streamer/src/discovery/ApScanner.cpp:18-28] run *)
Definition run_capture (cmd : string) : SW W E (string * Z) :=
  r ← popen cmd;
  mret (match r with Some (out, rc) => (out, default (-1)%Z rc) | None => ("", (-1)%Z) end).

(* [src/streamer/src/discovery/ApScanner.cpp:73-75] scanAccessPoints *)
Definition scan_command (iface : string) (rescan : bool) : string :=
  "nmcli -t -f SSID,BSSID,SIGNAL,SECURITY device wifi list ifname " +:+ shq iface +:+
  (if rescan then " --rescan yes" else "") +:+ " 2>/dev/null".

(* [src/streamer/src/discovery/ApScanner.cpp:66-101] scanAccessPoints *)
Definition scanAccessPoints (iface ssid_prefix : string) (rescan : bool) : SW W E (list ScannedAp) :=
  r ← run_capture (scan_command iface rescan);
  mret (if negb (r.2 =? 0)%Z then [] else omap (ap_of_line ssid_prefix) (lines r.1)).

(** The dots of a text of digits and dots. *)
(* [src/streamer/src/discovery/ApScanner.cpp:107-114] macForIp *)
Fixpoint count_dots (s : string) : option nat :=
  match s with
  | EmptyString => Some O
  | String c s =>
      if bool_decide (c = dot) then S <$> count_dots s
      else match digit c with Some _ => count_dots s | None => None end
  end.

(* [src/streamer/src/discovery/ApScanner.cpp:124-130] macForIp *)
Fixpoint mac_in (prev : string) (toks : list string) : string :=
  match toks with
  | [] => ""
  | tok :: toks =>
      if (String.eqb prev "lladdr" || String.eqb prev "at") && bool_decide (is_Some (split_at colon tok))
      then tok else mac_in tok toks
  end.

(* [src/streamer/src/discovery/ApScanner.cpp:103-131] macForIp *)
Definition macForIp (ip : string) : SW W E string :=
  if String.eqb ip "" then mret ""
  else if negb (bool_decide (count_dots ip = Some 3)) then mret ""
  else
    r ← run_capture ("ip neigh show " +:+ ip +:+ " 2>/dev/null");
    out ← (if negb (r.2 =? 0)%Z || String.eqb r.1 "" then r ← run_capture ("arp -n " +:+ ip +:+ " 2>/dev/null"); mret r.1
           else mret r.1);
    mret (mac_in "" (words_from "" out)).
End Commands.

(** ** The streamer's own signal *)

(** [fgets] into a buffer of [n] bytes: up to a newline, or as much as fits. *)
Fixpoint fgets_from (n room : nat) (cur s : string) : list string :=
  match s with
  | EmptyString => if String.eqb cur "" then [] else [cur]
  | String c s =>
      let cur := cur +:+ String c "" in
      if bool_decide (c = line_feed) then cur :: fgets_from n (n - 2) "" s
      else match room with
           | O => cur :: fgets_from n (n - 2) "" s
           | S room => fgets_from n room cur s
           end
  end.
Definition fgets_lines (n : nat) (s : string) : list string := fgets_from n (n - 2) "" s.

(** The columns of a line, up to its newline. *)
(* [src/streamer/src/net/WifiSignal.cpp:95-102] WifiSignal::readRssiDbm *)
Fixpoint columns (cur s : string) : list string :=
  let done_ := if String.eqb cur "" then [] else [cur] in
  match s with
  | EmptyString => done_
  | String c s =>
      if bool_decide (c = line_feed) then done_
      else if bool_decide (c = space) || bool_decide (c = tab) then done_ ++ columns "" s
      else columns (cur +:+ String c "") s
  end.

(* [src/streamer/src/net/WifiSignal.cpp:86-115] WifiSignal::readRssiDbm *)
Definition level_of (line : string) : option Z :=
  '(_, rest) ← split_at colon line;
  tok ← columns "" rest !! 2%nat;
  level ← stoi tok;
  if (level <? 0)%Z then Some level else None.

(** The text of [/proc/net/wireless], where there is one. *)
(* [src/streamer/src/net/WifiSignal.cpp:61-120] WifiSignal::readRssiDbm *)
Definition readRssiDbm (proc_net_wireless : option string) : option Z :=
  text ← proc_net_wireless;
  head (omap level_of (drop 2 (fgets_lines 256 text))).

(** ** What the web interface is told *)

Section Json.
Context {J : JsonLib}.

(* [src/streamer/src/app/StreamerApp.cpp:284-296] StreamerApp::startup, the network scan *)
Definition scan_json (l : list ScannedSpeaker) : json :=
  jarr ((fun s => jobj [("ip", jstr (sc_ip s)); ("device_id", jstr (sc_device_id s)); ("state", jstr (sc_state s));
                        ("software_version", jstr (sc_software_version s)); ("paired", jbool (sc_paired s));
                        ("setup_mode", jbool (sc_setup_mode s));
                        ("box_public_key", jstr (sc_box_public_key s))]) <$> l).

(* [src/streamer/src/app/StreamerApp.cpp:303-312] StreamerApp::startup, the setup-AP scan *)
Definition aps_json (l : list ScannedAp) : json :=
  jarr ((fun ap => jobj [("ssid", jstr (ap_ssid ap)); ("bssid", jstr (ap_bssid ap)); ("signal", jint (ap_signal ap));
                         ("secured", jbool (ap_secured ap))]) <$> l).
End Json.

(** ** The sweep: every interleaving *)

#[export] Instance returned_dec w : Decision (w = Returned).
Proof. by destruct w; (left + right). Defined.

Section SweepLemmas.
Context {J : JsonLib} (get_status : string -> Z -> Z -> option (Z * string)).
Variables (base : string) (port timeout_ms : Z).

Abbreviation step := (sweep_step get_status base port timeout_ms).
Abbreviation answer := (probe_host get_status base port timeout_ms).

(** What a worker will still add, and the hosts not fetched yet. *)
Definition owed (w : Worker) : option ScannedSpeaker :=
  match w with Probing h => answer h | Adding s => Some s | _ => None end.
Definition left_over (n : Z) : list ScannedSpeaker := omap answer (seqZ n (255 - n)).

(** Added, owed and left over together are what the reference finds. *)
Definition sweep_inv (c : Sweep) : Prop :=
  (1 <= next c)%Z /\ found c ++ omap owed (pool c) ++ left_over (next c) ≡ₚ swept get_status base port timeout_ms /\
  (Exists (fun w => w = Returned) (pool c) -> (254 < next c)%Z) /\ pool c <> [].

Lemma left_over_next n : (n <= 254)%Z -> left_over n = option_list (answer n) ++ left_over (n + 1).
Proof.
  intros H. unfold left_over. rewrite seqZ_cons by lia.
  replace (Z.succ n) with (n + 1)%Z by lia. replace (Z.pred (255 - n)) with (255 - (n + 1))%Z by lia.
  cbn [omap list_omap]. by destruct (answer n).
Qed.

Lemma owed_swap a b w w' : owed w = owed w' -> omap owed (a ++ w :: b) = omap owed (a ++ w' :: b).
Proof. intros H. rewrite !omap_app. cbn [omap list_omap]. by rewrite H. Qed.

Lemma returned_swap a b w w' :
  Exists (fun w => w = Returned) (a ++ w :: b) -> (w = Returned -> w' = Returned) ->
  Exists (fun w => w = Returned) (a ++ w' :: b).
Proof. rewrite !Exists_app, !Exists_cons. intuition. Qed.

Lemma sweep_inv_step c c' : step c c' -> sweep_inv c -> sweep_inv c'.
Proof.
  intros H (Hn & Hp & Hr & _). unfold sweep_inv in *. destruct H; cbn [next pool found] in *.
  - split; [lia|]. split; [|split; [intros Hex; exfalso; apply (returned_swap _ _ _ Idle) in Hex; [specialize (Hr Hex); lia|done]|by destruct a]].
    rewrite <- Hp, (left_over_next n) by lia. rewrite !omap_app. cbn [omap list_omap owed].
    destruct (answer n); cbn; solve_Permutation.
  - split; [lia|]. split; [|split; [lia|by destruct a]]. rewrite <- Hp. unfold left_over. rewrite !seqZ_nil by lia.
    by rewrite (owed_swap a b Returned Idle).
  - split; [done|]. split; [|split; [intros Hex; by apply Hr, (returned_swap _ _ Idle)|by destruct a]].
    rewrite <- Hp. by rewrite (owed_swap a b Idle (Probing h)).
  - split; [done|]. split; [|split; [intros Hex; by apply Hr, (returned_swap _ _ (Adding s))|by destruct a]].
    rewrite <- Hp. by rewrite (owed_swap a b (Adding s) (Probing h)).
  - split; [done|]. split; [|split; [intros Hex; by apply Hr, (returned_swap _ _ Idle)|by destruct a]].
    rewrite <- Hp, !omap_app. cbn [omap list_omap owed]. solve_Permutation.
Qed.

Lemma sweep_inv_start concurrency : sweep_inv (sweep_start concurrency).
Proof.
  unfold sweep_inv, sweep_start. cbn [next pool found]. set (k := Z.to_nat _).
  assert (omap owed (replicate k Idle) = []) as -> by (induction k as [|k IH]; [done|exact IH]).
  split; [lia|]. split; [done|].
  split; [intros Hex; apply Exists_exists in Hex as (w & Hin & ->); by apply elem_of_replicate in Hin as [? _]|].
  destruct k eqn:E; [|done]. unfold k in E. repeat case_match; lia.
Qed.

(** The steps a worker has before it is idle, and those of a whole sweep. *)
Definition work (w : Worker) : nat := match w with Idle => 1 | Probing _ => 3 | Adding _ => 2 | Returned => 0 end.
Definition sweep_work (c : Sweep) : nat := sum_list_with work (pool c) + 3 * Z.to_nat (255 - next c).

Lemma sweep_work_step c c' : step c c' -> (sweep_work c' < sweep_work c)%nat.
Proof.
  intros H. unfold sweep_work. destruct H; cbn [next pool]; rewrite !sum_list_with_app; cbn [sum_list_with work]; lia.
Qed.

Lemma sweep_progress c : sweep_over c \/ exists c', step c c'.
Proof.
  destruct c as [n ws l]. destruct (decide (Forall (fun w => w = Returned) ws)) as [H|H]; [by left|right].
  apply not_Forall_Exists in H; [|apply _].
  apply Exists_exists in H as (w & (a & b & ->)%list_elem_of_split & Hw).
  destruct w as [|h|s|]; [| | |by destruct Hw].
  - destruct (decide (n <= 254)%Z); eexists; [apply step_fetch|apply step_return]; lia.
  - destruct (answer h) eqn:E; eexists; [by apply step_hit|by apply step_miss].
  - eexists. apply step_add.
Qed.

Lemma over_owes_nothing ws : Forall (fun w => w = Returned) ws -> omap owed ws = [].
Proof. induction 1 as [|w ws -> _ IH]; [done|exact IH]. Qed.
End SweepLemmas.

(** C39: the sweep of the subnet does not depend on its threads.  Whatever the order in which
    the workers of the pool fetch hosts, get their answers and add what they found: the
    sweep cannot go on for ever, it never stops before every worker has returned, and what
    it has then found is what probing the 254 hosts one after the other finds, each host
    once, up to the order. *)
Theorem sweep_any_schedule {J : JsonLib} (get_status : string -> Z -> Z -> option (Z * string))
    (base : string) (port timeout_ms concurrency : Z) (c : Sweep) (k : nat)
  (Hrun : nsteps (sweep_step get_status base port timeout_ms) k (sweep_start concurrency) c) :
  (k + sweep_work c <= sweep_work (sweep_start concurrency))%nat /\
  (sweep_over c \/ exists c', sweep_step get_status base port timeout_ms c c') /\
  (sweep_over c -> found c ≡ₚ swept get_status base port timeout_ms).
Proof.
  assert (sweep_inv get_status base port timeout_ms c /\ (k + sweep_work c <= sweep_work (sweep_start concurrency))%nat)
    as [(_ & Hp & Hr & Hne) Hw].
  { remember (sweep_start concurrency) as c0 eqn:E. assert (sweep_inv get_status base port timeout_ms c0) as Hi
      by (subst; apply sweep_inv_start). clear E. induction Hrun as [|k c0 c1 c2 Hs _ IH]; [by split|].
    destruct IH as [H1 H2]; [by eapply sweep_inv_step|]. split; [done|].
    apply sweep_work_step in Hs. lia. }
  split; [done|]. split; [apply sweep_progress|]. intros Hover.
  rewrite over_owes_nothing in Hp by done. rewrite <- Hp.
  destruct c as [n ws l]. unfold sweep_over in Hover. cbn [next pool found] in *.
  unfold left_over. rewrite seqZ_nil, !app_nil_r; [done|].
  assert (254 < n)%Z; [|lia]. apply Hr. destruct Hover as [|w ws Hw']; [done|by left].
Qed.

Lemma sweep_any_schedule_witness :
  let step := sweep_step (J := jvalue_lib) (fun _ _ _ => None) "192.168.1." 8080 400 in
  let c := mk_sweep 3 [Probing 1; Idle] [] in
  nsteps step 3 (sweep_start 2) c /\ (3 + sweep_work c <= sweep_work (sweep_start 2))%nat.
Proof.
  set (step := sweep_step (J := jvalue_lib) _ _ _ _). set (c := mk_sweep 3 _ _).
  assert (nsteps step 3 (sweep_start 2) c) as Hrun.
  { eapply nsteps_l; [apply (step_fetch _ _ _ _ 1 [] [Idle] []); lia|].
    eapply nsteps_l; [apply (step_fetch _ _ _ _ 2 [Probing 1] [] []); lia|].
    eapply nsteps_l; [apply (step_miss _ _ _ _ 3 [Probing 1] [] [] 2); reflexivity|apply nsteps_O]. }
  split; [exact Hrun|].
  exact (proj1 (sweep_any_schedule (J := jvalue_lib) (fun _ _ _ => None) "192.168.1." 8080 400 2 c 3 Hrun)).
Defined.

(** ** The terse lines of nmcli *)

(** As nmcli writes a field: a colon and a backslash have a backslash before them. *)
Fixpoint terse_escape (s : string) : string :=
  match s with
  | EmptyString => EmptyString
  | String c s =>
      if bool_decide (c = colon) || bool_decide (c = backslash) then String backslash (String c (terse_escape s))
      else String c (terse_escape s)
  end.

Fixpoint terse_line (fields : list string) : string :=
  match fields with
  | [] => ""
  | [f] => terse_escape f
  | f :: fields => terse_escape f +:+ String colon (terse_line fields)
  end.

Lemma split_from_plain cur c s : c <> backslash -> c <> colon ->
  split_from cur (String c s) = split_from (cur +:+ String c "") s.
Proof. intros H1 H2. destruct s; cbn [split_from]; by rewrite !bool_decide_eq_false_2 by done. Qed.

Lemma split_from_colon cur s : split_from cur (String colon s) = cur :: split_from "" s.
Proof. by destruct s. Qed.

Lemma split_from_escape cur s rest :
  split_from cur (terse_escape s +:+ rest) = split_from (cur +:+ s) rest.
Proof.
  revert cur. induction s as [|c s IH]; intros cur; cbn [terse_escape]; [by rewrite str_app_nil|].
  replace (cur +:+ String c s) with ((cur +:+ String c "") +:+ s) by (by rewrite str_app_assoc).
  destruct (bool_decide_reflect (c = colon)) as [->|H1]; [|destruct (bool_decide_reflect (c = backslash)) as [->|H2]];
    cbn [orb]; rewrite !str_app_cons; [by rewrite <- IH..|]. rewrite split_from_plain by done. apply IH.
Qed.

(** Splitting undoes what nmcli does to the fields. *)
Lemma split_terse_line fields : fields <> [] -> splitTerse (terse_line fields) = fields.
Proof.
  unfold splitTerse. induction fields as [|f fields IH]; intros H; [done|].
  destruct fields as [|g fields].
  - cbn [terse_line]. rewrite <- (str_app_nil (terse_escape f)), split_from_escape. done.
  - cbn [terse_line] in *. rewrite split_from_escape, split_from_colon, IH by done. done.
Qed.

(** A line for every text that has no newline. *)
Definition no_newline (s : string) : Prop := forall a b, s <> a +:+ String line_feed b.

Fixpoint text_of (l : list string) : string :=
  match l with [] => "" | s :: l => s +:+ String line_feed (text_of l) end.

Lemma no_newline_cons c s : no_newline (String c s) <-> c <> line_feed /\ no_newline s.
Proof.
  split.
  - intros H. split; [intros ->; by apply (H "" s)|]. intros a b ->. by apply (H (String c a) b).
  - intros [Hc H] [|d a] b E; [by injection E as -> _|]. rewrite str_app_cons in E. injection E as -> E. by apply (H a b).
Qed.

Lemma no_newline_of_lines s : split_at line_feed s = None -> no_newline s.
Proof.
  induction s as [|c s IH]; intros H; [by intros [] ?|]. cbn [split_at] in H. apply no_newline_cons.
  destruct (bool_decide_reflect (c = line_feed)); [done|]. split; [done|]. apply IH. by destruct (split_at line_feed s) as [[]|].
Qed.

Lemma lines_from_line acc s rest : no_newline s ->
  lines_from acc (s +:+ String line_feed rest) = (acc +:+ s) :: lines_from "" rest.
Proof.
  revert acc. induction s as [|c s IH]; intros acc H.
  - cbn. by rewrite str_app_nil.
  - apply no_newline_cons in H as [Hc H]. rewrite str_app_cons. cbn [lines_from].
    rewrite bool_decide_eq_false_2 by done. rewrite IH by done. by rewrite str_app_assoc.
Qed.

Lemma lines_text l : Forall no_newline l -> lines (text_of l) = l.
Proof. unfold lines. induction 1 as [|s l Hs _ IH]; [done|]. cbn [text_of]. by rewrite lines_from_line, IH. Qed.

Lemma no_newline_escape s : no_newline s -> no_newline (terse_escape s).
Proof.
  induction s as [|c s IH]; intros H; [done|]. apply no_newline_cons in H as [Hc H]. cbn [terse_escape].
  case_match; repeat (apply no_newline_cons; split); auto.
Qed.

Lemma no_newline_app a b : no_newline a -> no_newline b -> no_newline (a +:+ b).
Proof.
  induction a as [|c a IH]; intros Ha Hb; [done|]. apply no_newline_cons in Ha as [Hc Ha].
  rewrite str_app_cons. apply no_newline_cons. auto.
Qed.

Lemma no_newline_line fields : Forall no_newline fields -> no_newline (terse_line fields).
Proof.
  induction 1 as [|f fields Hf Hs IH]; [by intros [] ?|]. destruct fields as [|g fields].
  - by apply no_newline_escape.
  - cbn [terse_line] in *. apply no_newline_app; [by apply no_newline_escape|].
    apply no_newline_cons. split; [by vm_compute|exact IH].
Qed.

(** A row of the radio's list. *)
Record Row := mk_row { w_ssid : string; w_bssid : string; w_signal : string; w_security : string }.
Definition row_fields (r : Row) : list string := [w_ssid r; w_bssid r; w_signal r; w_security r].

(** The row is a network with a name that begins as a speaker's does. *)
Definition is_setup_row (ssid_prefix : string) (r : Row) : bool :=
  negb (String.eqb (w_ssid r) "") && String.prefix ssid_prefix (w_ssid r).
Definition ap_of_row (r : Row) : ScannedAp :=
  mk_ap (w_ssid r) (w_bssid r) (default 0%Z (stoi (w_signal r))) (negb (String.eqb (w_security r) "")).

Lemma ap_of_terse_line ssid_prefix r :
  ap_of_line ssid_prefix (terse_line (row_fields r)) =
    if is_setup_row ssid_prefix r then Some (ap_of_row r) else None.
Proof.
  unfold ap_of_line. rewrite split_terse_line by done. unfold row_fields, is_setup_row.
  destruct (String.eqb_spec (terse_line [w_ssid r; w_bssid r; w_signal r; w_security r]) "") as [E|_].
  - cbn [terse_line] in E. by destruct (terse_escape (w_ssid r)).
  - destruct (String.eqb (w_ssid r) ""); [done|]. cbn [negb andb]. by destruct (String.prefix ssid_prefix (w_ssid r)).
Qed.

(** the scan for setup access points reads back what the radio saw: on nmcli's terse
    output for any list of networks, whatever colons and backslashes their names hold, it
    returns, in the radio's order, exactly the networks with a name that begins with the
    given prefix, each with its own name, hardware address, signal and security; and when
    the command fails it returns none. *)
Theorem scan_reads_radio {W E} (popen : string -> SW W E (option (string * option Z)))
    (iface ssid_prefix : string) (rescan : bool) (rows : list Row) (code : option Z) (w w' : W) (es : list E)
  (Hfields : Forall (fun r => Forall no_newline (row_fields r)) rows)
  (Hpopen : popen (scan_command iface rescan) w =
            (Some (text_of (terse_line ∘ row_fields <$> rows), code), w', es)) :
  scanAccessPoints popen iface ssid_prefix rescan w =
    ((if bool_decide (code = Some 0%Z) then ap_of_row <$> filter (fun r => is_setup_row ssid_prefix r = true) rows else []),
     w', es).
Proof.
  unfold scanAccessPoints, run_capture, mbind, SW_bind. rewrite Hpopen. cbn [mret SW_ret fst snd].
  rewrite !app_nil_r. f_equal. f_equal.
  destruct code as [c|]; cbn [default from_option id]; [|by rewrite bool_decide_eq_false_2 by done].
  destruct (Z.eqb_spec c 0) as [->|Hc].
  2: { rewrite bool_decide_eq_false_2; [done|]. by intros [= ->]. }
  rewrite bool_decide_eq_true_2 by done. cbn [negb].
  rewrite lines_text.
  2: { apply Forall_fmap. eapply Forall_impl; [exact Hfields|]. intros r Hr. exact (no_newline_line _ Hr). }
  clear. induction rows as [|r rows IH]; [done|]. rewrite fmap_cons. cbn [omap list_omap compose].
  rewrite ap_of_terse_line, filter_cons. destruct (is_setup_row ssid_prefix r) eqn:E.
  - rewrite decide_True by done. rewrite fmap_cons. by f_equal.
  - rewrite decide_False by done. exact IH.
Qed.

Lemma scan_reads_radio_witness :
  scanAccessPoints (W := unit) (E := string)
    (fun cmd w => (Some (text_of (terse_line ∘ row_fields <$>
       [mk_row "Nexus-4F:A1" "AA:BB:CC:DD:EE:FF" "70" ""; mk_row "Cafe" "11:22:33:44:55:66" "40" "WPA2"]), Some 0%Z), w, [cmd]))
    "wlan0" "Nexus-" true tt =
  ([mk_ap "Nexus-4F:A1" "AA:BB:CC:DD:EE:FF" 70 false], tt, [scan_command "wlan0" true]).
Proof.
  apply (scan_reads_radio (W := unit) (E := string)
    (fun cmd w => (Some (text_of (terse_line ∘ row_fields <$>
       [mk_row "Nexus-4F:A1" "AA:BB:CC:DD:EE:FF" "70" ""; mk_row "Cafe" "11:22:33:44:55:66" "40" "WPA2"]), Some 0%Z), w, [cmd]))
    "wlan0" "Nexus-" true
    [mk_row "Nexus-4F:A1" "AA:BB:CC:DD:EE:FF" "70" ""; mk_row "Cafe" "11:22:33:44:55:66" "40" "WPA2"] (Some 0%Z) tt tt
    [scan_command "wlan0" true]); [|reflexivity].
  repeat (apply List.Forall_cons || apply List.Forall_nil);
    apply no_newline_of_lines; reflexivity.
Defined.

(** The speaker's own scan ([NmcliNetworkHal::scanWifi]) reads the same format up to the
    first colon: a network whose name holds a colon is listed under another name and
    without its signal. *)
Lemma speaker_scan_cuts_names :
  scan_line (fun s => default 0%Z (stoi s)) (terse_line ["Studio: upstairs"; "70"]) =
  Some (mk_wifi_network "Studio\" 0).
Proof. reflexivity. Qed.

(** ** What reaches the shell for a hardware address *)

Lemma address_byte c s n : count_dots (String c s) = Some n ->
  (c <> quote /\ c <> backslash /\ c <> space /\ shell_special c = false) /\ exists m, count_dots s = Some m.
Proof.
  intros H. cbn [count_dots] in H. split.
  - destruct (bool_decide_reflect (c = dot)) as [->|_]; [repeat split; by vm_compute|].
    destruct (digit c) eqn:E; [clear H|done]. destruct c as [[] [] [] [] [] [] [] []]; try done; repeat split; done.
  - destruct (bool_decide (c = dot)); [apply fmap_Some in H as (m & -> & _); by eexists|].
    destruct (digit c); [by eexists|done].
Qed.

Lemma address_split cur c s n : count_dots (String c s) = Some n ->
  sh_split Plain cur (String c s) = sh_split Plain (Some (default "" cur +:+ String c "")) s.
Proof.
  intros ((H1 & H2 & H3 & H4) & _)%address_byte. cbn [sh_split]. by rewrite !bool_decide_eq_false_2, H4 by done.
Qed.

Lemma shell_plain_address s w n : count_dots s = Some n -> sh_split Plain (Some w) s = Some [w +:+ s].
Proof.
  revert w n. induction s as [|c s IH]; intros w n H; [cbn; by rewrite str_app_nil|].
  replace (w +:+ String c s) with ((w +:+ String c "") +:+ s) by (by rewrite str_app_assoc).
  rewrite (address_split _ _ _ n H). apply address_byte in H as [_ [m Hm]]. by apply IH with m.
Qed.

(** The commands for an address have it as one word. *)
Lemma mac_command_words ip : ip <> "" -> count_dots ip = Some 3 ->
  sh_words ("ip neigh show " +:+ ip) = Some ["ip"; "neigh"; "show"; ip] /\
  sh_words ("arp -n " +:+ ip) = Some ["arp"; "-n"; ip].
Proof.
  intros Hne H. assert (sh_words ip = Some [ip]) as Hip.
  { unfold sh_words. destruct ip as [|c ip]; [done|]. rewrite (address_split _ _ _ 3 H).
    apply address_byte in H as [_ [m Hm]]. by rewrite (shell_plain_address _ _ m Hm). }
  split.
  - change ("ip neigh show " +:+ ip) with ("ip neigh show" +:+ String space ip).
    rewrite (sh_words_app _ ["ip"; "neigh"; "show"]) by (by vm_compute). by rewrite Hip.
  - change ("arp -n " +:+ ip) with ("arp -n" +:+ String space ip).
    rewrite (sh_words_app _ ["arp"; "-n"]) by (by vm_compute). by rewrite Hip.
Qed.

(** Any other text starts no command. *)
Lemma mac_of_no_address {W E} (popen : string -> SW W E (option (string * option Z))) ip w :
  count_dots ip <> Some 3 -> macForIp popen ip w = ("", w, []).
Proof.
  intros H. unfold macForIp. destruct (String.eqb ip ""); [done|]. by rewrite bool_decide_eq_false_2.
Qed.

(** ** The signal *)

Lemma signal_of_proc :
  readRssiDbm (Some (text_of ["Inter-| sta-|   Quality        |   Discarded packets"; " face | tus | link level noise |";
                              " wlan0: 0000   58.  -52.  -256        0"])) = Some (-52)%Z /\
  readRssiDbm (Some (text_of ["Inter-| sta-|   Quality"; " face | tus | link level noise |"])) = None /\
  readRssiDbm None = None.
Proof. by vm_compute. Qed.
