(* ===== verification/Fft.v ===== *)
(** * Fft: the spectrum the calibration looks at

    Models [src/src/calibration/Fft.h].  The transform is written over the numbers it works
    on: the source instantiates it with complex doubles; over a commutative ring with the
    right roots of unity the same text is proved to compute the discrete Fourier transform,
    so that what separates the source from the transform is rounding alone. *)

From Stdlib Require Import Ring_theory Ring.
From S2P Require Import Prelude Core Audio Dsp.

(** ** The transform *)

Section Transform.
Context {C : Type}.
(** The operations of the numbers, 1, and [wlen], the root that a stage of blocks of the
    given length steps by. *)
Variables (add sub mul : C -> C -> C) (one : C) (wlen : nat -> C).

(* [src/src/calibration/Fft.h:23-23] fftRadix2 *)
Definition swap (i j : nat) (a : list C) : list C :=
  match a !! i, a !! j with
  | Some x, Some y => <[j := x]> (<[i := y]> a)
  | _, _ => a
  end.

(** The successor of a number counted from its high end. *)
(* [src/src/calibration/Fft.h:20-22] fftRadix2 *)
Fixpoint carry (fuel : nat) (j bit : N) : N :=
  match fuel with
  | O => N.lxor j bit
  | S fuel => if (N.land j bit =? 0)%N then N.lxor j bit else carry fuel (N.lxor j bit) (N.shiftr bit 1)
  end.

(* [src/src/calibration/Fft.h:19-24] fftRadix2 *)
Fixpoint reverse_from (rounds i : nat) (n j : N) (a : list C) : list C :=
  match rounds with
  | O => a
  | S rounds =>
      let j := carry (N.size_nat n) j (N.shiftr n 1) in
      reverse_from rounds (S i) n j (if (N.of_nat i <? j)%N then swap i (N.to_nat j) a else a)
  end.

(* [src/src/calibration/Fft.h:32-35] fftRadix2 *)
Definition butterfly (i k half : nat) (w : C) (a : list C) : list C :=
  match a !! (i + k)%nat, a !! (i + k + half)%nat with
  | Some u, Some v => let v := mul v w in <[(i + k + half)%nat := sub u v]> (<[(i + k)%nat := add u v]> a)
  | _, _ => a
  end.

(* [src/src/calibration/Fft.h:30-37] fftRadix2 *)
Fixpoint block_from (count k i len : nat) (w : C) (a : list C) : list C :=
  match count with
  | O => a
  | S count => block_from count (S k) i len (mul w (wlen len)) (butterfly i k (len / 2) w a)
  end.

(** The blocks of a stage from the one that begins at [i]. *)
(* [src/src/calibration/Fft.h:29-38] fftRadix2 *)
Fixpoint blocks_from (fuel i len : nat) (a : list C) : list C :=
  match fuel with
  | O => a
  | S fuel => if (i <? length a)%nat then blocks_from fuel (i + len) len (block_from (len / 2) 0 i len one a)
              else a
  end.

(* [src/src/calibration/Fft.h:26-39] fftRadix2 *)
Fixpoint stages_from (fuel len : nat) (a : list C) : list C :=
  match fuel with
  | O => a
  | S fuel => if (len <=? length a)%nat then stages_from fuel (2 * len) (blocks_from (length a) 0 len a) else a
  end.

(* [src/src/calibration/Fft.h:14-40] fftRadix2 *)
Definition fftRadix2 (a : list C) : list C :=
  let n := length a in
  if (n <=? 1)%nat then a
  else stages_from n 2 (reverse_from (n - 1) 1 (N.of_nat n) 0 a).
End Transform.

(** ** Over complex doubles *)

Definition cx : Type := spec_float * spec_float.
Definition cx_add (a b : cx) : cx := (fadd a.1 b.1, fadd a.2 b.2).
Definition cx_sub (a b : cx) : cx := (fsub a.1 b.1, fsub a.2 b.2).

(** The product of the compiled code, whose second look at a product that is not a number
    in both parts concerns infinite operands only. *)
Definition cx_mul (a b : cx) : cx :=
  (fsub (fmul a.1 b.1) (fmul a.2 b.2), fadd (fmul a.1 b.2) (fmul a.2 b.1)).

Definition c_half : spec_float := S754_finite false 4503599627370496 (-53).  (* 0.5 *)
Definition f_of_nat (n : nat) : spec_float := f_of_Z (Z.of_nat n).

Section Spectrum.
Context {M : Libm}.

(* [src/src/calibration/Fft.h:27-28] fftRadix2 *)
Definition wlen_of (len : nat) : cx :=
  let ang := fdiv (fmul (f_of_Z (-2)) c_pi) (f_of_nat len) in (m_cos ang, m_sin ang).

(* [src/src/calibration/Fft.h:49-54] magnitudeSpectrum *)
Definition windowed (fft_size i : nat) (sample : spec_float) : cx :=
  let w := fsub c_half (fmul c_half (m_cos (fdiv (fmul (fmul c_2 c_pi) (f_of_nat i)) (f_of_nat (fft_size - 1))))) in
  (fmul sample w, f0).

(* [src/src/calibration/Fft.h:45-59] magnitudeSpectrum *)
Definition magnitudeSpectrum (samples : list spec_float) (fft_size : nat) : list spec_float :=
  let m := Nat.min (length samples) fft_size in
  let buf := imap (windowed fft_size) (take m samples) ++ replicate (fft_size - m) (f0, f0) in
  let buf := fftRadix2 cx_add cx_sub cx_mul (c_1, f0) wlen_of buf in
  (fun z : cx => m_hypot z.1 z.2) <$> take (fft_size / 2 + 1) buf.
End Spectrum.

(** ** The order of the bits *)

(** The number with the [m] low bits of [i] in the other order. *)
Fixpoint rev (m : nat) (i : N) : N :=
  match m with
  | O => 0
  | S m => (if N.even i then 0 else 2 ^ N.of_nat m) + rev m (N.div2 i)
  end.

Lemma half_even k : N.div2 (2 * k) = k.
Proof. rewrite N.div2_div. symmetry. apply (N.div_unique _ _ _ 0); lia. Qed.
Lemma half_odd k : N.div2 (2 * k + 1) = k.
Proof. rewrite N.div2_div. symmetry. apply (N.div_unique _ _ _ 1); lia. Qed.

(** A number is twice its half, and its low bit. *)
Lemma half_split i : i = (2 * N.div2 i + (if N.even i then 0 else 1))%N.
Proof. rewrite (N.div2_odd i) at 1. rewrite <- N.negb_even. by destruct (N.even i). Qed.

Lemma rev_bound m i : (rev m i < 2 ^ N.of_nat m)%N.
Proof.
  revert i. induction m as [|m IH]; intros i; [done|]. cbn [rev]. specialize (IH (N.div2 i)).
  rewrite Nat2N.inj_succ, N.pow_succ_r'. destruct (N.even i); lia.
Qed.

Lemma low_bit_clear m x : (x < 2 ^ m)%N -> N.land x (2 ^ m) = 0%N.
Proof.
  intros H. apply N.bits_inj_0. intros k. rewrite N.land_spec, N.pow2_bits_eqb.
  destruct (N.eqb_spec m k) as [<-|]; [|by rewrite andb_false_r].
  rewrite N.testbit_eqb, N.div_small by done. done.
Qed.

Lemma low_bit_xor m x : (x < 2 ^ m)%N -> N.lxor x (2 ^ m) = (x + 2 ^ m)%N.
Proof. intros H. symmetry. by apply N.add_nocarry_lxor, low_bit_clear. Qed.

Lemma high_bit_set m x : (x < 2 ^ m)%N ->
  N.land (2 ^ m + x) (2 ^ m) <> 0%N /\ N.lxor (2 ^ m + x) (2 ^ m) = x.
Proof.
  intros H. rewrite (N.add_comm (2 ^ m)), <- (low_bit_xor m x H). split.
  - intros E. pose proof (N.land_spec (N.lxor x (2 ^ m)) (2 ^ m) m) as Hb. rewrite E in Hb.
    rewrite N.bits_0, N.lxor_spec, N.pow2_bits_true, (N.testbit_eqb x) in Hb.
    rewrite N.div_small in Hb by done. done.
  - by rewrite N.lxor_assoc, N.lxor_nilpotent, N.lxor_0_r.
Qed.

Lemma carry_rev m fuel i : (m <= fuel)%nat ->
  carry fuel (rev m i) (N.shiftr (2 ^ N.of_nat m) 1) = rev m (N.succ i).
Proof.
  revert fuel i. induction m as [|m IH]; intros fuel i Hf; [by destruct fuel|].
  destruct fuel as [|fuel]; [lia|].
  replace (N.shiftr (2 ^ N.of_nat (S m)) 1) with (2 ^ N.of_nat m)%N.
  2: { rewrite Nat2N.inj_succ, N.pow_succ_r', N.mul_comm, N.shiftr_div_pow2. symmetry. by apply N.div_mul. }
  cbn [carry rev]. rewrite N.even_succ, <- N.negb_even. pose proof (rev_bound m (N.div2 i)) as Hb.
  destruct (N.even i) eqn:E; cbn [negb].
  - rewrite N.add_0_l, low_bit_clear, N.eqb_refl, low_bit_xor by done.
    replace (N.div2 (N.succ i)) with (N.div2 i); [lia|].
    apply N.even_spec in E as [k ->]. by rewrite <- N.add_1_r, half_odd, half_even.
  - destruct (high_bit_set (N.of_nat m) _ Hb) as [H1 ->]. destruct (N.eqb_spec (N.land (2 ^ N.of_nat m + rev m (N.div2 i)) (2 ^ N.of_nat m)) 0); [done|].
    rewrite IH by lia. rewrite N.add_0_l. f_equal.
    rewrite <- N.negb_odd in E. apply negb_false_iff, N.odd_spec in E as [k ->].
    rewrite half_odd. replace (N.succ (2 * k + 1)) with (2 * (N.succ k))%N by lia. by rewrite half_even.
Qed.

(** From the other end. *)
Lemma rev_split m b r : (b < 2)%N -> (r < 2 ^ N.of_nat m)%N ->
  rev (S m) (b * 2 ^ N.of_nat m + r) = (2 * rev m r + b)%N.
Proof.
  intros Hb. revert r. induction m as [|m IH]; intros r Hr.
  { assert (r = 0%N) as -> by (cbn in Hr; lia). destruct b as [|[]]; try done; lia. }
  set (p := (2 ^ N.of_nat m)%N) in *. rewrite Nat2N.inj_succ, N.pow_succ_r' in *. fold p in Hr |- *.
  change (rev (S (S m)) ?x) with ((if N.even x then 0 else 2 ^ N.of_nat (S m)) + rev (S m) (N.div2 x))%N.
  change (rev (S m) r) with ((if N.even r then 0 else p) + rev m (N.div2 r))%N.
  replace (N.even (b * (2 * p) + r)) with (N.even r).
  2: { rewrite N.add_comm, (N.mul_assoc b), (N.mul_comm b 2), <- N.mul_assoc. symmetry. apply N.even_add_mul_2. }
  pose proof (half_split r) as Er.
  assert (N.div2 (b * (2 * p) + r) = b * p + N.div2 r)%N as ->.
  { rewrite Er at 1. destruct (N.even r).
    - replace (b * (2 * p) + (2 * N.div2 r + 0))%N with (2 * (b * p + N.div2 r))%N by lia. apply half_even.
    - replace (b * (2 * p) + (2 * N.div2 r + 1))%N with (2 * (b * p + N.div2 r) + 1)%N by lia. apply half_odd. }
  rewrite IH by lia. rewrite Nat2N.inj_succ, N.pow_succ_r'. fold p. destruct (N.even r); lia.
Qed.

Lemma rev_rev m i : (i < 2 ^ N.of_nat m)%N -> rev m (rev m i) = i.
Proof.
  revert i. induction m as [|m IH]; intros i Hi; [cbn in *; lia|].
  pose proof (half_split i) as Ei.
  rewrite Nat2N.inj_succ, N.pow_succ_r' in Hi.
  change (rev (S m) i) with ((if N.even i then 0 else 2 ^ N.of_nat m) + rev m (N.div2 i))%N.
  replace (if N.even i then 0 else 2 ^ N.of_nat m)%N with ((if N.even i then 0 else 1) * 2 ^ N.of_nat m)%N
    by (destruct (N.even i); lia).
  rewrite rev_split; [|destruct (N.even i); lia|apply rev_bound]. rewrite IH; [|destruct (N.even i); lia].
  symmetry. exact Ei.
Qed.

(** ** The reordered list *)

Lemma pow_pos m : (0 < 2 ^ m)%nat.
Proof. induction m; cbn; lia. Qed.

Lemma size_nat_pow2 m : (m <= N.size_nat (2 ^ N.of_nat m))%nat.
Proof.
  induction m as [|m IH]; [cbn; lia|]. rewrite Nat2N.inj_succ, N.pow_succ_r'.
  destruct (2 ^ N.of_nat m)%N as [|p] eqn:E; [by apply N.pow_nonzero in E|].
  change (N.size_nat (2 * N.pos p)) with (S (Pos.size_nat p)). cbn [N.size_nat] in IH. lia.
Qed.

Definition rev_at (m k : nat) : nat := N.to_nat (rev m (N.of_nat k)).

Lemma nat_pow2 m : N.to_nat (2 ^ N.of_nat m) = (2 ^ m)%nat.
Proof. rewrite N2Nat.inj_pow, Nat2N.id. done. Qed.

Lemma rev_0 m : rev m 0 = 0%N.
Proof. induction m as [|m IH]; [done|exact IH]. Qed.
Lemma rev_at_0 m : rev_at m 0 = 0%nat.
Proof. unfold rev_at. change (N.of_nat 0) with 0%N. by rewrite rev_0. Qed.

Lemma rev_at_lt m k : (rev_at m k < 2 ^ m)%nat.
Proof. unfold rev_at. rewrite <- nat_pow2. pose proof (rev_bound m (N.of_nat k)). lia. Qed.

Lemma rev_at_rev_at m k : (k < 2 ^ m)%nat -> rev_at m (rev_at m k) = k.
Proof.
  intros H. unfold rev_at. rewrite N2Nat.id, rev_rev; [apply Nat2N.id|]. rewrite <- nat_pow2 in H. lia.
Qed.

Lemma rev_at_low m k : (k < 2 ^ m)%nat -> rev_at (S m) k = (2 * rev_at m k)%nat.
Proof.
  intros H. rewrite <- nat_pow2 in H. unfold rev_at.
  pose proof (rev_split m 0 (N.of_nat k) ltac:(lia) ltac:(lia)) as E. rewrite N.mul_0_l, N.add_0_l in E.
  rewrite E. lia.
Qed.

Lemma rev_at_high m k : (k < 2 ^ m)%nat -> rev_at (S m) (2 ^ m + k) = (2 * rev_at m k + 1)%nat.
Proof.
  intros H. unfold rev_at. pose proof (rev_split m 1 (N.of_nat k)) as E.
  rewrite <- nat_pow2 in H |- *. rewrite Nat2N.inj_add, N2Nat.id. rewrite N.mul_1_l in E. rewrite E by lia. lia.
Qed.

Section Lists.
Context {C : Type}.
Implicit Types a xs : list C.

Lemma swap_length i j a : length (swap i j a) = length a.
Proof. unfold swap. destruct (a !! i), (a !! j); by rewrite ?length_insert. Qed.

Lemma swap_at i j a k : (i < length a)%nat -> (j < length a)%nat ->
  swap i j a !! k = a !! (if decide (k = i) then j else if decide (k = j) then i else k).
Proof.
  intros Hi Hj. unfold swap.
  destruct (lookup_lt_is_Some_2 a i Hi) as [x Ex], (lookup_lt_is_Some_2 a j Hj) as [y Ey]. rewrite Ex, Ey.
  destruct (decide (k = i)) as [->|Hki].
  - destruct (decide (i = j)) as [->|Hij].
    + rewrite list_lookup_insert_eq; [congruence|by rewrite length_insert].
    + by rewrite list_lookup_insert_ne, list_lookup_insert_eq.
  - destruct (decide (k = j)) as [->|Hkj].
    + rewrite list_lookup_insert_eq; [done|by rewrite length_insert].
    + by rewrite !list_lookup_insert_ne.
Qed.

(** The pairs whose smaller index is below [i] have been exchanged. *)
Definition exchanged (m i : nat) (a0 a : list C) : Prop :=
  length a = (2 ^ m)%nat /\
  forall k, (k < 2 ^ m)%nat ->
    a !! k = a0 !! (if (Nat.min k (rev_at m k) <? i)%nat then rev_at m k else k).

Lemma exchanged_step m i a0 a : (i < 2 ^ m)%nat -> exchanged m i a0 a ->
  exchanged m (S i) a0 (if (i <? rev_at m i)%nat then swap i (rev_at m i) a else a).
Proof.
  intros Hi [Hl Ha]. pose proof (rev_at_lt m i) as Hr. pose proof (rev_at_rev_at m i Hi) as Hrr.
  split; [case_match; rewrite ?swap_length; done|]. intros k Hk. pose proof (rev_at_rev_at m k Hk) as Hkk.
  destruct (Nat.ltb_spec i (rev_at m i)) as [Hlt|Hge].
  - rewrite swap_at by lia. destruct (decide (k = i)) as [->|Hki]; [|destruct (decide (k = rev_at m i)) as [->|Hkr]].
    + rewrite Ha, Hrr by done. destruct (Nat.ltb_spec (Nat.min (rev_at m i) i) i); [lia|].
      destruct (Nat.ltb_spec (Nat.min i (rev_at m i)) (S i)); [done|lia].
    + rewrite Ha, Hrr by done. destruct (Nat.ltb_spec (Nat.min i (rev_at m i)) i); [lia|].
      destruct (Nat.ltb_spec (Nat.min (rev_at m i) i) (S i)); [done|lia].
    + rewrite Ha by done. assert (rev_at m k <> i) by congruence.
      destruct (Nat.ltb_spec (Nat.min k (rev_at m k)) i), (Nat.ltb_spec (Nat.min k (rev_at m k)) (S i)); done || lia.
  - rewrite Ha by done.
    destruct (Nat.ltb_spec (Nat.min k (rev_at m k)) i), (Nat.ltb_spec (Nat.min k (rev_at m k)) (S i)); try (done || lia).
    assert (k = i \/ rev_at m k = i) as [->|E] by lia; [assert (rev_at m i = i) as -> by lia; done|].
    assert (k = rev_at m i) by congruence. f_equal. lia.
Qed.

Lemma reverse_from_exchanged m rounds i a0 a : (i + rounds = 2 ^ m)%nat -> (0 < i)%nat -> exchanged m i a0 a ->
  exchanged m (2 ^ m) a0 (reverse_from rounds i (N.of_nat (2 ^ m)) (rev m (N.of_nat (i - 1))) a).
Proof.
  revert i a. induction rounds as [|rounds IH]; intros i a Hr Hi Ha; cbn [reverse_from].
  { by replace (2 ^ m)%nat with i by lia. }
  assert (N.of_nat (2 ^ m) = 2 ^ N.of_nat m)%N as En by (rewrite <- nat_pow2; lia).
  assert (carry (N.size_nat (N.of_nat (2 ^ m))) (rev m (N.of_nat (i - 1))) (N.shiftr (N.of_nat (2 ^ m)) 1) =
          rev m (N.of_nat i)) as ->.
  { rewrite En, carry_rev.
    - f_equal. lia.
    - pose proof (size_nat_pow2 m). lia. }
  replace (N.of_nat i <? rev m (N.of_nat i))%N with (i <? rev_at m i)%nat.
  2: { unfold rev_at. destruct (Nat.ltb_spec i (N.to_nat (rev m (N.of_nat i)))), (N.ltb_spec (N.of_nat i) (rev m (N.of_nat i)));
       done || lia. }
  replace i with (S i - 1)%nat at 2 by lia. apply IH; [lia|lia|].
  apply exchanged_step; [lia|done].
Qed.

(** The entries at even and at odd places, and the order the recursion wants. *)
Fixpoint evens (xs : list C) : list C :=
  match xs with x :: r => x :: match r with _ :: r => evens r | [] => [] end | [] => [] end.
Definition odds (xs : list C) : list C := match xs with _ :: r => evens r | [] => [] end.

Fixpoint unshuffle (m : nat) (xs : list C) : list C :=
  match m with O => xs | S m => unshuffle m (evens xs) ++ unshuffle m (odds xs) end.

Lemma evens_cons2 x y xs : evens (x :: y :: xs) = x :: evens xs.
Proof. done. Qed.
Lemma odds_cons2 x y xs : odds (x :: y :: xs) = y :: odds xs.
Proof. by destruct xs. Qed.

Lemma evens_odds_length n xs : length xs = (2 * n)%nat -> length (evens xs) = n /\ length (odds xs) = n.
Proof.
  revert xs. induction n as [|n IH]; intros xs H; [by destruct xs|].
  destruct xs as [|x [|y xs]]; cbn [length] in H; [lia|lia|]. rewrite evens_cons2, odds_cons2. cbn [length].
  destruct (IH xs); [lia|]. lia.
Qed.

Lemma evens_odds_at xs k : evens xs !! k = xs !! (2 * k)%nat /\ odds xs !! k = xs !! (2 * k + 1)%nat.
Proof.
  revert xs. induction k as [|k IH]; intros xs.
  { by destruct xs as [|x [|y xs]]. }
  destruct xs as [|x [|y xs]]; [done|by split|]. rewrite evens_cons2, odds_cons2.
  replace (2 * S k)%nat with (S (S (2 * k))) by lia. replace (S (S (2 * k)) + 1)%nat with (S (S (2 * k + 1))) by lia.
  apply IH.
Qed.

Lemma unshuffle_length m xs : length xs = (2 ^ m)%nat -> length (unshuffle m xs) = (2 ^ m)%nat.
Proof.
  revert xs. induction m as [|m IH]; intros xs H; [done|]. cbn [unshuffle]. rewrite length_app.
  destruct (evens_odds_length (2 ^ m) xs) as [H1 H2]; [done|]. rewrite !IH by done. cbn. lia.
Qed.

Lemma unshuffle_at m xs k : length xs = (2 ^ m)%nat -> (k < 2 ^ m)%nat ->
  unshuffle m xs !! k = xs !! rev_at m k.
Proof.
  revert xs k. induction m as [|m IH]; intros xs k H Hk.
  { cbn in Hk. assert (k = 0)%nat as -> by lia. done. }
  destruct (evens_odds_length (2 ^ m) xs) as [H1 H2]; [done|]. cbn [unshuffle].
  destruct (decide (k < 2 ^ m)%nat) as [Hlt|Hge].
  - rewrite lookup_app_l by (rewrite unshuffle_length by done; lia).
    rewrite IH, rev_at_low by done. apply evens_odds_at.
  - rewrite lookup_app_r by (rewrite unshuffle_length by done; lia). rewrite unshuffle_length by done.
    cbn in Hk. rewrite IH by (done || lia).
    replace k with (2 ^ m + (k - 2 ^ m))%nat at 2 by lia. rewrite rev_at_high by lia. apply evens_odds_at.
Qed.

(** The first loop of the source puts the list in that order. *)
Lemma reverse_unshuffle m a : length a = (2 ^ m)%nat ->
  reverse_from (length a - 1) 1 (N.of_nat (length a)) 0 a = unshuffle m a.
Proof.
  intros Hl. rewrite Hl. assert (exchanged m 1 a a) as H1.
  { split; [done|]. intros k Hk. destruct (Nat.ltb_spec (Nat.min k (rev_at m k)) 1) as [H|H]; [|done].
    pose proof (rev_at_0 m) as Hz'.
    assert (k = 0 \/ rev_at m k = 0)%nat as [->|E] by lia; [by rewrite Hz'|].
    assert (k = 0)%nat as -> by (rewrite <- (rev_at_rev_at m k), E by done; done). by rewrite Hz'. }
  pose proof (pow_pos m) as Hp.
  pose proof (reverse_from_exchanged m (2 ^ m - 1) 1 a a ltac:(lia) ltac:(lia) H1) as [H2 H3].
  change (rev m (N.of_nat (1 - 1))) with (rev m 0) in H2, H3.
  rewrite rev_0 in H2, H3.
  apply list_eq. intros k. destruct (decide (k < 2 ^ m)%nat) as [Hk|Hk].
  - rewrite H3, unshuffle_at by done. pose proof (rev_at_lt m k).
    destruct (Nat.ltb_spec (Nat.min k (rev_at m k)) (2 ^ m)); [done|lia].
  - rewrite !lookup_ge_None_2; rewrite ?H2, ?unshuffle_length; done || lia.
Qed.
End Lists.

(** ** The stages *)

Section Stages.
Context {C : Type} (add sub mul : C -> C -> C) (one : C) (wlen : nat -> C).
Abbreviation block := (block_from add sub mul wlen).
Abbreviation blocks := (blocks_from add sub mul one wlen).
Abbreviation stages := (stages_from add sub mul one wlen).

(** What a block becomes: its halves, entry by entry, with the powers of the root. *)
Fixpoint lower (w step : C) (us vs : list C) : list C :=
  match us, vs with u :: us, v :: vs => add u (mul v w) :: lower (mul w step) step us vs | _, _ => [] end.
Fixpoint upper (w step : C) (us vs : list C) : list C :=
  match us, vs with u :: us, v :: vs => sub u (mul v w) :: upper (mul w step) step us vs | _, _ => [] end.

Lemma lower_length w step us vs : length us = length vs -> length (lower w step us vs) = length us.
Proof. revert w vs. induction us as [|u us IH]; intros w [|v vs] H; try done. cbn in *. by rewrite IH by lia. Qed.
Lemma upper_length w step us vs : length us = length vs -> length (upper w step us vs) = length us.
Proof. revert w vs. induction us as [|u us IH]; intros w [|v vs] H; try done. cbn in *. by rewrite IH by lia. Qed.

Lemma butterfly_at i k half w pre ud u us vd v vs post :
  length pre = i -> length ud = k -> length (ud ++ u :: us) = half -> length vd = k ->
  butterfly add sub mul i k half w (pre ++ (ud ++ u :: us) ++ (vd ++ v :: vs) ++ post) =
  pre ++ ((ud ++ [add u (mul v w)]) ++ us) ++ ((vd ++ [sub u (mul v w)]) ++ vs) ++ post.
Proof.
  intros Hp Hu Hh Hv. unfold butterfly.
  rewrite (lookup_app_r pre), (lookup_app_l (ud ++ u :: us)) by (rewrite ?length_app in *; cbn in *; lia).
  replace (i + k - length pre)%nat with (length ud) by lia. rewrite list_lookup_middle by done.
  rewrite (lookup_app_r pre), (lookup_app_r (ud ++ u :: us)) by (rewrite ?length_app in *; cbn in *; lia).
  replace (i + k + half - length pre - length (ud ++ u :: us))%nat with (length vd) by lia.
  rewrite <- (app_assoc vd). cbn [app]. rewrite list_lookup_middle by done. cbn zeta.
  rewrite (insert_app_r_alt pre), (insert_app_l (ud ++ u :: us)) by (rewrite ?length_app in *; cbn in *; lia).
  replace (i + k - length pre)%nat with (length ud + 0)%nat by lia. rewrite insert_app_r.
  rewrite (insert_app_r_alt pre) by lia.
  rewrite (insert_app_r_alt (ud ++ _)) by (rewrite ?length_app in *; cbn in *; lia).
  replace (i + k + half - length pre - length (ud ++ <[0%nat := _]> (u :: us)))%nat with (length vd + 0)%nat
    by (rewrite ?length_app, ?length_insert in *; cbn in *; lia).
  rewrite insert_app_r. cbn [insert list_insert]. rewrite <- !app_assoc. done.
Qed.

Lemma block_from_spec us vs k i half w pre ud vd post :
  length pre = i -> length ud = k -> length vd = k -> length us = length vs -> (k + length us = half)%nat ->
  block (length us) k i (2 * half) w (pre ++ (ud ++ us) ++ (vd ++ vs) ++ post) =
  pre ++ (ud ++ lower w (wlen (2 * half)) us vs) ++ (vd ++ upper w (wlen (2 * half)) us vs) ++ post.
Proof.
  revert vs k w ud vd. induction us as [|u us IH]; intros [|v vs] k w ud vd Hp Hu Hv Hl Hk; try done.
  cbn [length] in *. cbn [block_from]. rewrite Nat.mul_comm, Nat.div_mul, (Nat.mul_comm half) by done.
  rewrite butterfly_at by (rewrite ?length_app; cbn [length]; lia).
  rewrite IH by (rewrite ?length_app; cbn [length]; lia). cbn [lower upper]. by rewrite <- !app_assoc.
Qed.

(** A stage over a whole list, block after block. *)
Definition block_of (half : nat) (a : list C) : list C :=
  let us := take half a in let vs := take half (drop half a) in
  lower one (wlen (2 * half)) us vs ++ upper one (wlen (2 * half)) us vs.
Fixpoint stage_of (count half : nat) (a : list C) : list C :=
  match count with O => [] | S count => block_of half a ++ stage_of count half (drop (2 * half) a) end.

Lemma blocks_from_spec fuel count half pre a :
  (0 < half)%nat -> length a = (count * (2 * half))%nat -> (count <= fuel)%nat ->
  blocks fuel (length pre) (2 * half) (pre ++ a) = pre ++ stage_of count half a.
Proof.
  intros Hh. revert count pre a. induction fuel as [|fuel IH]; intros count pre a Hl Hf.
  { assert (count = 0)%nat as -> by lia. by apply nil_length_inv in Hl as ->. }
  cbn [blocks_from]. rewrite length_app. destruct count as [|count].
  { apply nil_length_inv in Hl as ->. destruct (Nat.ltb_spec (length pre) (length pre + length (@nil C))); [cbn in *; lia|done]. }
  destruct (Nat.ltb_spec (length pre) (length pre + length a)); [|lia].
  set (us := take half a). set (vs := take half (drop half a)). set (post := drop (2 * half) a).
  assert (length us = half) as Hus by (unfold us; rewrite length_take; lia).
  assert (length vs = half) as Hvs by (unfold vs; rewrite length_take, length_drop; lia).
  assert (a = us ++ vs ++ post) as Ea.
  { unfold us, vs, post. replace (2 * half)%nat with (half + half)%nat by lia.
    by rewrite <- drop_drop, take_drop, take_drop. }
  rewrite (Nat.mul_comm 2 half), Nat.div_mul by done. rewrite (Nat.mul_comm half 2).
  rewrite Ea at 1.
  pose proof (block_from_spec us vs 0 (length pre) half one pre [] [] post eq_refl eq_refl eq_refl ltac:(lia) ltac:(lia)) as Hb.
  cbn [app] in Hb. rewrite Hus in Hb. rewrite Hb. cbn [stage_of]. fold us vs. unfold block_of. fold us vs post.
  set (out := lower one (wlen (2 * half)) us vs ++ upper one (wlen (2 * half)) us vs).
  assert (length out = (2 * half)%nat) as Ho by (unfold out; rewrite length_app, lower_length, upper_length; lia).
  replace (pre ++ lower one (wlen (2 * half)) us vs ++ upper one (wlen (2 * half)) us vs ++ post)
    with ((pre ++ out) ++ post) by (unfold out; by rewrite <- !app_assoc).
  replace (length pre + 2 * half)%nat with (length (pre ++ out)) by (rewrite length_app; lia).
  rewrite (IH count); [by unfold out; rewrite <- !app_assoc| |lia]. unfold post. rewrite length_drop. lia.
Qed.

Lemma stage_of_length count half a : length a = (count * (2 * half))%nat -> length (stage_of count half a) = length a.
Proof.
  revert a. induction count as [|count IH]; intros a H; [done|]. cbn [stage_of]. unfold block_of.
  rewrite !length_app, lower_length, upper_length by (rewrite !length_take, length_drop; lia).
  rewrite IH; rewrite length_drop; [rewrite length_take|]; lia.
Qed.

Lemma stage_of_app c1 c2 half a b : length a = (c1 * (2 * half))%nat ->
  stage_of (c1 + c2) half (a ++ b) = stage_of c1 half a ++ stage_of c2 half b.
Proof.
  revert a. induction c1 as [|c1 IH]; intros a H; [by apply nil_length_inv in H as ->|].
  cbn [stage_of Nat.add]. rewrite <- app_assoc. f_equal.
  - unfold block_of. rewrite !drop_app_le, !take_app_le by (rewrite ?length_drop; lia). done.
  - rewrite drop_app_le by lia. apply IH. rewrite length_drop. lia.
Qed.

(** The first [m] stages, on a list of [c] times the length the last of them needs. *)
Fixpoint first_stages (m c : nat) (a : list C) : list C :=
  match m with O => a | S m => stage_of c (2 ^ m) (first_stages m (2 * c) a) end.

Lemma first_stages_length m c a : length a = (c * 2 ^ m)%nat -> length (first_stages m c a) = length a.
Proof.
  revert c. induction m as [|m IH]; intros c H; [done|]. cbn [first_stages]. cbn [Nat.pow] in H.
  rewrite stage_of_length; rewrite IH; lia.
Qed.

Lemma first_stages_app m c1 c2 a b : length a = (c1 * 2 ^ m)%nat ->
  first_stages m (c1 + c2) (a ++ b) = first_stages m c1 a ++ first_stages m c2 b.
Proof.
  revert c1 c2. induction m as [|m IH]; intros c1 c2 H; [done|]. cbn [first_stages]. cbn [Nat.pow] in H.
  replace (2 * (c1 + c2))%nat with (2 * c1 + 2 * c2)%nat by lia. rewrite IH by lia.
  apply stage_of_app. rewrite first_stages_length; lia.
Qed.

(** The last stage joins the transforms of the two halves. *)
Lemma first_stages_halves m a b : length a = (2 ^ m)%nat -> length b = (2 ^ m)%nat ->
  first_stages (S m) 1 (a ++ b) =
  (let l := first_stages m 1 a in let r := first_stages m 1 b in
   lower one (wlen (2 ^ S m)) l r ++ upper one (wlen (2 ^ S m)) l r).
Proof.
  intros Ha Hb. cbn [first_stages]. change (2 * 1)%nat with (1 + 1)%nat. rewrite first_stages_app by lia.
  cbn [stage_of]. unfold block_of. change (2 * 2 ^ m)%nat with (2 ^ S m)%nat.
  assert (length (first_stages m 1 a) = (2 ^ m)%nat) as H1 by (rewrite first_stages_length; lia).
  assert (length (first_stages m 1 b) = (2 ^ m)%nat) as H2 by (rewrite first_stages_length; lia).
  rewrite <- H1 at 1 2 3 4 5 6. rewrite take_app_length, drop_app_length. rewrite take_ge by lia. by rewrite app_nil_r.
Qed.

(** The loop over the lengths runs exactly these stages. *)
Lemma stages_from_first fuel s d a : length a = (2 ^ (s + d))%nat -> (d <= fuel)%nat ->
  stages fuel (2 ^ S s) (first_stages s (2 ^ d) a) = first_stages (s + d) 1 a.
Proof.
  revert s d. induction fuel as [|fuel IH]; intros s d Hl Hf.
  { assert (d = 0)%nat as -> by lia. cbn. by rewrite Nat.add_0_r. }
  assert (length (first_stages s (2 ^ d) a) = (2 ^ (s + d))%nat) as Hl'
    by (rewrite first_stages_length; [done|rewrite Hl, Nat.pow_add_r; lia]).
  cbn [stages_from]. rewrite Hl'. pose proof (pow_pos s). destruct d as [|d].
  - rewrite Nat.add_0_r. destruct (Nat.leb_spec (2 ^ S s) (2 ^ s)) as [H1|H1]; [cbn [Nat.pow] in H1; lia|done].
  - assert (2 ^ (s + S d) = 2 ^ d * (2 * 2 ^ s))%nat as E.
    { rewrite Nat.add_succ_r. cbn [Nat.pow]. rewrite Nat.pow_add_r. lia. }
    pose proof (pow_pos d). destruct (Nat.leb_spec (2 ^ S s) (2 ^ (s + S d))) as [H1|H1]; [|cbn [Nat.pow] in H1; nia].
    pose proof (blocks_from_spec (2 ^ (s + S d)) (2 ^ d) (2 ^ s) [] (first_stages s (2 ^ S d) a)) as Hb.
    cbn [app length] in Hb. change (2 ^ S s)%nat with (2 * 2 ^ s)%nat. rewrite Hb by nia.
    change (stage_of (2 ^ d) (2 ^ s) (first_stages s (2 ^ S d) a)) with (first_stages (S s) (2 ^ d) a).
    change (2 * (2 * 2 ^ s))%nat with (2 ^ S (S s))%nat. rewrite IH by (rewrite ?Hl; f_equal; lia).
    f_equal. lia.
Qed.

(** The source on a power of two. *)
Lemma fft_stages m a : length a = (2 ^ m)%nat ->
  fftRadix2 add sub mul one wlen a = first_stages m 1 (unshuffle m a).
Proof.
  intros Hl. unfold fftRadix2. pose proof (pow_pos m). destruct m as [|m].
  { cbn in Hl. by rewrite Hl. }
  destruct (Nat.leb_spec (length a) 1) as [H1|H1]; [rewrite Hl in H1; cbn [Nat.pow] in *; pose proof (pow_pos m); lia|].
  rewrite reverse_unshuffle with (m := S m) by done.
  pose proof (stages_from_first (length a) 0 (S m) (unshuffle (S m) a)) as Hs. cbn [first_stages Nat.add] in Hs.
  change (2 ^ 1)%nat with 2%nat in Hs. apply Hs; [by apply unshuffle_length|]. rewrite Hl.
  pose proof (Nat.pow_gt_lin_r 2 (S m)). lia.
Qed.
End Stages.

(** ** Over a ring *)

Section Fourier.
Context {R : Type} (zero one : R) (add mul sub : R -> R -> R) (opp : R -> R).
Context (R_ring : ring_theory zero one add mul sub opp eq).
Add Ring fourier_ring : R_ring.

Fixpoint power (x : R) (n : nat) : R := match n with O => one | S n => mul x (power x n) end.

(** The value at [z] of the polynomial with the coefficients [xs]. *)
Fixpoint value_at (xs : list R) (z : R) : R :=
  match xs with [] => zero | x :: xs => add x (mul z (value_at xs z)) end.

(** The discrete Fourier transform: entry [k] is the sum of the entries [t] times
    [w] to the power [k * t]. *)
Definition dft (w : R) (xs : list R) : list R := (fun k => value_at xs (power w k)) <$> seq 0 (length xs).

Lemma power_add x m n : power x (m + n) = mul (power x m) (power x n).
Proof. induction m as [|m IH]; cbn [power Nat.add]; [ring|]. rewrite IH. ring. Qed.

Lemma power_mul x y n : power (mul x y) n = mul (power x n) (power y n).
Proof. induction n as [|n IH]; cbn [power]; [ring|]. rewrite IH. ring. Qed.

Lemma value_at_split n xs z : (length xs <= n)%nat ->
  value_at xs z = add (value_at (evens xs) (mul z z)) (mul z (value_at (odds xs) (mul z z))).
Proof.
  revert xs. induction n as [|n IH]; intros xs Hn; [destruct xs; [|cbn in Hn; lia]; cbn; ring|].
  destruct xs as [|x [|y xs]]; [cbn; ring|cbn; ring|]. rewrite evens_cons2, odds_cons2. cbn [value_at].
  rewrite (IH xs) by (cbn in Hn; lia). ring.
Qed.

Lemma lower_map w step f g ks k0 :
  lower add mul (mul w (power step k0)) step (f <$> seq k0 ks) (g <$> seq k0 ks) =
  (fun k => add (f k) (mul (g k) (mul w (power step k)))) <$> seq k0 ks.
Proof.
  revert k0. induction ks as [|ks IH]; intros k0; [done|]. cbn [seq fmap list_fmap lower]. f_equal.
  rewrite <- IH. f_equal. cbn [power]. ring.
Qed.

Lemma upper_map w step f g ks k0 :
  upper sub mul (mul w (power step k0)) step (f <$> seq k0 ks) (g <$> seq k0 ks) =
  (fun k => sub (f k) (mul (g k) (mul w (power step k)))) <$> seq k0 ks.
Proof.
  revert k0. induction ks as [|ks IH]; intros k0; [done|]. cbn [seq fmap list_fmap upper]. f_equal.
  rewrite <- IH. f_equal. cbn [power]. ring.
Qed.

(** The roots of the stages: half way round is -1, and two steps of one stage are one step
    of the stage before it. *)
Definition stage_roots (m : nat) (wlen : nat -> R) : Prop :=
  forall s, (s < m)%nat ->
    power (wlen (2 ^ S s)%nat) (2 ^ s) = opp one /\
    ((0 < s)%nat -> mul (wlen (2 ^ S s)%nat) (wlen (2 ^ S s)%nat) = wlen (2 ^ s)%nat).

Lemma stages_are_dft m wlen xs : length xs = (2 ^ m)%nat -> stage_roots m wlen ->
  first_stages add sub mul one wlen m 1 (unshuffle m xs) = dft (wlen (2 ^ m)%nat) xs.
Proof.
  revert xs. induction m as [|m IH]; intros xs Hl Hr.
  { destruct xs as [|x [|]]; cbn in Hl; try lia. cbn. f_equal. ring. }
  destruct (evens_odds_length (2 ^ m) xs) as [He Ho]; [done|]. cbn [unshuffle].
  rewrite first_stages_halves by (by apply unshuffle_length). cbn zeta.
  assert (stage_roots m wlen) as Hr' by (intros s Hs; apply Hr; lia).
  rewrite !IH by done. destruct (Hr m ltac:(lia)) as [Hhalf Hsq].
  unfold dft. rewrite He, Ho, Hl. set (w := wlen (2 ^ S m)%nat) in *.
  replace (one) with (mul one (power w 0)) at 1 by (cbn; ring).
  rewrite lower_map. replace (one) with (mul one (power w 0)) at 1 by (cbn; ring). rewrite upper_map.
  replace (2 ^ S m)%nat with (2 ^ m + 2 ^ m)%nat by (cbn; lia). rewrite seq_app, fmap_app. cbn [Nat.add].
  assert (forall k, (k < 2 ^ m)%nat -> power (wlen (2 ^ m)%nat) k = mul (power w k) (power w k)) as Hk.
  { intros k Hk. rewrite <- power_mul. destruct m as [|m]; [cbn in Hk; assert (k = 0)%nat as -> by lia; done|].
    by rewrite Hsq by lia. }
  f_equal.
  - apply list_fmap_ext. intros i k Hi%lookup_seq. rewrite (value_at_split (length xs) xs) by done.
    rewrite Hk by lia. ring.
  - replace (seq (2 ^ m) (2 ^ m)) with (Nat.add (2 ^ m) <$> seq 0 (2 ^ m)) by (by rewrite fmap_add_seq, Nat.add_0_r).
    rewrite <- list_fmap_compose. apply list_fmap_ext. intros i k Hi%lookup_seq. cbn [compose].
    rewrite (value_at_split (length xs) xs), power_add, Hhalf by done.
    replace (mul (mul (opp one) (power w k)) (mul (opp one) (power w k))) with (mul (power w k) (power w k)) by ring.
    rewrite Hk by lia. ring.
Qed.
End Fourier.

(** C38: the transform of the source is the discrete Fourier transform: over any commutative
    ring, for a list of any power of two entries and roots that fit the stages, the loops
    of [fftRadix2] (the exchange of entries by reversed index and the butterflies of every
    stage, in place) leave in entry [k] the sum of the entries [t] times the [k * t]-th
    power of the root.  What the doubles of the source add to this is rounding. *)
Theorem fft_is_dft {R : Type} (zero one : R) (add mul sub : R -> R -> R) (opp : R -> R)
    (m : nat) (wlen : nat -> R) (xs : list R)
  (R_ring : ring_theory zero one add mul sub opp eq)
  (Hlength : length xs = (2 ^ m)%nat)
  (Hroots : stage_roots one mul opp m wlen) :
  fftRadix2 add sub mul one wlen xs = dft zero one add mul (wlen (2 ^ m)%nat) xs.
Proof. rewrite (fft_stages _ _ _ _ _ m) by done. by apply stages_are_dft with (opp := opp). Qed.

(** Gaussian integers: [i] is a fourth root. *)
Definition gauss : Type := Z * Z.
Definition g_add (a b : gauss) : gauss := (a.1 + b.1, a.2 + b.2)%Z.
Definition g_sub (a b : gauss) : gauss := (a.1 - b.1, a.2 - b.2)%Z.
Definition g_mul (a b : gauss) : gauss := (a.1 * b.1 - a.2 * b.2, a.1 * b.2 + a.2 * b.1)%Z.
Definition g_opp (a : gauss) : gauss := (- a.1, - a.2)%Z.

Lemma gauss_ring : ring_theory (0, 0)%Z (1, 0)%Z g_add g_mul g_sub g_opp eq.
Proof.
  split; intros; repeat match goal with x : gauss |- _ => destruct x | x : (Z * Z)%type |- _ => destruct x end;
    unfold g_add, g_mul, g_sub, g_opp; cbn [fst snd]; f_equal; ring.
Qed.

Lemma fft_is_dft_witness :
  fftRadix2 g_add g_sub g_mul (1, 0)%Z (fun len => if (len =? 2)%nat then (-1, 0)%Z else (0, -1)%Z)
    [(1, 0); (2, 0); (3, 0); (4, 0)]%Z =
  dft (0, 0)%Z (1, 0)%Z g_add g_mul (0, -1)%Z [(1, 0); (2, 0); (3, 0); (4, 0)]%Z.
Proof.
  apply (fft_is_dft (0, 0)%Z (1, 0)%Z g_add g_mul g_sub g_opp 2
           (fun len => if (len =? 2)%nat then (-1, 0)%Z else (0, -1)%Z)); [exact gauss_ring|reflexivity|].
  intros [|[|s]] Hs; [split; [reflexivity|lia]|split; [reflexivity|reflexivity]|lia].
Defined.
