(* ===== verification/Acoustics.v ===== *)
(** * Acoustics: what the microphone hears and what is made of it

    Models [src/src/microphone] (level meter, ambient noise, the manager over the class
    [MicHal]), [src/src/calibration/RoomMeasurement.cpp], [AutoEq.h] and [AutoVolume.h],
    and [streamer/src/audio/LevelMeter.h] with the JSON of the levels
    ([streamer/src/app/StreamerApp.cpp]).  Doubles are binary64 values; the functions of
    the mathematical library are those of the class [Libm]. *)

From S2P Require Import Prelude Core Json Audio Dsp Fft.
Local Open Scope Z_scope.

(** ** Numbers *)

Definition c_pico : spec_float := S754_finite false 4951760157141521 (-92).  (* 1e-12 *)
Definition f_sqrt : spec_float -> spec_float := SFsqrt 53 1024.
Definition full_scale : spec_float := f_of_Z 32768.

(** [std::lround]: to the nearest integer, halves away from zero; what the call gives for
    a value that has none is [other]. *)
Definition f_lround (other : Z) (x : spec_float) : Z :=
  match x with
  | S754_zero _ => 0
  | S754_finite s m e =>
      let r := if 0 <=? e then Zpos m * 2 ^ e else (2 * Zpos m + 2 ^ (- e)) / 2 ^ (1 - e) in
      if s then - r else r
  | _ => other
  end.

Definition z_clamp (x lo hi : Z) : Z := if x <? lo then lo else if hi <? x then hi else x.

(** ** Level and ambient noise *)

Section Level.
Context {M : Libm}.

(* [src/src/microphone/SplMeter.h:19-28] SplMeter::rmsDbfs *)
Definition rmsDbfs (pcm : list Z) : spec_float :=
  match pcm with
  | [] => f_of_Z (-120)
  | _ =>
      let sum := foldl (fun sum s => let x := fdiv (f_of_Z s) full_scale in fadd sum (fmul x x)) f0 pcm in
      let rms := f_sqrt (fdiv sum (f_of_nat (length pcm))) in
      fmul c_20 (m_log10 (fadd rms c_pico))
  end.

(* [src/src/microphone/SplMeter.h:31-31] SplMeter::splDb *)
Definition splDb (ref_db : spec_float) (pcm : list Z) : spec_float := fadd (rmsDbfs pcm) ref_db.

(* [src/src/microphone/NoiseMonitor.h:35-37] NoiseMonitor *)
Record NoiseMonitor := mk_noise { smoothing_ : spec_float; ambient_ : spec_float; have_ : bool }.

(* [src/src/microphone/NoiseMonitor.h:17-26] NoiseMonitor::update *)
Definition noise_update (pcm : list Z) (n : NoiseMonitor) : NoiseMonitor :=
  let level := rmsDbfs pcm in
  mk_noise (smoothing_ n)
    (if have_ n then fadd (ambient_ n) (fmul (smoothing_ n) (fsub level (ambient_ n))) else level) true.

(* [src/src/microphone/NoiseMonitor.h:29-32] NoiseMonitor::reset *)
Definition noise_reset (n : NoiseMonitor) : NoiseMonitor := mk_noise (smoothing_ n) (f_of_Z (-120)) false.

(** ** The microphone *)

(* [src/src/microphone/IMicrophoneHal.h:12-19] IMicrophoneHal *)
Class MicHal (W E : Type) := {
  mic_open : SW W E Status;
  mic_close : SW W E Status;
  mic_capture : nat -> SW W E (Result (list Z))
}.

Section Manager.
Context {W E : Type} {Hal : MicHal W E}.

(* [src/src/microphone/MicrophoneManager.h:43-48] MicrophoneManager *)
Record MicrophoneManager := mk_mic
  { mic_hal : W; mic_bus : bool; mic_ref_db : spec_float; noise_ : NoiseMonitor; mic_is_open : bool;
    mic_state : ServiceState }.

Inductive MEffect := MPublish (e : Event Payload) | MOut (e : E).

Abbreviation Mic := (SW MicrophoneManager MEffect).

Definition set_mic_hal (w : W) (m : MicrophoneManager) : MicrophoneManager :=
  mk_mic w (mic_bus m) (mic_ref_db m) (noise_ m) (mic_is_open m) (mic_state m).
Definition set_mic_open (b : bool) (s : ServiceState) (m : MicrophoneManager) : MicrophoneManager :=
  mk_mic (mic_hal m) (mic_bus m) (mic_ref_db m) (noise_ m) b s.
Definition set_noise (n : NoiseMonitor) (m : MicrophoneManager) : MicrophoneManager :=
  mk_mic (mic_hal m) (mic_bus m) (mic_ref_db m) n (mic_is_open m) (mic_state m).

Definition on_mic {A} (f : SW W E A) : Mic A := zoom mic_hal set_mic_hal MOut f.
Definition mic_publish (t : EventType) : Mic unit :=
  m ← get; when (mic_bus m) (tell [MPublish (event t "microphone" [])]).

(* [src/src/microphone/MicrophoneManager.cpp:29-35] MicrophoneManager::start *)
Definition mic_start : Mic Status :=
  s ← on_mic mic_open;
  modify (set_mic_open (status_ok s) (if status_ok s then ServiceState.Running else ServiceState.Degraded));;
  mret s.

(* [src/src/microphone/MicrophoneManager.cpp:37-42] MicrophoneManager::stop *)
Definition mic_stop : Mic Status :=
  m ← get;
  when (mic_is_open m) (on_mic mic_close;; mret ());;
  modify (set_mic_open false ServiceState.Stopped);;
  mret success.

(* [src/src/microphone/MicrophoneManager.cpp:44-46] MicrophoneManager::capture *)
Definition capture (frames : nat) : Mic (Result (list Z)) := on_mic (mic_capture frames).

(* [src/src/microphone/MicrophoneManager.cpp:48-52] MicrophoneManager::measureSpl *)
Definition measureSpl (frames : nat) : Mic (Result spec_float) :=
  pcm ← capture frames;
  m ← get;
  mret (match pcm with Failure s => Failure s | Value l => Value (splDb (mic_ref_db m) l) end).

(* [src/src/microphone/MicrophoneManager.cpp:54-58] MicrophoneManager::updateAmbient *)
Definition updateAmbient (frames : nat) : Mic (Result spec_float) :=
  pcm ← capture frames;
  match pcm with
  | Failure s => mret (Failure s)
  | Value l => m ← get; let n := noise_update l (noise_ m) in modify (set_noise n);; mret (Value (ambient_ n))
  end.

(* [src/src/microphone/MicrophoneManager.cpp:60-75] MicrophoneManager::selfTest *)
Definition selfTest : Mic Status :=
  pcm ← capture 2400;
  match pcm with
  | Failure s => mic_publish EventType.MicFailure;; mret s
  | Value [] => mic_publish EventType.MicFailure;; mret (error ErrorCode.IoError "microphone returned no samples")
  | Value _ => mret success
  end.
End Manager.

(** ** The room *)

(* [src/src/calibration/RoomMeasurement.cpp:9-13] RoomMeasurement::toDouble *)
Definition pcm_to_double (pcm : list Z) : list spec_float := (fun s => fdiv (f_of_Z s) full_scale) <$> pcm.

Definition c_third : spec_float := S754_finite false 5044031582654956 (-52).  (* 1.12 *)

(** The mean energy of a band of the spectrum, in dB. *)
(* [src/src/calibration/RoomMeasurement.cpp:22-37] RoomMeasurement::bandEnergyDb *)
Definition band_energy (mag : list spec_float) (bin_hz fc : spec_float) : spec_float :=
  let lo := fdiv fc c_third in
  let hi := fmul fc c_third in
  let k_lo := Z.to_nat (f_trunc (f_max f0 (fdiv lo bin_hz))) in
  let k_hi := Nat.min (length mag - 1) (Z.to_nat (f_trunc (fdiv hi bin_hz)) + 1) in
  let bins := take (k_hi + 1 - k_lo) (drop k_lo mag) in
  let energy := foldl (fun e m => fadd e (fmul m m)) f0 bins in
  let mean := match bins with [] => c_pico | _ => fdiv energy (f_of_nat (length bins)) end in
  fmul c_10 (m_log10 (fadd mean c_pico)).

(* [src/src/calibration/RoomMeasurement.cpp:15-40] RoomMeasurement::bandEnergyDb *)
Definition bandEnergyDb (fs : spec_float) (fft_size : nat) (samples : list spec_float) : list spec_float :=
  let mag := magnitudeSpectrum samples fft_size in
  band_energy mag (fdiv fs (f_of_nat fft_size)) <$> kBandFreqs.
End Level.
Arguments MicrophoneManager W : clear implicits.
Arguments mk_mic {W} _ _ _ _ _ _.
Arguments mic_hal {W} _.
Arguments mic_bus {W} _.
Arguments noise_ {W} _.
Arguments mic_is_open {W} _.
Arguments mic_state {W} _.
Arguments MEffect E : clear implicits.
Arguments MPublish {E} _.
Arguments MOut {E} _.

(** ** The correction *)

Definition average (l : list spec_float) : spec_float := fdiv (foldl fadd f0 l) (f_of_nat kEqBands).

(* [src/src/calibration/AutoEq.h:20-33] AutoEq::computeCorrection *)
Definition computeCorrection (smoothing : spec_float) (measured_db : list spec_float) : list spec_float :=
  let avg := average measured_db in
  (fun m => f_clamp (fmul (fsub avg m) smoothing) (f_of_Z (-10)) c_10) <$> measured_db.

(* [src/src/calibration/AutoEq.h:36-46] AutoEq::flatnessScore *)
Definition flatnessScore (measured_db : list spec_float) : spec_float :=
  let avg := average measured_db in
  let var := fdiv (foldl (fun var v => fadd var (fmul (fsub v avg) (fsub v avg))) f0 measured_db) (f_of_nat kEqBands) in
  f_clamp (fsub (f_of_Z 100) (fmul (f_sqrt var) (f_of_Z 5))) f0 (f_of_Z 100).

(** ** Automatic volume *)

(* [src/src/calibration/AutoVolume.h:15-22] AutoVolume::Params *)
Record VolumeParams := mk_volume_params
  { offset_db : spec_float; max_volume : Z; min_volume : Z; max_step : Z; db_to_volume : spec_float;
    ambient_ref_dbfs : spec_float }.
Definition default_volume_params : VolumeParams := mk_volume_params c_2 90 10 3 c_1 (f_of_Z (-60)).

(** The cast of the rounded target keeps its low 32 bits. *)
(* [src/src/calibration/AutoVolume.h:29-41] AutoVolume::nextVolume *)
Definition nextVolume (other : Z) (p : VolumeParams) (current_volume : Z) (ambient_dbfs : spec_float) : Z :=
  let target_raw := fadd (f_of_Z (min_volume p))
    (fmul (fadd (fsub ambient_dbfs (ambient_ref_dbfs p)) (offset_db p)) (db_to_volume p)) in
  let target := z_clamp (to_signed 32 (f_lround other target_raw)) (min_volume p) (max_volume p) in
  let delta := z_clamp (target - current_volume) (- max_step p) (max_step p) in
  z_clamp (current_volume + delta) (min_volume p) (max_volume p).

(** ** The streamer's level meters *)

(* [src/streamer/src/audio/LevelMeter.h:65-71] LevelMeter::Levels *)
Record Levels := mk_levels
  { rms_left : spec_float; rms_right : spec_float; peak_left : spec_float; peak_right : spec_float;
    active : bool }.

(* [src/streamer/src/audio/LevelMeter.h:57-63] LevelMeter::reset *)
Definition meter_reset : Levels := mk_levels f0 f0 f0 f0 false.

(** The two samples of frame [f] that are metered. *)
(* [src/streamer/src/audio/LevelMeter.h:32-37] LevelMeter::measure *)
Definition metered (channels : nat) (pcm : list Z) (f : nat) : Z * Z :=
  let l := nth (f * channels) pcm 0 in
  (l, if (1 <? channels)%nat then nth (f * channels + 1) pcm 0 else l).

(* [src/streamer/src/audio/LevelMeter.h:38-39] LevelMeter::measure *)
Definition sum_squares (l : list Z) : spec_float := foldl (fun s v => fadd s (fmul (f_of_Z v) (f_of_Z v))) f0 l.
(* [src/streamer/src/audio/LevelMeter.h:40-41] LevelMeter::measure *)
Definition peak_abs (l : list Z) : Z := foldl (fun p v => Z.max p (Z.abs v)) 0 l.

Definition rms_level (frames : nat) (l : list Z) : spec_float :=
  to_float (fdiv (f_sqrt (fdiv (sum_squares l) (f_of_nat frames))) full_scale).
Definition peak_level (p : Z) : spec_float := to_float (fdiv (f_of_Z p) full_scale).

(* [src/streamer/src/audio/LevelMeter.h:26-53] LevelMeter::measure *)
Definition measure (pcm : list Z) (frames channels : nat) (v : Levels) : Levels :=
  if (frames =? 0)%nat || (channels =? 0)%nat then v
  else
    let fs := metered channels pcm <$> seq 0 frames in
    mk_levels (rms_level frames fs.*1) (rms_level frames fs.*2)
      (peak_level (peak_abs fs.*1)) (peak_level (peak_abs fs.*2)) true.

Section Display.
Context {M : Libm} {J : JsonLib}.

Definition floor_db : spec_float := f_of_Z (-60).

(* [src/streamer/src/audio/LevelMeter.h:94-98] toDbfs *)
Definition toDbfs (linear : spec_float) : spec_float :=
  if SFleb linear f0 then floor_db
  else let db := fmul c_20 (m_log10 (to_double linear)) in if SFltb db floor_db then floor_db else db.

(* [src/streamer/src/audio/LevelMeter.h:102-106] dbToFraction *)
Definition dbToFraction (dbfs : spec_float) : spec_float :=
  if SFleb dbfs floor_db then f0
  else if SFleb f0 dbfs then c_1
  else fdiv (fsub dbfs floor_db) (fsub f0 floor_db).

Definition c_clip : spec_float := S754_finite false 16760439 (-24).  (* 0.999f *)

(* [src/streamer/src/app/StreamerApp.cpp:372-388] StreamerApp::startup, the levels *)
Definition pack_levels (v : Levels) : json :=
  let db_l := toDbfs (rms_left v) in
  let db_r := toDbfs (rms_right v) in
  jobj [("rms_db_left", jdbl db_l); ("rms_db_right", jdbl db_r);
        ("bar_left", jdbl (dbToFraction db_l)); ("bar_right", jdbl (dbToFraction db_r));
        ("peak_db_left", jdbl (toDbfs (peak_left v))); ("peak_db_right", jdbl (toDbfs (peak_right v)));
        ("clipping", jbool (SFleb c_clip (peak_left v) || SFleb c_clip (peak_right v)));
        ("active", jbool (active v))].
End Display.

(** ** The automatic volume *)

(** One step towards a target. *)
Definition step_to (step target v : Z) : Z := v + z_clamp (target - v) (- step) step.

Definition volume_target (other : Z) (p : VolumeParams) (ambient : spec_float) : Z :=
  z_clamp (to_signed 32 (f_lround other
    (fadd (f_of_Z (min_volume p)) (fmul (fadd (fsub ambient (ambient_ref_dbfs p)) (offset_db p)) (db_to_volume p)))))
    (min_volume p) (max_volume p).

Ltac clamp_lia := unfold z_clamp in *; repeat match goal with
  | |- context [(?a <? ?b)] => destruct (Z.ltb_spec a b)
  | H : context [(?a <? ?b)] |- _ => destruct (Z.ltb_spec a b)
  end; lia.

Lemma volume_target_range other p ambient : min_volume p <= max_volume p ->
  min_volume p <= volume_target other p ambient <= max_volume p.
Proof. intros H. unfold volume_target. clamp_lia. Qed.

Lemma next_volume_step other p v ambient :
  min_volume p <= v <= max_volume p -> 0 <= max_step p ->
  nextVolume other p v ambient = step_to (max_step p) (volume_target other p ambient) v.
Proof.
  intros Hv Hs. unfold nextVolume. fold (volume_target other p ambient).
  pose proof (volume_target_range other p ambient ltac:(lia)) as Ht. set (t := volume_target _ _ _) in *. clearbody t.
  unfold step_to. clamp_lia.
Qed.

(** The automatic volume is gentle and settles.  Whatever the ambient level, even one
    that is not a number: the next volume stays within the limits and differs from the
    current one by at most one step; and under a steady ambient level the volume reaches
    its target in as many polls as there are steps between them, and stays there. *)
Theorem auto_volume_settles (other : Z) (p : VolumeParams) (v : Z) (ambient : spec_float) (polls : nat)
  (Hlimits : min_volume p <= v <= max_volume p) (Hstep : 0 < max_step p) :
  let target := volume_target other p ambient in
  let next := nextVolume other p v ambient in
  min_volume p <= next <= max_volume p /\ Z.abs (next - v) <= max_step p /\
  (Z.abs (target - v) <= Z.of_nat polls * max_step p ->
   Nat.iter polls (fun v => nextVolume other p v ambient) v = target).
Proof.
  cbv zeta. pose proof (volume_target_range other p ambient ltac:(lia)) as Ht.
  rewrite (next_volume_step other p v ambient) by lia.
  split; [unfold step_to; clamp_lia|]. split; [unfold step_to; clamp_lia|].
  revert v Hlimits. induction polls as [|polls IH]; intros v Hv Hd; [cbn; lia|].
  rewrite Nat.iter_succ_r, (next_volume_step other p v ambient) by lia.
  rewrite Nat2Z.inj_succ, Z.mul_succ_l in Hd. apply IH; unfold step_to; clamp_lia.
Qed.

Lemma auto_volume_settles_witness :
  Nat.iter 7 (fun v => nextVolume 0 default_volume_params v (f_of_Z (-42))) 10 = 30.
Proof.
  destruct (auto_volume_settles 0 default_volume_params 10 (f_of_Z (-42)) 7) as (_ & _ & H); [cbn; lia|cbn; lia|].
  rewrite H; vm_compute; congruence.
Defined.

(** ** The meters *)

(** The lowest sample is shown as 1, silence as 0. *)
Lemma peak_levels : peak_level 32768 = s_of_Z 1 /\ peak_level 0 = f0.
Proof. by vm_compute. Qed.

Lemma peak_abs_range l : Forall (in_signed 16) l -> 0 <= peak_abs l <= 32768.
Proof.
  unfold peak_abs. intros H. assert (forall p, 0 <= p <= 32768 -> 0 <= foldl (fun p v => Z.max p (Z.abs v)) p l <= 32768) as Hp;
    [|apply Hp; lia].
  induction H as [|v l Hv _ IH]; intros p Hp; [done|]. cbn [foldl]. apply IH. unfold in_signed in Hv. cbn in Hv. lia.
Qed.

(** A sample short of full scale is shown as clipping. *)
Lemma loud_is_clipping {M : Libm} :
  SFleb c_clip (peak_level 32736) = true /\ SFleb c_clip (peak_level 32735) = false.
Proof. by vm_compute. Qed.

(** ** The self-test *)

Definition mic_events {E} (es : list (MEffect E)) : list (Event Payload) :=
  omap (fun e => match e with MPublish e => Some e | MOut _ => None end) es.

(** The self-test passes on any buffer that is not empty, silence included. *)
Lemma silence_passes {W E} {Hal : MicHal W E} (m : MicrophoneManager W) n w es :
  mic_capture 2400 (mic_hal m) = (Value (replicate (S n) 0), w, es) ->
  value_of selfTest m = success /\ mic_events (effects_of selfTest m) = [].
Proof.
  intros H. unfold value_of, effects_of, selfTest, capture, on_mic, zoom, value_of, state_after, effects_of, mbind, SW_bind.
  rewrite H. cbn. split; [done|]. rewrite app_nil_r. unfold mic_events. clear H. induction es as [|e es IH]; [done|exact IH].
Qed.
