(* ===== verification/Calibration.v ===== *)
(** * Calibration: measuring the room, correcting for it, remembering the correction

    Models [src/src/calibration/CalibrationProfiles.cpp] (profiles on disk, replaced by a
    rename) and [src/src/calibration/CalibrationManager.cpp] (the calibration run with its
    states, events and hooks).  The hooks are what [src/main/Application.cpp] installs: what
    the microphone answers is an argument, what is muted or applied is an effect. *)

From Stdlib Require Import Ascii.
From S2P Require Import Prelude Core Json Files Config Control Storage Audio Dsp.
From S2P Require Import Fft Acoustics.

(** ** Profiles *)

(* [src/src/calibration/CalibrationProfiles.h:12-17] CalibrationProfile *)
Record CalibrationProfile := mk_profile
  { p_name : string; p_eq_gains : list spec_float; p_score : spec_float; p_room_noise_dbfs : spec_float }.

(* [src/src/calibration/CalibrationProfiles.cpp:21-27] validName *)
Definition validName (n : string) : bool :=
  match n with
  | EmptyString => false
  | String front _ =>
      negb (bool_decide (front = "."%char)) &&
      all_chars (fun c => isalnum c || bool_decide (c = "_"%char) || bool_decide (c = "-"%char)) n
  end.

(* [src/src/calibration/CalibrationProfiles.cpp:32-34] CalibrationProfiles::pathFor *)
Definition profile_path (dir name : string) : string := dir +:+ "/" +:+ name +:+ ".json".

Section Profiles.
Context {J : JsonLib} {F : FileSystem}.

(* [src/src/calibration/CalibrationProfiles.cpp:41-44] CalibrationProfiles::save *)
Definition profile_json (p : CalibrationProfile) : json :=
  jobj [("name", jstr (p_name p)); ("score", jdbl (p_score p)); ("room_noise_dbfs", jdbl (p_room_noise_dbfs p));
        ("eq_gains", jarr (jdbl <$> p_eq_gains p))].

(** The write, in one call, and the swap. *)
(* [src/src/calibration/CalibrationProfiles.cpp:50-62] CalibrationProfiles::save *)
Definition write_profile (fd : Z) (tmp target data : string) : SW Disk Disk Status :=
  n ← sys (write fd data);
  if negb (n =? Z.of_nat (String.length data))%Z then
    sys (close fd);; sys (unlink tmp);; mret (error ErrorCode.IoError "short write")
  else
    sys (fsync fd);;
    sys (close fd);;
    r ← sys (rename tmp target);
    if bool_decide (r <> 0%Z) then sys (unlink tmp);; mret (error ErrorCode.IoError "rename failed")
    else mret success.

(* [src/src/calibration/CalibrationProfiles.cpp:36-63] CalibrationProfiles::save *)
Definition profile_save (dir : string) (p : CalibrationProfile) : SW Disk Disk Status :=
  if negb (validName (p_name p)) then mret (error ErrorCode.InvalidArg "invalid profile name")
  else
    sys (create_directories dir);;
    let target := profile_path dir (p_name p) in
    let tmp := target +:+ ".tmp" in
    fd ← sys (open_trunc tmp);
    if (fd <? 0)%Z then d ← get; mret (error ErrorCode.IoError (strerror d))
    else write_profile fd tmp target (dump_indented (profile_json p)).

(** The gains of the file over the zeros of a fresh profile. *)
(* [src/src/calibration/CalibrationProfiles.cpp:76-78] CalibrationProfiles::load *)
Definition filled_gains (gains : list spec_float) : list spec_float :=
  take kEqBands gains ++ replicate (kEqBands - length gains) f0.

(* [src/src/calibration/CalibrationProfiles.cpp:70-79] CalibrationProfiles::load *)
Definition profile_from (name text : string) : Try CalibrationProfile :=
  j ← parse_stream text;
  n ← value_string j "name" name;
  score ← value_double j "score" f0;
  noise ← value_double j "room_noise_dbfs" f0;
  a ← at_ j "eq_gains";
  l ← get_array a;
  gains ← mapM get_double l;
  mret (mk_profile n (filled_gains gains) score noise).

(* [src/src/calibration/CalibrationProfiles.cpp:65-83] CalibrationProfiles::load *)
Definition profile_load (dir name : string) (d : Disk) : Result CalibrationProfile :=
  if negb (validName name) then Failure (error ErrorCode.InvalidArg "invalid profile name")
  else
    match visible d (profile_path dir name) with
    | None => Failure (error ErrorCode.NotFound ("profile not found: " +:+ name))
    | Some text => match profile_from name text with
                   | Done p => Value p
                   | Throw what => Failure (error ErrorCode.Corrupt what)
                   end
    end.

(* [src/src/calibration/CalibrationProfiles.cpp:85-87] CalibrationProfiles::has *)
Definition profile_has (dir name : string) (d : Disk) : bool :=
  validName name && exists_file d (profile_path dir name).
End Profiles.

(** ** The run *)

(* [src/src/calibration/CalibrationManager.h:20-29] CalState *)
Inductive CalState := Idle | Preparing | Measuring | Analyzing | Applying | Verifying | Completed | Failed.

(* [src/src/calibration/CalibrationManager.cpp:17-29] toString *)
Definition cal_state_name (s : CalState) : string :=
  match s with
  | Idle => "IDLE" | Preparing => "PREPARING" | Measuring => "MEASURING" | Analyzing => "ANALYZING"
  | Applying => "APPLYING" | Verifying => "VERIFYING" | Completed => "COMPLETED" | Failed => "FAILED"
  end.

(* [src/src/calibration/CalibrationManager.h:33-37] CalibrationResult *)
Record CalibrationResult := mk_cal_result
  { recommended_eq : list spec_float; room_noise_dbfs : spec_float; score : spec_float }.

Section Manager.
Context {M : Libm} {J : JsonLib} {F : FileSystem} {AW : AtomicWriter F}.

(** The manager, with the configuration manager it was given, on whose disk the profiles
    are kept too. *)
(* [src/src/calibration/CalibrationManager.h:77-89] CalibrationManager *)
Record CalibrationManager := mk_cal
  { cal_config : ConfigManager; cal_state_ : CalState; svc_state_ : ServiceState }.

Inductive CalEffect :=
| CalPublish (e : Event Payload)
| CalConfig (e : CEffect)
| CalDisk (d : Disk)
| CalCapture (frames : nat)
| CalApply (gains : list spec_float)
| CalMute (muted : bool).

Abbreviation Cal := (SW CalibrationManager CalEffect).

Definition set_cal_config (m : ConfigManager) (c : CalibrationManager) : CalibrationManager :=
  mk_cal m (cal_state_ c) (svc_state_ c).
(* [src/src/calibration/CalibrationManager.cpp:57-60] CalibrationManager::setState *)
Definition setState (s : CalState) : Cal unit := modify (fun c => mk_cal (cal_config c) s (svc_state_ c)).

(* [src/src/calibration/CalibrationManager.cpp:36-39] CalibrationManager::start *)
Definition cal_start : Cal Status :=
  modify (fun c => mk_cal (cal_config c) (cal_state_ c) ServiceState.Running);; mret success.
(* [src/src/calibration/CalibrationManager.cpp:41-44] CalibrationManager::stop *)
Definition cal_stop : Cal Status :=
  modify (fun c => mk_cal (cal_config c) (cal_state_ c) ServiceState.Stopped);; mret success.

Definition cal_disk {A} (f : SW Disk Disk A) : Cal A :=
  zoom (fun c => disk (cal_config c)) (fun d c => set_cal_config (set_disk d (cal_config c)) c) CalDisk f.

(** What the manager was built with (a bus, a configuration, a directory of profiles, the
    format of the capture) and the hooks: what the microphone answers, and which of the
    other two are installed. *)
Variables (bus has_config : bool) (profiles_ : option string) (fs : spec_float) (fft_size : nat).
Variables (capture_ : option (nat -> list Z)) (apply_eq_ mute_ : bool).

Definition cal_publish (t : EventType) (p : Payload) : Cal unit :=
  when bus (tell [CalPublish (event t "calibration" p)]).
Definition call_mute (b : bool) : Cal unit := when mute_ (tell [CalMute b]).
Definition call_apply (gains : list spec_float) : Cal unit := when apply_eq_ (tell [CalApply gains]).

(* [src/src/calibration/CalibrationManager.cpp:67-73] CalibrationManager::runCalibration, fail *)
Definition cal_fail {A} (s : Status) : Cal (Result A) :=
  setState Failed;; cal_publish EventType.CalibrationFailed [];; call_mute false;; mret (Failure s).

Definition c_over : spec_float := S754_finite false 5630062484166541 (-49).   (* 10.001 *)

(* [src/src/calibration/CalibrationManager.cpp:102-104] CalibrationManager::runCalibration *)
Definition out_of_range (g : spec_float) : bool := SFltb g (SFopp c_over) || SFltb c_over g.

(** From the saved profile on. *)
(* [src/src/calibration/CalibrationManager.cpp:115-128] CalibrationManager::runCalibration *)
Definition cal_finish (name : string) (result : CalibrationResult) : Cal (Result CalibrationResult) :=
  when has_config (zoom cal_config set_cal_config CalConfig (update (fun c => with_audio (with_eq name) c));; mret ());;
  call_mute false;;
  setState Completed;;
  cal_publish EventType.CalibrationCompleted [("score", SDouble (score result)); ("profile", SStr name)];;
  mret (Value result).

(* [src/src/calibration/CalibrationManager.cpp:84-94] CalibrationManager::runCalibration *)
Definition analyzed (captured : list Z) : CalibrationResult :=
  let band_db := bandEnergyDb fs fft_size (pcm_to_double captured) in
  mk_cal_result (computeCorrection c_1 band_db) (rmsDbfs captured) (flatnessScore band_db).

(* [src/src/calibration/CalibrationManager.cpp:84-128] CalibrationManager::runCalibration *)
Definition cal_process (name : string) (captured : list Z) : Cal (Result CalibrationResult) :=
  setState Analyzing;;
  let result := analyzed captured in
  setState Applying;;
  call_apply (recommended_eq result);;
  setState Verifying;;
  if existsb out_of_range (recommended_eq result) then cal_fail (error ErrorCode.Corrupt "gain out of range")
  else
    s ← match profiles_ with
        | Some dir => cal_disk (profile_save dir (mk_profile name (recommended_eq result) (score result) f0))
        | None => mret success
        end;
    if negb (status_ok s) then cal_fail s else cal_finish name result.

(* [src/src/calibration/CalibrationManager.cpp:62-129] CalibrationManager::runCalibration *)
Definition runCalibration (name : string) : Cal (Result CalibrationResult) :=
  match capture_ with
  | None => mret (Failure (error ErrorCode.NotImplemented "no capture hook"))
  | Some capture =>
      cal_publish EventType.CalibrationStarted [];;
      setState Preparing;;
      call_mute true;;
      setState Measuring;;
      let frames := Z.to_nat (f_trunc fs) in
      tell [CalCapture frames];;
      match capture frames with
      | [] => cal_fail (error ErrorCode.IoError "empty capture")
      | captured => cal_process name captured
      end
  end.

(* [src/src/calibration/CalibrationManager.cpp:131-138] CalibrationManager::applySavedProfile *)
Definition applySavedProfile (name : string) : Cal Status :=
  match profiles_ with
  | None => mret (error ErrorCode.NotFound "no profile store")
  | Some dir =>
      c ← get;
      match profile_load dir name (disk (cal_config c)) with
      | Failure s => mret s
      | Value p => call_apply (p_eq_gains p);; mret success
      end
  end.

(** The correction put back when the speaker starts, unless the profile is the default. *)
(* [src/src/main/Application.cpp:601-605] Application::startup *)
Definition restore_calibration : Cal unit :=
  c ← get;
  let profile := eq_profile (audio (config_ (cal_config c))) in
  match profiles_ with
  | Some dir => when (negb (String.eqb profile "default") && profile_has dir profile (disk (cal_config c)))
                     (applySavedProfile profile;; mret ())
  | None => mret ()
  end.
End Manager.

(** ** The gains *)

Lemma clamp_range x :
  SFltb (f_clamp x (f_of_Z (-10)) c_10) (f_of_Z (-10)) = false /\ SFltb c_10 (f_clamp x (f_of_Z (-10)) c_10) = false.
Proof.
  unfold f_clamp. destruct (SFltb x (f_of_Z (-10))) eqn:E1; [by vm_compute|].
  destruct (SFltb c_10 x) eqn:E2; [by vm_compute|]. done.
Qed.

(** The order on the doubles of one sign and exponent is that of the mantissas. *)
Lemma below_more x p q e : (p <= q)%positive ->
  SFltb x (S754_finite true p e) = false -> SFltb x (S754_finite true q e) = false.
Proof.
  intros Hpq. unfold SFltb. destruct x as [[]|[]| |[] m e']; try done; cbn [SFcompare].
  destruct (Z.compare_spec e' e); try done. change (Pos.compare_cont Eq) with Pos.compare.
  destruct (Pos.compare_spec m p); try done; destruct (Pos.compare_spec m q); try done; lia.
Qed.

Lemma above_more x p q e : (p <= q)%positive ->
  SFltb (S754_finite false p e) x = false -> SFltb (S754_finite false q e) x = false.
Proof.
  intros Hpq. unfold SFltb. destruct x as [[]|[]| |[] m e']; try done; cbn [SFcompare].
  destruct (Z.compare_spec e e'); try done. change (Pos.compare_cont Eq) with Pos.compare.
  destruct (Pos.compare_spec p m); try done; destruct (Pos.compare_spec q m); try done; lia.
Qed.

Lemma ten_point_one x : SFltb x (f_of_Z (-10)) = false -> SFltb c_10 x = false -> out_of_range x = false.
Proof.
  replace (f_of_Z (-10)) with (S754_finite true 5629499534213120 (-49)) by (by vm_compute).
  replace c_10 with (S754_finite false 5629499534213120 (-49)) by (by vm_compute).
  intros H1 H2. apply orb_false_iff. unfold c_over. cbn [SFopp negb].
  split; [eapply below_more; [|exact H1]|eapply above_more; [|exact H2]]; by vm_compute.
Qed.

(** The verification of the source never refuses what the correction has clamped. *)
Lemma verification_passes smoothing l : existsb out_of_range (computeCorrection smoothing l) = false.
Proof.
  unfold computeCorrection. set (avg := average l). clearbody avg. induction l as [|m l IH]; [done|]. cbn [fmap list_fmap existsb].
  rewrite IH. destruct (clamp_range (fmul (fsub avg m) smoothing)). by rewrite ten_point_one.
Qed.

(** ** What a run does *)

Section Effects.
Context {F : FileSystem}.

Definition mutes (es : list CalEffect) : list bool :=
  omap (fun e => match e with CalMute b => Some b | _ => None end) es.
Definition corrections (es : list CalEffect) : list (list spec_float) :=
  omap (fun e => match e with CalApply g => Some g | _ => None end) es.
Definition cal_events (es : list CalEffect) : list (Event Payload) :=
  omap (fun e => match e with CalPublish e => Some e | _ => None end) es.

Lemma silent_map {A} (f : A -> CalEffect) l :
  (forall a, match f a with CalConfig _ | CalDisk _ => True | _ => False end) ->
  mutes (f <$> l) = [] /\ corrections (f <$> l) = [] /\ cal_events (f <$> l) = [].
Proof.
  intros H. induction l as [|a l (H1 & H2 & H3)]; [done|]. specialize (H a). cbn [fmap list_fmap].
  unfold mutes, corrections, cal_events in *. cbn [omap list_omap]. by destruct (f a).
Qed.

Lemma mutes_app a b : mutes (a ++ b) = mutes a ++ mutes b.
Proof. apply omap_app. Qed.
Lemma corrections_app a b : corrections (a ++ b) = corrections a ++ corrections b.
Proof. apply omap_app. Qed.
Lemma cal_events_app a b : cal_events (a ++ b) = cal_events a ++ cal_events b.
Proof. apply omap_app. Qed.

Definition seen (es : list CalEffect) : list bool * list (list spec_float) * list (Event Payload) :=
  (mutes es, corrections es, cal_events es).

Lemma seen_app a b : seen (a ++ b) =
  ((seen a).1.1 ++ (seen b).1.1, (seen a).1.2 ++ (seen b).1.2, (seen a).2 ++ (seen b).2).
Proof. unfold seen. by rewrite mutes_app, corrections_app, cal_events_app. Qed.

End Effects.

Section Runs.
Context {M : Libm} {J : JsonLib} {F : FileSystem} {AW : AtomicWriter F}.
Variables (bus has_config : bool) (profiles_ : option string) (fs : spec_float) (fft_size : nat).
Variables (capture_ : option (nat -> list Z)) (apply_eq_ mute_ : bool).

Abbreviation run := (runCalibration (AW := AW) bus has_config profiles_ fs fft_size capture_ apply_eq_ mute_).

Definition started : Event Payload := event EventType.CalibrationStarted "calibration" [].
Definition failed_event : Event Payload := event EventType.CalibrationFailed "calibration" [].
Definition completed_event (name : string) (x : CalibrationResult) : Event Payload :=
  event EventType.CalibrationCompleted "calibration" [("score", SDouble (score x)); ("profile", SStr name)].

Definition on (b : bool) {A} (l : list A) : list A := if b then l else [].

Lemma fail_run {A} s c :
  cal_fail (A := A) bus mute_ s c =
    (Failure s, mk_cal (cal_config c) Failed (svc_state_ c),
     on bus [CalPublish failed_event] ++ on mute_ [CalMute false]).
Proof. unfold cal_fail, cal_publish, call_mute, on. by destruct bus, mute_. Qed.

(** The state and the visible effects a run part leaves, for either way it can end. *)
Lemma finish_run name x (c : CalibrationManager (F := F)) :
  exists c' es, cal_finish (AW := AW) bus has_config mute_ name x c = (Value x, c', es) /\
    cal_state_ c' = Completed /\ seen es = (on mute_ [false], [], on bus [completed_event name x]).
Proof.
  unfold cal_finish. set (w := when has_config _).
  assert (exists m es, w c = (tt, set_cal_config m c, CalConfig <$> es)) as (m & es & Hw).
  { unfold w. destruct has_config; [|by exists (cal_config c), []; destruct c].
    destruct (update (with_audio (with_eq name)) (cal_config c)) as [[r m] es] eqn:E.
    exists m, es. cbn [when]. unfold mbind, SW_bind, zoom, value_of, state_after, effects_of.
    change (fun c : SpeakerConfig => with_audio (with_eq name) c) with (with_audio (with_eq name)).
    rewrite E. cbn. by rewrite app_nil_r. }
  clearbody w. unfold mbind, SW_bind at 1. rewrite Hw.
  destruct (silent_map CalConfig es) as (H1 & H2 & H3); [done|].
  unfold call_mute, cal_publish, setState.
  destruct mute_, bus; (eexists _, _; split; [reflexivity|]; split; [done|]);
    rewrite seen_app; unfold seen; by rewrite H1, H2, H3.
Qed.

(** A disk operation of the manager. *)
Lemma disk_run {A} (f : SW Disk Disk A) c :
  exists d es, cal_disk f c = (value_of f (disk (cal_config c)), set_cal_config (set_disk d (cal_config c)) c, CalDisk <$> es) /\
    d = state_after f (disk (cal_config c)).
Proof. by exists (state_after f (disk (cal_config c))), (effects_of f (disk (cal_config c))). Qed.

(** The save of the profile, where there is a store. *)
Definition saved (name : string) (x : CalibrationResult) : SW CalibrationManager CalEffect Status :=
  match profiles_ with
  | Some dir => cal_disk (profile_save dir (mk_profile name (recommended_eq x) (score x) f0))
  | None => mret success
  end.

Lemma saved_run name x c :
  exists s d es, saved name x c = (s, set_cal_config (set_disk d (cal_config c)) c, CalDisk <$> es).
Proof.
  unfold saved. destruct profiles_ as [dir|].
  - destruct (disk_run (profile_save dir (mk_profile name (recommended_eq x) (score x) f0)) c) as (d & es & E & _).
    by eexists _, d, es.
  - exists success, (disk (cal_config c)), []. by destruct c as [[] ? ?].
Qed.

Definition verifying (c : CalibrationManager) : CalibrationManager := mk_cal (cal_config c) Verifying (svc_state_ c).

Lemma prefix_run {A} gains (m : SW CalibrationManager CalEffect A) c :
  (setState Analyzing;; setState Applying;; call_apply apply_eq_ gains;; setState Verifying;; m) c =
    (let '(r, c', es) := m (verifying c) in (r, c', on apply_eq_ [CalApply gains] ++ es)).
Proof.
  unfold setState, call_apply, mbind, SW_bind, modify. fold (verifying c).
  destruct apply_eq_; cbn; fold (verifying c); by destruct (m (verifying c)) as [[? ?] ?].
Qed.

(** From the capture on. *)
Lemma cal_process_run name captured (c : CalibrationManager (F := F)) :
  let x := analyzed fs fft_size captured in
  exists r c' es, cal_process (AW := AW) bus has_config profiles_ fs fft_size apply_eq_ mute_ name captured c = (r, c', es) /\
    seen es = (on mute_ [false], on apply_eq_ [recommended_eq x],
               on bus [match r with Value x => completed_event name x | Failure _ => failed_event end]) /\
    match r with
    | Value x' => x' = x /\ cal_state_ c' = Completed
    | Failure s => cal_state_ c' = Failed /\ status_ok s = false /\ config_ (cal_config c') = config_ (cal_config c) /\
                   value_of (saved name x) (verifying c) = s
    end.
Proof.
  intros x. assert (existsb out_of_range (recommended_eq x) = false) as Hv by apply verification_passes.
  unfold cal_process. cbv zeta. fold x. rewrite Hv.
  set (c1 := verifying c).
  destruct (saved_run name x c1) as (s & d & es & Hs). unfold saved in Hs.
  set (k := fun s0 : Status => if negb (status_ok s0) then _ else _).
  assert (exists r c' es', k s (set_cal_config (set_disk d (cal_config c1)) c1) = (r, c', es') /\
    seen es' = (on mute_ [false], [], on bus [match r with Value x => completed_event name x | Failure _ => failed_event end]) /\
    match r with
    | Value x' => x' = x /\ cal_state_ c' = Completed
    | Failure s' => s' = s /\ cal_state_ c' = Failed /\ status_ok s' = false /\ config_ (cal_config c') = config_ (cal_config c)
    end) as (r & c' & es' & Hk & Hseen & Hr).
  { unfold k. destruct (status_ok s) eqn:E; cbn [negb].
    - destruct (finish_run name x (set_cal_config (set_disk d (cal_config c1)) c1)) as (c' & es' & -> & Hc & Hse).
      by eexists _, c', es'.
    - rewrite fail_run. eexists _, _, _. split; [reflexivity|]. split; [by destruct bus, mute_|done]. }
  clearbody k. exists r, c', (on apply_eq_ [CalApply (recommended_eq x)] ++ (CalDisk <$> es) ++ es').
  split; [|split].
  - rewrite prefix_run. fold c1. unfold mbind at 1, SW_bind at 1. rewrite Hs, Hk. done.
  - destruct (silent_map CalDisk es) as (H1 & H2 & H3); [done|]. rewrite !seen_app, Hseen. unfold seen at 3 5.
    unfold seen. rewrite H1, H2, H3. by destruct apply_eq_.
  - destruct r as [x'|s']; [done|]. destruct Hr as (-> & ? & ? & ?). split_and!; try done.
    unfold value_of, saved. by rewrite Hs.
Qed.
End Runs.

(** ** Profiles on disk *)

Section ProfileProofs.
Context {J : JsonLib} {L : JsonLaws J} {F : FileSystem} {FL : FileSystemLaws F}.

(** The same run with its result under [Some], as the lemmas on swaps have it. *)
Definition some_result {A} (m : SW Disk Disk A) : SW Disk Disk (option A) := r ← m; mret (Some r).

Lemma some_result_run {A} (m : SW Disk Disk A) d :
  value_of (some_result m) d = Some (value_of m d) /\ state_after (some_result m) d = state_after m d /\
  effects_of (some_result m) d = effects_of m d.
Proof.
  unfold some_result, value_of, state_after, effects_of, mbind, SW_bind. destruct (m d) as [[r d'] es]. cbn.
  by rewrite app_nil_r.
Qed.

Section Swap.
Variables (path tmp contents : string) (d0 : Disk).
Hypothesis Htmp : path <> tmp.

Abbreviation point := (seen_point path tmp contents d0).
Abbreviation ends := (fun s => swap_outcome path tmp contents d0 (Some s)).

Lemma refuse_triple code what : code <> ErrorCode.Ok ->
  triple point (quiet tmp d0) (mret (error code what)) ends.
Proof. intros Hc d Hd. split; [constructor|]. left. exists (error code what). by rewrite status_ok_error. Qed.

(** Removing the temporary file before an error is returned. *)
Lemma remove_triple code what : code <> ErrorCode.Ok ->
  triple point (quiet tmp d0) (sys (unlink tmp);; mret (error code what)) ends.
Proof.
  intros Hc. eapply triple_bind; [by apply quiet_seen; intros; apply unlink_same|]. intros ?. by apply refuse_triple.
Qed.

Lemma rename_seen :
  triple point (written tmp contents d0) (sys (rename tmp path))
    (fun r d => if bool_decide (r <> 0%Z) then quiet tmp d0 d else seen_replaced path tmp contents d0 d).
Proof.
  intros d [Hq Hv]. change (value_of (sys (rename tmp path)) d) with (rename tmp path d).1.
  change (state_after (sys (rename tmp path)) d) with (rename tmp path d).2.
  destruct (bool_decide_reflect ((rename tmp path d).1 <> 0%Z)) as [Hr|Hr].
  - assert (quiet tmp d0 (rename tmp path d).2) by (eapply quiet_step; [done|]; intros; by apply rename_failed).
    split; [by apply Forall_singleton; left|done].
  - assert (seen_replaced path tmp contents d0 (rename tmp path d).2).
    { destruct (rename_ok tmp path d contents) as (Hv' & _ & _); [lia|by apply not_eq_sym|done|].
      split; [done|]. intros q Hqp Hqt. eapply same_file_trans; [by apply Hq|by apply rename_same]. }
    split; [by apply Forall_singleton; right|done].
Qed.

(** What one call of [write] leaves: everything, or something else. *)
Lemma write_seen fd :
  triple point (writing tmp d0 fd "") (sys (write fd contents))
    (fun n d => quiet tmp d0 d /\ (n = Z.of_nat (String.length contents) -> written tmp contents d0 d)).
Proof.
  intros d (Hq & Hfd & Hv). change (value_of (sys (write fd contents)) d) with (write fd contents d).1.
  change (state_after (sys (write fd contents)) d) with (write fd contents d).2.
  assert (quiet tmp d0 (write fd contents d).2) as Hq' by (eapply quiet_step; [done|]; intros; by eapply write_same).
  split; [by apply Forall_singleton; left|]. split; [done|]. intros Hn. split; [done|].
  destruct (write_ok fd contents d tmp "" Hfd Hv) as [_ Hv']; [lia|]. rewrite Hv', Hn, Nat2Z.id.
  f_equal. by rewrite str_take_all.
Qed.

Lemma write_profile_triple fd :
  triple point (writing tmp d0 fd "") (write_profile fd tmp path contents) ends.
Proof.
  eapply triple_bind; [apply write_seen|]. intros n. cbv beta.
  destruct (Z.eqb_spec n (Z.of_nat (String.length contents))) as [->|Hn]; cbn [negb].
  - eapply triple_weaken; [|intros d [_ Hd]; by apply Hd|intros ? ? Hend; exact Hend].
    eapply triple_bind; [apply written_seen; auto with nexus|]. intros ?.
    eapply triple_bind; [apply written_seen; auto with nexus|]. intros ?.
    eapply triple_bind; [apply rename_seen|]. intros r. cbv beta. destruct (bool_decide (r <> 0%Z)); [by apply remove_triple|].
    intros d Hd. split; [constructor|]. by right.
  - eapply triple_weaken; [|intros d [Hd _]; exact Hd|intros ? ? Hend; exact Hend].
    eapply triple_bind; [apply quiet_seen; intros; apply close_same|]. intros ?. by apply remove_triple.
Qed.

Lemma open_profile_triple :
  triple point (quiet tmp d0)
    (fd ← sys (open_trunc tmp);
     if (fd <? 0)%Z then d ← get; mret (error ErrorCode.IoError (strerror d))
     else write_profile fd tmp path contents) ends.
Proof.
  eapply triple_bind; [apply open_triple|]. intros fd. cbv beta. destruct (Z.ltb_spec fd 0).
  - eapply triple_weaken; [|intros d [Hd _]; exact Hd|intros ? ? Hend; exact Hend].
    eapply triple_bind; [apply triple_get|]. intros d1. cbv beta.
    eapply triple_weaken; [by apply refuse_triple|by intros d [_ Hd]|intros ? ? Hend; exact Hend].
  - eapply triple_weaken; [apply write_profile_triple| |intros ? ? Hend; exact Hend]. intros d [_ Hd]. by apply Hd.
Qed.

Lemma ends_swapped (m : SW Disk Disk Status) :
  triple point (quiet tmp d0) m ends ->
  swapped path tmp contents d0 (value_of m d0) (state_after m d0) (effects_of m d0).
Proof.
  intros Hm. destruct (outcome_swapped path tmp contents d0 Htmp (some_result m)) as (s & Hs & Hsw).
  - unfold some_result. eapply triple_bind; [exact Hm|]. intros r d Hd. by split; [constructor|].
  - destruct (some_result_run m d0) as (E1 & E2 & E3). rewrite E1 in Hs. injection Hs as <-. by rewrite E2, E3 in Hsw.
Qed.
End Swap.

Lemma doubles_read l : mapM get_double (jdbl <$> l) = Done l.
Proof.
  induction l as [|x l IH]; [done|]. rewrite fmap_cons. cbn [mapM]. rewrite get_double_dbl.
  by rewrite IH.
Qed.

Lemma profile_text name p : dumpable (profile_json p) -> length (p_eq_gains p) = kEqBands ->
  profile_from name (dump_indented (profile_json p)) = Done p.
Proof.
  intros Hd Hl. unfold profile_from. rewrite parse_stream_dump_indented by done. unfold profile_json.
  unfold mbind at 1, Try_bind at 1. unfold value_string, value_double, at_. rewrite !value_or_obj. cbn [assoc String.eqb Ascii.eqb Bool.eqb].
  rewrite get_string_str, !get_double_dbl, jfind_obj. cbn [assoc String.eqb Ascii.eqb Bool.eqb].
  unfold mbind, Try_bind. rewrite get_array_arr, doubles_read. unfold filled_gains.
  rewrite take_ge by lia. rewrite Hl, Nat.sub_diag. cbn. rewrite app_nil_r. by destruct p.
Qed.

Lemma str_app_inj_suffix a b t : a +:+ t = b +:+ t -> a = b.
Proof.
  revert b. induction a as [|x a IH]; intros [|y b] H; rewrite ?str_app_cons in H; [done| | |].
  - apply (f_equal String.length) in H. change ("" +:+ t) with t in H. cbn in H. rewrite str_app_length in H. lia.
  - apply (f_equal String.length) in H. change ("" +:+ t) with t in H. cbn in H. rewrite str_app_length in H. lia.
  - injection H as -> H. f_equal. by apply IH.
Qed.

Lemma last_char a b c d : a +:+ String c "" = b +:+ String d "" -> c = d.
Proof.
  revert b. induction a as [|x a IH]; intros b H.
  - destruct b as [|y [|z b]]; by inversion H.
  - destruct b as [|y b]; rewrite ?str_app_cons in H.
    + injection H as _ H. by destruct a.
    + injection H as _ H. by apply (IH b).
Qed.

Lemma profile_paths dir a b : profile_path dir a <> profile_path dir b +:+ ".tmp".
Proof.
  unfold profile_path. intros H.
  change ".json"%string with (".jso" +:+ "n") in H at 1. change ".tmp"%string with (".tm" +:+ "p") in H.
  rewrite <- !str_app_assoc in H. by apply last_char in H.
Qed.
End ProfileProofs.

(** A calibration survives a restart.  [save] of a profile with a valid name always
    returns; after a success [load] gives the profile back, gains and all; after a failure
    it gives what it gave before; at no point in between does a process read anything but
    the old or the new profile, and no other profile is touched.  A name that could lead
    out of the directory is refused before the disk is touched. *)
Theorem profile_survives (J : JsonLib) (L : JsonLaws J) (F : FileSystem) (FL : FileSystemLaws F)
    (dir : string) (p : CalibrationProfile) (d : Disk)
  (Hdump : dumpable (profile_json p)) (Hgains : length (p_eq_gains p) = kEqBands) :
  let r := value_of (profile_save dir p) d in
  let d' := state_after (profile_save dir p) d in
  if validName (p_name p) then
    profile_load dir (p_name p) d' = (if status_ok r then Value p else profile_load dir (p_name p) d) /\
    Forall (fun x => profile_load dir (p_name p) x = profile_load dir (p_name p) d \/
                     profile_load dir (p_name p) x = Value p) (effects_of (profile_save dir p) d) /\
    forall name, name <> p_name p -> profile_load dir name d' = profile_load dir name d
  else r = error ErrorCode.InvalidArg "invalid profile name" /\ d' = d.
Proof.
  cbv zeta. unfold profile_save. destruct (validName (p_name p)) eqn:Hv; cbn [negb]; [|done].
  set (path := profile_path dir (p_name p)). set (rest := fun _ : unit => _). set (d1 := (create_directories dir d).2).
  pose proof (ends_swapped path (path +:+ ".tmp") (dump_indented (profile_json p)) d1 (tmp_ne path) (rest tt)
                (open_profile_triple path (path +:+ ".tmp") _ d1 (tmp_ne path))) as [Hok Herr Hpts Hoth].
  assert (forall q, visible d1 q = visible d q) as Hd1 by (intros q; by destruct (create_directories_same dir d q)).
  rewrite value_of_bind, state_after_bind, effects_of_bind.
  change (state_after (sys (create_directories dir)) d) with d1.
  destruct (value_of (sys (create_directories dir)) d).
  change (effects_of (sys (create_directories dir)) d) with [d1].
  assert (forall x y n, visible x (profile_path dir n) = visible y (profile_path dir n) ->
            profile_load dir n x = profile_load dir n y) as Hload by (intros x y n E; unfold profile_load; by rewrite E).
  assert (forall x, visible x path = Some (dump_indented (profile_json p)) -> profile_load dir (p_name p) x = Value p) as Hnew.
  { intros x E. unfold profile_load. rewrite Hv. cbn [negb]. fold path. by rewrite E, profile_text. }
  rewrite Hd1 in Herr. split_and!.
  - destruct (status_ok _); [by apply Hnew, Hok|by apply Hload, Herr].
  - constructor; [left; by apply Hload, Hd1|]. eapply Forall_impl; [exact Hpts|].
    intros x [Hx|Hx]; [left; apply Hload; fold path; by rewrite Hx, Hd1|right; by apply Hnew].
  - intros name Hne. apply Hload. rewrite <- Hd1.
    assert (profile_path dir name <> path) as H1.
    { intros E. unfold path, profile_path in E. apply String.app_inj, String.app_inj in E.
      apply Hne. by apply (str_app_inj_suffix _ _ ".json"). }
    specialize (Hoth _ H1 (profile_paths dir name (p_name p))). by apply Forall_cons in Hoth as [-> _].
Qed.

Definition demo_profile : CalibrationProfile := mk_profile "room" (replicate kEqBands f0) c_10 f0.

Lemma profile_survives_witness :
  let d := demo_disk [] in
  let d' := state_after (profile_save (J := jvalue_lib) "cal" demo_profile) d in
  value_of (profile_save (J := jvalue_lib) "cal" demo_profile) d = success /\
  profile_load (J := jvalue_lib) "cal" "room" d' = Value demo_profile.
Proof.
  set (d := demo_disk []).
  assert (value_of (profile_save (J := jvalue_lib) "cal" demo_profile) d = success) as Hs by (vm_compute; reflexivity).
  destruct (profile_survives jvalue_lib jvalue_laws mdisk_system mdisk_laws "cal" demo_profile d) as (Hl & _ & _);
    [vm_compute; tauto|reflexivity|].
  split; [exact Hs|]. rewrite Hs in Hl. exact Hl.
Defined.

(** C37: a calibration always gives playback back.  Whatever the microphone answers and
    whatever the disk does, a run mutes playback once and unmutes it once, after; it
    announces its start and then exactly one outcome, the one it returns; it ends in the
    state of that outcome; a correction is applied exactly when there was a capture, with
    every gain within the range of the equalizer; and a run fails only for want of a
    capture or of a saved profile, in which case the configuration is as it was. *)
Theorem calibration_gives_playback_back (M : Libm) (J : JsonLib) (F : FileSystem) (AW : AtomicWriter F)
    (bus has_config : bool) (profiles_ : option string) (fs : spec_float) (fft_size : nat)
    (capture_ : nat -> list Z) (apply_eq_ mute_ : bool) (name : string) (c : CalibrationManager (F := F)) :
  let run := runCalibration (AW := AW) bus has_config profiles_ fs fft_size (Some capture_) apply_eq_ mute_ name in
  let captured := capture_ (Z.to_nat (f_trunc fs)) in
  let x := analyzed fs fft_size captured in
  let r := value_of run c in
  let c' := state_after run c in
  mutes (effects_of run c) = (if mute_ then [true; false] else []) /\
  cal_events (effects_of run c) =
    (if bus then [started; match r with Value x => completed_event name x | Failure _ => failed_event end] else []) /\
  corrections (effects_of run c) =
    (if apply_eq_ && negb (bool_decide (captured = [])) then [recommended_eq x] else []) /\
  Forall (fun g => SFltb g (f_of_Z (-10)) = false /\ SFltb c_10 g = false) (recommended_eq x) /\
  match r with
  | Value x' => x' = x /\ cal_state_ c' = Completed
  | Failure s =>
      cal_state_ c' = Failed /\ config_ (cal_config c') = config_ (cal_config c) /\
      (captured = [] /\ s = error ErrorCode.IoError "empty capture" \/
       status_ok s = false /\ s = value_of (saved profiles_ name x) (verifying c))
  end.
Proof.
  cbv zeta. set (captured := capture_ _). set (x := analyzed fs fft_size captured).
  assert (Forall (fun g => SFltb g (f_of_Z (-10)) = false /\ SFltb c_10 g = false) (recommended_eq x)) as Hgains.
  { apply Forall_fmap, Forall_forall. intros m _. apply clamp_range. }
  unfold runCalibration. fold captured. set (rest := match captured with [] => _ | _ => _ end).
  assert (exists r c' es, rest (mk_cal (cal_config c) Measuring (svc_state_ c)) = (r, c', es) /\
    seen es = (on mute_ [false], on (apply_eq_ && negb (bool_decide (captured = []))) [recommended_eq x],
               on bus [match r with Value x => completed_event name x | Failure _ => failed_event end]) /\
    match r with
    | Value x' => x' = x /\ cal_state_ c' = Completed
    | Failure s =>
        cal_state_ c' = Failed /\ config_ (cal_config c') = config_ (cal_config c) /\
        (captured = [] /\ s = error ErrorCode.IoError "empty capture" \/
         status_ok s = false /\ s = value_of (saved profiles_ name x) (verifying c))
    end) as (r & c' & es & Hrest & Hseen & Hr).
  { unfold rest. destruct captured as [|v captured'] eqn:E.
    - rewrite fail_run. eexists _, _, _. split; [reflexivity|]. rewrite bool_decide_eq_true_2, andb_false_r by done.
      split; [by destruct bus, mute_|]. split_and!; [done..|by left].
    - destruct (cal_process_run bus has_config profiles_ fs fft_size apply_eq_ mute_ name (v :: captured')
                  (mk_cal (cal_config c) Measuring (svc_state_ c))) as (r & c' & es & -> & Hs & Hr).
      exists r, c', es. split; [done|]. rewrite bool_decide_eq_false_2, andb_true_r by done. split; [exact Hs|].
      destruct r; [done|]. destruct Hr as (? & ? & ? & Hsave). split_and!; [done..|]. right. by split. }
  clearbody rest.
  assert (forall m : SW CalibrationManager CalEffect (Result CalibrationResult),
    (cal_publish bus EventType.CalibrationStarted [];; setState Preparing;; call_mute mute_ true;; setState Measuring;;
     tell [CalCapture (Z.to_nat (f_trunc fs))];; m) c =
    (let '(r, c', es) := m (mk_cal (cal_config c) Measuring (svc_state_ c)) in
     (r, c', on bus [CalPublish started] ++ on mute_ [CalMute true] ++ CalCapture (Z.to_nat (f_trunc fs)) :: es))) as Hpre.
  { intros m. unfold cal_publish, call_mute, setState, mbind, SW_bind, modify.
    destruct bus, mute_; cbn; by destruct (m _) as [[? ?] ?]. }
  unfold value_of, state_after, effects_of. rewrite Hpre, Hrest. cbn [fst snd].
  injection Hseen as H1 H2 H3.
  rewrite !mutes_app, !cal_events_app, !corrections_app.
  change (mutes (CalCapture ?n :: es)) with (mutes es). change (corrections (CalCapture ?n :: es)) with (corrections es).
  change (cal_events (CalCapture ?n :: es)) with (cal_events es). rewrite H1, H2, H3.
  split_and!; [by destruct bus, mute_|by destruct bus, mute_|by destruct bus, mute_|done|exact Hr].
Qed.
