(* ===== verification/Measure.v ===== *)
(** * Measure: distances by sound

    Models [src/src/measure]: the stimulus ([Chirp.h]), the arrival by correlation
    ([ArrivalDetector.h]), the distance ([Distance.h]) and the service that joins them
    ([MeasurementService.h]), with the closure of [src/main/Application.cpp] that answers
    RUN_MEASUREMENT.  A cast of a double to an integer drops the fraction; casts of values
    that have no integer, or none of the width, are not reached by finite parameters of the
    sizes the sources name. *)

From S2P Require Import Prelude Core Json Audio Dsp.
From S2P Require Import Fft Acoustics.

(** ** The stimulus *)

Section Chirp.
Context {M : Libm}.

Definition two_pi : spec_float := fmul c_2 c_pi.

(* [src/src/measure/Chirp.h:36-41] logChirp *)
Definition chirp_sample (n : nat) (duration_s sample_rate f0_ amplitude k : spec_float) (i : nat) : spec_float :=
  let t := fdiv (f_of_nat i) sample_rate in
  let phase := fmul (fdiv (fmul (fmul two_pi f0_) duration_s) k) (fsub (m_exp (fdiv (fmul t k) duration_s)) c_1) in
  let w := fmul c_half (fsub c_1 (m_cos (fdiv (fmul two_pi (f_of_nat i)) (f_of_nat (n - 1))))) in
  fmul (fmul amplitude (m_sin phase)) w.

(* [src/src/measure/Chirp.h:27-44] logChirp *)
Definition logChirp (duration_s sample_rate f0_ f1_ amplitude : spec_float) : list spec_float :=
  let n := Z.to_nat (f_trunc (fmul duration_s sample_rate)) in
  let k := m_log (fdiv f1_ f0_) in
  chirp_sample n duration_s sample_rate f0_ amplitude k <$> seq 0 n.

(* [src/src/measure/Chirp.h:50-56] impulse *)
Definition impulse (duration_s sample_rate amplitude : spec_float) : list spec_float :=
  let n := Z.to_nat (f_trunc (fmul duration_s sample_rate)) in
  let out := replicate n f0 in
  if (0 <? n)%nat then <[(n / 2)%nat := amplitude]> out else out.
End Chirp.

(** ** The arrival *)

(* [src/src/measure/ArrivalDetector.h:10-15] Arrival *)
Record Arrival := mk_arrival
  { lag_samples : nat; lag_ms : spec_float; peak : spec_float; second_peak : spec_float; found : bool }.
Definition no_arrival : Arrival := mk_arrival 0 f0 f0 f0 false.

(* [src/src/measure/ArrivalDetector.h:20-23] Arrival::confidence *)
Definition confidence (a : Arrival) : spec_float :=
  if negb (found a) || SFleb (second_peak a) f0 then (if found a then c_1 else f0)
  else fdiv (peak a) (second_peak a).

(* [src/src/measure/ArrivalDetector.h:32-51] normalize *)
Definition normalize (x : list spec_float) : list spec_float :=
  match x with
  | [] => []
  | _ =>
      let mean := fdiv (foldl fadd f0 x) (f_of_nat (length x)) in
      let out := (fun v => fsub v mean) <$> x in
      let norm := f_sqrt (foldl (fun s v => fadd s (fmul v v)) f0 out) in
      let scale := fdiv c_1 (fadd norm c_pico) in
      (fun v => fmul v scale) <$> out
  end.

(** The correlation at a lag. *)
(* [src/src/measure/ArrivalDetector.h:83-86] findArrival *)
Definition correlation (r s : list spec_float) (lag : nat) : spec_float :=
  foldl (fun sum p => fadd sum (fmul p.1 p.2)) f0 (zip (drop lag r) s).

(** The first lag with the greatest value over [best]. *)
(* [src/src/measure/ArrivalDetector.h:82-92] findArrival *)
Fixpoint best_from (lag : nat) (corr : list spec_float) (best : spec_float) (best_lag : nat) : spec_float * nat :=
  match corr with
  | [] => (best, best_lag)
  | c :: corr => if SFltb best c then best_from (S lag) corr c lag else best_from (S lag) corr best best_lag
  end.

(** The greatest value away from the winner. *)
(* [src/src/measure/ArrivalDetector.h:111-115] findArrival *)
Fixpoint second_from (lag best_lag guard : nat) (corr : list spec_float) (second : spec_float) : spec_float :=
  match corr with
  | [] => second
  | c :: corr =>
      let d := Z.abs (Z.of_nat lag - Z.of_nat best_lag) in
      second_from (S lag) best_lag guard corr (if (d <=? Z.of_nat guard)%Z then second else f_max second c)
  end.

(* [src/src/measure/ArrivalDetector.h:62-118] findArrival *)
Definition findArrival (recording stimulus : list spec_float) (sample_rate : spec_float) (max_lag_samples : Z) : Arrival :=
  if bool_decide (recording = []) || bool_decide (stimulus = []) || SFleb sample_rate f0 then no_arrival
  else if (length recording <? length stimulus)%nat then no_arrival
  else
    let r := normalize recording in
    let s := normalize stimulus in
    let max_possible := Z.of_nat (length r - length s) in
    let limit := if (max_lag_samples <? 0)%Z || (max_possible <? max_lag_samples)%Z then max_possible else max_lag_samples in
    let corr := correlation r s <$> seq 0 (Z.to_nat limit + 1) in
    let '(best, best_lag) := best_from 0 corr (f_of_Z (-1)) 0 in
    if SFleb best f0 then no_arrival
    else
      let guard := Z.to_nat (Z.max 1 (f_trunc (fdiv sample_rate (f_of_Z 1000)))) in
      mk_arrival best_lag (fdiv (fmul (f_of_nat best_lag) (f_of_Z 1000)) sample_rate) best
        (second_from 0 best_lag guard corr f0) true.

(** ** The distance *)

Definition c_speed0 : spec_float := S754_finite false 5828291236515021 (-44).  (* 331.3 *)
Definition c_speed1 : spec_float := S754_finite false 5458362748373041 (-53).  (* 0.606 *)
(* [src/src/measure/Distance.h:11-11] kSpeedOfSoundMps *)
Definition kSpeedOfSoundMps : spec_float := f_of_Z 343.
(* [src/src/measure/Distance.h:13-13] speedOfSoundAt *)
Definition speedOfSoundAt (celsius : spec_float) : spec_float := fadd c_speed0 (fmul c_speed1 celsius).

(* [src/src/measure/Distance.h:30-35] LatencyBudget *)
Record LatencyBudget := mk_budget { hardware_rtl_ms : spec_float; network_rtl_ms : spec_float }.
Definition totalMs (b : LatencyBudget) : spec_float := fadd (hardware_rtl_ms b) (network_rtl_ms b).

(* [src/src/measure/Distance.h:37-42] DistanceResult *)
Record DistanceResult := mk_distance { distance_m : spec_float; acoustic_ms : spec_float; valid : bool; note : string }.

Definition stale_budget : string :=
  "measured lag is shorter than the configured latency budget — RTL is stale or network_rtl is unset".

(* [src/src/measure/Distance.h:51-70] toDistance *)
Definition toDistance (lag : spec_float) (budget : LatencyBudget) (speed_of_sound : spec_float) : DistanceResult :=
  let acoustic := fsub lag (totalMs budget) in
  if SFltb acoustic (SFopp c_half) then mk_distance f0 acoustic false stale_budget
  else
    let acoustic := if SFltb acoustic f0 then f0 else acoustic in
    mk_distance (fdiv (fmul acoustic speed_of_sound) (f_of_Z 1000)) acoustic true "".

(** ** The service *)

(* [src/src/measure/MeasurementService.h:16-23] MicMeasurement *)
Record MicMeasurement := mk_mic_measurement
  { mic_index : Z; mm_distance : spec_float; mm_lag : spec_float; mm_confidence : spec_float; mm_valid : bool;
    mm_note : string }.

(* [src/src/measure/MeasurementService.h:25-30] MeasurementResult *)
Record MeasurementResult := mk_measurement { mics : list MicMeasurement; m_ok : bool; m_message : string }.

(* [src/src/measure/MeasurementService.h:33-43] MeasurementRequest *)
Record MeasurementRequest := mk_request
  { duration_s : spec_float; sample_rate : spec_float; rq_f0 : spec_float; rq_f1 : spec_float; amplitude : spec_float;
    budget : LatencyBudget; speed_of_sound : spec_float; mic_indices : list Z }.

(* [src/src/measure/MeasurementService.h:64-67] MeasurementService::Capture *)
Record Capture := mk_capture { c_pcm : list Z; c_channels : Z }.

(** One channel of the frames. *)
(* [src/src/measure/MeasurementService.h:126-132] MeasurementService::measure *)
Definition channel (frames : nat) (cap : Capture) (mic : Z) : list spec_float :=
  (fun i => fdiv (f_of_Z (nth (i * Z.to_nat (c_channels cap) + Z.to_nat mic) (c_pcm cap) 0%Z)) full_scale) <$> seq 0 frames.

(* [src/src/measure/MeasurementService.h:116-154] MeasurementService::measure *)
Definition measure_mic (req : MeasurementRequest) (stimulus : list spec_float) (cap : Capture) (frames : nat)
    (max_lag : Z) (mic : Z) : MicMeasurement :=
  if (mic <? 0)%Z || (c_channels cap <=? mic)%Z then mk_mic_measurement mic f0 f0 f0 false "no such microphone channel"
  else
    let a := findArrival (channel frames cap mic) stimulus (sample_rate req) max_lag in
    if negb (found a) then
      mk_mic_measurement mic f0 f0 f0 false "no arrival detected (silence, or the mic is not hearing this speaker)"
    else
      let d := toDistance (lag_ms a) (budget req) (speed_of_sound req) in
      if negb (valid d) then mk_mic_measurement mic f0 (lag_ms a) (confidence a) false (note d)
      else mk_mic_measurement mic (distance_m d) (lag_ms a) (confidence a) true "".

(** The longest lag searched, in samples. *)
(* [src/src/measure/MeasurementService.h:112-114] MeasurementService::measure *)
Definition max_lag_of (req : MeasurementRequest) : Z :=
  let max_ms := fadd (totalMs (budget req)) (fmul (fdiv (f_of_Z 30) (speed_of_sound req)) (f_of_Z 1000)) in
  f_trunc (fdiv (fmul max_ms (sample_rate req)) (f_of_Z 1000)).

Definition refused (msg : string) : MeasurementResult := mk_measurement [] false msg.

(** What is made of a capture. *)
(* [src/src/measure/MeasurementService.h:93-165] MeasurementService::measure *)
Definition measured (req : MeasurementRequest) (stimulus : list spec_float) (cap : Capture) : MeasurementResult :=
  if bool_decide (c_pcm cap = []) || (c_channels cap <=? 0)%Z then refused "capture returned no audio"
  else
    let frames := (length (c_pcm cap) / Z.to_nat (c_channels cap))%nat in
    if (frames <? length stimulus)%nat then refused "capture shorter than the stimulus"
    else
      let which := match mic_indices req with [] => seqZ 0 (c_channels cap) | l => l end in
      let out := measure_mic req stimulus cap frames (max_lag_of req) <$> which in
      let ok := existsb mm_valid out in
      mk_measurement out ok (if ok then "" else "no microphone produced a usable measurement").

Section Service.
Context {M : Libm} {W E : Type}.
(** The hook that plays the stimulus and records; absent on a device without one. *)
Variable play_record_ : option (list spec_float -> SW W E Capture).

(* [src/src/measure/MeasurementService.h:73-166] MeasurementService::measure *)
Definition measure (req : MeasurementRequest) : SW W E MeasurementResult :=
  match play_record_ with
  | None => mret (refused "no capture backend on this device")
  | Some play_record =>
      if SFleb (sample_rate req) f0 || SFleb (duration_s req) f0 then mret (refused "invalid measurement parameters")
      else
        let stimulus := logChirp (duration_s req) (sample_rate req) (rq_f0 req) (rq_f1 req) (amplitude req) in
        match stimulus with
        | [] => mret (refused "stimulus is empty")
        | _ => cap ← play_record stimulus; mret (measured req stimulus cap)
        end
  end.
End Service.

(** ** The answer to RUN_MEASUREMENT *)

Section Runner.
Context {M : Libm} {J : JsonLib} {W E : Type} {Hal : MicHal W E}.

Definition c_04 : spec_float := S754_finite false 7205759403792794 (-54).   (* 0.4 *)

(* [src/src/main/Application.cpp:157-169] Application::startup, the measurement runner *)
Definition request_of (params : json) : Try MeasurementRequest :=
  d ← value_double params "duration_s" c_1;
  f0_ ← value_double params "f0" (f_of_Z 1000);
  f1_ ← value_double params "f1" (f_of_Z 15000);
  a ← value_double params "amplitude" c_04;
  hw ← value_double params "hardware_rtl_ms" f0;
  nw ← value_double params "network_rtl_ms" f0;
  speed ← (match jfind params "speed_of_sound" with
           | Some v => get_double v
           | None => match jfind params "temperature_c" with
                     | Some v => t ← get_double v; mret (speedOfSoundAt t)
                     | None => mret kSpeedOfSoundMps
                     end
           end);
  mret (mk_request d (f_of_Z 48000) f0_ f1_ a (mk_budget hw nw) speed []).

(** The hook: twice the stimulus is recorded, as one channel. *)
(* [src/src/main/Application.cpp:171-181] Application::startup, the measurement runner *)
Definition record_only (stimulus : list spec_float) : SW (MicrophoneManager W) (MEffect E) Capture :=
  pcm ← capture (2 * length stimulus);
  mret (match pcm with Failure _ => mk_capture [] 1 | Value l => mk_capture l 1 end).

(* [src/src/main/Application.cpp:186-194] Application::startup, the measurement runner *)
Definition mic_json (m : MicMeasurement) : json :=
  let j := jobj [("mic", jint (mic_index m + 1)); ("valid", jbool (mm_valid m)); ("lag_ms", jdbl (mm_lag m));
                 ("confidence", jdbl (mm_confidence m))] in
  let j := if mm_valid m then jset j "distance_m" (jdbl (mm_distance m)) else j in
  if String.eqb (mm_note m) "" then j else jset j "note" (jstr (mm_note m)).

(* [src/src/main/Application.cpp:195-200] Application::startup, the measurement runner *)
Definition measurement_json (r : MeasurementResult) : json :=
  jobj [("ok", jbool (m_ok r)); ("message", jstr (m_message r)); ("mics", jarr (mic_json <$> mics r));
        ("synchronized", jbool false);
        ("limitation", jstr "capture is not clock-locked to playback on this build; distances carry an unknown scheduling offset")].

(* [src/src/main/Application.cpp:156-201] Application::startup, the measurement runner *)
Definition run_measurement_request (params : json) : SW (MicrophoneManager W) (MEffect E) (Try json) :=
  match request_of params with
  | Throw w => mret (Throw w)
  | Done req => r ← measure (Some record_only) req; mret (Done (measurement_json r))
  end.
End Runner.

(** ** The order of the doubles *)

Lemma lt_trans_sf a b c : SFltb a b = true -> SFltb b c = true -> SFltb a c = true.
Proof.
  unfold SFltb. destruct a as [[]|[]| |[] ma ea], b as [[]|[]| |[] mb eb], c as [[]|[]| |[] mc ec]; cbn [SFcompare]; try done.
  all: change (Pos.compare_cont Eq) with Pos.compare.
  all: destruct (Z.compare_spec ea eb), (Z.compare_spec eb ec), (Z.compare_spec ea ec); try done; try lia.
  all: destruct (Pos.compare_spec ma mb), (Pos.compare_spec mb mc), (Pos.compare_spec ma mc); done || lia.
Qed.

Lemma le_lt_trans_sf a b c : SFleb a b = true -> SFltb b c = true -> SFltb a c = true.
Proof.
  unfold SFleb, SFltb. destruct a as [[]|[]| |[] ma ea], b as [[]|[]| |[] mb eb], c as [[]|[]| |[] mc ec]; cbn [SFcompare]; try done.
  all: change (Pos.compare_cont Eq) with Pos.compare.
  all: destruct (Z.compare_spec ea eb), (Z.compare_spec eb ec), (Z.compare_spec ea ec); try done; try lia.
  all: destruct (Pos.compare_spec ma mb), (Pos.compare_spec mb mc), (Pos.compare_spec ma mc); done || lia.
Qed.

Lemma lt_le_trans_sf a b c : SFltb a b = true -> SFleb b c = true -> SFltb a c = true.
Proof.
  unfold SFleb, SFltb. destruct a as [[]|[]| |[] ma ea], b as [[]|[]| |[] mb eb], c as [[]|[]| |[] mc ec]; cbn [SFcompare]; try done.
  all: change (Pos.compare_cont Eq) with Pos.compare.
  all: destruct (Z.compare_spec ea eb), (Z.compare_spec eb ec), (Z.compare_spec ea ec); try done; try lia.
  all: destruct (Pos.compare_spec ma mb), (Pos.compare_spec mb mc), (Pos.compare_spec ma mc); done || lia.
Qed.

Lemma lt_number a b : SFltb a b = true -> a <> S754_nan /\ b <> S754_nan.
Proof. intros H. by destruct a, b. Qed.

Lemma lt_irrefl_sf a : SFltb a a = false.
Proof.
  destruct a as [[]|[]| |[] m e]; try done; unfold SFltb; cbn [SFcompare]; rewrite Z.compare_refl;
    change (Pos.compare_cont Eq) with Pos.compare; by rewrite Pos.compare_refl.
Qed.

Lemma not_lt_le a b : a <> S754_nan -> b <> S754_nan -> SFltb a b = false -> SFleb b a = true.
Proof.
  intros Ha Hb. unfold SFleb, SFltb. destruct a as [[]|[]| |[] ma ea], b as [[]|[]| |[] mb eb]; cbn [SFcompare]; try done.
  all: change (Pos.compare_cont Eq) with Pos.compare.
  all: destruct (Z.compare_spec ea eb), (Z.compare_spec eb ea); try done; try lia.
  all: destruct (Pos.compare_spec ma mb), (Pos.compare_spec mb ma); done || lia.
Qed.

(** ** The search *)

(** The winner among the lags tried: it is not below the value to beat, nor below any
    other, and if it is not the value to beat it is the value at its lag. *)
Definition wins (lag : nat) (corr : list spec_float) (best0 : spec_float) (lag0 : nat) (w : spec_float * nat) : Prop :=
  SFltb w.1 best0 = false /\
  (forall k x, corr !! k = Some x -> SFltb w.1 x = false) /\
  ((w.1 = best0 /\ w.2 = lag0) \/ exists k, w.2 = (lag + k)%nat /\ corr !! k = Some w.1).

Lemma best_from_wins lag corr best0 lag0 : best0 <> S754_nan ->
  wins lag corr best0 lag0 (best_from lag corr best0 lag0).
Proof.
  revert lag best0 lag0. induction corr as [|c corr IH]; intros lag best0 lag0 Hn; cbn [best_from].
  { split; [apply lt_irrefl_sf|]. split; [done|by left]. }
  destruct (SFltb best0 c) eqn:E.
  - destruct (lt_number _ _ E) as [_ Hc]. destruct (IH (S lag) c lag Hc) as (H1 & H2 & H3). split; [|split].
    + destruct (SFltb (best_from (S lag) corr c lag).1 best0) eqn:E'; [|done].
      by rewrite (lt_trans_sf _ _ _ E' E) in H1.
    + intros [|k] x Hk; [by injection Hk as <-|by apply (H2 k)].
    + right. destruct H3 as [[H3 ->]|(k & -> & Hk)]; [exists 0%nat; split; [lia|cbn; congruence]|].
      exists (S k). split; [lia|done].
  - destruct (IH (S lag) best0 lag0 Hn) as (H1 & H2 & H3). split; [done|split].
    + intros [|k] x Hk; [injection Hk as <-|by apply (H2 k)].
      destruct (SFltb (best_from (S lag) corr best0 lag0).1 c) eqn:E'; [|done].
      destruct (lt_number _ _ E') as [Hb _].
      by rewrite (le_lt_trans_sf _ _ _ (not_lt_le _ _ Hb Hn H1) E') in E.
    + destruct H3 as [?|(k & -> & Hk)]; [by left|]. right. exists (S k). split; [lia|done].
Qed.

(** The runner-up is not below any value away from the winner. *)
Lemma second_from_bound lag w guard corr second0 : second0 <> S754_nan ->
  let second := second_from lag w guard corr second0 in
  second <> S754_nan /\ SFltb second second0 = false /\
  forall k x, corr !! k = Some x -> (guard < Z.abs_nat (Z.of_nat (lag + k) - Z.of_nat w))%nat -> SFltb second x = false.
Proof.
  revert lag second0. induction corr as [|c corr IH]; intros lag second0 Hn; cbn [second_from].
  { split; [done|]. split; [apply lt_irrefl_sf|done]. }
  set (next := if (_ <=? _)%Z then second0 else _).
  assert (next <> S754_nan /\ SFltb next second0 = false /\
          ((guard < Z.abs_nat (Z.of_nat lag - Z.of_nat w))%nat -> SFltb next c = false)) as (Hnn & Hge & Hc).
  { unfold next. destruct (Z.leb_spec (Z.abs (Z.of_nat lag - Z.of_nat w)) (Z.of_nat guard)).
    - split; [done|]. split; [apply lt_irrefl_sf|lia].
    - unfold f_max. destruct (SFltb second0 c) eqn:E; [|split; [done|]; split; [apply lt_irrefl_sf|done]].
      destruct (lt_number _ _ E) as [_ Hcn]. split; [done|]. split; [|intros _; apply lt_irrefl_sf].
      destruct (SFltb c second0) eqn:E'; [|done]. pose proof (lt_trans_sf _ _ _ E E') as H'. by rewrite lt_irrefl_sf in H'. }
  clearbody next. destruct (IH (S lag) next Hnn) as (H1 & H2 & H3). split; [done|].
  assert (forall x, SFltb next x = false -> SFltb (second_from (S lag) w guard corr next) x = false) as Hup.
  { intros x Hx. destruct (SFltb (second_from (S lag) w guard corr next) x) eqn:E'; [|done].
    by rewrite (le_lt_trans_sf _ _ _ (not_lt_le _ _ H1 Hnn H2) E') in Hx. }
  split; [by apply Hup|]. intros [|k] x Hk Hg.
  - injection Hk as <-. apply Hup, Hc. lia.
  - apply (H3 k x Hk). lia.
Qed.

Definition lag_limit (recording stimulus : list spec_float) (max_lag : Z) : nat :=
  let most := (length recording - length stimulus)%nat in
  if (max_lag <? 0)%Z || (Z.of_nat most <? max_lag)%Z then most else Z.to_nat max_lag.

Lemma best_from_number lag corr best0 lag0 : best0 <> S754_nan -> (best_from lag corr best0 lag0).1 <> S754_nan.
Proof.
  revert lag best0 lag0. induction corr as [|c corr IH]; intros lag best0 lag0 Hn; cbn [best_from]; [done|].
  destruct (SFltb best0 c) eqn:E; [|by apply IH]. apply IH. by destruct (lt_number _ _ E).
Qed.

Lemma normalize_length x : length (normalize x) = length x.
Proof. destruct x; [done|]. unfold normalize. by rewrite !length_fmap. Qed.

(** the arrival is the best match.  For any recording and stimulus: when the search
    reports an arrival, its lag is one that was tried, the stimulus fits in the recording
    there, the correlation at that lag is positive and the reported peak, no lag that was
    tried correlates better, and no lag further than a millisecond from it correlates
    better than the reported runner-up; when it reports none, the input was refused or no
    lag that was tried has a positive correlation. *)
Theorem arrival_is_best_match (recording stimulus : list spec_float) (rate : spec_float) (max_lag : Z) :
  let a := findArrival recording stimulus rate max_lag in
  let r := normalize recording in
  let s := normalize stimulus in
  let limit := lag_limit recording stimulus max_lag in
  if found a then
    (lag_samples a <= limit)%nat /\ (lag_samples a + length stimulus <= length recording)%nat /\
    peak a = correlation r s (lag_samples a) /\ SFltb f0 (peak a) = true /\
    forall lag, (lag <= limit)%nat ->
      SFltb (peak a) (correlation r s lag) = false /\
      ((Z.to_nat (Z.max 1 (f_trunc (fdiv rate (f_of_Z 1000)))) < Z.abs_nat (Z.of_nat lag - Z.of_nat (lag_samples a)))%nat ->
       SFltb (second_peak a) (correlation r s lag) = false)
  else
    recording = [] \/ stimulus = [] \/ SFleb rate f0 = true \/ (length recording < length stimulus)%nat \/
    forall lag, (lag <= limit)%nat -> SFltb f0 (correlation r s lag) = false.
Proof.
  cbv zeta. unfold findArrival. destruct (bool_decide_reflect (recording = [])) as [|Hr]; [by left|].
  destruct (bool_decide_reflect (stimulus = [])) as [|Hs]; [by right; left|].
  destruct (SFleb rate f0) eqn:Erate; cbn [orb]; [by do 2 right; left|].
  destruct (Nat.ltb_spec (length recording) (length stimulus)) as [|Hl]; [by do 3 right; left|].
  cbv zeta. rewrite !normalize_length. set (r := normalize recording). set (s := normalize stimulus).
  set (limit := lag_limit recording stimulus max_lag).
  assert (Z.to_nat (if ((max_lag <? 0) || (Z.of_nat (length recording - length stimulus) <? max_lag))%Z
                    then Z.of_nat (length recording - length stimulus) else max_lag) = limit) as ->.
  { unfold limit, lag_limit. destruct (_ || _); [apply Nat2Z.id|done]. }
  set (corr := correlation r s <$> seq 0 (limit + 1)).
  assert (forall lag, (lag <= limit)%nat -> corr !! lag = Some (correlation r s lag)) as Hcorr.
  { intros lag H. unfold corr. rewrite list_lookup_fmap, lookup_seq_lt by lia. done. }
  destruct (best_from_wins 0 corr (f_of_Z (-1)) 0 ltac:(by vm_compute)) as (Hb & Hall & Hat).
  pose proof (best_from_number 0 corr (f_of_Z (-1)) 0 ltac:(by vm_compute)) as Hnum.
  destruct (best_from 0 corr (f_of_Z (-1)) 0) as [best best_lag]. cbn [fst snd] in *.
  destruct (SFleb best f0) eqn:Ebest; cbn [found].
  - do 4 right. intros lag Hlag. destruct (SFltb f0 (correlation r s lag)) eqn:E; [|done].
    pose proof (Hall lag _ (Hcorr lag Hlag)) as H. by rewrite (le_lt_trans_sf _ _ _ Ebest E) in H.
  - cbn [lag_samples peak second_peak].
    destruct Hat as [[-> ->]|(k & -> & Hk)]; [by vm_compute in Ebest|]. cbn [Nat.add].
    assert (k <= limit)%nat as Hklim.
    { apply lookup_lt_Some in Hk. unfold corr in Hk. rewrite length_fmap, length_seq in Hk. lia. }
    rewrite (Hcorr k Hklim) in Hk. injection Hk as Hk. subst best.
    split; [done|]. split.
    { unfold limit, lag_limit in Hklim. destruct (Z.ltb_spec max_lag 0), (Z.ltb_spec (Z.of_nat (length recording - length stimulus)) max_lag);
        cbn [orb] in Hklim; lia. }
    split; [done|]. split.
    { destruct (SFltb f0 (correlation r s k)) eqn:E; [done|].
      by rewrite (not_lt_le f0 _) in Ebest. }
    intros lag Hlag. split; [by apply (Hall lag), Hcorr|]. intros Hg.
    destruct (second_from_bound 0 k (Z.to_nat (Z.max 1 (f_trunc (fdiv rate (f_of_Z 1000))))) corr f0 ltac:(done)) as (_ & _ & H).
    by apply (H lag), Hg; apply Hcorr.
Qed.

(** ** The service *)

(** What the service promises of the entry of one microphone. *)
Definition entry_ok (req : MeasurementRequest) (stimulus : list spec_float) (cap : Capture) (frames : nat)
    (mic : Z) (m : MicMeasurement) : Prop :=
  mic_index m = mic /\
  (mm_valid m = true -> (0 <= mic < c_channels cap)%Z /\
     let a := findArrival (channel frames cap mic) stimulus (sample_rate req) (max_lag_of req) in
     found a = true /\ mm_lag m = lag_ms a /\
     SFltb (fsub (lag_ms a) (totalMs (budget req))) (SFopp c_half) = false /\
     mm_distance m = distance_m (toDistance (lag_ms a) (budget req) (speed_of_sound req)) /\ mm_note m = "") /\
  (mm_valid m = false -> mm_note m <> "" /\ mm_distance m = f0).

Lemma measure_mic_ok req stimulus cap frames mic :
  entry_ok req stimulus cap frames mic (measure_mic req stimulus cap frames (max_lag_of req) mic).
Proof.
  assert (forall lag c n, n <> "" -> entry_ok req stimulus cap frames mic (mk_mic_measurement mic f0 lag c false n)) as Hno.
  { intros lag c n Hn. split; [done|]. split; [intros H; discriminate H|done]. }
  unfold measure_mic. destruct (Z.ltb_spec mic 0); [by apply Hno|].
  destruct (Z.leb_spec (c_channels cap) mic); cbn [orb]; [by apply Hno|].
  set (a := findArrival (channel frames cap mic) stimulus (sample_rate req) (max_lag_of req)).
  destruct (found a) eqn:Ea; cbn [negb]; [|by apply Hno].
  unfold toDistance at 1. destruct (SFltb (fsub (lag_ms a) (totalMs (budget req))) (SFopp c_half)) eqn:Ed; cbn [valid negb].
  - apply Hno. unfold toDistance. by rewrite Ed.
  - split; [done|]. split; [|done]. intros _. cbn [mm_lag mm_distance mm_note]. fold a. by split_and!.
Qed.

(** A measurement answers for every microphone asked about.  For a usable capture the
    result has one entry per microphone, in the order asked (all channels when none are
    named); an entry is valid only for an existing channel with a detected arrival whose
    lag is not shorter than the latency budget by more than half a millisecond, and carries
    the distance of that lag; an entry that is not valid says why and has no distance; the
    whole is a success exactly when some entry is valid, and has a message exactly when it
    is not. *)
Theorem measurement_answers_for_each (req : MeasurementRequest) (stimulus : list spec_float) (cap : Capture)
  (Hpcm : c_pcm cap <> []) (Hchannels : (0 < c_channels cap)%Z)
  (Hlong : (length stimulus <= length (c_pcm cap) / Z.to_nat (c_channels cap))%nat) :
  let out := measured req stimulus cap in
  let frames := (length (c_pcm cap) / Z.to_nat (c_channels cap))%nat in
  Forall2 (entry_ok req stimulus cap frames)
    (if bool_decide (mic_indices req = []) then seqZ 0 (c_channels cap) else mic_indices req) (mics out) /\
  (m_ok out = true <-> Exists (fun m => mm_valid m = true) (mics out)) /\
  (m_ok out = true <-> m_message out = "").
Proof.
  cbv zeta. unfold measured. rewrite (bool_decide_eq_false_2 (c_pcm cap = [])) by done.
  destruct (Z.leb_spec (c_channels cap) 0); [lia|]. cbn [orb].
  destruct (Nat.ltb_spec (length (c_pcm cap) / Z.to_nat (c_channels cap)) (length stimulus)); [lia|]. cbv zeta.
  set (frames := (length (c_pcm cap) / Z.to_nat (c_channels cap))%nat).
  set (which := match mic_indices req with [] => _ | _ => _ end). cbn [mics m_ok m_message].
  replace (if bool_decide (mic_indices req = []) then seqZ 0 (c_channels cap) else mic_indices req) with which
    by (unfold which; destruct (mic_indices req); [by rewrite bool_decide_eq_true_2|by rewrite bool_decide_eq_false_2]).
  split; [|split].
  - clearbody which. induction which as [|mic which IH]; constructor; [apply measure_mic_ok|exact IH].
  - rewrite existsb_exists, Exists_exists. split; intros (m & Hin & Hm); exists m; (split; [by apply list_elem_of_In|done]).
  - by destruct (existsb _ _).
Qed.

(** A loud sample where the stimulus has its own: the best match is there. *)
Lemma measurement_answers_for_each_witness :
  let req := mk_request c_1 (f_of_Z 1000) c_1 c_2 c_1 (mk_budget f0 f0) kSpeedOfSoundMps [1%Z; 0%Z] in
  let out := measured req [c_1; f0] (mk_capture [0; 9; 0; 9; 30000; 9; 0; 9]%Z 2) in
  (mm_valid <$> mics out) = [false; true] /\ m_ok out = true.
Proof.
  set (req := mk_request c_1 (f_of_Z 1000) c_1 c_2 c_1 (mk_budget f0 f0) kSpeedOfSoundMps [1%Z; 0%Z]).
  set (cap := mk_capture [0; 9; 0; 9; 30000; 9; 0; 9]%Z 2).
  destruct (measurement_answers_for_each req [c_1; f0] cap) as (_ & Hok & _);
    [discriminate|reflexivity|apply Nat.leb_le; reflexivity|].
  split; [vm_compute; reflexivity|]. apply Hok. right. left. vm_compute. reflexivity.
Defined.

(** ** What RUN_MEASUREMENT does *)

(** The runner of the application records and plays nothing: everything it does besides
    answering is the one capture of twice the stimulus, so a reading is of the room as it
    is, and not of the stimulus. *)
Lemma measurement_plays_nothing {M : Libm} {J : JsonLib} {W E} {Hal : MicHal W E} params (m : MicrophoneManager W) :
  (exists frames, run_measurement_request params m =
     (value_of (run_measurement_request params) m, set_mic_hal (state_after (mic_capture frames) (mic_hal m)) m,
      MOut <$> effects_of (mic_capture frames) (mic_hal m))) \/
  (exists r, run_measurement_request params m = (r, m, [])).
Proof.
  unfold value_of, run_measurement_request. destruct (request_of params) as [req|w]; [|right; by eexists].
  unfold measure. destruct (SFleb (sample_rate req) f0 || SFleb (duration_s req) f0); [right; by eexists|].
  set (stimulus := logChirp _ _ _ _ _). destruct stimulus as [|v stimulus'] eqn:Est; [right; by eexists|]. left.
  exists (2 * length (v :: stimulus'))%nat. unfold record_only, capture, on_mic, zoom, mbind, SW_bind, value_of, state_after, effects_of.
  destruct (mic_capture (2 * length (v :: stimulus')) (mic_hal m)) as [[pcm w] es]. cbn. by rewrite !app_nil_r.
Qed.
