(* ===== verification/Mdns.v ===== *)
(** * Mdns: the two ends of service discovery

    Models the adapters between the discovery services and Avahi:
    [src/src/discovery/AvahiDiscoveryHal.cpp] (the speaker publishes its beacon and looks
    for streamers), [streamer/src/discovery/AvahiStreamerDiscovery.cpp] (the streamer
    publishes itself and looks for speakers) and [streamer/src/discovery/DiscoveryService.h].
    Avahi is a parameter: what its calls return, and the callbacks each turn of its poll
    loop makes. *)

From Stdlib Require Import Ascii.
From S2P Require Import Prelude Core Json Files Config.
From S2P Require Import Network Speakers Onboarding Discovery Transport.

(** ** What is published *)

(** A service: its instance name, type, port and TXT strings. *)
Record Service := mk_service { s_name : string; s_type : string; s_port : Z; s_txt : list string }.

Definition kSpeakerService : string := "_nexus-speaker._tcp".
Definition kStreamerService : string := "_nexus-streamer._tcp".

Definition entry (kv : string * string) : string := kv.1 +:+ "=" +:+ kv.2.

Definition beacon_fields (b : SpeakerBeacon) : list (string * string) :=
  [("device_id", b_device_id b); ("model", b_model b); ("software_version", b_software_version b);
   ("box_public_key", b_box_public_key b); ("setup_mode", if b_setup_mode b then "1" else "0")].

(* [src/src/discovery/AvahiDiscoveryHal.cpp:109-119] AvahiDiscoveryHal::publishBeacon *)
Definition beacon_service (b : SpeakerBeacon) : Service :=
  mk_service (b_device_id b) kSpeakerService (wrap 16 (b_control_port b)) (entry <$> beacon_fields b).

(* [src/streamer/src/discovery/IStreamerDiscovery.h:13-17] StreamerAdvertisement *)
Record StreamerAdvertisement := mk_advertisement { ad_streamer_id : string; ad_public_key : string; ad_port : Z }.

Definition streamer_fields (a : StreamerAdvertisement) : list (string * string) :=
  [("streamer_id", ad_streamer_id a); ("public_key", ad_public_key a)].

(* [src/streamer/src/discovery/AvahiStreamerDiscovery.cpp:52-57] addService *)
Definition streamer_service (a : StreamerAdvertisement) : Service :=
  mk_service (ad_streamer_id a) kStreamerService (wrap 16 (ad_port a)) (entry <$> streamer_fields a).

(** ** The speaker's beacon *)

(** What Avahi answers to one publication. *)
Record PublishAnswers := mk_publish_answers
  { poll_ok : bool; client_ok : option string; group_ok : bool; add_result : Z * string; commit_result : Z }.

(** The objects held, and the service committed to the daemon. *)
(* [src/src/discovery/AvahiDiscoveryHal.h:28-30] AvahiDiscoveryHal *)
Record SpeakerHal := mk_speaker_hal
  { publish_poll_ : bool; publish_client_ : bool; group_ : bool; published_ : option Service }.

(* [src/src/discovery/AvahiDiscoveryHal.cpp:133-147] AvahiDiscoveryHal::stopBeacon *)
Definition hal_stopBeacon (h : SpeakerHal) : Status * SpeakerHal :=
  (success, mk_speaker_hal false false false (if group_ h then None else published_ h)).

(* [src/src/discovery/AvahiDiscoveryHal.cpp:93-131] AvahiDiscoveryHal::publishBeacon *)
Definition hal_publishBeacon (ans : PublishAnswers) (b : SpeakerBeacon) (h : SpeakerHal) : Status * SpeakerHal :=
  let h := (hal_stopBeacon h).2 in
  if negb (poll_ok ans) then (io_error "avahi_simple_poll_new failed", h)
  else
    match client_ok ans with
    | Some why => (io_error ("avahi_client_new: " +:+ why), mk_speaker_hal true false false (published_ h))
    | None =>
        if negb (group_ok ans) then (io_error "avahi_entry_group_new failed", mk_speaker_hal true true false (published_ h))
        else if ((add_result ans).1 <? 0)%Z then
          (io_error ("add_service: " +:+ (add_result ans).2), mk_speaker_hal true true true (published_ h))
        else if (commit_result ans <? 0)%Z then
          (io_error "entry_group_commit failed", mk_speaker_hal true true true (published_ h))
        else (success, mk_speaker_hal true true true (Some (beacon_service b)))
    end.

(** ** The streamer's advertisement *)

(** The entry group: absent, or with the service it holds and whether that is committed. *)
(* [src/streamer/src/discovery/AvahiStreamerDiscovery.cpp:26-31] PublishCtx *)
Record PublishCtx := mk_publish_ctx { pc_group : option (option (Service * bool)); pc_ad : StreamerAdvertisement }.

Inductive ClientState := SRunning | ClientFailure | SCollision | SRegistering | Connecting.

(** What Avahi answers when the service is added: whether the group can be made, the
    results of adding and of committing. *)
Record AddAnswers := mk_add_answers { new_group_ok : bool; add_ok : bool; commit_ok : bool }.

(* [src/streamer/src/discovery/AvahiStreamerDiscovery.cpp:39-67] addService *)
Definition addService (ans : AddAnswers) (ctx : PublishCtx) : PublishCtx :=
  match pc_group ctx with
  | Some (Some _) => ctx
  | Some None | None =>
      if (match pc_group ctx with None => negb (new_group_ok ans) | Some _ => false end) then ctx
      else if negb (add_ok ans) then mk_publish_ctx (Some None) (pc_ad ctx)
      else mk_publish_ctx (Some (Some (streamer_service (pc_ad ctx), commit_ok ans))) (pc_ad ctx)
  end.

(* [src/streamer/src/discovery/AvahiStreamerDiscovery.cpp:92-113] clientCallback *)
Definition clientCallback (ans : AddAnswers) (s : ClientState) (ctx : PublishCtx) : PublishCtx :=
  match s with
  | SRunning => addService ans ctx
  | SCollision | SRegistering =>
      match pc_group ctx with Some _ => mk_publish_ctx (Some None) (pc_ad ctx) | None => ctx end
  | ClientFailure | Connecting => ctx
  end.

(* [src/streamer/src/discovery/AvahiStreamerDiscovery.h:40-42] AvahiStreamerDiscovery *)
Record StreamerMdns := mk_streamer_mdns { sm_poll : bool; sm_client : bool; sm_ctx : option PublishCtx }.

(* [src/streamer/src/discovery/AvahiStreamerDiscovery.cpp:230-248] AvahiStreamerDiscovery::stopAdvertising *)
Definition mdns_stop (m : StreamerMdns) : Status * StreamerMdns := (success, mk_streamer_mdns false false None).

(** The answers of the making of the poll and of the client and of the start of its
    thread; the callbacks the client has made by then. *)
(* [src/streamer/src/discovery/AvahiStreamerDiscovery.cpp:196-228] AvahiStreamerDiscovery::advertise *)
Definition mdns_advertise (poll_ok : bool) (client_error : option string) (callbacks : list (AddAnswers * ClientState))
    (started : bool) (a : StreamerAdvertisement) (m : StreamerMdns) : Status * StreamerMdns :=
  let stopped := (mdns_stop m).2 in
  if negb poll_ok then (io_error "avahi_threaded_poll_new failed", stopped)
  else
    match client_error with
    | Some why => (io_error ("avahi_client_new: " +:+ why), stopped)
    | None =>
        let ctx := foldl (fun ctx p => clientCallback p.1 p.2 ctx) (mk_publish_ctx None a) callbacks in
        if negb started then (io_error "avahi_threaded_poll_start failed", stopped)
        else (success, mk_streamer_mdns true true (Some ctx))
    end.

(** The service that offers the streamer to speakers; without mDNS it runs degraded. *)
(* [src/streamer/src/discovery/DiscoveryService.h:68-73] DiscoveryService *)
Record StreamerDiscovery := mk_streamer_discovery
  { sd_mdns : option StreamerMdns; sd_ad : StreamerAdvertisement; sd_advertising : bool; sd_state : ServiceState }.

Section Service.
(** The call of [advertise]. *)
Variable advertise_ : StreamerAdvertisement -> StreamerMdns -> Status * StreamerMdns.

(* [src/streamer/src/discovery/DiscoveryService.h:37-53] DiscoveryService::start *)
Definition sd_start (d : StreamerDiscovery) : Status * StreamerDiscovery :=
  match sd_mdns d with
  | None => (success, mk_streamer_discovery None (sd_ad d) (sd_advertising d) ServiceState.Degraded)
  | Some m =>
      if sd_advertising d then (success, d)
      else
        let '(s, m) := advertise_ (sd_ad d) m in
        (s, mk_streamer_discovery (Some m) (sd_ad d) true
              (if status_ok s then ServiceState.Running else ServiceState.Degraded))
  end.

(* [src/streamer/src/discovery/DiscoveryService.h:55-63] DiscoveryService::stop *)
Definition sd_stop (d : StreamerDiscovery) : Status * StreamerDiscovery :=
  (success, mk_streamer_discovery (if sd_advertising d then snd ∘ mdns_stop <$> sd_mdns d else sd_mdns d)
              (sd_ad d) false ServiceState.Stopped).
End Service.

(** ** Browsing *)

(** What one turn of the poll loop may report. *)
Inductive Callback :=
| New                                    (* a service appeared; a resolver is started *)
| AllForNow
| BrowseFailed
| OtherEvent
| Resolved (name host addr : option string) (port : Z) (txt : list string)
| Unresolved.

(* [src/streamer/src/discovery/AvahiStreamerDiscovery.cpp:117-123] BrowseCtx *)
Record BrowseCtx (R : Type) := mk_browse { records : list R; pending_resolves : Z; all_for_now : bool }.
Arguments mk_browse {R} _ _ _.
Arguments records {R} _.
Arguments pending_resolves {R} _.
Arguments all_for_now {R} _.

Section Browse.
Context {R : Type}.
(** How a resolved service becomes a record. *)
Variable read : option string -> option string -> option string -> Z -> list string -> R.

(** [maybeQuit] and the failure of the browser ask the poll loop to stop, which its next
    turn reports. *)
(* [src/streamer/src/discovery/AvahiStreamerDiscovery.cpp:142-190] resolveCallback, browseCallback *)
Definition on_callback (c : BrowseCtx R) (cb : Callback) : BrowseCtx R :=
  match cb with
  | New => mk_browse (records c) (pending_resolves c + 1) (all_for_now c)
  | AllForNow => mk_browse (records c) (pending_resolves c) true
  | BrowseFailed | OtherEvent => c
  | Resolved name host addr port txt =>
      mk_browse (records c ++ [read name host addr port txt]) (pending_resolves c - 1) (all_for_now c)
  | Unresolved => mk_browse (records c) (pending_resolves c - 1) (all_for_now c)
  end.

(** The turns of the loop: turn [i] makes its callbacks and says whether to stop.  The
    number of turns taken is counted. *)
(* [src/streamer/src/discovery/AvahiStreamerDiscovery.cpp:272-275] AvahiStreamerDiscovery::browseSpeakers *)
Fixpoint browse_loop (turns : nat -> list Callback * bool) (rounds i : nat) (c : BrowseCtx R) : BrowseCtx R * nat :=
  match rounds with
  | O => (c, i)
  | S rounds =>
      let '(cbs, stop) := turns i in
      let c := foldl on_callback c cbs in
      if stop then (c, S i)
      else if all_for_now c && (pending_resolves c =? 0)%Z then (c, S i)
      else browse_loop turns rounds (S i) c
  end.

(** The answers of the making of the poll, of the client and of the browser. *)
(* [src/streamer/src/discovery/AvahiStreamerDiscovery.cpp:250-281] AvahiStreamerDiscovery::browseSpeakers *)
Definition browse (poll_ok : bool) (client_error : option string) (browser_ok : bool)
    (turns : nat -> list Callback * bool) : Result (list R) :=
  if negb poll_ok then Failure (io_error "avahi_simple_poll_new failed")
  else
    match client_error with
    | Some why => Failure (io_error ("avahi_client_new: " +:+ why))
    | None =>
        if negb browser_ok then Failure (io_error "service_browser_new failed")
        else Value (records (browse_loop turns 50 0 (mk_browse [] 0 false)).1)
    end.
End Browse.

Section Readers.
(** [avahi_string_list_find] and [avahi_string_list_get_pair]: the entry of a key, with
    its value when it has one. *)
Variable txt_find : list string -> string -> option (option string).

(** The variable keeps its value when the key has none. *)
(* [src/streamer/src/discovery/AvahiStreamerDiscovery.cpp:129-140] txtValue *)
Definition txtValue (txt : list string) (key out : string) : string :=
  match txt_find txt key with Some (Some v) => v | _ => out end.

(* [src/streamer/src/discovery/AvahiStreamerDiscovery.cpp:148-162] resolveCallback *)
Definition read_speaker (name host addr : option string) (port : Z) (txt : list string) : DiscoveredSpeaker :=
  let setup := txtValue txt "setup_mode" "" in
  mk_discovered (txtValue txt "device_id" (default "" name))
    (match addr with Some a => a | None => default "" host end)
    (txtValue txt "box_public_key" "") port
    (String.eqb setup "1" || String.eqb setup "true").

(* [src/src/discovery/AvahiDiscoveryHal.cpp:42-59] resolveCallback *)
Definition read_streamer (name host addr : option string) (port : Z) (txt : list string) : StreamerRecord :=
  mk_streamer (default "" name) (default "" host) port (txtValue txt "public_key" "").

(* [src/streamer/src/discovery/AvahiStreamerDiscovery.cpp:250-281] AvahiStreamerDiscovery::browseSpeakers *)
Definition mdns_browseSpeakers := browse read_speaker.
(* [src/src/discovery/AvahiDiscoveryHal.cpp:149-182] AvahiDiscoveryHal::browseStreamers *)
Definition hal_browseStreamers := browse read_streamer.
End Readers.

(** ** A browse and its callbacks *)

Definition resolved_ (R : Type) (read : option string -> option string -> option string -> Z -> list string -> R)
    (cb : Callback) : option R :=
  match cb with Resolved name host addr port txt => Some (read name host addr port txt) | _ => None end.
Arguments resolved_ {R} read cb.

(** The resolvers a callback starts, or the one it ends. *)
Definition pending_change (cb : Callback) : Z :=
  match cb with New => 1 | Resolved _ _ _ _ _ | Unresolved => -1 | _ => 0 end.
Definition open_resolves (cbs : list Callback) : Z := foldr (fun cb n => pending_change cb + n)%Z 0%Z cbs.

Definition is_all_for_now (cb : Callback) : bool := match cb with AllForNow => true | _ => false end.

(** The callbacks of the first [n] turns. *)
Definition made (turns : nat -> list Callback * bool) (n : nat) : list Callback :=
  mjoin ((fun i => (turns i).1) <$> seq 0 n).

Section BrowseLemmas.
Context {R : Type} (read : option string -> option string -> option string -> Z -> list string -> R).

(** The context after some callbacks. *)
Definition after_callbacks (cbs : list Callback) (c : BrowseCtx R) : Prop :=
  records c = omap (resolved_ read) cbs /\ pending_resolves c = open_resolves cbs /\
  all_for_now c = existsb is_all_for_now cbs.

Lemma open_resolves_app a b : open_resolves (a ++ b) = (open_resolves a + open_resolves b)%Z.
Proof. induction a as [|cb a IH]; [done|]. cbn [app open_resolves foldr] in *. unfold open_resolves in *. lia. Qed.

Lemma callbacks_after cbs old c : after_callbacks old c -> after_callbacks (old ++ cbs) (foldl (on_callback read) c cbs).
Proof.
  revert old c. induction cbs as [|cb cbs IH]; intros old c H; [by rewrite app_nil_r|]. cbn [foldl].
  replace (old ++ cb :: cbs) with ((old ++ [cb]) ++ cbs) by (by rewrite <- app_assoc). apply IH.
  destruct H as (H1 & H2 & H3). unfold after_callbacks. rewrite omap_app, open_resolves_app, existsb_app.
  destruct cb; cbn; rewrite ?H1, ?H2, ?H3, ?app_nil_r, ?orb_false_r, ?orb_true_r; split_and!; done || lia.
Qed.

Lemma browse_loop_spec turns rounds i c : after_callbacks (made turns i) c ->
  let '(c', n) := browse_loop read turns rounds i c in
  (i <= n <= i + rounds)%nat /\ after_callbacks (made turns n) c' /\
  (n = (i + rounds)%nat \/ (exists k, n = S k /\ (turns k).2 = true) \/
   all_for_now c' = true /\ pending_resolves c' = 0%Z).
Proof.
  revert i c. induction rounds as [|rounds IH]; intros i c H; cbn [browse_loop]; [split; [lia|split; [done|left; lia]]|].
  destruct (turns i) as [cbs stop] eqn:E.
  assert (after_callbacks (made turns (S i)) (foldl (on_callback read) c cbs)) as H'.
  { unfold made. rewrite seq_S, fmap_app, join_app. cbn [fmap list_fmap Nat.add]. rewrite E. cbn [fst].
    replace (mjoin [cbs]) with cbs by (cbn; by rewrite app_nil_r). by apply callbacks_after. }
  destruct stop; [split; [lia|split; [done|right; left; exists i; by rewrite E]]|].
  destruct (all_for_now _ && _) eqn:Ef.
  - apply andb_true_iff in Ef as [H1 H2%Z.eqb_eq]. split; [lia|]. split; [done|]. by do 2 right.
  - specialize (IH (S i) _ H'). destruct (browse_loop read turns rounds (S i) _) as [c' n].
    destruct IH as (Hn & Ha & Hend). split; [lia|]. split; [done|]. destruct Hend as [Hend|Hend]; [left; lia|by right].
Qed.
End BrowseLemmas.

(** ** From one end to the other *)

(** The same letters, either case. *)
Definition fold_case (s : string) : list nat :=
  (fun c => let n := nat_of_ascii c in if (65 <=? n)%nat && (n <=? 90)%nat then n + 32 else n)%nat <$> String.list_ascii_of_string s.

Definition equals_sign : ascii := ascii_of_nat 61.

(** What the search of TXT strings promises of strings made of keys and values. *)
Definition finds_entries (txt_find : list string -> string -> option (option string)) : Prop :=
  forall l k v, (k, v) ∈ l -> Forall (fun kv => split_at equals_sign kv.1 = None) l -> NoDup (fold_case <$> l.*1) ->
    txt_find (entry <$> l) k = Some (Some v).

Section RoundTrip.
Variable txt_find : list string -> string -> option (option string).
Hypothesis txt_found : finds_entries txt_find.

Lemma beacon_field b k v out : (k, v) ∈ beacon_fields b -> txtValue txt_find (s_txt (beacon_service b)) k out = v.
Proof using txt_found.
  intros H. unfold txtValue, beacon_service. cbn [s_txt]. rewrite (txt_found _ k v); [done|done| |].
  - by repeat constructor.
  - cbn [beacon_fields fmap list_fmap fst]. by_decision.
Qed.

Lemma streamer_field a k v out : (k, v) ∈ streamer_fields a -> txtValue txt_find (s_txt (streamer_service a)) k out = v.
Proof using txt_found.
  intros H. unfold txtValue, streamer_service. cbn [s_txt]. rewrite (txt_found _ k v); [done|done| |].
  - by repeat constructor.
  - cbn [streamer_fields fmap list_fmap fst]. by_decision.
Qed.

Lemma beacon_read b host addr : let s := beacon_service b in
  read_speaker txt_find (Some (s_name s)) host (Some addr) (s_port s) (s_txt s) =
    mk_discovered (b_device_id b) addr (b_box_public_key b) (wrap 16 (b_control_port b)) (b_setup_mode b).
Proof using txt_found.
  cbv zeta. unfold read_speaker.
  rewrite (beacon_field b "device_id" (b_device_id b)) by (repeat constructor).
  rewrite (beacon_field b "box_public_key" (b_box_public_key b)) by (repeat constructor).
  rewrite (beacon_field b "setup_mode" (if b_setup_mode b then "1" else "0")) by (repeat constructor).
  by destruct (b_setup_mode b).
Qed.

Lemma streamer_read a host addr : let s := streamer_service a in
  read_streamer txt_find (Some (s_name s)) (Some host) addr (s_port s) (s_txt s) =
    mk_streamer (ad_streamer_id a) host (wrap 16 (ad_port a)) (ad_public_key a).
Proof using txt_found.
  cbv zeta. unfold read_streamer. by rewrite (streamer_field a "public_key" (ad_public_key a)) by (repeat constructor).
Qed.
End RoundTrip.

(** C40: a speaker's beacon reaches the streamer.  When the speaker has published a beacon
    and Avahi reports the service as published, with the address it resolved, during the
    turns the streamer's browse takes, the browse returns the speaker under its own device
    id, at that address, with its own key, control port and setup mode; and a browse takes
    at most its fifty turns, returns what was resolved in them, in order, and stops before
    the last only when the poll loop says so or nothing is left to resolve. *)
Theorem beacon_reaches_streamer (txt_find : list string -> string -> option (option string))
    (ans : PublishAnswers) (b : SpeakerBeacon) (h h' : SpeakerHal) (svc : Service)
    (turns : nat -> list Callback * bool) (host : option string) (addr : string)
  (Htxt : finds_entries txt_find)
  (Hpublished : hal_publishBeacon ans b h = (success, h') /\ published_ h' = Some svc)
  (Hresolved : let '(_, n) := browse_loop (read_speaker txt_find) turns 50 0 (mk_browse [] 0 false) in
     Resolved (Some (s_name svc)) host (Some addr) (s_port svc) (s_txt svc) ∈ made turns n) :
  exists l n, mdns_browseSpeakers txt_find true None true turns = Value l /\
    mk_discovered (b_device_id b) addr (b_box_public_key b) (wrap 16 (b_control_port b)) (b_setup_mode b) ∈ l /\
    (n <= 50)%nat /\ l = omap (resolved_ (read_speaker txt_find)) (made turns n) /\
    (n = 50%nat \/ (exists k, n = S k /\ (turns k).2 = true) \/ open_resolves (made turns n) = 0%Z).
Proof.
  assert (svc = beacon_service b) as ->.
  { destruct Hpublished as [Hp Hs]. revert Hp. unfold hal_publishBeacon. repeat case_match; intros [= <-]; try done.
    by injection Hs as <-. }
  unfold mdns_browseSpeakers, browse. cbn [negb].
  pose proof (browse_loop_spec (read_speaker txt_find) turns 50 0 (mk_browse [] 0 false) ltac:(done)) as Hb.
  destruct (browse_loop (read_speaker txt_find) turns 50 0 (mk_browse [] 0 false)) as [c n]. cbn [fst].
  destruct Hb as (Hn & (H1 & H2 & H3) & Hend). exists (records c), n. split; [done|]. split.
  - rewrite H1. apply list_elem_of_omap. eexists. split; [exact Hresolved|].
    cbn [resolved_]. f_equal. by apply beacon_read.
  - split; [lia|]. split; [done|]. destruct Hend as [->|[?|[_ Hz]]]; [by left|by right; left|]. do 2 right. by rewrite <- H2.
Qed.

(** The strings searched one after the other, by the text before their sign. *)
Fixpoint search_txt (l : list string) (k : string) : option (option string) :=
  match l with
  | [] => None
  | e :: l =>
      match split_at equals_sign e with
      | Some (a, v) => if bool_decide (fold_case a = fold_case k) then Some (Some v) else search_txt l k
      | None => if bool_decide (fold_case e = fold_case k) then Some None else search_txt l k
      end
  end.

Lemma search_finds : finds_entries search_txt.
Proof.
  intros l k v Hin Hkeys Hnd. induction l as [|[k' v'] l IH]; [by apply not_elem_of_nil in Hin|].
  apply Forall_cons in Hkeys as [Hk' Hkeys]. cbn [fmap list_fmap fst] in Hnd. apply NoDup_cons in Hnd as [Hnew Hnd].
  cbn [fmap list_fmap search_txt]. unfold entry at 1. cbn [fst snd] in *. rewrite split_at_app_None by done.
  change (split_at equals_sign ("=" +:+ v')) with (Some (""%string, v')). cbn [fmap option_fmap option_map fst snd].
  rewrite str_app_nil. apply elem_of_cons in Hin as [E|Hin].
  - injection E as -> ->. by rewrite bool_decide_eq_true_2.
  - rewrite bool_decide_eq_false_2; [by apply IH|]. intros E. apply Hnew. rewrite E.
    apply list_elem_of_fmap_2. change k with ((k, v).1). by apply list_elem_of_fmap_2.
Qed.

Definition demo_beacon : SpeakerBeacon := mk_beacon "SPK-1" "" "N3" "1.0" "a2V5" 45455 true.
Definition demo_turns (i : nat) : list Callback * bool :=
  let s := beacon_service demo_beacon in
  match i with
  | O => ([New; AllForNow], false)
  | _ => ([Resolved (Some (s_name s)) None (Some "192.168.1.7"%string) (s_port s) (s_txt s)], false)
  end.

Lemma beacon_reaches_streamer_witness :
  exists l, mdns_browseSpeakers search_txt true None true demo_turns = Value l /\
    mk_discovered "SPK-1" "192.168.1.7" "a2V5" 45455 true ∈ l.
Proof.
  destruct (beacon_reaches_streamer search_txt (mk_publish_answers true None true (0%Z, ""%string) 0) demo_beacon
              (mk_speaker_hal false false false None) (mk_speaker_hal true true true (Some (beacon_service demo_beacon)))
              (beacon_service demo_beacon) demo_turns None "192.168.1.7" search_finds) as (l & n & Hl & Hin & _).
  - split; reflexivity.
  - vm_compute. right. right. left.
  - exists l. split; [exact Hl|exact Hin].
Defined.

(** ** The streamer's advertisement *)

(** The daemon's last word on whether it runs. *)
Fixpoint daemon_runs (runs : bool) (l : list ClientState) : bool :=
  match l with
  | [] => runs
  | SRunning :: l => daemon_runs true l
  | SCollision :: l | SRegistering :: l => daemon_runs false l
  | _ :: l => daemon_runs runs l
  end.

(** While its calls succeed, the streamer is announced exactly while the daemon runs:
    again after every time the daemon was reconfiguring, and once. *)
Lemma announced_while_running a states :
  let ctx := foldl (fun ctx s => clientCallback (mk_add_answers true true true) s ctx) (mk_publish_ctx None a) states in
  (match pc_group ctx with Some (Some (s, committed)) => s = streamer_service a /\ committed = true | _ => True end) /\
  (is_Some (mjoin (pc_group ctx)) <-> daemon_runs false states = true).
Proof.
  cbv zeta. assert (forall g, (match g with Some (Some (s, committed)) => s = streamer_service a /\ committed = true | _ => True end) ->
    let ctx := foldl (fun ctx s => clientCallback (mk_add_answers true true true) s ctx) (mk_publish_ctx g a) states in
    (match pc_group ctx with Some (Some (s, committed)) => s = streamer_service a /\ committed = true | _ => True end) /\
    (is_Some (mjoin (pc_group ctx)) <-> daemon_runs (bool_decide (is_Some (mjoin g))) states = true)) as H; [|by apply H].
  induction states as [|s states IH]; intros g Hg; cbv zeta; cbn [foldl daemon_runs].
  { split; [done|]. by rewrite bool_decide_eq_true. }
  destruct s; cbn [clientCallback pc_group pc_ad]; [|by apply IH| | |by apply IH].
  - destruct g as [[[s c]|]|]; cbn; apply IH; done.
  - destruct g as [[[s c]|]|]; cbn; apply (IH (Some None)) || apply (IH None); done.
  - destruct g as [[[s c]|]|]; cbn; apply (IH (Some None)) || apply (IH None); done.
Qed.

(** A start whose advertisement failed is not tried again: the next start reports success. *)
Lemma failed_start_sticks advertise_ d m s m' :
  sd_mdns d = Some m -> sd_advertising d = false -> advertise_ (sd_ad d) m = (s, m') ->
  let d1 := (sd_start advertise_ d).2 in sd_start advertise_ d1 = (success, d1).
Proof. intros H1 H2 H3. unfold sd_start. by rewrite H1, H2, H3. Qed.
