(* ===== verification/Hardware.v ===== *)
(** * Hardware: the adapters to the speaker's devices

    Models [src/src/amplifier/GpioAmplifierHal.cpp] (the amplifier's lines over libgpiod),
    [src/src/audio/AlsaAudioOutputHal.cpp] and [src/src/microphone/AlsaMicrophoneHal.cpp]
    (the sound devices over ALSA), [src/src/bluetooth/BluetoothctlHal.cpp] (the Bluetooth
    adapter over bluetoothctl and its agent process) and the service of
    [src/src/audio/PlaybackEngine.cpp].  What the libraries, the sound card and the programs
    answer is a class or an argument. *)

From Stdlib Require Import Ascii SpecFloat.
From stdpp Require Import pretty.
From S2P Require Import Prelude Core Json Files Config Audio Amplifier Network Discovery Scanners.

Local Open Scope Z_scope.

(** ** The amplifier's lines *)

Module Gpio.
Inductive Direction := Input | Output.
Inductive LineValue := INACTIVE | ACTIVE | ERROR.

#[export] Instance Direction_eq_dec : EqDecision Direction.
Proof. solve_decision. Defined.
#[export] Instance LineValue_eq_dec : EqDecision LineValue.
Proof. solve_decision. Defined.

(* [src/src/amplifier/GpioAmplifierHal.h:17-24] GpioAmplifierHal::Pins *)
Record Pins := mk_pins
  { chip : string; enable_line : Z; mute_line : Z; fault_line : Z; protect_line : Z; thermal_zone : string }.

Definition board : Pins := mk_pins "gpiochip0" 17 27 22 23 "/sys/class/thermal/thermal_zone0/temp".

(** libgpiod and the file of the thermal zone; a function that gives a handle gives none
    where the library returns a null pointer.  The settings of a line are made of its
    offset, direction and first value. *)
Class Gpiod (W E : Type) := {
  Chip : Type;
  Request : Type;
  chip_open : string -> SW W E (option Chip);
  line_settings_new : SW W E bool;
  line_config_new : SW W E bool;
  request_config_new : SW W E bool;
  add_line_settings : Z -> Direction -> LineValue -> SW W E Z;
  chip_request_lines : Chip -> Z -> Direction -> LineValue -> SW W E (option Request);
  request_set_value : Request -> Z -> LineValue -> SW W E Z;
  request_get_value : Request -> Z -> SW W E LineValue;
  read_zone : string -> SW W E (option string)
}.

Section Gpio.
Context {W E : Type} {L : Gpiod W E}.

(* [src/src/amplifier/GpioAmplifierHal.h:39-44] GpioAmplifierHal *)
Record GpioAmplifierHal := mk_gpio
  { g_sys : W; pins_ : Pins; chip_ : option Chip; enable_req_ : option Request; mute_req_ : option Request;
    fault_req_ : option Request; protect_req_ : option Request }.

(** What the adapter does to the lines: a line granted with its first value, a value set,
    with whether the library took it; and a call on a handle that is not there, which
    crashes the library. *)
Inductive GEffect :=
| GOut (e : E)
| GGranted (offset : Z) (dir : Direction) (v : LineValue)
| GSet (offset : Z) (v : LineValue) (taken : bool)
| GNull.

Abbreviation G := (SW GpioAmplifierHal GEffect).

Definition set_sys (w : W) (g : GpioAmplifierHal) : GpioAmplifierHal :=
  mk_gpio w (pins_ g) (chip_ g) (enable_req_ g) (mute_req_ g) (fault_req_ g) (protect_req_ g).
Definition set_chip (c : option Chip) (g : GpioAmplifierHal) : GpioAmplifierHal :=
  mk_gpio (g_sys g) (pins_ g) c (enable_req_ g) (mute_req_ g) (fault_req_ g) (protect_req_ g).
Definition set_enable (r : option Request) (g : GpioAmplifierHal) : GpioAmplifierHal :=
  mk_gpio (g_sys g) (pins_ g) (chip_ g) r (mute_req_ g) (fault_req_ g) (protect_req_ g).
Definition set_mute (r : option Request) (g : GpioAmplifierHal) : GpioAmplifierHal :=
  mk_gpio (g_sys g) (pins_ g) (chip_ g) (enable_req_ g) r (fault_req_ g) (protect_req_ g).
Definition set_fault (r : option Request) (g : GpioAmplifierHal) : GpioAmplifierHal :=
  mk_gpio (g_sys g) (pins_ g) (chip_ g) (enable_req_ g) (mute_req_ g) r (protect_req_ g).
Definition set_protect (r : option Request) (g : GpioAmplifierHal) : GpioAmplifierHal :=
  mk_gpio (g_sys g) (pins_ g) (chip_ g) (enable_req_ g) (mute_req_ g) (fault_req_ g) r.

Definition on_sys {A} (f : SW W E A) : G A := zoom g_sys set_sys GOut f.

Definition io_error (what : string) : Status := error ErrorCode.IoError what.

(* [src/src/amplifier/GpioAmplifierHal.cpp:22-43] requestLine *)
Definition requestLine (c : Chip) (offset : Z) (dir : Direction) (initial : LineValue) : G (option Request) :=
  settings ← on_sys line_settings_new;
  if negb settings then mret None
  else
    line_cfg ← on_sys line_config_new;
    req_cfg ← on_sys request_config_new;
    if negb (line_cfg && req_cfg) then mret None
    else
      rc ← on_sys (add_line_settings offset dir initial);
      if negb (bool_decide (rc = 0)) then mret None
      else
        req ← on_sys (chip_request_lines c offset dir initial);
        when (bool_decide (is_Some req)) (tell [GGranted offset dir initial]);;
        mret req.

(** A line asked for where it is not held yet. *)
Definition hold (c : Chip) (look : GpioAmplifierHal -> option Request)
    (put_ : option Request -> GpioAmplifierHal -> GpioAmplifierHal)
    (line : Pins -> Z) (dir : Direction) (initial : LineValue) : G unit :=
  g ← get;
  match look g with
  | Some _ => mret ()
  | None => r ← requestLine c (wrap 32 (line (pins_ g))) dir initial; modify (put_ r)
  end.

Definition all_held (g : GpioAmplifierHal) : bool :=
  bool_decide (is_Some (enable_req_ g)) && bool_decide (is_Some (mute_req_ g)) &&
  bool_decide (is_Some (fault_req_ g)) && bool_decide (is_Some (protect_req_ g)).

(** The chip, opened where it is not. *)
(* [src/src/amplifier/GpioAmplifierHal.cpp:60-64] GpioAmplifierHal::ensureOpen *)
Definition open_chip : G (option Chip) :=
  g ← get;
  match chip_ g with
  | Some c => mret (Some c)
  | None => c ← on_sys (chip_open ("/dev/" +:+ chip (pins_ g))); modify (set_chip c);; mret c
  end.

(* [src/src/amplifier/GpioAmplifierHal.cpp:56-82] GpioAmplifierHal::ensureOpen *)
Definition ensureOpen : G Status :=
  g ← get;
  if bool_decide (is_Some (chip_ g)) && all_held g then mret success
  else
    c ← open_chip;
    match c with
    | None => mret (io_error ("gpiod_chip_open /dev/" +:+ chip (pins_ g)))
    | Some c =>
        hold c enable_req_ set_enable enable_line Output INACTIVE;;
        hold c mute_req_ set_mute mute_line Output ACTIVE;;
        hold c fault_req_ set_fault fault_line Input INACTIVE;;
        hold c protect_req_ set_protect protect_line Input INACTIVE;;
        g ← get;
        mret (if all_held g then success else io_error "gpiod line request failed (lines busy?)")
    end.

(** A value put on a line, and a line read, through a handle that may be missing. *)
Definition put_line (r : option Request) (offset : Z) (v : LineValue) : G Z :=
  match r with
  | None => tell [GNull];; mret (-1)
  | Some r => rc ← on_sys (request_set_value r offset v); tell [GSet offset v (0 <=? rc)];; mret rc
  end.

Definition get_line (r : option Request) (offset : Z) : G LineValue :=
  match r with
  | None => tell [GNull];; mret ERROR
  | Some r => on_sys (request_get_value r offset)
  end.

(* [src/src/amplifier/GpioAmplifierHal.cpp:84-92] GpioAmplifierHal::powerOn *)
Definition powerOn : G Status :=
  s ← ensureOpen;
  if negb (status_ok s) then mret s
  else
    g ← get;
    rc ← put_line (enable_req_ g) (wrap 32 (enable_line (pins_ g))) ACTIVE;
    mret (if rc <? 0 then io_error "enable set failed" else success).

(* [src/src/amplifier/GpioAmplifierHal.cpp:94-101] GpioAmplifierHal::powerOff *)
Definition powerOff : G Status :=
  s ← ensureOpen;
  if negb (status_ok s) then mret s
  else
    g ← get;
    put_line (mute_req_ g) (wrap 32 (mute_line (pins_ g))) ACTIVE;;
    put_line (enable_req_ g) (wrap 32 (enable_line (pins_ g))) INACTIVE;;
    mret success.

(* [src/src/amplifier/GpioAmplifierHal.cpp:103-110] GpioAmplifierHal::mute *)
Definition mute (on : bool) : G Status :=
  s ← ensureOpen;
  if negb (status_ok s) then mret s
  else
    g ← get;
    rc ← put_line (mute_req_ g) (wrap 32 (mute_line (pins_ g))) (if on then ACTIVE else INACTIVE);
    mret (if rc <? 0 then io_error "mute set failed" else success).

(** [operator>>] into a 64-bit [long]. *)
Definition read_long (s : string) : option Z :=
  n ← number_of s; if bool_decide (in_signed 64 n) then Some n else None.

(* [src/src/amplifier/GpioAmplifierHal.cpp:112-119] GpioAmplifierHal::readTemperatureCelsius *)
Definition readTemperatureCelsius : G (Result spec_float) :=
  g ← get;
  text ← on_sys (read_zone (thermal_zone (pins_ g)));
  mret (match text with
        | None => Failure (io_error "cannot read thermal zone")
        | Some t =>
            match read_long t with
            | None => Failure (io_error "thermal parse failed")
            | Some millidegrees => Value (fdiv (f_of_Z millidegrees) (f_of_Z 1000))
            end
        end).

(* [src/src/amplifier/GpioAmplifierHal.cpp:121-135] GpioAmplifierHal::readFlags *)
Definition readFlags : G (Result AmplifierFlags) :=
  s ← ensureOpen;
  if negb (status_ok s) then mret (Failure s)
  else
    g ← get;
    f ← get_line (fault_req_ g) (wrap 32 (fault_line (pins_ g)));
    p ← get_line (protect_req_ g) (wrap 32 (protect_line (pins_ g)));
    mret (if bool_decide (f = ERROR) || bool_decide (p = ERROR) then Failure (io_error "gpio read failed")
          else Value (mk_flags (bool_decide (f = INACTIVE)) (bool_decide (p = INACTIVE)) false)).

(** *** What holds of every call *)

Inductive Call := CPowerOn | CPowerOff | CMute (on : bool) | CTemperature | CFlags.

Definition call (c : Call) : G unit :=
  match c with
  | CPowerOn => powerOn;; mret ()
  | CPowerOff => powerOff;; mret ()
  | CMute on => mute on;; mret ()
  | CTemperature => readTemperatureCelsius;; mret ()
  | CFlags => readFlags;; mret ()
  end.

Fixpoint calls (l : list Call) : G unit :=
  match l with [] => mret () | c :: l => call c;; calls l end.

Definition new_gpio (w : W) (p : Pins) : GpioAmplifierHal := mk_gpio w p None None None None None.

Definition enable_of (g : GpioAmplifierHal) : Z := wrap 32 (enable_line (pins_ g)).
Definition mute_of (g : GpioAmplifierHal) : Z := wrap 32 (mute_line (pins_ g)).

(** The effect that opens the amplifier's mouth. *)
Definition unmutes (line : Z) (e : GEffect) : Prop :=
  match e with
  | GGranted o Output v => o = line /\ v <> ACTIVE
  | GSet o v _ => o = line /\ v <> ACTIVE
  | _ => False
  end.

(** A run of the adapter: no call on a missing handle, the amplifier enabled only while its
    mute line is held, which is granted muted, and unmuted only if [open] allows it. *)
Definition safe (open : bool) (g : GpioAmplifierHal) (es : list GEffect) (g' : GpioAmplifierHal) : Prop :=
  pins_ g' = pins_ g /\ GNull ∉ es /\
  (is_Some (mute_req_ g) -> is_Some (mute_req_ g')) /\
  (is_Some (mute_req_ g') -> is_Some (mute_req_ g) \/ GGranted (mute_of g) Output ACTIVE ∈ es) /\
  (forall pre t post, es = pre ++ GSet (enable_of g) ACTIVE t :: post ->
     is_Some (mute_req_ g) \/ GGranted (mute_of g) Output ACTIVE ∈ pre) /\
  (open = false -> enable_of g <> mute_of g -> Forall (fun e => ~ unmutes (mute_of g) e) es).

#[local] Instance safe_run open : RunRel (safe open).
Proof.
  split.
  - intros g. unfold safe. split_and!; [done|apply not_elem_of_nil|done|tauto|by intros [|??] t post [=]|intros; constructor].
  - intros g1 e1 g2 e2 g3 (P1&N1&K1&M1&E1&U1) (P2&N2&K2&M2&E2&U2).
    assert (mute_of g2 = mute_of g1 /\ enable_of g2 = enable_of g1) as [Hm He]
      by (unfold mute_of, enable_of; by rewrite P1).
    rewrite Hm, He in *. unfold safe. split_and!.
    + congruence.
    + rewrite elem_of_app. tauto.
    + tauto.
    + rewrite elem_of_app. tauto.
    + intros pre t post Heq. apply app_eq_inv in Heq as [(k&->&Hk)|(k&->&Hk)].
      * destruct k as [|x k]; cbn in Hk.
        -- destruct (E2 [] t post) as [H|H]; [by rewrite <- Hk|apply M1 in H; by rewrite app_nil_r in H|].
           by apply not_elem_of_nil in H.
        -- injection Hk as <- ->. by apply (E1 pre t k).
      * destruct (E2 k t post Hk) as [H|H]; rewrite elem_of_app; [apply M1 in H|]; tauto.
    + intros Ho Hne. apply Forall_app. split; [by apply U1|apply U2; congruence].
Qed.

Lemma safe_on_sys {A} open (f : SW W E A) : respects (safe open) (on_sys f).
Proof.
  intros g. unfold on_sys, zoom, effects_of at 1, state_after at 1. cbn [fst snd].
  assert (forall x, (forall e, x <> GOut e) -> x ∉ GOut <$> effects_of f (g_sys g)) as Hout.
  { intros x Hx (e&->&_)%list_elem_of_fmap. by apply (Hx e). }
  unfold safe. split_and!; [done|by apply Hout|done|by left| |].
  - intros pre t post Heq. exfalso. apply (Hout (GSet (enable_of g) ACTIVE t)); [done|].
    rewrite Heq, elem_of_app. right. left.
  - intros _ _. apply Forall_fmap, Forall_true. intros e [].
Qed.

Lemma safe_tell open e : (forall g, safe open g [e] g) -> respects (safe open) (tell [e]).
Proof. intros He g. apply He. Qed.

(** An effect that neither calls a missing handle nor enables the amplifier. *)
Lemma safe_one open g e :
  e <> GNull -> (forall t, e <> GSet (enable_of g) ACTIVE t) ->
  (open = false -> enable_of g <> mute_of g -> ~ unmutes (mute_of g) e) -> safe open g [e] g.
Proof.
  intros Hn He Hu. unfold safe. split_and!; [done| |done|by left| |by auto].
  - intros H%list_elem_of_singleton. congruence.
  - intros pre t post Heq. destruct pre as [|x [|??]]; try discriminate. injection Heq as Hx _. by destruct (He t).
Qed.

(** A line that is asked for: the library's own effects, then the grant if there is one. *)
Definition asks (o : Z) (dir : Direction) (v : LineValue) (m : G (option Request)) : Prop :=
  forall g, exists outs w r,
    m g = (r, set_sys w g, (GOut <$> outs) ++ (if r is Some _ then [GGranted o dir v] else [])).

Lemma asks_sys {A} o dir v (f : SW W E A) (k : A -> G (option Request)) :
  (forall a, asks o dir v (k a)) -> asks o dir v (mbind k (on_sys f)).
Proof.
  intros Hk g. unfold mbind, SW_bind, on_sys, zoom. cbn [fst snd].
  destruct (Hk (value_of f (g_sys g)) (set_sys (state_after f (g_sys g)) g)) as (outs&w&r&->).
  exists (effects_of f (g_sys g) ++ outs), w, r. by rewrite fmap_app, <- app_assoc.
Qed.

Lemma asks_none o dir v : asks o dir v (mret None).
Proof. intros g. exists [], (g_sys g), None. by destruct g. Qed.

Lemma requestLine_asks c o dir v : asks o dir v (requestLine c o dir v).
Proof.
  unfold requestLine. apply asks_sys. intros [|]; cbn [negb]; [|apply asks_none].
  do 2 (apply asks_sys; intros ?). destruct (negb _); [apply asks_none|].
  apply asks_sys; intros ?. destruct (negb _); [apply asks_none|].
  apply asks_sys; intros r g. exists [], (g_sys g), r. destruct g. by destruct r.
Qed.

(** A step to a state that differs in the library and in handles only. *)
Lemma safe_grant open g w r o dir v outs (put_ : option Request -> GpioAmplifierHal -> GpioAmplifierHal) :
  (forall g, pins_ (put_ r g) = pins_ g) ->
  mute_req_ (put_ r (set_sys w g)) = mute_req_ g \/
    mute_req_ g = None /\ mute_req_ (put_ r (set_sys w g)) = r /\ o = mute_of g /\ dir = Output /\ v = ACTIVE ->
  (dir = Output -> o = mute_of g -> v = ACTIVE \/ enable_of g = mute_of g) ->
  safe open g ((GOut <$> outs) ++ (if r is Some _ then [GGranted o dir v] else [])) (put_ r (set_sys w g)).
Proof.
  intros Hp Hm Hv.
  assert (forall x, x ∈ (GOut <$> outs) ++ (if r is Some _ then [GGranted o dir v] else []) ->
    (exists e, x = GOut e) \/ (x = GGranted o dir v /\ is_Some r)) as Hin.
  { intros x [(e&->&_)%list_elem_of_fmap|Hx]%elem_of_app; [by left; eexists|]. right.
    destruct r; [apply list_elem_of_singleton in Hx; by split|by apply not_elem_of_nil in Hx]. }
  unfold safe. split_and!.
  - by rewrite Hp.
  - intros [(e&?)|(?&_)]%Hin; discriminate.
  - destruct Hm as [->|(->&_)]; [done|by intros [??]].
  - destruct Hm as [->|(_&->&->&->&->)]; [by left|]. intros [q ->]. right. apply elem_of_app. right. left.
  - intros pre t post Heq. exfalso.
    destruct (Hin (GSet (enable_of g) ACTIVE t)) as [(e&?)|(?&_)]; [|discriminate..].
    rewrite Heq, elem_of_app. right. left.
  - intros _ Hne. apply Forall_forall. intros x Hx Hu. apply Hin in Hx as [(e&->)|(->&_)]; [done|].
    destruct dir; cbn in Hu; [done|]. destruct Hu as [Ho Hu]. destruct (Hv eq_refl Ho); auto.
Qed.

Lemma hold_safe open c look put_ line dir v g :
  (forall r g, pins_ (put_ r g) = pins_ g) ->
  (forall r w, mute_req_ (put_ r (set_sys w g)) = mute_req_ g \/
     mute_req_ g = look g /\ mute_req_ (put_ r (set_sys w g)) = r /\ wrap 32 (line (pins_ g)) = mute_of g /\
     dir = Output /\ v = ACTIVE) ->
  (dir = Output -> v = ACTIVE \/ wrap 32 (line (pins_ g)) = enable_of g) ->
  safe open g (effects_of (hold c look put_ line dir v) g) (state_after (hold c look put_ line dir v) g).
Proof.
  intros Hp Hm Hv. unfold effects_of, state_after, hold, mbind, SW_bind, get, modify.
  destruct (look g) eqn:Hl; [apply (run_refl (RunRel := safe_run open))|].
  destruct (requestLine_asks c (wrap 32 (line (pins_ g))) dir v g) as (outs&w&r&Hr).
  rewrite Hr. cbn [fst snd app]. rewrite app_nil_r.
  apply safe_grant; [by intros; apply Hp| |].
  - destruct (Hm r w) as [H|(H1&H2&H3&H4&H5)]; [by left|]. right. rewrite H1. auto.
  - intros Hd Ho. destruct (Hv Hd) as [?|He]; [by left|]. right. congruence.
Qed.

Lemma open_chip_safe open : respects (safe open) open_chip.
Proof.
  unfold open_chip. apply respects_bind; [apply _|apply respects_get; apply _|]. intros g.
  destruct (chip_ g); [apply respects_ret; apply _|].
  apply respects_bind; [apply _|apply safe_on_sys|]. intros c.
  apply respects_bind; [apply _| |intros; apply respects_ret; apply _].
  apply respects_modify. intros g0. unfold safe. split_and!; [done|apply not_elem_of_nil|done|by left| |].
  - by intros [|??] t post [=].
  - intros. constructor.
Qed.
#[local] Hint Resolve open_chip_safe : runs.

Lemma ensureOpen_safe open : respects (safe open) ensureOpen.
Proof.
  unfold ensureOpen. apply respects_bind; [apply _|apply respects_get; apply _|]. intros g.
  destruct (_ && _); [apply respects_ret; apply _|].
  apply respects_bind; [apply _|apply open_chip_safe|]. intros [c|]; [|apply respects_ret; apply _].
  apply respects_bind; [apply _|intros g'; apply hold_safe; [done|by left|by right]|intros _].
  apply respects_bind; [apply _|intros g'; apply hold_safe; [done| |by left]|intros _].
  { intros r w. by right. }
  do 2 (apply respects_bind; [apply _|intros g'; apply hold_safe; [done|by left|done]|intros _]).
  apply respects_bind; [apply _|apply respects_get; apply _|intros; apply respects_ret; apply _].
Qed.

Lemma ensureOpen_held g :
  status_ok (value_of ensureOpen g) = true -> all_held (state_after ensureOpen g) = true.
Proof.
  unfold value_of, state_after, ensureOpen. rewrite !get_bind_run.
  destruct (_ && _) eqn:Hopen; [intros _; by apply andb_true_iff in Hopen as [_ ?]|].
  unfold mbind, SW_bind, mret, SW_ret.
  destruct (open_chip g) as [[[c|] g1] e1]; [|done]. cbn [get].
  repeat (destruct (hold _ _ _ _ _ _ _) as [[[] ?] ?]). cbn [fst snd].
  match goal with |- _ -> all_held ?x = _ => by destruct (all_held x) end.
Qed.

Lemma put_line_safe open r o v g :
  is_Some r -> (v = ACTIVE -> is_Some (mute_req_ g)) ->
  (open = false -> enable_of g <> mute_of g -> o = mute_of g -> v = ACTIVE) ->
  safe open g (effects_of (put_line r o v) g) (state_after (put_line r o v) g).
Proof.
  intros [q ->] Ha Hu. unfold put_line. rewrite effects_of_bind, state_after_bind.
  eapply (run_trans (RunRel := safe_run open)); [apply safe_on_sys|].
  unfold mbind, SW_bind, tell, effects_of, state_after. cbn [fst snd mret SW_ret app].
  unfold on_sys, zoom. cbn [fst snd].
  set (t := (0 <=? _)). clearbody t. set (g' := set_sys _ g).
  assert (is_Some (mute_req_ g') = is_Some (mute_req_ g) /\ mute_of g' = mute_of g /\ enable_of g' = enable_of g)
    as (Hm&Ho&He) by done.
  unfold safe. split_and!; [done| |done|by left| |].
  - intros H%list_elem_of_singleton. discriminate.
  - intros pre t' post Heq. destruct pre as [|x [|??]]; try discriminate. injection Heq as Hx -> Ht _.
    left. by apply Ha.
  - intros Hf Hne. rewrite Forall_singleton. intros [Hx Hv]. by apply Hv, Hu.
Qed.

Lemma put_line_pins r o v g : pins_ (state_after (put_line r o v) g) = pins_ g.
Proof. by destruct r. Qed.

Lemma get_line_safe open r o g :
  is_Some r -> safe open g (effects_of (get_line r o) g) (state_after (get_line r o) g).
Proof. intros [q ->]. apply safe_on_sys. Qed.

Lemma all_held_some g : all_held g = true ->
  is_Some (enable_req_ g) /\ is_Some (mute_req_ g) /\ is_Some (fault_req_ g) /\ is_Some (protect_req_ g).
Proof. unfold all_held. rewrite !andb_true_iff, !bool_decide_eq_true. tauto. Qed.

(** A call that goes on only with every line held. *)
Lemma guarded_safe {A} open (f : Status -> A) (k : GpioAmplifierHal -> G A) :
  (forall g, all_held g = true -> safe open g (effects_of (k g) g) (state_after (k g) g)) ->
  respects (safe open) (s ← ensureOpen; if negb (status_ok s) then mret (f s) else g ← get; k g).
Proof.
  intros Hk g. rewrite effects_of_bind, state_after_bind.
  eapply (run_trans (RunRel := safe_run open)); [apply ensureOpen_safe|].
  destruct (status_ok (value_of ensureOpen g)) eqn:Hs; cbn [negb];
    [|apply (respects_ret (safe open))].
  unfold effects_of, state_after. rewrite get_bind_run. by apply Hk, ensureOpen_held.
Qed.

Lemma ret_safe {A} open (m : G A) g B (h : A -> B) :
  safe open g (effects_of m g) (state_after m g) ->
  safe open g (effects_of (a ← m; mret (h a)) g) (state_after (a ← m; mret (h a)) g).
Proof.
  intros Hm. rewrite effects_of_bind, state_after_bind. cbn [effects_of state_after mret SW_ret fst snd].
  by rewrite app_nil_r.
Qed.

Lemma call_safe open c : (open = false -> c <> CMute false) -> respects (safe open) (call c).
Proof.
  intros Hc. destruct c as [| |on| |]; cbn [call]; intros g; apply ret_safe; revert g.
  - apply guarded_safe. intros g Hg. apply all_held_some in Hg as (?&?&_). by apply ret_safe, put_line_safe.
  - apply guarded_safe. intros g Hg. apply all_held_some in Hg as (?&?&_).
    rewrite effects_of_bind, state_after_bind.
    eapply (run_trans (RunRel := safe_run open)); [by apply put_line_safe|].
    apply ret_safe, put_line_safe; [done|done|].
    intros _ Hne He. exfalso. apply Hne. rewrite <- He. unfold enable_of. by rewrite put_line_pins.
  - apply guarded_safe. intros g Hg. apply all_held_some in Hg as (?&?&_). apply ret_safe, put_line_safe; auto.
    intros Ho _ _. destruct on; [done|by destruct (Hc Ho)].
  - intros g. unfold readTemperatureCelsius, effects_of, state_after. rewrite get_bind_run.
    apply ret_safe, safe_on_sys.
  - apply guarded_safe. intros g Hg. apply all_held_some in Hg as (?&?&?&?).
    rewrite effects_of_bind, state_after_bind.
    eapply (run_trans (RunRel := safe_run open)); [by apply get_line_safe|]. by apply ret_safe, get_line_safe.
Qed.

Lemma calls_safe open l : (open = false -> CMute false ∉ l) -> respects (safe open) (calls l).
Proof.
  induction l as [|c l IH]; intros Hl; cbn [calls]; [apply respects_ret; apply _|].
  apply respects_bind; [apply _| |intros _].
  - apply call_safe. intros Ho ->. apply (Hl Ho). left.
  - apply IH. intros Ho Hin. apply (Hl Ho). by right.
Qed.

(** The amplifier stays shut until it is told to speak: from a new adapter, whatever the
    library answers and whatever is called, no call is made on a handle that is missing;
    the amplifier is enabled only after its mute line has been granted, muted; and without
    an unmute nothing but muted is ever put on that line. *)
Lemma amplifier_shut_until_unmuted l w p :
  let g := new_gpio w p in
  let es := effects_of (calls l) g in
  GNull ∉ es /\
  (forall pre t post, es = pre ++ GSet (enable_of g) ACTIVE t :: post ->
     GGranted (mute_of g) Output ACTIVE ∈ pre) /\
  (CMute false ∉ l -> enable_of g <> mute_of g -> Forall (fun e => ~ unmutes (mute_of g) e) es).
Proof.
  intros g es. destruct (calls_safe true l) with (s := g) as (_&Hn&_&_&He&_); [done|].
  split_and!; [done| |].
  - intros pre t post Heq. destruct (He pre t post Heq) as [[q Hq]|]; [discriminate|done].
  - intros Hl. destruct (calls_safe false l) with (s := g) as (_&_&_&_&_&Hu); [done|]. by apply Hu.
Qed.
End Gpio.

(** A board whose chip opens and whose lines are all free. *)
Section Demo.
#[local] Instance bench : Gpiod unit string := {
  Chip := unit; Request := Z;
  chip_open := fun path => tell [path];; mret (Some ());
  line_settings_new := mret true; line_config_new := mret true; request_config_new := mret true;
  add_line_settings := fun _ _ _ => mret 0;
  chip_request_lines := fun _ o _ _ => mret (Some o);
  request_set_value := fun _ _ _ => mret 0;
  request_get_value := fun r _ => mret (if r =? 22 then INACTIVE else ACTIVE);
  read_zone := fun _ => mret (Some "  43250")
}.

Example first_power_on :
  effects_of (calls [CPowerOn; CMute false]) (new_gpio () board) =
    [GOut "/dev/gpiochip0"; GGranted 17 Output INACTIVE; GGranted 27 Output ACTIVE; GGranted 22 Input INACTIVE;
     GGranted 23 Input INACTIVE; GSet 17 ACTIVE true; GSet 27 INACTIVE true].
Proof. reflexivity. Qed.

Example fault_line_down : value_of readFlags (new_gpio () board) = Value (mk_flags true false false).
Proof. reflexivity. Qed.

Example shut_until_unmuted_holds :
  let es := effects_of (calls [CPowerOn; CMute true; CPowerOff]) (new_gpio () board) in
  CMute false ∉ [CPowerOn; CMute true; CPowerOff] /\ Forall (fun e => ~ unmutes 27 e) es.
Proof.
  assert (CMute false ∉ [CPowerOn; CMute true; CPowerOff]) as Hl
    by (rewrite !not_elem_of_cons; split_and!; try discriminate; apply not_elem_of_nil).
  split; [done|]. by apply (amplifier_shut_until_unmuted [CPowerOn; CMute true; CPowerOff] () board).
Qed.
End Demo.
End Gpio.

(** ** The sound devices *)

Module Alsa.
Section Alsa.
Variable snd_strerror : Z -> string.

(* [src/src/audio/AlsaAudioOutputHal.h:26-28] AlsaAudioOutputHal *)
Record AlsaOutput := mk_alsa { device_ : string; pcm_ : bool; channels_ : Z }.

(** What is asked of the library. *)
Inductive AlsaEffect :=
| AOpen (device : string)
| AParams (channels rate latency_us : Z)
| ADrain
| AClose.

Definition set_pcm (b : bool) (o : AlsaOutput) : AlsaOutput := mk_alsa (device_ o) b (channels_ o).

Definition alsa_error (what : string) (err : Z) : Status :=
  error ErrorCode.IoError (what +:+ ": " +:+ snd_strerror err).

(** The latency asked for, in microseconds: 80 ms of whole frames, in unsigned
    arithmetic. *)
(* [src/src/audio/AlsaAudioOutputHal.cpp:28-37] AlsaAudioOutputHal::open *)
Definition latency_us (sample_rate : Z) : Z :=
  let buffer_frames := wrap 64 (wrap 64 sample_rate * 80) / 1000 in
  wrap 32 (wrap 64 (buffer_frames * 1000000) / wrap 32 sample_rate).

(** [opened] and [params] are what [snd_pcm_open] and [snd_pcm_set_params] answer. *)
(* [src/src/audio/AlsaAudioOutputHal.cpp:17-47] AlsaAudioOutputHal::open *)
Definition output_open (opened params sample_rate channels : Z) : SW AlsaOutput AlsaEffect Status :=
  modify (fun o => mk_alsa (device_ o) (pcm_ o) channels);;
  o ← get;
  tell [AOpen (device_ o)];;
  if opened <? 0 then
    modify (set_pcm false);; mret (alsa_error ("snd_pcm_open('" +:+ device_ o +:+ "')") opened)
  else
    modify (set_pcm true);;
    tell [AParams (wrap 32 channels) (wrap 32 sample_rate) (latency_us sample_rate)];;
    if params <? 0 then
      tell [AClose];; modify (set_pcm false);; mret (alsa_error "snd_pcm_set_params" params)
    else mret success.

(* [src/src/audio/AlsaAudioOutputHal.cpp:49-56] AlsaAudioOutputHal::close *)
Definition output_close : SW AlsaOutput AlsaEffect Status :=
  o ← get;
  when (pcm_ o) (tell [ADrain; AClose];; modify (set_pcm false));;
  mret success.

(** [written] is what [snd_pcm_writei] answers, [recovered] what [snd_pcm_recover] does. *)
(* [src/src/audio/AlsaAudioOutputHal.cpp:58-71] AlsaAudioOutputHal::write *)
Definition output_write (written recovered : Z) (o : AlsaOutput) : Result Z :=
  if negb (pcm_ o) then Failure (error ErrorCode.IoError "output not open")
  else if written <? 0 then
    if recovered <? 0 then Failure (alsa_error "snd_pcm_writei" recovered) else Value 0
  else Value written.

(** *** The microphone *)

(* [src/src/microphone/AlsaMicrophoneHal.h:24-26] AlsaMicrophoneHal *)
Record AlsaMicrophone := mk_alsa_mic { mic_device_ : string; sample_rate_ : Z; mic_pcm_ : bool }.

Definition set_mic_pcm (b : bool) (m : AlsaMicrophone) : AlsaMicrophone :=
  mk_alsa_mic (mic_device_ m) (sample_rate_ m) b.

(* [src/src/microphone/AlsaMicrophoneHal.cpp:18-35] AlsaMicrophoneHal::open *)
Definition microphone_open (opened params : Z) : SW AlsaMicrophone AlsaEffect Status :=
  m ← get;
  tell [AOpen (mic_device_ m)];;
  if opened <? 0 then modify (set_mic_pcm false);; mret (alsa_error "snd_pcm_open" opened)
  else
    modify (set_mic_pcm true);;
    tell [AParams 1 (wrap 32 (sample_rate_ m)) 100000];;
    if params <? 0 then
      tell [AClose];; modify (set_mic_pcm false);; mret (alsa_error "snd_pcm_set_params" params)
    else mret success.

(* [src/src/microphone/AlsaMicrophoneHal.cpp:37-43] AlsaMicrophoneHal::close *)
Definition microphone_close : SW AlsaMicrophone AlsaEffect Status :=
  m ← get;
  when (mic_pcm_ m) (tell [AClose];; modify (set_mic_pcm false));;
  mret success.

(** A read: the samples that arrived, or an error and what the recovery from it answers. *)
Inductive PcmRead := Frames (l : list Z) | Broken (recovered : Z).

(** [None] while the loop waits for an answer of the device. *)
(* [src/src/microphone/AlsaMicrophoneHal.cpp:47-61] AlsaMicrophoneHal::capture *)
Fixpoint read_loop (reads : list PcmRead) (frames : nat) (got : list Z) : option (Result (list Z)) :=
  if (frames <=? length got)%nat then Some (Value got)
  else
    match reads with
    | [] => None
    | Frames l :: reads => read_loop reads frames (got ++ l)
    | Broken recovered :: reads =>
        if recovered <? 0 then Some (Failure (alsa_error "snd_pcm_readi" recovered))
        else read_loop reads frames got
    end.

(* [src/src/microphone/AlsaMicrophoneHal.cpp:45-62] AlsaMicrophoneHal::capture *)
Definition microphone_capture (reads : list PcmRead) (frames : nat) (m : AlsaMicrophone) : option (Result (list Z)) :=
  if negb (mic_pcm_ m) then Some (Failure (error ErrorCode.IoError "mic not open"))
  else read_loop reads frames [].

(** *** What holds of the devices *)

(** The samples the reads brought. *)
Definition arrived (reads : list PcmRead) : list Z :=
  mjoin ((fun r => match r with Frames l => l | Broken _ => [] end) <$> reads).

(** The library never gives more than it was asked for, and an error it recovers from
    costs no sample. *)
Fixpoint answers (reads : list PcmRead) (wanted : nat) : Prop :=
  match reads with
  | [] => True
  | Frames l :: reads => (length l <= wanted)%nat /\ answers reads (wanted - length l)
  | Broken recovered :: reads => 0 <= recovered /\ answers reads wanted
  end.

Lemma arrived_frames l reads : arrived (Frames l :: reads) = l ++ arrived reads.
Proof. done. Qed.

Lemma arrived_broken r reads : arrived (Broken r :: reads) = arrived reads.
Proof. done. Qed.

Lemma nothing_left reads : answers reads 0 -> arrived reads = [].
Proof.
  induction reads as [|[k|r] reads IH]; cbn [answers]; [done|intros [Hk Hr]..].
  - rewrite arrived_frames. destruct k; [|cbn in Hk; lia]. by apply IH.
  - rewrite arrived_broken. by apply IH.
Qed.

Lemma read_loop_fills reads frames got :
  answers reads (frames - length got) -> (length got <= frames)%nat ->
  read_loop reads frames got =
    (if (frames <=? length got + length (arrived reads))%nat then Some (Value (got ++ arrived reads)) else None).
Proof.
  revert got. induction reads as [|[l|rc] reads IH]; intros got Ha Hg; cbn [read_loop].
  - change (arrived []) with (@nil Z). cbn [length]. rewrite Nat.add_0_r, app_nil_r. by destruct (_ <=? _)%nat.
  - destruct Ha as [Hl Ha]. rewrite arrived_frames, length_app.
    destruct (Nat.leb_spec frames (length got)) as [Hf|Hf].
    + assert (l = []) as -> by (destruct l; [done|cbn in Hl; lia]). cbn [length app] in Ha |- *.
      rewrite (nothing_left reads); [|by replace 0%nat with (frames - length got - 0)%nat by lia].
      cbn [length]. rewrite app_nil_r, !Nat.add_0_r. by rewrite (proj2 (Nat.leb_le _ _) Hf).
    + rewrite IH; rewrite ?length_app; [|by rewrite Nat.sub_add_distr|lia].
      by rewrite Nat.add_assoc, app_assoc.
  - destruct Ha as [Hr Ha]. rewrite arrived_broken.
    destruct (Nat.leb_spec frames (length got)) as [Hf|Hf].
    + rewrite <- (IH got) by done. destruct reads as [|r reads]; cbn [read_loop]; by rewrite (proj2 (Nat.leb_le _ _) Hf).
    + rewrite (proj2 (Z.ltb_ge rc 0)) by lia. by apply IH.
Qed.

(** A capture gives exactly the samples the device delivered, as many as were asked for, and
    returns as soon as it has them. *)
Lemma capture_gives_what_arrived reads frames m :
  mic_pcm_ m = true -> answers reads frames -> length (arrived reads) = frames ->
  microphone_capture reads frames m = Some (Value (arrived reads)).
Proof.
  intros Hm Ha Hl. unfold microphone_capture. rewrite Hm. cbn [negb].
  rewrite read_loop_fills; cbn [length app]; [|by rewrite Nat.sub_0_r|lia].
  by rewrite Hl, Nat.leb_refl.
Qed.
End Alsa.

Example latency_48k : latency_us 48000 = 80000.
Proof. reflexivity. Qed.

(** An underrun costs the block, not the device. *)
Example underrun_recovers : output_write (fun _ => "") (-32) 0 (mk_alsa "default" true 2) = Value 0.
Proof. reflexivity. Qed.
End Alsa.

(** ** The playback service *)

Module Playback.

(** The engine: the device its output was built for, if it was, the player and whether it
    has the DSP hook, and its thread. *)
(* [src/src/audio/PlaybackEngine.h:47-60] PlaybackEngine *)
Record PlaybackEngine := mk_playback
  { output_ : option string; pb_ : option (Player * bool); has_hook : bool; running_ : bool; thread_ : bool;
    play_state : ServiceState }.

Definition new_playback : PlaybackEngine := mk_playback None None false false false ServiceState.Stopped.

Inductive PlayEffect := POpen (device : string) | PClose | PThread | PJoin | PTerminate.

Definition set_thread (running thread : bool) (s : ServiceState) (p : PlaybackEngine) : PlaybackEngine :=
  mk_playback (output_ p) (pb_ p) (has_hook p) running thread s.

(* [src/src/audio/PlaybackEngine.cpp:18-25] makeDefaultOutput *)
Definition makeDefaultOutput (device : string) : string := if String.eqb device "" then "default" else device.

(* [src/src/audio/PlaybackEngine.cpp:41-44] PlaybackEngine::setDspHook *)
Definition setDspHook : SW PlaybackEngine PlayEffect unit :=
  modify (fun p => mk_playback (output_ p) (prod_map id (fun _ => true) <$> pb_ p) true (running_ p) (thread_ p)
                     (play_state p)).

(** [fresh] is the player over the application's buffer and clock, [opened] what the device
    answers.  A thread put over one that still runs ends the process. *)
(* [src/src/audio/PlaybackEngine.cpp:46-66] PlaybackEngine::start *)
Definition playback_start (output_device : string) (fresh : Player) (opened : Status) :
  SW PlaybackEngine PlayEffect Status :=
  modify (fun p => mk_playback (Some (default (makeDefaultOutput output_device) (output_ p)))
                     (Some (default (fresh, has_hook p) (pb_ p))) (has_hook p) (running_ p) (thread_ p) (play_state p));;
  p ← get;
  tell [POpen (default "" (output_ p))];;
  if negb (status_ok opened) then
    modify (set_thread (running_ p) (thread_ p) ServiceState.Degraded);; mret opened
  else
    when (thread_ p) (tell [PTerminate]);;
    modify (set_thread true true ServiceState.Running);;
    tell [PThread];;
    mret success.

(* [src/src/audio/PlaybackEngine.cpp:94-100] PlaybackEngine::stop *)
Definition playback_stop : SW PlaybackEngine PlayEffect Status :=
  p ← get;
  when (thread_ p) (tell [PJoin]);;
  when (bool_decide (is_Some (pb_ p))) (tell [PClose]);;
  modify (fun p => mk_playback (output_ p) (prod_map (set_started false) id <$> pb_ p) (has_hook p) false false
                     ServiceState.Stopped);;
  mret success.

(* [src/src/audio/PlaybackEngine.cpp:102-102] PlaybackEngine::framesPlayed *)
Definition framesPlayed (p : PlaybackEngine) : Z := from_option (fun pb => frames_played_ pb.1) 0 (pb_ p).

(** The device keeps being fed: a round of the thread either plays a packet, and counts what
    the device took of it, or ends with a block of ten milliseconds of silence. *)
Lemma every_round_feeds env sample_rate channels p :
  let es := effects_of (loop_round env sample_rate channels) p in
  let p' := state_after (loop_round env sample_rate channels) p in
  (exists pcm frames n, es = [OutputWrite pcm frames] /\ write_out env pcm frames = Value n /\ 0 < n /\
     frames_played_ p' = wrap 64 (frames_played_ p + n)) \/
  (exists tried, es = tried ++ [OutputWrite (replicate (Z.to_nat (sample_rate / 100 * channels)) 0) (sample_rate / 100)] /\
     (length tried <= 1)%nat).
Proof.
  intros es p'. subst es p'. unfold loop_round, effects_of, state_after, mbind, SW_bind.
  rewrite step_run. unfold step_result.
  destruct (negb (started_ p) && negb (ready (buffer_ p))); [right; exists []; split; [done|cbn; lia]|].
  destruct (hold_back env p); [right; exists []; split; [done|cbn; lia]|].
  destruct (queue_ (buffer_ p)) as [|pkt r]; [right; exists []; split; [done|cbn; lia]|].
  destruct (render env pkt) as [pcm frames]. destruct (write_out env pcm frames) as [n|e] eqn:Hw.
  2:{ right. exists [OutputWrite pcm frames]. split; [done|cbn; lia]. }
  destruct (Z.ltb_spec 0 n); cbn [negb when tell mret SW_ret fst snd app].
  - left. by exists pcm, frames, n.
  - right. exists [OutputWrite pcm frames]. split; [done|cbn; lia].
Qed.

(** A service that was stopped starts again on the player it had; one started twice would
    take the process down. *)
Example restart_keeps_player pl :
  effects_of (playback_start "hw:0" pl success;; playback_stop;; playback_start "hw:1" pl success) new_playback =
    [POpen "hw:0"; PThread; PJoin; PClose; POpen "hw:0"; PThread].
Proof. reflexivity. Qed.

Example start_twice_terminates pl :
  effects_of (playback_start "" pl success;; playback_start "" pl success) new_playback =
    [POpen "default"; PThread; POpen "default"; PTerminate; PThread].
Proof. reflexivity. Qed.
End Playback.

(** ** The Bluetooth adapter *)

Module Bluetoothctl.

(** What the operating system answers: the output of a command and the status of its
    process, where it could be started; the two ends of a pipe; the child of a fork. *)
Class Processes (W E : Type) := {
  popen : string -> SW W E (option (string * Z));
  pipe : SW W E (option (Z * Z));
  fork : SW W E Z
}.

Section Bluetoothctl.
Context {W E : Type} {P : Processes W E}.

(* [src/src/bluetooth/BluetoothctlHal.h:39-40] BluetoothctlHal *)
Record BluetoothctlHal := mk_btctl { bt_sys : W; agent_pid_ : Z; agent_stdin_ : Z }.

Inductive BtEffect :=
| BtOut (e : E)
| BtChild (pid : Z)
| BtOpened (fd : Z)
| BtClosed (fd : Z)
| BtWrote (fd : Z) (text : string)
| BtKilled (pid : Z)
| BtReaped (pid : Z).

Abbreviation Bt := (SW BluetoothctlHal BtEffect).

Definition set_bt_sys (w : W) (b : BluetoothctlHal) : BluetoothctlHal := mk_btctl w (agent_pid_ b) (agent_stdin_ b).
Definition set_agent (pid fd : Z) (b : BluetoothctlHal) : BluetoothctlHal := mk_btctl (bt_sys b) pid fd.
Definition on_os {A} (f : SW W E A) : Bt A := zoom bt_sys set_bt_sys BtOut f.

(** Where a text occurs in another, if it does. *)
Definition find_text (what s : string) : option nat := String.index 0 what s.
Definition says (what s : string) : bool := bool_decide (is_Some (find_text what s)).

Definition newline_ : ascii := ascii_of_nat 10.

(* [src/src/bluetooth/BluetoothctlHal.cpp:40-50] BluetoothctlHal::btctl *)
Definition btctl (args : string) : Bt (Z * string) :=
  r ← on_os (popen ("bluetoothctl " +:+ args +:+ " 2>&1"));
  mret (match r with
        | None => (127, "")
        | Some (out, st) => (if st =? -1 then 127 else Z.land (Z.shiftr st 8) 255, out)
        end).

Definition agent_commands : string :=
  "agent NoInputNoOutput" +:+ String newline_ ("default-agent" +:+ String newline_ "").

(** The child runs bluetoothctl on the read end of the pipe. *)
(* [src/src/bluetooth/BluetoothctlHal.cpp:109-148] BluetoothctlHal::startAgent *)
Definition startAgent : Bt unit :=
  b ← get;
  if 0 <? agent_pid_ b then mret ()
  else
    fds ← on_os pipe;
    match fds with
    | None => mret ()
    | Some (rd, wr) =>
        tell [BtOpened rd; BtOpened wr];;
        pid ← on_os fork;
        if pid <? 0 then tell [BtClosed rd; BtClosed wr]
        else
          tell [BtChild pid; BtClosed rd; BtWrote wr agent_commands];;
          modify (set_agent pid wr)
    end.

(* [src/src/bluetooth/BluetoothctlHal.cpp:150-160] BluetoothctlHal::stopAgent *)
Definition stopAgent : Bt unit :=
  b ← get;
  if agent_pid_ b <=? 0 then mret ()
  else
    when (0 <=? agent_stdin_ b) (tell [BtClosed (agent_stdin_ b)];; modify (set_agent (agent_pid_ b) (-1)));;
    tell [BtKilled (agent_pid_ b); BtReaped (agent_pid_ b)];;
    modify (fun b => set_agent (-1) (agent_stdin_ b) b).

(* [src/src/bluetooth/BluetoothctlHal.cpp:52-72] BluetoothctlHal::enableSink *)
Definition bt_enableSink (alias : string) : Bt Status :=
  list_ ← btctl "list";
  if negb (list_.1 =? 0) || negb (says "Controller" list_.2)
  then mret (error ErrorCode.IoError "no Bluetooth controller")
  else
    btctl "power on";;
    btctl ("system-alias " +:+ shq alias);;
    btctl "discoverable-timeout 0";;
    btctl "pairable on";;
    btctl "discoverable on";;
    startAgent;;
    show ← btctl "show";
    mret (if says "Powered: yes" show.2 && says "Discoverable: yes" show.2 then success
          else error ErrorCode.Unknown "adapter state uncertain after setup").

(* [src/src/bluetooth/BluetoothctlHal.cpp:74-80] BluetoothctlHal::openPairingWindow *)
Definition bt_pairing_window (seconds : Z) : Bt Status :=
  btctl ("discoverable-timeout " +:+ pretty seconds);;
  btctl "pairable on";;
  btctl "discoverable on";;
  b ← get;
  when (agent_pid_ b <=? 0) startAgent;;
  mret success.

(* [src/src/bluetooth/BluetoothctlHal.cpp:82-87] BluetoothctlHal::disable *)
Definition bt_off : Bt Status :=
  btctl "discoverable off";;
  btctl "pairable off";;
  stopAgent;;
  mret success.

(** The name on the line of a connected device: what follows "Device ", the address and a
    space. *)
(* [src/src/bluetooth/BluetoothctlHal.cpp:99-105] BluetoothctlHal::status *)
Definition connected_name (out : string) (pos : nat) : string :=
  let tail := str_drop pos out in
  let line := match split_at newline_ tail with Some (l, _) => l | None => tail end in
  if (25 <? String.length line)%nat then str_drop 25 line else "".

(* [src/src/bluetooth/BluetoothctlHal.cpp:89-107] BluetoothctlHal::status *)
Definition bt_read_status : Bt (Result BluetoothStatus) :=
  show ← btctl "show";
  let available := if (show.1 =? 0) && negb (says "Controller" show.2) then says "Powered:" show.2
                   else says "Powered:" show.2 in
  let discoverable := says "Discoverable: yes" show.2 in
  dev ← btctl "devices Connected";
  mret (Value (match find_text "Device " dev.2 with
               | Some pos => if dev.1 =? 0 then mk_bt_status available discoverable true (connected_name dev.2 pos)
                             else mk_bt_status available discoverable false ""
               | None => mk_bt_status available discoverable false ""
               end)).

(* [src/src/bluetooth/BluetoothctlHal.cpp:38-38] BluetoothctlHal::~BluetoothctlHal *)
Definition bt_destroy : Bt unit := stopAgent.

(** The adapter is what the Bluetooth manager works with. *)
#[export] Instance bluetoothctl_hal : BluetoothHal BluetoothctlHal BtEffect := {
  enableSink := bt_enableSink;
  hal_pairing_window := bt_pairing_window;
  bt_disable := bt_off;
  bt_status := bt_read_status
}.

(** *** The agent *)

(** The children that live and the pipe ends that are open after a run, and before it. *)
Fixpoint living (l : list Z) (es : list BtEffect) : list Z :=
  match es with
  | [] => l
  | BtChild pid :: es => living (pid :: l) es
  | BtReaped pid :: es => living (filter (fun x => x <> pid) l) es
  | _ :: es => living l es
  end.

Fixpoint open_ends (l : list Z) (es : list BtEffect) : list Z :=
  match es with
  | [] => l
  | BtOpened fd :: es => open_ends (fd :: l) es
  | BtClosed fd :: es => open_ends (filter (fun x => x <> fd) l) es
  | _ :: es => open_ends l es
  end.

(** What the adapter holds: no agent, or one child with the write end of its pipe. *)
Definition holds (b : BluetoothctlHal) : list Z * list Z :=
  if 0 <? agent_pid_ b then ([agent_pid_ b], [agent_stdin_ b]) else ([], []).

Definition sound_agent (b : BluetoothctlHal) : Prop := 0 < agent_pid_ b -> 0 <= agent_stdin_ b.

(** The operating system gives each pipe two descriptors of its own, and in the parent a
    fork gives the child's number or an error. *)
Definition sane_pipe : Prop := forall w rd wr, value_of pipe w = Some (rd, wr) -> 0 <= rd /\ 0 <= wr /\ rd <> wr.
Definition sane_fork : Prop := forall w, value_of fork w <> 0.

(** A run that starts with what the adapter holds ends with what it holds then. *)
Definition accounts (b : BluetoothctlHal) (es : list BtEffect) (b' : BluetoothctlHal) : Prop :=
  sound_agent b ->
  sound_agent b' /\ living (holds b).1 es = (holds b').1 /\ open_ends (holds b).2 es = (holds b').2.

Lemma living_app l es1 es2 : living l (es1 ++ es2) = living (living l es1) es2.
Proof. revert l. induction es1 as [|[] es1 IH]; intros l; cbn; auto. Qed.

Lemma open_ends_app l es1 es2 : open_ends l (es1 ++ es2) = open_ends (open_ends l es1) es2.
Proof. revert l. induction es1 as [|[] es1 IH]; intros l; cbn; auto. Qed.

#[local] Instance accounts_run : RunRel accounts.
Proof.
  split; unfold accounts; [done|]. intros b1 e1 b2 e2 b3 H1 H2 Hs.
  destruct (H1 Hs) as (Hs2&Hl1&Ho1). destruct (H2 Hs2) as (Hs3&Hl2&Ho2).
  by rewrite living_app, open_ends_app, Hl1, Ho1.
Qed.

Lemma outs_account (es : list E) l : living l (BtOut <$> es) = l /\ open_ends l (BtOut <$> es) = l.
Proof. by induction es. Qed.

Lemma accounts_on_os {A} (f : SW W E A) : respects accounts (on_os f).
Proof.
  intros b Hs. unfold effects_of, state_after, on_os, zoom. cbn [fst snd].
  destruct (outs_account (effects_of f (bt_sys b)) (holds b).1) as [-> _].
  by destruct (outs_account (effects_of f (bt_sys b)) (holds b).2) as [_ ->].
Qed.

Lemma accounts_btctl args : respects accounts (btctl args).
Proof. apply respects_bind; [apply _|apply accounts_on_os|intros; apply respects_ret; apply _]. Qed.

Lemma accounts_stopAgent : respects accounts stopAgent.
Proof.
  intros b Hs. unfold effects_of, state_after, stopAgent. rewrite get_bind_run.
  destruct (Z.leb_spec (agent_pid_ b) 0) as [Hp|Hp]; [done|]. specialize (Hs Hp).
  unfold holds. rewrite (proj2 (Z.ltb_lt _ _) Hp), (proj2 (Z.leb_le _ _) Hs).
  unfold mbind, SW_bind, when, tell, modify. cbn [fst snd app living open_ends].
  rewrite !filter_cons, !filter_nil. rewrite !decide_False by (intros H; by apply H). done.
Qed.

Lemma accounts_startAgent : sane_pipe -> sane_fork -> respects accounts startAgent.
Proof.
  intros Hpipe Hfork b Hs. unfold effects_of, state_after, startAgent. rewrite get_bind_run.
  destruct (Z.ltb_spec 0 (agent_pid_ b)) as [Hp|Hp]; [done|].
  unfold holds. rewrite (proj2 (Z.ltb_ge _ _) Hp). unfold mbind, SW_bind, on_os, zoom. cbn [fst snd].
  pose proof (Hpipe (bt_sys b)) as Hfds. destruct (value_of pipe (bt_sys b)) as [[rd wr]|].
  2:{ cbn. rewrite app_nil_r. rewrite !(proj1 (outs_account _ _)), !(proj2 (outs_account _ _)).
      rewrite (proj2 (Z.ltb_ge _ _) Hp). split; [intros Hq; cbn in Hq; lia|split; reflexivity]. }
  destruct (Hfds rd wr eq_refl) as (Hr&Hw&Hne). cbn [tell fst snd].
  specialize (Hfork (set_bt_sys (state_after pipe (bt_sys b)) b).(bt_sys)).
  set (w1 := bt_sys _) in *. destruct (Z.ltb_spec (value_of fork w1) 0) as [Hf|Hf];
    cbn [fst snd tell modify mret SW_ret]; rewrite ?living_app, ?open_ends_app;
    rewrite !(proj1 (outs_account _ _)), !(proj2 (outs_account _ _)); cbn [living open_ends].
  - repeat (rewrite ?filter_cons, ?filter_nil; case_decide; try congruence). rewrite ?filter_nil.
    unfold holds. cbn. rewrite (proj2 (Z.ltb_ge _ _) Hp). split; [intros Hq; cbn in Hq; lia|split; reflexivity].
  - repeat (rewrite ?filter_cons, ?filter_nil; case_decide; try congruence). rewrite ?filter_nil.
    unfold holds. cbn. rewrite (proj2 (Z.ltb_lt 0 (value_of fork (state_after pipe (bt_sys b))))) by (subst w1; cbn in Hf, Hfork; lia). split; [intros _; cbn; lia|split; reflexivity].
Qed.

Inductive BtCall := BtEnable (alias : string) | BtWindow (seconds : Z) | BtDisable | BtStatus | BtDestroy.

Definition bt_call (c : BtCall) : Bt unit :=
  match c with
  | BtEnable alias => bt_enableSink alias;; mret ()
  | BtWindow seconds => bt_pairing_window seconds;; mret ()
  | BtDisable => bt_off;; mret ()
  | BtStatus => bt_read_status;; mret ()
  | BtDestroy => bt_destroy
  end.

Fixpoint bt_calls (l : list BtCall) : Bt unit :=
  match l with [] => mret () | c :: l => bt_call c;; bt_calls l end.

Lemma accounts_calls l : sane_pipe -> sane_fork -> respects accounts (bt_calls l).
Proof.
  intros Hp Hf. pose proof (accounts_startAgent Hp Hf) as Hstart.
  pose proof accounts_stopAgent as Hstop. pose proof accounts_btctl as Hbt.
  assert (forall A (a : A), respects accounts (mret a)) as Hret by (intros; apply respects_ret; apply _).
  induction l as [|c l IH]; cbn [bt_calls]; [done|].
  apply respects_bind; [apply _| |done].
  destruct c; cbn [bt_call]; try (apply respects_bind; [apply _| |by intros]);
    unfold bt_enableSink, bt_pairing_window, bt_off, bt_read_status, bt_destroy; try done;
    repeat first [done | apply respects_when; [apply _|]
                 | apply respects_bind; [apply _| |intros ?] | apply respects_get; apply _ | case_match].
Qed.

Lemma bt_calls_snoc l c b :
  state_after (bt_calls (l ++ [c])) b = state_after (bt_call c) (state_after (bt_calls l) b).
Proof.
  revert b. induction l as [|c0 l IH]; intros b; cbn [app bt_calls]; rewrite !state_after_bind; [done|apply IH].
Qed.

Lemma stopAgent_none b : agent_pid_ (state_after stopAgent b) <= 0.
Proof.
  unfold state_after, stopAgent. rewrite get_bind_run.
  destruct (Z.leb_spec (agent_pid_ b) 0) as [Hp|Hp]; [done|].
  unfold mbind, SW_bind, when. by destruct (0 <=? agent_stdin_ b).
Qed.

(** Whatever is called, and whatever the programs answer, there is never more than one agent
    and never a pipe end left open without one: what lives at the end is what the adapter
    holds, and after its destruction nothing does. *)
Lemma one_agent l w :
  sane_pipe -> sane_fork ->
  let b := mk_btctl w (-1) (-1) in
  let b' := state_after (bt_calls l) b in
  living [] (effects_of (bt_calls l) b) = (if 0 <? agent_pid_ b' then [agent_pid_ b'] else []) /\
  open_ends [] (effects_of (bt_calls l) b) = (if 0 <? agent_pid_ b' then [agent_stdin_ b'] else []) /\
  living [] (effects_of (bt_calls (l ++ [BtDestroy])) b) = [] /\
  open_ends [] (effects_of (bt_calls (l ++ [BtDestroy])) b) = [].
Proof.
  intros Hp Hf b b'. assert (sound_agent b) as Hs by (intros H; cbn in H; lia).
  destruct (accounts_calls l Hp Hf b Hs) as (_&Hl&Ho).
  destruct (accounts_calls (l ++ [BtDestroy]) Hp Hf b Hs) as (_&Hl'&Ho').
  assert (agent_pid_ (state_after (bt_calls (l ++ [BtDestroy])) b) <= 0) as Hend.
  { rewrite bt_calls_snoc. apply stopAgent_none. }
  unfold holds in Hl', Ho'. rewrite (proj2 (Z.ltb_ge _ _) Hend) in Hl', Ho'.
  change (holds b) with (([], []) : list Z * list Z) in *. cbn [fst snd] in *.
  rewrite Hl, Ho. unfold b', holds.
  split_and!; [by destruct (0 <? agent_pid_ (state_after (bt_calls l) b))..|exact Hl'|exact Ho'].
Qed.

(** The command that names the speaker reaches bluetoothctl as three words, whatever the
    name holds. *)
Lemma alias_is_one_word alias :
  sh_words ("bluetoothctl system-alias " +:+ shq alias) = Some ["bluetoothctl"; "system-alias"; alias].
Proof.
  change ("bluetoothctl system-alias " +:+ shq alias) with ("bluetoothctl system-alias" +:+ String space (shq alias)).
  rewrite (sh_words_app _ ["bluetoothctl"; "system-alias"]) by (by vm_compute). by rewrite sh_words_shq.
Qed.
End Bluetoothctl.
End Bluetoothctl.
