(* ===== verification/Diagnostics.v ===== *)
(** * Diagnostics and logging of the speaker

    Models [src/src/diagnostics/DiagnosticService.cpp] (the health checks and their report,
    with a probe that throws as a value), the checks that [src/src/main/Application.cpp]
    registers, and [src/src/logging/Logger.cpp] (the sinks it falls back to, its levels and
    the lines it writes).  The sinks themselves belong to spdlog and are answers. *)

From stdpp Require Import pretty.
From S2P Require Import Prelude Core Json Files Amplifier.

(** ** Diagnostics *)

Module CheckResult.
(* [src/src/diagnostics/DiagnosticService.h:14-14] CheckResult *)
Inductive CheckResult := Ok | Warning | Error.
End CheckResult.
Abbreviation CheckResult := CheckResult.CheckResult.

#[export] Instance CheckResult_eq_dec : EqDecision CheckResult.
Proof. solve_decision. Defined.

(* [src/src/diagnostics/DiagnosticService.cpp:10-17] toString *)
Definition result_name (r : CheckResult) : string :=
  match r with CheckResult.Ok => "ok" | CheckResult.Warning => "warning" | CheckResult.Error => "error" end.

(* [src/src/diagnostics/DiagnosticService.h:25-30] DiagnosticReport *)
Record DiagnosticReport := mk_report
  { test_id : string; overall : CheckResult; checks : list (string * CheckResult) }.

Section Report.
Context {J : JsonLib}.

(* [src/src/diagnostics/DiagnosticService.cpp:19-26] DiagnosticReport::toJson *)
Definition report_json (r : DiagnosticReport) : json :=
  jobj [("test_id", jstr (test_id r)); ("status", jstr "completed"); ("result", jstr (result_name (overall r)));
        ("checks", foldl (fun j c => jset j c.1 (jstr (result_name c.2))) (jobj []) (checks r))].
End Report.

Section Service.
Context {W E : Type}.

(** A check; its probe reads (and may change) the modules, and may throw. *)
(* [src/src/diagnostics/DiagnosticService.h:19-22] Check *)
Record Check := mk_check { check_name : string; probe : SW W E (Try (CheckResult * string)) }.

(* [src/src/diagnostics/DiagnosticService.h:51-53] DiagnosticService *)
Record DiagnosticService := mk_diagnostics { checks_ : list Check; diag_state : ServiceState }.

(* [src/src/diagnostics/DiagnosticService.cpp:30-33] DiagnosticService::start *)
Definition diag_start (d : DiagnosticService) : Status * DiagnosticService :=
  (success, mk_diagnostics (checks_ d) ServiceState.Running).

(* [src/src/diagnostics/DiagnosticService.cpp:35-38] DiagnosticService::stop *)
Definition diag_stop (d : DiagnosticService) : Status * DiagnosticService :=
  (success, mk_diagnostics (checks_ d) ServiceState.Stopped).

(* [src/src/diagnostics/DiagnosticService.cpp:40-43] DiagnosticService::addCheck *)
Definition addCheck (name : string) (p : SW W E (Try (CheckResult * string))) (d : DiagnosticService) :
  DiagnosticService := mk_diagnostics (checks_ d ++ [mk_check name p]) (diag_state d).

Inductive DiagEffect := DiagOut (e : E) | DiagLog (line : string).

(** A run of the modules inside the service; its own lines go to the log. *)
Definition on_modules {A} (f : SW W E A) : SW W DiagEffect A := zoom id (fun w _ => w) DiagOut f.

(** What a check counts for: its answer, or an error with the text of the exception. *)
(* [src/src/diagnostics/DiagnosticService.cpp:51-60] DiagnosticService::run *)
Definition verdict (r : Try (CheckResult * string)) : CheckResult * string :=
  match r with Done v => v | Throw what => (CheckResult.Error, what) end.

(* [src/src/diagnostics/DiagnosticService.cpp:62-66] DiagnosticService::run *)
Definition worsen (overall r : CheckResult) : CheckResult :=
  match r, overall with
  | CheckResult.Error, _ => CheckResult.Error
  | CheckResult.Warning, CheckResult.Ok => CheckResult.Warning
  | _, _ => overall
  end.

(* [src/src/diagnostics/DiagnosticService.cpp:50-70] DiagnosticService::run *)
Fixpoint run_checks (l : list Check) (report : DiagnosticReport) : SW W DiagEffect DiagnosticReport :=
  match l with
  | [] => mret report
  | c :: l =>
      out ← on_modules (probe c);
      let '(r, detail) := verdict out in
      when (negb (String.eqb detail ""))
        (tell [DiagLog (check_name c +:+ ": " +:+ result_name r +:+ " (" +:+ detail +:+ ")")]);;
      run_checks l (mk_report (test_id report) (worsen (overall report) r) (checks report ++ [(check_name c, r)]))
  end.

(* [src/src/diagnostics/DiagnosticService.cpp:45-74] DiagnosticService::run *)
Definition run_diagnostics (id : string) (d : DiagnosticService) : SW W DiagEffect DiagnosticReport :=
  report ← run_checks (checks_ d) (mk_report id CheckResult.Ok []);
  tell [DiagLog ("diagnostic run " +:+ id +:+ " -> " +:+ result_name (overall report))];;
  mret report.

(** The verdicts of the checks, each run on the state the one before left. *)
Fixpoint verdicts (l : list Check) (w : W) : list (string * CheckResult) :=
  match l with
  | [] => []
  | c :: l => (check_name c, (verdict (value_of (probe c) w)).1) :: verdicts l (state_after (probe c) w)
  end.

Definition severity (r : CheckResult) : nat :=
  match r with CheckResult.Ok => 0 | CheckResult.Warning => 1 | CheckResult.Error => 2 end.

Lemma worsen_severity a b : severity (worsen a b) = severity a `max` severity b.
Proof. by destruct a, b. Qed.

Lemma severity_inj a b : severity a = severity b -> a = b.
Proof. by destruct a, b. Qed.

Lemma run_checks_report l report w :
  let r := value_of (run_checks l report) w in
  test_id r = test_id report /\ checks r = checks report ++ verdicts l w /\
  severity (overall r) = foldl (fun s v => s `max` severity v.2) (severity (overall report)) (verdicts l w).
Proof.
  revert report w. induction l as [|c l IH]; intros report w; cbn [run_checks verdicts foldl].
  { by rewrite app_nil_r. }
  rewrite value_of_bind. change (value_of (on_modules (probe c)) w) with (value_of (probe c) w).
  change (state_after (on_modules (probe c)) w) with (state_after (probe c) w).
  destruct (verdict (value_of (probe c) w)) as [r detail]. rewrite value_of_bind.
  assert (state_after (when (negb (String.eqb detail ""))
    (tell [DiagLog (check_name c +:+ ": " +:+ result_name r +:+ " (" +:+ detail +:+ ")")])) (state_after (probe c) w) =
    state_after (probe c) w) as -> by (by destruct (negb _)).
  destruct (IH (mk_report (test_id report) (worsen (overall report) r) (checks report ++ [(check_name c, r)]))
              (state_after (probe c) w)) as (H1&H2&H3).
  rewrite H1, H2, H3. cbn [test_id checks overall fst snd]. by rewrite worsen_severity, <- app_assoc.
Qed.

Lemma foldl_max_spec (l : list (string * CheckResult)) n :
  (n <= foldl (fun s v => s `max` severity v.2) n l)%nat /\
  Forall (fun v => (severity v.2 <= foldl (fun s v => s `max` severity v.2) n l)%nat) l /\
  (foldl (fun s v => s `max` severity v.2) n l = n \/
   Exists (fun v => severity v.2 = foldl (fun s v => s `max` severity v.2) n l) l).
Proof.
  revert n. induction l as [|v l IH]; intros n; cbn [foldl]; [by split_and!; [|constructor|left]|].
  destruct (IH (n `max` severity v.2)) as (H1&H2&H3). split_and!; [lia|constructor; [lia|done]|].
  destruct H3 as [H3|H3]; [|by right; right].
  destruct (Nat.max_spec n (severity v.2)) as [[? Hm]|[? Hm]]; rewrite Hm in H3.
  - right. left. by rewrite Hm, H3.
  - left. by rewrite Hm.
Qed.

(** A diagnostic run reports every check, in the order they were registered, each with what
    its probe says or as an error when the probe throws - which does not stop the others -
    and its overall result is the worst of them, ok when there is none. *)
Lemma diagnosis_is_worst id d w :
  let r := value_of (run_diagnostics id d) w in
  test_id r = id /\ checks r = verdicts (checks_ d) w /\
  Forall (fun v => (severity v.2 <= severity (overall r))%nat) (checks r) /\
  (overall r = CheckResult.Ok \/ Exists (fun v => v.2 = overall r) (checks r)).
Proof.
  intros r. unfold run_diagnostics in r. subst r. rewrite value_of_bind. cbn [value_of].
  set (r := value_of (run_checks _ _) w).
  assert (value_of (tell [DiagLog ("diagnostic run " +:+ id +:+ " -> " +:+ result_name (overall r))];; mret r)
            (state_after (run_checks (checks_ d) (mk_report id CheckResult.Ok [])) w) = r) as -> by done.
  destruct (run_checks_report (checks_ d) (mk_report id CheckResult.Ok []) w) as (H1&H2&H3). fold r in H1, H2, H3.
  cbn [checks test_id overall app] in *.
  destruct (foldl_max_spec (verdicts (checks_ d) w) (severity CheckResult.Ok)) as (_&Hall&Hone).
  rewrite H2, H3 in *. split_and!; [done|done|done|].
  destruct Hone as [Hz|Hex]; [left; apply severity_inj; by rewrite H3|right].
  eapply Exists_impl; [exact Hex|]. intros v Hv. apply severity_inj. by rewrite Hv, H3.
Qed.
End Service.
Arguments Check : clear implicits.
Arguments DiagnosticService : clear implicits.
Arguments DiagEffect : clear implicits.

(** ** The checks of the application *)

Section Checks.
Context {W E : Type}.
(** What the probes ask of the modules. *)
Variables (amp_state : W -> AmpState) (self_test : SW W E Status) (is_connected : W -> bool)
  (config_state : W -> ServiceState).

Definition answer (r : CheckResult) (detail : string) : SW W E (Try (CheckResult * string)) := mret (Done (r, detail)).

(* [src/src/main/Application.cpp:351-357] Application::buildServices *)
Definition amplifier_check : SW W E (Try (CheckResult * string)) :=
  w ← get;
  match amp_state w with
  | AmpState.Fault => answer CheckResult.Error "fault"
  | AmpState.Overheated => answer CheckResult.Warning (amp_toString AmpState.Overheated)
  | AmpState.Protection => answer CheckResult.Warning (amp_toString AmpState.Protection)
  | _ => answer CheckResult.Ok ""
  end.

(* [src/src/main/Application.cpp:358-361] Application::buildServices *)
Definition microphone_check : SW W E (Try (CheckResult * string)) :=
  s ← self_test;
  if status_ok s then answer CheckResult.Ok "" else answer CheckResult.Warning "mic self-test".

(* [src/src/main/Application.cpp:362-365] Application::buildServices *)
Definition network_check : SW W E (Try (CheckResult * string)) :=
  w ← get;
  if is_connected w then answer CheckResult.Ok "" else answer CheckResult.Warning "offline".

(* [src/src/main/Application.cpp:366-370] Application::buildServices *)
Definition config_check : SW W E (Try (CheckResult * string)) :=
  w ← get;
  if bool_decide (config_state w = ServiceState.Running) then answer CheckResult.Ok ""
  else answer CheckResult.Warning "config degraded".

(* [src/src/main/Application.cpp:350-370] Application::buildServices *)
Definition application_checks : DiagnosticService W E :=
  addCheck "config" config_check (addCheck "network" network_check
    (addCheck "microphone" microphone_check (addCheck "amplifier" amplifier_check
      (mk_diagnostics [] ServiceState.Stopped)))).

Definition warns_at_most (m : SW W E (Try (CheckResult * string))) : Prop :=
  forall w, (verdict (value_of m w)).1 <> CheckResult.Error.

Lemma microphone_warns : warns_at_most microphone_check.
Proof.
  intros w. unfold microphone_check. rewrite value_of_bind. by destruct (status_ok _).
Qed.

Lemma network_warns : warns_at_most network_check.
Proof. intros w. unfold network_check, value_of. rewrite get_bind_run. by destruct (is_connected w). Qed.

Lemma config_warns : warns_at_most config_check.
Proof. intros w. unfold config_check, value_of. rewrite get_bind_run. by destruct (bool_decide _). Qed.

(** The speaker is reported in error exactly when its amplifier is in fault: nothing else
    the application checks counts for more than a warning. *)
Lemma error_is_amplifier_fault id w :
  overall (value_of (run_diagnostics id application_checks) w) = CheckResult.Error <-> amp_state w = AmpState.Fault.
Proof.
  destruct (diagnosis_is_worst id application_checks w) as (_&Hc&Hall&Hone). rewrite Hc in Hall, Hone.
  set (o := overall _) in *. clearbody o. clear Hc. revert Hall Hone.
  unfold application_checks, addCheck. cbn [checks_ app verdicts probe check_name].
  assert (value_of amplifier_check w =
    Done (match amp_state w with
          | AmpState.Fault => (CheckResult.Error, "fault")
          | AmpState.Overheated => (CheckResult.Warning, "OVERHEATED")
          | AmpState.Protection => (CheckResult.Warning, "PROTECTION")
          | _ => (CheckResult.Ok, "")
          end)) as ->
    by (unfold value_of, amplifier_check; rewrite get_bind_run; by destruct (amp_state w)).
  intros Hall Hone. split.
  - intros ->. destruct Hone as [|Hex]; [discriminate|].
    rewrite !Exists_cons, Exists_nil in Hex. cbn [snd verdict fst] in Hex.
    destruct Hex as [H|[H|[H|[H|[]]]]]; [by destruct (amp_state w)|exfalso; revert H..];
      [apply microphone_warns|apply network_warns|apply config_warns].
  - intros Hf. rewrite Hf in Hall. apply Forall_inv in Hall. cbn in Hall. destruct o; cbn in Hall; [lia..|done].
Qed.
End Checks.

(** ** Logging *)

Module Level.
(* [src/src/logging/Logger.h:17-17] Level *)
Inductive Level := Debug | Info | Warning | Error | Critical.
End Level.
Abbreviation Level := Level.Level.

#[export] Instance Level_eq_dec : EqDecision Level.
Proof. solve_decision. Defined.

(** The level of spdlog, in its order. *)
(* [src/src/logging/Logger.cpp:13-22] toSpd *)
Definition toSpd (l : Level) : nat :=
  match l with Level.Debug => 1 | Level.Info => 2 | Level.Warning => 3 | Level.Error => 4 | Level.Critical => 5 end.

(* [src/src/logging/Logger.cpp:25-32] levelFromString *)
Definition levelFromString (s : string) : Level :=
  if String.eqb s "debug" then Level.Debug
  else if String.eqb s "info" then Level.Info
  else if String.eqb s "warning" || String.eqb s "warn" then Level.Warning
  else if String.eqb s "error" then Level.Error
  else if String.eqb s "critical" || String.eqb s "crit" then Level.Critical
  else Level.Info.

(* [src/src/logging/Logger.cpp:34-43] toString *)
Definition level_name (l : Level) : string :=
  match l with
  | Level.Debug => "DEBUG"
  | Level.Info => "INFO"
  | Level.Warning => "WARNING"
  | Level.Error => "ERROR"
  | Level.Critical => "CRITICAL"
  end.

(* [src/src/logging/Logger.h:22-29] LogConfig *)
Record LogConfig := mk_log_config
  { log_path : string; log_level : Level; max_file_bytes : Z; max_files : Z; to_stderr : bool; to_file : bool }.

Definition default_log : LogConfig :=
  mk_log_config "/var/log/nexus-speaker/speaker.log" Level.Info (10 * 1024 * 1024) 5 true true.

Inductive Sink := RotatingFile (path : string) (bytes files : Z) | Stderr.

(** The sinks of the backend with its own level, once it is there, and the facade's level. *)
(* [src/src/logging/Logger.h:60-61] Logger *)
Record Logger := mk_logger { impl_ : option (list Sink * nat); level_ : Level }.

Definition new_logger : Logger := mk_logger None Level.Info.

Section Logger.
(** Whether the directory could be made, and what a sink throws when it cannot be opened. *)
Variables (create_directories : string -> bool) (sink_throws : Sink -> option string).

(** The sinks of a configuration, or what was thrown. *)
(* [src/src/logging/Logger.cpp:53-72] Logger::init *)
Definition sinks_of (c : LogConfig) : string + list Sink :=
  let file := RotatingFile (log_path c) (max_file_bytes c) (max_files c) in
  let opened s := match sink_throws s with Some what => inl what | None => inr s end in
  let files :=
    if to_file c then
      match parent_path (log_path c) with
      | Some dir => if create_directories dir
                    then match opened file with inl what => inl what | inr s => inr [s] end
                    else inr []
      | None => inr []
      end
    else inr [] in
  match files with
  | inl what => inl what
  | inr sinks =>
      if to_stderr c || bool_decide (sinks = []) then
        match opened Stderr with inl what => inl what | inr s => inr (sinks ++ [s]) end
      else inr sinks
  end.

(* [src/src/logging/Logger.cpp:50-83] Logger::init *)
Definition logger_init (c : LogConfig) (l : Logger) : Status * Logger :=
  if bool_decide (is_Some (impl_ l)) then (success, l)
  else
    match sinks_of c with
    | inl what => (error ErrorCode.LogInitFailed what, l)
    | inr sinks => (success, mk_logger (Some (sinks, toSpd (log_level c))) (log_level c))
    end.

(* [src/src/logging/Logger.cpp:85-88] Logger::setLevel *)
Definition setLevel (v : Level) (l : Logger) : Logger :=
  mk_logger ((fun i => (i.1, toSpd v)) <$> impl_ l) v.

(** A line that reaches the sinks. *)
Record LogLine := mk_line { l_sinks : list Sink; l_level : nat; l_text : string }.

Definition emit (v : Level) (text : string) (l : Logger) : list LogLine :=
  match impl_ l with
  | Some (sinks, threshold) => if (threshold <=? toSpd v)%nat then [mk_line sinks (toSpd v) text] else []
  | None => []
  end.

Definition with_code (text : string) (code : ErrorCode) : string :=
  if bool_decide (code = ErrorCode.Ok) then text
  else text +:+ " (code=" +:+ pretty (toInt code) +:+ " " +:+ describe code +:+ ")".

(* [src/src/logging/Logger.cpp:90-99] Logger::log *)
Definition log (v : Level) (module_ message_ : string) (code : ErrorCode) (l : Logger) : list LogLine :=
  emit v (with_code ("[" +:+ module_ +:+ "] " +:+ message_) code) l.

(* [src/src/logging/Logger.cpp:101-110] Logger::logCommand *)
Definition logCommand (v : Level) (module_ command_id message_ : string) (code : ErrorCode) (l : Logger) :
  list LogLine :=
  emit v (with_code ("[" +:+ module_ +:+ "] [cmd=" +:+ command_id +:+ "] " +:+ message_) code) l.

(* [src/src/logging/Logger.cpp:116-121] Logger::shutdown *)
Definition logger_shutdown (l : Logger) : Logger := mk_logger None (level_ l).

(** The facade and the backend agree on the level, and a backend has somewhere to write. *)
Definition logger_sound (l : Logger) : Prop :=
  forall sinks threshold, impl_ l = Some (sinks, threshold) -> threshold = toSpd (level_ l) /\ sinks <> [].

Lemma sinks_somewhere c sinks : sinks_of c = inr sinks -> sinks <> [].
Proof.
  unfold sinks_of. cbn zeta. destruct (if to_file c then _ else _) as [w|fs]; [discriminate|].
  destruct (to_stderr c || bool_decide (fs = [])) eqn:Hb.
  - destruct (sink_throws Stderr); [discriminate|]. intros [= <-]. by destruct fs.
  - intros [= <-]. by apply orb_false_iff in Hb as [_ Hb%bool_decide_eq_false].
Qed.

Lemma init_sound c l : logger_sound l -> logger_sound (logger_init c l).2.
Proof.
  intros Hl. unfold logger_init. destruct (bool_decide _); [done|]. destruct (sinks_of c) eqn:Hs; [done|].
  intros s t [= <- <-]. split; [done|]. by eapply sinks_somewhere.
Qed.

Lemma setLevel_sound v l : logger_sound l -> logger_sound (setLevel v l).
Proof.
  intros Hl s t H. cbn in H. destruct (impl_ l) as [[s' t']|] eqn:Hi; [|discriminate]. injection H as <- <-.
  split; [done|]. by apply (Hl s' t').
Qed.

(** A line is written exactly when the logger is up and its level is reached, and then to
    one sink at least. *)
Lemma written_iff v text l :
  logger_sound l ->
  (emit v text l <> [] <-> is_Some (impl_ l) /\ (toSpd (level_ l) <= toSpd v)%nat) /\
  Forall (fun x => l_sinks x <> []) (emit v text l).
Proof.
  intros Hl. unfold emit. destruct (impl_ l) as [[sinks t]|] eqn:Hi.
  2:{ split; [|constructor]. split; [done|]. by intros [[? ?] ?]. }
  destruct (Hl sinks t Hi) as [-> Hs]. destruct (Nat.leb_spec (toSpd (level_ l)) (toSpd v)).
  - split; [|by repeat constructor]. split; [|done]. intros _. split; [by eexists|done].
  - split; [|constructor]. split; [done|lia].
Qed.

(** A log file that cannot be opened leaves no log at all, not even on stderr. *)
Lemma unwritable_log_is_silent c what dir :
  to_file c = true -> parent_path (log_path c) = Some dir -> create_directories dir = true ->
  sink_throws (RotatingFile (log_path c) (max_file_bytes c) (max_files c)) = Some what ->
  logger_init c new_logger = (error ErrorCode.LogInitFailed what, new_logger) /\
  forall v module_ text code, log v module_ text code (logger_init c new_logger).2 = [].
Proof.
  intros Hf Hp Hc Hs. assert (logger_init c new_logger = (error ErrorCode.LogInitFailed what, new_logger)) as ->.
  { unfold logger_init, sinks_of. cbn. by rewrite Hf, Hp, Hc, Hs. }
  done.
Qed.
End Logger.

(** Where the directory cannot be made the log goes to stderr. *)
Example log_falls_back :
  (logger_init (fun _ => false) (fun _ => None) default_log new_logger).2 =
    mk_logger (Some ([Stderr], 2%nat)) Level.Info.
Proof. reflexivity. Qed.
