(* ===== verification/Sound.v ===== *)
(** * Sound: the live settings, with the calibration and the diagnostics in place

    [Application] leaves the two modules behind [/api/calibration/start] and [/api/health]
    open.  This file puts the calibration of [Calibration] and the checks of [Diagnostics]
    there, as [src/src/main/Application.cpp] wires them, and states what the running signal
    processor plays while commands, web requests and events arrive. *)

From S2P Require Import Application Acoustics Calibration Diagnostics.
From S2P Require Import Prelude Core Json Files Config Control Network Audio Amplifier StateMachine Dsp Web.
From S2P Require Import Application.

Section Sound.
Context {J : JsonLib} {L : JsonLaws J} {F : FileSystem} {FL : FileSystemLaws F} {AW : AtomicWriter F} {Cr : Crypto} {M : Libm}.
Context {NW NE : Type} {Hal : NetworkHal NW NE}.
Variables (amp_hal : Amplifier.Hal) (sha256Hex : string -> string) (sin : spec_float -> spec_float)
  (device_id_ box_key : string) (now : Z) (calibration_state : string).
(** The directory of the profiles, the format and the answer of the microphone, its
    self-test, and where the calibration manager stands when it is called. *)
Variables (profiles : string) (fs : spec_float) (fft_size : nat) (capture : nat -> list Z) (mic : Status)
  (cal : CalState * ServiceState).

Abbreviation App := (Application (NW := NW)).
Abbreviation AP := (SW App (AEffect (NE := NE))).

(** ** The calibration over the web *)

(** What the hooks of the calibration do to the application, one after the other.  The gains
    go to the filters of the equalizer, which are not among the settings of [DspSettings]. *)
(* [src/src/main/Application.cpp:97-103] Application::buildServices *)
Definition cal_hook (e : CalEffect) : AP unit :=
  match e with
  | CalPublish ev => tell [APublish ev]
  | CalConfig e => tell [AServer (XConfig e)]
  | CalMute true => on_amp (mute amp_hal);; mret ()
  | CalMute false => on_amp (unmute amp_hal);; mret ()
  | CalDisk _ | CalCapture _ | CalApply _ => mret ()
  end.

Fixpoint cal_hooks (es : list CalEffect) : AP unit :=
  match es with [] => mret () | e :: es => cal_hook e;; cal_hooks es end.

(* [src/src/main/Application.cpp:511-514] Application::buildApiContext *)
Definition web_calibration : AP (Try ActionResult) :=
  a ← get;
  let c := mk_cal (config_mgr (a_server a)) cal.1 cal.2 in
  let run := runCalibration true true (Some profiles) fs fft_size (Some capture) true true "room" in
  modify (fun a => set_server (set_mgr (cal_config (state_after run c)) (a_server a)) a);;
  cal_hooks (effects_of run c);;
  mret (Done (match value_of run c with
              | Value _ => (true, "calibration complete"%string)
              | Failure s => (false, message s)
              end)).

(** ** The diagnostics over the web *)

(** The lines of the log are left out of what the application shows. *)
Definition on_diagnostics {A} (f : SW App (DiagEffect (AEffect (NE := NE))) A) : AP A := fun a =>
  (value_of f a, state_after f a, omap (fun e => match e with DiagOut e => Some e | DiagLog _ => None end) (effects_of f a)).

(* [src/src/main/Application.cpp:429-429] Application::buildApiContext *)
Definition web_health : AP (Try json) :=
  r ← on_diagnostics (run_diagnostics "diag-web"
        (application_checks (fun a => amp_state_ (a_amp a)) (mret mic) (fun a => connected_ (a_net a))
           (fun a => state_ (config_mgr (a_server a)))));
  mret (Done (report_json r)).

(** ** They leave the settings alone *)

Abbreviation Cal := (SW CalibrationManager CalEffect).

Definition settings_of (c0 : SpeakerConfig) : CalibrationManager -> list CalEffect -> CalibrationManager -> Prop :=
  keeps (fun c => same_settings c0 (config_ (cal_config c))).

Lemma settings_bind {A B} c0 (m : Cal A) (f : A -> Cal B) :
  respects (settings_of c0) m -> (forall x, respects (settings_of c0) (f x)) -> respects (settings_of c0) (mbind f m).
Proof. intros Hm Hf. apply respects_bind; [exact _|done..]. Qed.

Lemma settings_alone {A} c0 (m : Cal A) :
  (forall c, config_ (cal_config (state_after m c)) = config_ (cal_config c)) -> respects (settings_of c0) m.
Proof. intros Hm c Hc. by rewrite Hm. Qed.

Lemma settings_named c0 name :
  respects (settings_of c0) (zoom cal_config set_cal_config CalConfig (update (fun c => with_audio (with_eq name) c))).
Proof.
  intros c Hc. unfold settings_of.
  change (cal_config (state_after (zoom cal_config set_cal_config CalConfig (update (fun c => with_audio (with_eq name) c))) c))
    with (state_after (update (fun c => with_audio (with_eq name) c)) (cal_config c)).
  destruct (update_memory (fun c => with_audio (with_eq name) c) (cal_config c)) as [-> _].
  by destruct (status_ok _).
Qed.

Ltac settings :=
  repeat first
    [ apply settings_bind; [|intros ?]
    | by apply settings_named
    | by apply settings_alone
    | match goal with |- respects _ (if ?x then _ else _) => destruct x end
    | match goal with |- respects _ (match ?x with _ => _ end) => destruct x end ].

Lemma calibration_settings c0 name :
  respects (settings_of c0) (runCalibration true true (Some profiles) fs fft_size (Some capture) true true name).
Proof.
  unfold runCalibration, cal_process, cal_finish, cal_fail, cal_publish, call_mute, call_apply, when. settings.
Qed.

Abbreviation K := (keeps in_step).

Lemma keep_hooks es : respects K (cal_hooks es).
Proof.
  induction es as [|e es IH]; [apply keep_ret|]. cbn [cal_hooks]. apply keep_bind; [|by intros _].
  destruct e as [ev|e|d|n|g|[]]; cbn [cal_hook];
    first [apply keep_ret|apply keep_tell|apply keep_bind; [apply keep_amp|intros _; apply keep_ret]].
Qed.

Lemma keep_calibration : respects K web_calibration.
Proof.
  intros a (H1 & H2 & H3 & H4). unfold web_calibration. rewrite state_after_bind.
  change (value_of get a) with a. change (state_after get a) with a. cbv beta zeta.
  set (run := runCalibration true true (Some profiles) fs fft_size (Some capture) true true "room").
  set (c := mk_cal (config_mgr (a_server a)) cal.1 cal.2). rewrite state_after_bind.
  set (a1 := state_after (modify _) a).
  assert (in_step a1) as Ha1.
  { destruct (calibration_settings (cfg a) "room" c) as (D1 & D2 & D3); [done|].
    unfold in_step. change (cfg a1) with (config_ (cal_config (state_after run c))).
    fold run in D1, D2, D3. rewrite D1, D2, D3. by split_and!. }
  apply keep_bind; [apply keep_hooks|intros _; apply keep_ret|done].
Qed.

(** Checks that leave the modules alone. *)
Lemma checks_alone {W E} (l : list (Diagnostics.Check W E)) :
  Forall (fun c => forall w, state_after (probe c) w = w) l ->
  forall r w, state_after (run_checks l r) w = w.
Proof.
  induction 1 as [|c l Hc _ IH]; intros r w; [done|]. cbn [run_checks]. rewrite state_after_bind.
  change (state_after (on_modules (probe c)) w) with (state_after (probe c) w). rewrite Hc.
  destruct (verdict _) as [v d]. rewrite state_after_bind. rewrite IH. by destruct (negb _).
Qed.

Lemma diagnostics_alone a :
  state_after (on_diagnostics (run_diagnostics "diag-web"
        (application_checks (fun a => amp_state_ (a_amp a)) (mret mic) (fun a => connected_ (a_net a))
           (fun a => state_ (config_mgr (a_server a)))))) a = a.
Proof.
  change (state_after (run_diagnostics "diag-web"
    (application_checks (fun a => amp_state_ (a_amp a)) (mret mic : AP Status) (fun a => connected_ (a_net a))
       (fun a => state_ (config_mgr (a_server a))))) a = a).
  unfold run_diagnostics. rewrite state_after_bind, checks_alone; [done|].
  cbn [application_checks addCheck checks_ app]. repeat (apply Forall_cons; split; [intros w; cbn [probe]|]); [..|by apply Forall_nil].
  - unfold amplifier_check. rewrite state_after_bind. change (value_of get w) with w. by destruct (amp_state_ (a_amp w)).
  - unfold microphone_check. rewrite state_after_bind. change (value_of (mret mic) w) with mic. by destruct (status_ok mic).
  - unfold network_check. rewrite state_after_bind. change (value_of get w) with w. by destruct (connected_ (a_net w)).
  - unfold config_check. rewrite state_after_bind. change (value_of get w) with w. by destruct (bool_decide _).
Qed.

Lemma keep_health : respects K web_health.
Proof.
  intros a Ha. unfold web_health. rewrite state_after_bind, diagnostics_alone. exact Ha.
Qed.

(** ** Properties *)

Variables (setup_text index_text logo : string) (getenv : string -> option string).

Abbreviation take := (take_all amp_hal sha256Hex sin device_id_ box_key now calibration_state web_calibration web_health
  setup_text index_text logo getenv).

(** C27: The sound that is played follows the configuration that is stored.  From the
    settings applied at boot, through any sequence of signed commands - accepted, refused,
    failing or repeated, each with its announcements delivered before the next input -, of
    web requests, the start of a calibration and the diagnostics among them, and of other
    bus events, the delay, the gain and the polarity in the running signal processor are
    those of the configuration.  Two things are left out: a request for the factory reset
    over the web, which changes the configuration only, and an announcement of settings that
    no command of the sequence made. *)
Theorem dsp_follows_config a l :
  is_valid (cfg a) = true -> bus_ (a_server a) = true ->
  Forall (fun i => match i with
                   | ICommand _ _ _ _ => True
                   | IHttp q => path q <> "/api/system/factory-reset"
                   | IEvent e => type e = EventType.CommandExecuted ->
                       assoc "delay_ms" (data e) = None /\ assoc "gain_db" (data e) = None /\
                       assoc "phase_invert" (data e) = None
                   end) l ->
  let a' := state_after (take l) (set_dsp (startup_dsp (cfg a) (a_dsp a)) a) in
  dsp_delay (a_dsp a') = delay_ms (audio (cfg a')) /\ dsp_gain (a_dsp a') = gain_db (audio (cfg a')) /\
  dsp_phase (a_dsp a') = phase_invert (audio (cfg a')).
Proof.
  intros Hv Hb Hl a'.
  destruct (in_step_after amp_hal sha256Hex sin device_id_ box_key now calibration_state web_calibration web_health
              keep_calibration keep_health setup_text index_text logo getenv a l Hv Hb) as (H1 & H2 & H3 & _); [|by split_and!].
  eapply Forall_impl; [exact Hl|]. by intros [].
Qed.
End Sound.

(** ** Witness *)

Section Witness.
#[local] Existing Instance jvalue_lib.
#[local] Existing Instance jvalue_laws.
#[local] Existing Instance mdisk_system.
#[local] Existing Instance mdisk_laws.
#[local] Existing Instance posix_writer.
#[local] Existing Instance demo_crypto.
#[local] Existing Instance flat_libm.

(** A command, a delay and a calibration over the web, a look at the health. *)
Definition demo_inputs : list Input :=
  [ICommand Control.demo_env 1500 (dump (toJson (demo_command "cmd-1" "SET_PHASE_INVERT" (jobj [("phase_invert", jbool true)])))) "key";
   IHttp (web_post "SPK-1" (WDelay 7) "10.0.0.9");
   IHttp (mk_request "POST" "/api/calibration/start" "" "Bearer nexus-SPK-1" "10.0.0.9");
   IHttp (mk_request "GET" "/api/health" "" "" "10.0.0.9");
   IEvent (event EventType.AudioStopped "audio" [])].

Definition demo_take : list Input -> SW (Application (NW := NetworkStatus)) (AEffect (NE := unit)) unit :=
  let calibrate := web_calibration demo_hal "profiles" (f_of_Z 48000) 2 (fun _ => [100; -100]%Z) (Idle, ServiceState.Running) in
  take_all demo_hal (fun s => s) no_sin "SPK-1" "" 1500 "IDLE" calibrate (web_health success) "" "" "" (fun _ => None).

Lemma dsp_follows_config_witness :
  let a' := state_after (demo_take demo_inputs) (set_dsp (startup_dsp (cfg demo_app) (a_dsp demo_app)) demo_app) in
  dsp_delay (a_dsp a') = delay_ms (audio (cfg a')) /\ delay_ms (audio (cfg a')) = 7%Z /\
  eq_profile (audio (cfg a')) = "room" /\ dsp_phase (a_dsp a') = true.
Proof.
  intros a'.
  destruct (dsp_follows_config demo_hal (fun s => s) no_sin "SPK-1" "" 1500 "IDLE" "profiles" (f_of_Z 48000) 2
              (fun _ => [100; -100]%Z) success (Idle, ServiceState.Running) "" "" "" (fun _ => None) demo_app demo_inputs)
    as (H1 & _ & _); [reflexivity|reflexivity| |].
  { apply Forall_cons. split; [exact I|]. apply Forall_cons. split; [discriminate|].
    apply Forall_cons. split; [discriminate|]. apply Forall_cons. split; [discriminate|].
    apply Forall_cons. split; [by intros [=]|constructor]. }
  split; [exact H1|]. split; [vm_compute; reflexivity|]. split; vm_compute; reflexivity.
Defined.
End Witness.
