(* ===== verification/Boot.v ===== *)
(** * Boot: the speaker's program, from its command line to its shutdown

    Models [src/src/main/main.cpp] (the command line), [src/src/main/ApCredentialsCli.cpp]
    (the credentials it prints for the shell scripts), and of [src/src/main/Application.cpp]
    the start ([startup] with the order of the services, the settings of the DSP, the saved
    correction, setup mode and the beacon), the playback telemetry, the safe-mode action and
    the wait for the shutdown.  The services' own starts are answers; the components whose
    state the start changes are those of their files. *)

From Stdlib Require Import Ascii.
From stdpp Require Import pretty.
From S2P Require Import Scanners.
From S2P Require Import Prelude Core Json Files Config Control Storage Pairing Network Audio Amplifier StateMachine.
From S2P Require Import Discovery Application Dsp Calibration.

(** ** The command line *)

Module Cli.

(* [src/src/main/Application.h:37-45] AppOptions *)
Record AppOptions := mk_options
  { config_path : string; identity_path : string; secure_dir : string; calibration_dir : string;
    log_path : string; binary_path : string; vendor_public_key_b64 : string }.

Definition default_options : AppOptions :=
  mk_options "/etc/nexus-speaker/config.json" "/etc/nexus-speaker/identity/factory.json"
    "/var/lib/nexus-speaker/secure" "/var/lib/nexus-speaker/calibration"
    "/var/log/nexus-speaker/speaker.log" "/usr/local/bin/nexus-speaker" "".

(** What the arguments ask for: to run, or to print something and end with a code. *)
Inductive Asked :=
| Serve (o : AppOptions)
| PrintCredentials (config : string)
| PrintCredentialsFor (ssid : string)
| PrintVersion
| PrintHelp
| NeedsSsid
| Unknown (arg : string).

(** The two requests, once the arguments are read: the paired streamer's credentials come
    first. *)
(* [src/src/main/main.cpp:70-94] main *)
Definition asked (o : AppOptions) (credentials : bool) (for_ssid : option string) : Asked :=
  if credentials then PrintCredentials (config_path o)
  else match for_ssid with Some ssid => PrintCredentialsFor ssid | None => Serve o end.

(* [src/src/main/main.cpp:34-66] main *)
Fixpoint parse_args (args : list string) (o : AppOptions) (credentials : bool) (for_ssid : option string) : Asked :=
  match args with
  | [] => asked o credentials for_ssid
  | arg :: rest =>
      if String.eqb arg "--config" && bool_decide (rest <> []) then
        match rest with
        | v :: rest => parse_args rest (mk_options v (identity_path o) (secure_dir o) (calibration_dir o) (log_path o)
                                          (binary_path o) (vendor_public_key_b64 o)) credentials for_ssid
        | [] => Unknown arg
        end
      else if String.eqb arg "--data-dir" && bool_decide (rest <> []) then
        match rest with
        | root :: rest =>
            parse_args rest (mk_options (root +:+ "/config.json") (root +:+ "/identity/factory.json")
                               (root +:+ "/secure") (calibration_dir o) (root +:+ "/speaker.log") (binary_path o)
                               (vendor_public_key_b64 o)) credentials for_ssid
        | [] => Unknown arg
        end
      else if String.eqb arg "--ap-credentials" then parse_args rest o true for_ssid
      else if String.eqb arg "--ap-credentials-for-ssid" then
        match rest with
        | [] => NeedsSsid
        | v :: rest => parse_args rest o credentials (Some v)
        end
      else if String.eqb arg "--version" then PrintVersion
      else if String.eqb arg "--help" then PrintHelp
      else Unknown arg
  end.

Section Credentials.
Context {J : JsonLib} {F : FileSystem}.
Variable sha256Hex : string -> string.

(** An exception anywhere means no credentials. *)
(* [src/src/main/ApCredentialsCli.cpp:21-40] apCredentialsFromConfig *)
Definition apCredentialsFromConfig (path : string) (d : Disk) : option ApCredentials :=
  match visible d path with
  | None => None
  | Some text =>
      match (j ← parse_stream text;
             match jfind j "pairing" with
             | None => mret None
             | Some p =>
                 pairing ← pairing_from_json p;
                 mret (if negb (paired pairing) || negb (isWellFormedStreamerId (streamer_id pairing)) then None
                       else Some (deriveApCredentials sha256Hex (streamer_id pairing)))
             end) with
      | Done r => r
      | Throw _ => None
      end
  end.

(* [src/src/main/ApCredentialsCli.cpp:46-54] apCredentialsForSsid *)
Definition apCredentialsForSsid (ssid : string) : option ApCredentials :=
  match streamerIdFromApSsid ssid with
  | Some id => if isWellFormedStreamerId id then Some (deriveApCredentials sha256Hex id) else None
  | None => None
  end.

Definition newline : ascii := ascii_of_nat 10.

(** The exit code, and what is printed on the standard output and on the error output. *)
(* [src/src/main/main.cpp:72-78] main *)
Definition print_credentials (c : option ApCredentials) (refusal : string) : Z * string * string :=
  match c with
  | None => (1%Z, "", refusal +:+ String newline "")
  | Some c => (0%Z, "NEXUS_AP_SSID=" +:+ ssid c +:+ String newline
                    ("NEXUS_AP_PASSPHRASE=" +:+ passphrase c +:+ String newline ""), "")
  end.

(** Everything but the run of the application, [None]. *)
(* [src/src/main/main.cpp:28-94] main *)
Definition main_prints (usage : string) (args : list string) (d : Disk) : option (Z * string * string) :=
  match parse_args args default_options false None with
  | Serve _ => None
  | PrintCredentials path =>
      Some (print_credentials (apCredentialsFromConfig path d) "nexus-speaker: not paired — no streamer AP credentials")
  | PrintCredentialsFor s =>
      Some (print_credentials (apCredentialsForSsid s) "nexus-speaker: not a Nexus streamer AP SSID")
  | PrintVersion => Some (0%Z, "nexus-speaker 0.1.0" +:+ String newline "", "")
  | PrintHelp => Some (0%Z, usage, "")
  | NeedsSsid => Some (2%Z, "", "nexus-speaker: --ap-credentials-for-ssid requires an SSID" +:+ String newline "")
  | Unknown arg => Some (2%Z, usage, "unknown argument: " +:+ arg +:+ String newline "")
  end.

(** *** What the scripts read *)

Definition shell_plain (c : ascii) : bool := negb (shell_special c) && negb (bool_decide (c = ascii_of_nat 32)).

Lemma hex_plain c : is_hex c = true -> shell_plain c = true.
Proof. destruct c as [[] [] [] [] [] [] [] []]; by vm_compute. Qed.

Lemma all_chars_weaken (p q : ascii -> bool) s :
  (forall c, p c = true -> q c = true) -> all_chars p s = true -> all_chars q s = true.
Proof.
  intros Hpq. induction s as [|c s IH]; [done|]. cbn. rewrite !andb_true_iff. intros [? ?]. auto.
Qed.

Lemma all_chars_app p s t : all_chars p (s +:+ t) = all_chars p s && all_chars p t.
Proof. induction s as [|c s IH]; [done|]. rewrite str_app_cons. cbn. by rewrite IH, andb_assoc. Qed.

Lemma credentials_plain id :
  (forall s, all_chars is_hex (sha256Hex s) = true) -> isWellFormedStreamerId id = true ->
  let c := deriveApCredentials sha256Hex id in
  all_chars shell_plain (ssid c) = true /\ all_chars shell_plain (passphrase c) = true.
Proof.
  intros Hsha Hid c. split.
  - cbn [c ssid deriveApCredentials]. unfold isWellFormedStreamerId in Hid. destruct (negb _); [done|].
    destruct (strip_prefix "STR-" id) as [rest|] eqn:Hr; [|done]. apply strip_prefix_Some in Hr as ->.
    rewrite !all_chars_app. rewrite (all_chars_weaken is_hex shell_plain rest hex_plain Hid). done.
  - cbn [c passphrase deriveApCredentials]. apply (all_chars_weaken is_hex); [apply hex_plain|].
    specialize (Hsha (kPassphraseSalt +:+ id)). rewrite <- (str_take_drop 24 (sha256Hex _)) in Hsha.
    rewrite all_chars_app in Hsha. by apply andb_true_iff in Hsha as [? _].
Qed.

(** Whatever the configuration file or the name of the network holds, the credentials the
    scripts take from the standard output are two lines without a character the shell reads,
    or there are none. *)
Lemma printed_credentials_plain path s d c :
  (forall s, all_chars is_hex (sha256Hex s) = true) ->
  apCredentialsFromConfig path d = Some c \/ apCredentialsForSsid s = Some c ->
  all_chars shell_plain (ssid c) = true /\ all_chars shell_plain (passphrase c) = true.
Proof.
  intros Hsha [H|H].
  - unfold apCredentialsFromConfig in H. destruct (visible d path) as [text|]; [|done].
    destruct (parse_stream text) as [j|]; [|done]. cbn [mbind Try_bind] in H.
    destruct (jfind j "pairing") as [p|]; [|done]. cbn [mbind Try_bind] in H.
    destruct (pairing_from_json p) as [pr|]; [|done]. cbn in H.
    destruct (paired pr); [|done]. destruct (isWellFormedStreamerId (streamer_id pr)) eqn:Hid; [|done].
    injection H as <-. by apply credentials_plain.
  - unfold apCredentialsForSsid in H. destruct (streamerIdFromApSsid s) as [id|]; [|done].
    destruct (isWellFormedStreamerId id) eqn:Hid; [|done]. injection H as <-. by apply credentials_plain.
Qed.
End Credentials.

(** A sandboxed run still keeps its calibration profiles in the system's directory. *)
Example sandbox_keeps_calibration_dir :
  match parse_args ["--data-dir"; "/tmp/sandbox"] default_options false None with
  | Serve o => calibration_dir o = "/var/lib/nexus-speaker/calibration" /\ secure_dir o = "/tmp/sandbox/secure"
  | _ => False
  end.
Proof. by split. Qed.
End Cli.

(** ** The wiring *)

Module Wiring.

(** The port of the web interface: the environment's, where it names a number. *)
(* [src/src/main/Application.cpp:110-115] Application::buildServices *)
Definition web_port (env : option string) : Z :=
  match env with Some p => default 8080%Z (Scanners.stoi p) | None => 8080%Z end.

(** What a lost packet is counted against: everything the sender is known to have sent. *)
(* [src/src/main/Application.cpp:127-129] Application::buildServices, the telemetry provider *)
Definition loss_pct (m : BufferMetrics) : spec_float :=
  let expected := wrap 64 (received m + lost m) in
  if (0 <? expected)%Z then fdiv (fmul (f_of_Z 100) (f_of_Z (lost m))) (f_of_Z expected) else f0.

(** The playback health of GET_STATUS, whose counters run since boot. *)
(* [src/src/main/Application.cpp:122-143] Application::buildServices, the telemetry provider *)
Definition telemetry {J : JsonLib} (b : AudioBuffer) (s : StreamSync) : json :=
  let m := metrics_ b in
  jobj [("buffer_depth", jint (Z.of_nat (depth b))); ("packets_received", jint (received m));
        ("packets_lost", jint (lost m)); ("packet_loss_pct", jdbl (loss_pct m)); ("underflows", jint (underflows m));
        ("dropped_overflow", jint (dropped_overflow m)); ("latency_ms", jdbl (latency_ms (stats_ s)));
        ("clock_offset_ms", jdbl (clock_offset_ms (stats_ s))); ("drift_ppm", jdbl (drift_ppm (stats_ s)))].

Abbreviation Path := (AmplifierManager * AudioReceiver)%type.

(** The action of safe mode: what [DisableOperation] of the system manager makes happen. *)
(* [src/src/main/Application.cpp:267-270] Application::buildServices *)
Definition disable_operation (h : Amplifier.Hal) : SW Path (Event Payload) unit :=
  zoom fst (fun a p => (a, p.2)) id (Amplifier.mute h);;
  zoom snd (fun r p => (p.1, r)) id receiver_stop;;
  mret ().

(** Whatever was playing, safe mode leaves the mute line driven high, where there is one to
    drive, and no stream counted as running; a stream that ran is announced as stopped. *)
Lemma safe_mode_silences h (p : Path) :
  let p' := state_after (disable_operation h) p in
  streaming_ p'.2 = false /\ r_state p'.2 = ServiceState.Stopped /\
  (no_hardware_ p.1 = false -> line_ p'.1 = true) /\
  (streaming_ p.2 = true -> r_bus p.2 = true ->
     event EventType.AudioStopped "audio" [] ∈ effects_of (disable_operation h) p).
Proof.
  destruct p as [a r]. cbv zeta. unfold disable_operation. rewrite state_after_bind, effects_of_bind.
  set (a' := state_after (Amplifier.mute h) a).
  change (state_after (zoom fst (fun a (p : Path) => (a, p.2)) id (Amplifier.mute h)) (a, r)) with (a', r).
  rewrite state_after_bind, effects_of_bind.
  change (state_after (zoom snd (fun r (p : Path) => (p.1, r)) id receiver_stop) (a', r))
    with (a', state_after receiver_stop r).
  change (effects_of (zoom snd (fun r (p : Path) => (p.1, r)) id receiver_stop) (a', r))
    with (id <$> effects_of receiver_stop r).
  assert (streaming_ (state_after receiver_stop r) = false /\ r_state (state_after receiver_stop r) = ServiceState.Stopped)
    as [Hs1 Hs2] by (unfold receiver_stop, set_stream, when; rewrite !state_after_bind; by destruct (_ && _)).
  split; [exact Hs1|]. split; [exact Hs2|]. split.
  - intros Hh. cbn [fst snd] in Hh. subst a'. unfold state_after, Amplifier.mute. rewrite get_bind_run, Hh.
    unfold drive, Amplifier.transition, mbind, SW_bind, modify, mret, SW_ret, when, get. cbn.
    destruct (status_ok (hal_mute h true)); cbn; [|done]. by destruct (bool_decide _).
  - cbn [fst snd]. intros Hs Hb. apply elem_of_app. right. apply elem_of_app. left.
    rewrite list_fmap_id. unfold effects_of, receiver_stop, set_stream, mbind, SW_bind, get, modify, when, tell.
    cbn. rewrite Hs, Hb. cbn. apply list_elem_of_here.
Qed.
End Wiring.

(** ** The start *)

Module Boot.
Section Boot.
Context {J : JsonLib} {F : FileSystem} {AW : AtomicWriter F} {M : Libm}.
Context {W E : Type} {Hal : DiscoveryHal W E}.
(** The device's identity and key, the names of the services, the directory of the profiles
    and the second the start reaches setup mode. *)
Variables (device_id_ serial_ box_key : string) (name_of : nat -> string) (profiles : string) (now : Z).

(** The parts of the application the start changes itself; the configuration is the one the
    pairing service shares. *)
(* [src/src/main/Application.h:94-131] Application *)
Record Speaker := mk_speaker
  { sp_services : Lifecycle; sp_dsp : DspEngine; sp_system : Manager; sp_pairing : PairingService;
    sp_discovery : DiscoveryService (W := W); sp_cal : CalState * ServiceState; sp_token : string;
    sp_requested : bool }.

Inductive SpEffect :=
| SpService (e : LEffect)
| SpConfig (e : CEffect)
| SpSystem (e : StateMachine.Effect)
| SpPairing (e : PairEffect)
| SpDiscovery (e : DEffect (E := E))
| SpCalibration (e : CalEffect)
| SpPublish (e : Event Payload).

Abbreviation Sp := (SW Speaker SpEffect).

Definition set_services (l : Lifecycle) (s : Speaker) : Speaker :=
  mk_speaker l (sp_dsp s) (sp_system s) (sp_pairing s) (sp_discovery s) (sp_cal s) (sp_token s) (sp_requested s).
Definition set_dsp (d : DspEngine) (s : Speaker) : Speaker :=
  mk_speaker (sp_services s) d (sp_system s) (sp_pairing s) (sp_discovery s) (sp_cal s) (sp_token s) (sp_requested s).
Definition set_system (m : Manager) (s : Speaker) : Speaker :=
  mk_speaker (sp_services s) (sp_dsp s) m (sp_pairing s) (sp_discovery s) (sp_cal s) (sp_token s) (sp_requested s).
Definition set_pairing (p : PairingService) (s : Speaker) : Speaker :=
  mk_speaker (sp_services s) (sp_dsp s) (sp_system s) p (sp_discovery s) (sp_cal s) (sp_token s) (sp_requested s).
Definition set_discovery (d : DiscoveryService) (s : Speaker) : Speaker :=
  mk_speaker (sp_services s) (sp_dsp s) (sp_system s) (sp_pairing s) d (sp_cal s) (sp_token s) (sp_requested s).
Definition set_token (t : string) (s : Speaker) : Speaker :=
  mk_speaker (sp_services s) (sp_dsp s) (sp_system s) (sp_pairing s) (sp_discovery s) (sp_cal s) t (sp_requested s).
Definition set_requested (s : Speaker) : Speaker :=
  mk_speaker (sp_services s) (sp_dsp s) (sp_system s) (sp_pairing s) (sp_discovery s) (sp_cal s) (sp_token s) true.

Definition config_of (s : Speaker) : ConfigManager := mgr (sp_pairing s).
Definition set_config_of (m : ConfigManager) (s : Speaker) : Speaker :=
  let p := sp_pairing s in
  set_pairing (mk_pairing_service m (setup_mode_ p) (setup_code_ p) (code_expiry_epoch_ p) (p_state p) (p_bus p)) s.

Definition on_services {A} (f : SW Lifecycle LEffect A) : Sp A := zoom sp_services set_services SpService f.
Definition on_config {A} (f : SW ConfigManager CEffect A) : Sp A := zoom config_of set_config_of SpConfig f.
Definition on_system {A} (f : SW Manager StateMachine.Effect A) : Sp A := zoom sp_system set_system SpSystem f.
Definition on_pairing {A} (f : SW PairingService PairEffect A) : Sp A := zoom sp_pairing set_pairing SpPairing f.
Definition on_discovery {A} (f : SW DiscoveryService DEffect A) : Sp A :=
  zoom sp_discovery set_discovery SpDiscovery f.

(** The calibration manager works on the shared configuration, and its hooks on the DSP: what
    it applies becomes the gains of the equalizer. *)
(* [src/src/main/Application.cpp:97-103] Application::buildServices *)
Definition on_calibration {A} (f : SW CalibrationManager CalEffect A) : Sp A := fun s =>
  let c := mk_cal (config_of s) (sp_cal s).1 (sp_cal s).2 in
  let c' := state_after f c in
  let gains := corrections (effects_of f c) in
  let s := set_config_of (cal_config c') s in
  (value_of f c,
   mk_speaker (sp_services s) (foldl (fun d g => apply_setting (EqGains g) d) (sp_dsp s) gains) (sp_system s)
     (sp_pairing s) (sp_discovery s) (cal_state_ c', svc_state_ c') (sp_token s) (sp_requested s),
   SpCalibration <$> effects_of f c).

(** Config, identity, system, storage, amplifier, microphone, network, discovery, pairing,
    provisioning, control, dsp, audio, playback, calibration, status, diagnostics, updater,
    web, watchdog. *)
(* [src/src/main/Application.cpp:381-400] Application::buildServices *)
Definition ordered : list nat := seq 0 20.

(* [src/src/main/Application.cpp:698-698] Application::startInOrder *)
Definition critical (svc : nat) : bool := (svc =? 0)%nat || (svc =? 1)%nat.

(** What stands in the configuration for the DSP. *)
(* [src/src/main/Application.cpp:592-598] Application::startup *)
Definition saved_settings (c : SpeakerConfig) : list Setting :=
  [DelayMs (double_of_Z (delay_ms (audio c))); LimiterTo true (double_of_Z (-1)); OutputGain (gain_db (audio c));
   PhaseInvert (phase_invert (audio c))].

(* [src/src/main/Application.cpp:621-628] Application::startup *)
Definition setup_beacon (c : SpeakerConfig) : SpeakerBeacon :=
  mk_beacon device_id_ serial_ (model (device c)) (software_version (device c)) box_key 45455 true.

(** [substr(4)] throws on an id that is shorter. *)
(* [src/src/main/Application.cpp:611-631] Application::startup *)
Definition enter_setup : Sp (Try unit) :=
  on_system (transition SystemState.SetupMode "unconfigured at boot");;
  if (String.length device_id_ <? 4)%nat then mret (Throw "basic_string::substr")
  else
    on_pairing (beginSetupMode ("SETUP-" +:+ str_drop 4 device_id_) now 900);;
    s ← get;
    on_discovery (advertise (setup_beacon (config_ (config_of s))));;
    mret (Done ()).

(** Once the services are up. *)
(* [src/src/main/Application.cpp:587-636] Application::startup *)
Definition settle : Sp (Try Status) :=
  modify (set_token ("nexus-" +:+ device_id_));;
  s ← get;
  modify (set_dsp (foldl (fun d x => apply_setting x d) (sp_dsp s) (saved_settings (config_ (config_of s)))));;
  on_calibration (restore_calibration (Some profiles) true);;
  s ← get;
  let configured := paired (pairing (config_ (config_of s))) in
  on_system (enterInitialState configured);;
  if configured then mret (Done success)
  else
    let? _ := enter_setup in
    mret (Done success).

(** The answers of the services, the configuration's first. *)
Definition answers (start_of : nat -> Status) (read : Status) (svc : nat) : Status :=
  if (svc =? 0)%nat then read else start_of svc.

(** [start_of] is what the services answer; the configuration is read by its own start,
    which is the first. *)
(* [src/src/main/Application.cpp:575-636] Application::startup *)
Definition startup (start_of : nat -> Status) : Sp (Try Status) :=
  read ← on_config Config.start;
  st ← on_services (startInOrder (answers start_of read) critical name_of ordered);
  if negb (status_ok st) then mret (Done st) else settle.

(** *** Until the shutdown *)

(* [src/src/main/Application.cpp:712-716] Application::requestShutdown *)
Definition requestShutdown : Sp unit :=
  modify set_requested;;
  tell [SpPublish (event EventType.ShutdownRequested "main" [])].

(** [None] while the wait goes on. *)
(* [src/src/main/Application.cpp:718-726] Application::run *)
Definition run : Sp (option Z) :=
  s ← get;
  if sp_requested s then on_services Application.shutdown;; mret (Some 0%Z) else mret None.

(** What the process returns when the start fails, [None] where it goes on to [run]. *)
(* [src/src/main/main.cpp:100-106] main *)
Definition main_start (start_of : nat -> Status) : Sp (Try (option Z)) :=
  let? st := startup start_of in
  mret (Done (if status_ok st then None else Some 1%Z)).

(** *** The wait for a shutdown *)

(** Where the main thread stands in [g_wait_cv.wait]: about to read the flag, having read
    it, blocked, or through.  The mutex it holds meanwhile is not taken by the request. *)
(* [src/src/main/Application.cpp:719-722] Application::run *)
Inductive WaitPc := Checking | Decided (seen : bool) | Waiting | Through.

(** The last step is a wake-up the condition variable may have of its own. *)
(* [src/src/main/Application.cpp:712-722] Application::run, Application::requestShutdown *)
Inductive wait_step : WaitPc * bool -> WaitPc * bool -> Prop :=
| wait_check r : wait_step (Checking, r) (Decided r, r)
| wait_through r : wait_step (Decided true, r) (Through, r)
| wait_block r : wait_step (Decided false, r) (Waiting, r)
| wait_request pc r : wait_step (pc, r) (match pc with Waiting => Checking | _ => pc end, true)
| wait_spurious r : wait_step (Waiting, r) (Checking, r).

(** The wait ends only after a request. *)
Lemma wait_needs_request s : rtc wait_step (Checking, false) s -> s.1 = Through \/ s.1 = Decided true -> s.2 = true.
Proof.
  enough (forall s0, (s0.1 = Through \/ s0.1 = Decided true -> s0.2 = true) -> rtc wait_step s0 s ->
    s.1 = Through \/ s.1 = Decided true -> s.2 = true) as H by (intros Hr; by apply (H (Checking, false)); [intros [|]|]).
  intros s0 H0 Hr. induction Hr as [|s1 s2 s3 Hs _ IH]; [done|]. apply IH. destruct Hs; cbn in *; try done.
  - by intros [|[= ->]].
  - intros _. by apply H0; right.
  - by intros [|].
  - by intros [|].
Qed.

(** A request that arrives between the reading of the flag and the blocking wakes nobody:
    the main thread sleeps on a flag that is set, and only another request or a spurious
    wake-up lets it see it. *)
Lemma shutdown_can_be_missed :
  rtc wait_step (Checking, false) (Waiting, true) /\
  forall s, wait_step (Waiting, true) s -> s = (Checking, true).
Proof.
  split.
  - eapply rtc_l; [apply wait_check|]. eapply rtc_l; [apply wait_request|]. eapply rtc_l; [apply wait_block|]. apply rtc_refl.
  - intros s Hs. by inversion Hs.
Qed.

(** *** What the services are told *)

Definition services_told (es : list SpEffect) : list LEffect :=
  omap (fun e => match e with SpService x => Some x | _ => None end) es.

Definition quiet {A} (m : Sp A) : Prop := forall s, services_told (effects_of m s) = [].

Lemma services_told_app es es' : services_told (es ++ es') = services_told es ++ services_told es'.
Proof. apply omap_app. Qed.

Lemma told_wrapped {X} (inj : X -> SpEffect) (es : list X) :
  (forall x, match inj x with SpService _ => False | _ => True end) -> services_told (inj <$> es) = [].
Proof.
  intros Hi. induction es as [|x es IH]; [done|]. cbn. specialize (Hi x). destruct (inj x); try done; exact IH.
Qed.

Lemma services_told_services es : services_told (SpService <$> es) = es.
Proof. induction es as [|x es IH]; [done|]. cbn. by f_equal. Qed.

Lemma untold_ret {A} (a : A) : quiet (mret a).
Proof. done. Qed.

Lemma untold_get : quiet get.
Proof. done. Qed.

Lemma quiet_modify f : quiet (modify f).
Proof. done. Qed.

Lemma untold_bind {A B} (f : A -> Sp B) (m : Sp A) : quiet m -> (forall a, quiet (f a)) -> quiet (mbind f m).
Proof. intros Hm Hf s. by rewrite effects_of_bind, services_told_app, Hm, Hf. Qed.

Lemma quiet_config {A} (f : SW ConfigManager CEffect A) : quiet (on_config f).
Proof. intros s. by apply (told_wrapped SpConfig). Qed.

Lemma quiet_system {A} (f : SW Manager StateMachine.Effect A) : quiet (on_system f).
Proof. intros s. by apply (told_wrapped SpSystem). Qed.

Lemma quiet_pairing {A} (f : SW PairingService PairEffect A) : quiet (on_pairing f).
Proof. intros s. by apply (told_wrapped SpPairing). Qed.

Lemma quiet_discovery {A} (f : SW DiscoveryService DEffect A) : quiet (on_discovery f).
Proof. intros s. by apply (told_wrapped SpDiscovery). Qed.

Lemma quiet_calibration {A} (f : SW CalibrationManager CalEffect A) : quiet (on_calibration f).
Proof. intros s. by apply (told_wrapped SpCalibration). Qed.

Lemma quiet_settle : quiet settle.
Proof.
  pose proof @quiet_system. pose proof @quiet_pairing. pose proof @quiet_discovery. pose proof @quiet_calibration.
  unfold settle, enter_setup, try_bind.
  repeat first
    [ by apply untold_ret | by apply untold_get | by apply quiet_modify | done
    | apply untold_bind; [|intros ?] | case_match ].
Qed.

(** *** The pieces of the start *)

(** The gains of the profile the configuration names, where there is one to put back. *)
Definition saved_gains (m : ConfigManager) : option (list spec_float) :=
  let name := eq_profile (audio (config_ m)) in
  if negb (String.eqb name "default") && profile_has profiles name (disk m) then
    match profile_load profiles name (disk m) with Value p => Some (p_eq_gains p) | Failure _ => None end
  else None.

Lemma restore_run (c : CalibrationManager) :
  restore_calibration (Some profiles) true c =
    ((), c, match saved_gains (cal_config c) with Some g => [CalApply g] | None => [] end).
Proof.
  unfold restore_calibration, saved_gains, applySavedProfile, when. rewrite get_bind_run.
  destruct (negb _ && _); [|done]. unfold mbind, SW_bind, get. cbn [fst snd].
  by destruct (profile_load _ _ _).
Qed.

Definition corrected (m : ConfigManager) (d : DspEngine) : DspEngine :=
  match saved_gains m with Some g => apply_setting (EqGains g) d | None => d end.

(** The DSP as the start leaves it. *)
Definition started_dsp (m : ConfigManager) (d : DspEngine) : DspEngine :=
  corrected m (foldl (fun d x => apply_setting x d) d (saved_settings (config_ m))).

Lemma on_calibration_restore s :
  on_calibration (restore_calibration (Some profiles) true) s =
    ((), set_dsp (corrected (config_of s) (sp_dsp s)) s,
     SpCalibration <$> match saved_gains (config_of s) with Some g => [CalApply g] | None => [] end).
Proof.
  unfold on_calibration, value_of, state_after, effects_of. rewrite restore_run. cbn [fst snd cal_config cal_state_].
  unfold corrected. destruct s as [sv d sy p di [c1 c2] t r]. destruct p as [m b c e st bu]. cbn [config_of sp_pairing mgr].
  by destruct (saved_gains m).
Qed.

(** The speaker once its configuration is read and its services run, before the mode is
    chosen. *)
Definition readied (s : Speaker) : Speaker :=
  set_dsp (started_dsp (config_of s) (sp_dsp s)) (set_token ("nexus-" +:+ device_id_) s).

Definition restored_effect (s : Speaker) : list SpEffect :=
  SpCalibration <$> match saved_gains (config_of s) with Some g => [CalApply g] | None => [] end.

Definition set_machine_run (m : SW Manager StateMachine.Effect unit) (s : Speaker) : Speaker :=
  set_system (state_after m (sp_system s)) s.

Lemma settle_run s :
  settle s =
    (let s1 := readied s in
     let configured := paired (pairing (config_ (config_of s))) in
     let '(r, s2, es) :=
       (on_system (enterInitialState configured);;
        if configured then mret (Done success) else let? _ := enter_setup in mret (Done success)) s1 in
     (r, s2, restored_effect s ++ es)).
Proof.
  unfold settle, mbind at 1 2 3 4 5, SW_bind at 1 2 3 4 5, modify, get.
  rewrite on_calibration_restore. cbn zeta.
  replace (set_dsp _ (set_dsp _ _)) with (readied s) by (by destruct s).
  cbn [fst snd app].
  change (config_of (readied s)) with (config_of s).
  by destruct ((on_system (enterInitialState _);; _) (readied s)) as [[r s2] es].
Qed.

(** Where the machine is after a legal change. *)
Lemma transition_current to why (m : Manager) :
  current (machine m) <> to -> legalTransition (current (machine m)) to = true ->
  current (machine (state_after (StateMachine.transition to why) m)) = to.
Proof.
  intros Hne Hl. unfold state_after. rewrite transition_run. cbv zeta. by rewrite bool_decide_eq_false_2, Hl by done.
Qed.

Lemma initial_state configured m :
  current (machine m) = SystemState.Booting ->
  current (machine (state_after (enterInitialState configured) m)) =
    if configured then SystemState.ConnectingNetwork else SystemState.Unconfigured.
Proof. intros Hm. unfold enterInitialState. destruct configured; apply transition_current; by rewrite Hm. Qed.

(** What the start of an unpaired speaker leaves. *)
Record in_setup (s s' : Speaker) : Prop := mk_in_setup
  { setup_machine : current (machine (sp_system s')) = SystemState.SetupMode;
    setup_open : setup_mode_ (sp_pairing s') = true;
    setup_code : setup_code_ (sp_pairing s') = "SETUP-" +:+ str_drop 4 device_id_;
    setup_until : code_expiry_epoch_ (sp_pairing s') = (now + 900)%Z;
    setup_announced : sp_discovery s' =
      state_after (advertise (setup_beacon (config_ (config_of s)))) (sp_discovery s) }.

Definition setup_pairing (p : PairingService) : PairingService :=
  mk_pairing_service (mgr p) true ("SETUP-" +:+ str_drop 4 device_id_) (now + 900) (p_state p) (p_bus p).

Lemma begin_state p : state_after (beginSetupMode ("SETUP-" +:+ str_drop 4 device_id_) now 900) p = setup_pairing p.
Proof.
  unfold beginSetupMode. change (String.eqb ("SETUP-" +:+ ?x) "") with false. cbv iota.
  unfold state_after, pair_publish, mbind, SW_bind, get, modify, when. cbn [fst snd].
  cbn [p_bus]. unfold setup_pairing. by destruct (p_bus p).
Qed.

Lemma enter_setup_run s :
  let s1 := set_system (state_after (StateMachine.transition SystemState.SetupMode "unconfigured at boot") (sp_system s)) s in
  value_of enter_setup s = (if (String.length device_id_ <? 4)%nat then Throw "basic_string::substr" else Done ()) /\
  state_after enter_setup s =
    if (String.length device_id_ <? 4)%nat then s1
    else set_discovery (state_after (advertise (setup_beacon (config_ (config_of s)))) (sp_discovery s))
           (set_pairing (setup_pairing (sp_pairing s)) s1).
Proof.
  intros s1. unfold enter_setup. rewrite value_of_bind, state_after_bind.
  change (state_after (on_system (StateMachine.transition SystemState.SetupMode "unconfigured at boot")) s) with s1.
  destruct (String.length device_id_ <? 4)%nat; [done|]. rewrite value_of_bind, state_after_bind.
  assert (state_after (on_pairing (beginSetupMode ("SETUP-" +:+ str_drop 4 device_id_) now 900)) s1 =
          set_pairing (setup_pairing (sp_pairing s)) s1) as ->.
  { unfold state_after at 1, on_pairing, zoom. cbn [fst snd]. by rewrite begin_state. }
  unfold value_of, state_after. rewrite get_bind_run. done.
Qed.

Lemma settle_outcome s :
  current (machine (sp_system s)) = SystemState.Booting ->
  let r := value_of settle s in
  let s' := state_after settle s in
  sp_services s' = sp_services s /\ sp_token s' = "nexus-" +:+ device_id_ /\
  sp_dsp s' = started_dsp (config_of s) (sp_dsp s) /\ config_of s' = config_of s /\
  sp_requested s' = sp_requested s /\
  if paired (pairing (config_ (config_of s))) then
    r = Done success /\ current (machine (sp_system s')) = SystemState.ConnectingNetwork /\
    sp_pairing s' = sp_pairing s /\ sp_discovery s' = sp_discovery s
  else if (String.length device_id_ <? 4)%nat then r = Throw "basic_string::substr"
  else r = Done success /\ in_setup s s'.
Proof.
  intros Hboot. cbv zeta. set (configured := paired (pairing (config_ (config_of s)))).
  set (k := on_system (enterInitialState configured);;
            if configured then mret (Done success) else let? _ := enter_setup in mret (Done success)).
  assert (value_of settle s = value_of k (readied s) /\ state_after settle s = state_after k (readied s)) as [-> ->].
  { unfold value_of, state_after. rewrite settle_run. cbv zeta. fold configured k. by destruct (k (readied s)) as [[? ?] ?]. }
  pose proof (initial_state configured (sp_system s) Hboot) as Hm.
  unfold k. rewrite value_of_bind, state_after_bind.
  set (s2 := state_after (on_system (enterInitialState configured)) (readied s)).
  change (value_of (on_system (enterInitialState configured)) (readied s)) with ().
  assert (current (machine (sp_system s2)) =
    if configured then SystemState.ConnectingNetwork else SystemState.Unconfigured) as Hs2 by exact Hm.
  destruct configured; [by split_and!|].
  unfold try_bind. rewrite value_of_bind, state_after_bind.
  destruct (enter_setup_run s2) as [-> ->]. destruct (String.length device_id_ <? 4)%nat; [by split_and!|].
  split_and!; try done. split; try done. cbn [sp_system set_discovery set_pairing set_system].
  apply transition_current; by rewrite Hs2.
Qed.

(** The configuration as its own start leaves it, and the speaker with its services up. *)
Definition read_config (s : Speaker) : ConfigManager := state_after Config.start (config_of s).
Definition served (s : Speaker) : Speaker :=
  set_services (mk_lifecycle (started_ (sp_services s) ++ ordered) false) (set_config_of (read_config s) s).

Lemma boots_harmless start l : Forall (fun svc => critical svc = false) l -> (boots start critical l).2 = None.
Proof. induction 1 as [|svc l Hs _ IH]; [done|]. cbn [boots]. rewrite Hs, andb_false_r. exact IH. Qed.

Lemma first_failure start :
  (boots start critical ordered).2 =
    if negb (status_ok (start 0%nat)) then Some 0%nat
    else if negb (status_ok (start 1%nat)) then Some 1%nat else None.
Proof.
  assert (ordered = 0 :: 1 :: seq 2 18)%nat as -> by reflexivity. cbn [boots].
  change (critical 0) with true. change (critical 1) with true. rewrite !andb_true_r.
  destruct (negb (status_ok (start 0%nat))); [done|]. cbn [snd].
  destruct (negb (status_ok (start 1%nat))); [done|]. cbn [snd]. apply boots_harmless. by repeat constructor.
Qed.

(** What follows the start of the services, whatever run that is. *)
Lemma after_services (run : SW Lifecycle LEffect Status) s :
  let r := (run (sp_services s)).1 in
  let s1 := set_services r.2 s in
  let m := st ← on_services run; if negb (status_ok st) then mret (Done st) else settle in
  (value_of m s, state_after m s) =
    if status_ok r.1 then (value_of settle s1, state_after settle s1) else (Done r.1, s1).
Proof.
  cbv zeta. rewrite value_of_bind, state_after_bind.
  change (value_of (on_services run) s) with (run (sp_services s)).1.1.
  change (state_after (on_services run) s) with (set_services (run (sp_services s)).1.2 s).
  by destruct (status_ok _).
Qed.

Lemma startup_then start_of s :
  let r := (startInOrder (answers start_of (value_of Config.start (config_of s))) critical name_of ordered
              (sp_services s)).1 in
  let s1 := set_services r.2 (set_config_of (read_config s) s) in
  (value_of (startup start_of) s, state_after (startup start_of) s) =
    if status_ok r.1 then (value_of settle s1, state_after settle s1) else (Done r.1, s1).
Proof.
  unfold startup. rewrite value_of_bind, state_after_bind.
  exact (after_services (startInOrder (answers start_of (value_of Config.start (config_of s))) critical name_of ordered)
           (set_config_of (read_config s) s)).
Qed.

Lemma startup_run start_of s :
  stopped_ (sp_services s) = false ->
  let read := value_of Config.start (config_of s) in
  if status_ok read && status_ok (start_of 1%nat) then
    value_of (startup start_of) s = value_of settle (served s) /\
    state_after (startup start_of) s = state_after settle (served s)
  else
    value_of (startup start_of) s =
      Done (error ErrorCode.ServiceStartFailed (name_of (if status_ok read then 1 else 0)%nat)) /\
    state_after (startup start_of) s = set_services (mk_lifecycle [] true) (set_config_of (read_config s) s).
Proof.
  intros Hs read. pose proof (startup_then start_of s) as Hm. cbv zeta in Hm.
  destruct (startInOrder_run (answers start_of read) critical name_of ordered (sp_services s) Hs) as [Hrun _].
  rewrite first_failure in Hrun. fold read in Hm. rewrite Hrun in Hm. clear Hrun.
  cbn [answers Nat.eqb] in Hm.
  destruct (status_ok read), (status_ok (start_of 1%nat)); cbn [negb andb fst snd status_ok success error] in Hm |- *;
    apply pair_eq in Hm; exact Hm.
Qed.

(** The services are told only what [startInOrder] tells them. *)
Lemma startup_told start_of s :
  services_told (effects_of (startup start_of) s) =
    effects_of (startInOrder (answers start_of (value_of Config.start (config_of s))) critical name_of ordered)
      (sp_services s).
Proof.
  unfold startup. rewrite effects_of_bind, services_told_app, quiet_config. cbn [app].
  set (run := startInOrder _ critical name_of ordered). rewrite effects_of_bind, services_told_app.
  change (effects_of (on_services run) ?s0) with (SpService <$> effects_of run (sp_services s0)).
  rewrite services_told_services.
  assert (forall st s0, services_told (effects_of (if negb (status_ok st) then mret (Done st) else settle) s0) = []) as ->
    by (intros st s0; destruct (negb (status_ok st)); [done|apply quiet_settle]).
  by rewrite app_nil_r.
Qed.

Lemma startup_told_list start_of s :
  sp_services s = mk_lifecycle [] false ->
  let read := value_of Config.start (config_of s) in
  services_told (effects_of (startup start_of) s) =
    if negb (status_ok read) then [LStart 0; LBusStop]
    else if negb (status_ok (start_of 1)) then [LStart 0; LStart 1; LStop 0; LBusStop]
    else LStart <$> seq 0 20.
Proof.
  intros Hs read. rewrite startup_told, Hs. fold read.
  destruct (startInOrder_run (answers start_of read) critical name_of ordered (mk_lifecycle [] false) eq_refl)
    as [Hrun _]. unfold effects_of. rewrite Hrun, first_failure.
  assert (ordered = 0 :: 1 :: seq 2 18)%nat as Ho by reflexivity. rewrite Ho. cbn [answers Nat.eqb boots].
  change (critical 0) with true. change (critical 1) with true. rewrite !andb_true_r.
  destruct (status_ok read); cbn [negb fst snd]; [|done].
  by destruct (status_ok (start_of 1%nat)).
Qed.
End Boot.
Arguments Speaker {F} W.
Arguments SpEffect {F} E.

(** *** The pairing window *)

Section Window.
Context {J : JsonLib} {F : FileSystem} {AW : AtomicWriter F} {Cr : Crypto}.
Variables (openSealed : string -> Result string) (secrets_dir : string).

Lemma proven_validates q expected t expiry :
  proven q expected t expiry -> q_sealed_wifi_b64 q <> "" ->
  status_ok (validate_request q expected t expiry) = true.
Proof.
  intros (Hid&Hkey&He&Hc&Ht&Hs) Hw. unfold validate_request.
  assert (q_streamer_id q <> "") as Hne by (intros E; by rewrite E in Hid).
  apply String.eqb_neq in Hne, Hkey, He, Hw. rewrite Hne, Hkey, He, Hw, Hid, Hs. cbn [orb negb].
  rewrite (proj2 (Z.ltb_ge _ _)) by lia. by rewrite (proj2 (String.eqb_eq _ _) Hc).
Qed.

(** What an accepted request would record. *)
Definition result_for (q : PairingRequest) (wifi : WifiCredentials) : PairingResult :=
  mk_pairing_result (q_streamer_id q) (q_streamer_public_key q) (q_site_id q) (q_initial_speaker_name q) wifi.

Definition acceptable (q : PairingRequest) (code : string) (t expiry : Z) (p : PairingService) : Prop :=
  proven q code t expiry /\ q_sealed_wifi_b64 q <> "" /\
  exists opened wifi, openSealed (q_sealed_wifi_b64 q) = Value opened /\ wifi_of opened = Done wifi /\
    status_ok (value_of (persistPairing secrets_dir (result_for q wifi)) p) = true.

Lemma pair_fail_value s p : value_of (pair_fail s) p = Failure s.
Proof. unfold pair_fail. by rewrite value_of_bind. Qed.

Lemma accepted_iff q t p :
  setup_mode_ p = true ->
  (exists r, value_of (processRequest openSealed secrets_dir q t) p = Value r) <->
  acceptable q (setup_code_ p) t (code_expiry_epoch_ p) p.
Proof.
  intros Hset. unfold processRequest, acceptable. rewrite value_of_bind.
  change (value_of get p) with p. change (state_after get p) with p. rewrite Hset. cbn [negb].
  set (v := validate_request q (setup_code_ p) t (code_expiry_epoch_ p)).
  destruct (status_ok v) eqn:Hv; cbn [negb].
  2:{ rewrite pair_fail_value. split; [by intros [r ?]|]. intros (Hp&Hw&_).
      pose proof (proven_validates _ _ _ _ Hp Hw) as Hok. fold v in Hok. congruence. }
  assert (proven q (setup_code_ p) t (code_expiry_epoch_ p) /\ q_sealed_wifi_b64 q <> "") as [Hp Hw].
  { split; [by apply validate_request_ok|]. intros E. revert Hv. unfold v, validate_request. rewrite E.
    repeat (destruct (_ || _); [done|]). repeat case_match; try done. }
  destruct (openSealed (q_sealed_wifi_b64 q)) as [opened|st].
  2:{ rewrite pair_fail_value. split; [by intros [r ?]|]. by intros (_&_&?&?&?&_). }
  destruct (wifi_of opened) as [wifi|what] eqn:Ho.
  2:{ rewrite pair_fail_value. split; [by intros [r ?]|]. intros (_&_&o&w&[= <-]&Hx&_). congruence. }
  rewrite value_of_bind. fold (result_for q wifi).
  destruct (status_ok (value_of (persistPairing secrets_dir (result_for q wifi)) p)) eqn:Hs; cbn [negb].
  - split; [|intros _; rewrite !value_of_bind; by eexists]. intros _. split_and!; [done|done|].
    by exists opened, wifi.
  - rewrite pair_fail_value. split; [by intros [r ?]|]. intros (_&_&o&w&[= <-]&Hx&Hy).
    rewrite Ho in Hx. injection Hx as <-. congruence.
Qed.
End Window.
End Boot.
Import Boot.

(** ** After a calibration *)

Section Corrected.
Context {J : JsonLib} {L : JsonLaws J} {F : FileSystem} {FL : FileSystemLaws F} {AW : AtomicWriter F} {M : Libm}.

Lemma profile_save_others dir p d q :
  q <> profile_path dir (p_name p) -> q <> profile_path dir (p_name p) +:+ ".tmp" ->
  visible (state_after (profile_save dir p) d) q = visible d q.
Proof.
  intros Hq Ht. unfold profile_save. destruct (validName (p_name p)); cbn [negb]; [|done].
  set (path := profile_path dir (p_name p)) in *. set (rest := fun _ : unit => _). set (d1 := (create_directories dir d).2).
  pose proof (ends_swapped path (path +:+ ".tmp") (dump_indented (profile_json p)) d1 (tmp_ne path) (rest tt)
                (open_profile_triple path (path +:+ ".tmp") _ d1 (tmp_ne path))) as [_ _ _ Hoth].
  rewrite state_after_bind. change (state_after (sys (create_directories dir)) d) with d1.
  destruct (value_of (sys (create_directories dir)) d).
  specialize (Hoth q Hq Ht). apply Forall_cons in Hoth as [-> _].
  by destruct (create_directories_same dir d q).
Qed.

(** What holds of the value and of the configuration a part of the run ends with. *)
Definition ends_with {A} (m0 : ConfigManager) (m : SW CalibrationManager CalEffect A)
    (Q : A -> ConfigManager -> Prop) : Prop :=
  forall c, cal_config c = m0 -> Q (value_of m c) (cal_config (state_after m c)).

Lemma ends_skip {A} m0 (f : SW CalibrationManager CalEffect unit) (k : SW CalibrationManager CalEffect A) Q :
  (forall c, cal_config (state_after f c) = cal_config c) -> ends_with m0 k Q -> ends_with m0 (f;; k) Q.
Proof. intros Hf Hk c Hc. rewrite value_of_bind, state_after_bind. apply Hk. by rewrite Hf. Qed.

Lemma ends_fail {A} m0 bus mute_ s Q :
  (forall s, Q (Failure s : Result A) m0) -> ends_with m0 (cal_fail bus mute_ s) Q.
Proof.
  intros HQ c Hc. unfold value_of, state_after. rewrite fail_run. cbn [fst snd cal_config]. rewrite Hc. apply HQ.
Qed.

(** A calibration that completes has saved its profile, and then recorded its name. *)
Definition completed_with (dir name : string) (m : ConfigManager) (r : Result CalibrationResult) (m' : ConfigManager) : Prop :=
  match r with
  | Value x =>
      let p := mk_profile name (recommended_eq x) (score x) f0 in
      status_ok (value_of (profile_save dir p) (disk m)) = true /\ length (recommended_eq x) = kEqBands /\
      m' = state_after (update (with_audio (with_eq name)))
             (set_disk (state_after (profile_save dir p) (disk m)) m)
  | Failure _ => True
  end.

Lemma completed_run bus dir fs fft_size capture apply_eq_ mute_ name m :
  ends_with m (runCalibration (AW := AW) bus true (Some dir) fs fft_size (Some capture) apply_eq_ mute_ name)
    (completed_with dir name m).
Proof.
  assert (forall t p, forall c, cal_config (state_after (cal_publish (F := F) bus t p) c) = cal_config c) as Hpub
    by (intros; unfold cal_publish; by destruct bus).
  assert (forall b, forall c, cal_config (state_after (call_mute (F := F) mute_ b) c) = cal_config c) as Hmute
    by (intros; unfold call_mute; by destruct mute_).
  assert (forall g, forall c, cal_config (state_after (call_apply (F := F) apply_eq_ g) c) = cal_config c) as Happ
    by (intros; unfold call_apply; by destruct apply_eq_).
  unfold runCalibration. do 4 (apply ends_skip; [done|]). apply ends_skip; [done|].
  destruct (capture _) as [|v pcm]; [by apply ends_fail|]. generalize (v :: pcm). intros captured.
  unfold cal_process. cbv zeta. set (x := analyzed fs fft_size captured).
  do 4 (apply ends_skip; [done|]). assert (existsb out_of_range (recommended_eq x) = false) as -> by apply verification_passes.
  intros c Hc. rewrite value_of_bind, state_after_bind.
  set (p := mk_profile name (recommended_eq x) (score x) f0).
  change (value_of (cal_disk (profile_save dir p)) c) with (value_of (profile_save dir p) (disk (cal_config c))).
  rewrite Hc. destruct (status_ok (value_of (profile_save dir p) (disk m))) eqn:Hs; cbn [negb].
  2:{ unfold value_of, state_after at 1. by rewrite fail_run. }
  set (c1 := state_after (cal_disk (profile_save dir p)) c).
  assert (cal_config c1 = set_disk (state_after (profile_save dir p) (disk m)) m) as Hc1 by (by rewrite <- Hc).
  unfold cal_finish. cbn [when].
  set (rest := call_mute mute_ false;; _).
  assert (ends_with (state_after (update (with_audio (with_eq name))) (cal_config c1)) rest
            (fun r m' => r = Value x /\ m' = state_after (update (with_audio (with_eq name))) (cal_config c1))) as Hrest.
  { unfold rest. do 3 (apply ends_skip; [done|]). intros c2 Hc2. by split. }
  set (pre := zoom cal_config set_cal_config CalConfig _;; mret ()).
  rewrite (value_of_bind (fun _ => rest) pre), (state_after_bind (fun _ => rest) pre).
  destruct (Hrest (state_after pre c1)) as [Hr Hm]; [unfold pre; by rewrite state_after_bind|].
  rewrite Hr, Hm. cbn [completed_with]. fold p. rewrite Hc1. split_and!; [done| |done].
  unfold x, analyzed, recommended_eq, Acoustics.computeCorrection. by rewrite !length_fmap.
Qed.

(** Whatever becomes of the update, the file holds the configuration in memory, and other
    files are left alone. *)
Lemma update_in_file f m q :
  visible (disk m) (path_ m) = Some (dump_indented (to_json (config_ m))) ->
  q <> path_ m -> q <> path_ m +:+ ".bak" -> q <> path_ m +:+ ".tmp" ->
  let m' := state_after (update f) m in
  visible (disk m') (path_ m) = Some (dump_indented (to_json (config_ m'))) /\
  visible (disk m') q = visible (disk m) q.
Proof.
  intros Hfile Hq Hb Ht m'. subst m'. destruct (is_valid (f (config_ m))) eqn:Hv.
  - destruct (update_run f m Hv) as (r & m1 & es & [Hmem _ Hok Herr _ _ Hoth] & Hu).
    unfold state_after. rewrite Hu. destruct (status_ok r); cbn [fst snd].
    + split; [by apply Hok|]. by destruct (Hoth q Hq Hb Ht).
    + destruct Hmem as (_&_&->&_). destruct (Herr eq_refl) as [-> _]. split; [done|]. by destruct (Hoth q Hq Hb Ht).
  - unfold state_after, update. rewrite get_bind_run. unfold is_valid in Hv. rewrite Hv. by split.
Qed.

Lemma profile_visible dir name d d' :
  visible d' (profile_path dir name) = visible d (profile_path dir name) ->
  profile_load dir name d' = profile_load dir name d.
Proof. intros Hd. unfold profile_load. by rewrite Hd. Qed.

Lemma loaded_profile_has dir name d p : profile_load dir name d = Value p -> profile_has dir name d = true.
Proof.
  unfold profile_load, profile_has, exists_file. destruct (validName name); cbn [negb andb]; [|done].
  destruct (visible d (profile_path dir name)); [|done]. done.
Qed.

(** A start that finds the file as the configuration was left. *)
Lemma start_from_file d path b c :
  is_valid c = true -> int_fields c -> dumpable (to_json c) -> visible d path = Some (dump_indented (to_json c)) ->
  value_of Config.start (new_config_manager d path b) = success /\
  config_ (state_after Config.start (new_config_manager d path b)) = stored c /\
  disk (state_after Config.start (new_config_manager d path b)) = d.
Proof.
  intros Hv Hi Hd Hf.
  assert (load (new_config_manager d path b) = (success, set_config (stored c) (new_config_manager d path b), [])) as Hl.
  { rewrite load_run. unfold load_source, exists_file. cbn [disk path_ new_config_manager].
    rewrite Hf. cbn [negb].
    by rewrite (tryParse_text d path c Hv Hi Hd Hf). }
  rewrite start_run. unfold value_of at 1, Config.start, mbind, SW_bind. rewrite Hl.
  unfold value_of, state_after. rewrite Hl. by split_and!.
Qed.

Lemma settings_keep_eq l d :
  Forall (fun x => match x with EqGains _ => False | _ => True end) l ->
  eq_ (foldl (fun d x => apply_setting x d) d l) = eq_ d.
Proof.
  intros Hl. revert d. induction Hl as [|x l Hx Hl IH]; intros d; [done|]. cbn [foldl]. rewrite IH.
  by destruct x, d.
Qed.

Lemma started_gains profiles m d g :
  saved_gains profiles m = Some g -> eq_ (started_dsp profiles m d) = setGains g (eq_ d).
Proof.
  intros Hg. unfold started_dsp, corrected. rewrite Hg.
  rewrite <- (settings_keep_eq (saved_settings (config_ m)) d) by (by repeat constructor).
  by destruct (foldl _ d _).
Qed.
End Corrected.

(** ** Properties *)

(** C24: A room correction survives a restart.  When a calibration has completed and its name
    stands in the configuration, the next start - from the same disk, with the identity
    sound - puts exactly the correction that was measured back into the equalizer, whatever
    profile was there before. *)
Theorem correction_survives_restart (J : JsonLib) (L : JsonLaws J) (F : FileSystem) (FL : FileSystemLaws F)
    (AW : AtomicWriter F) (M : Libm) (W E : Type) (Hal : DiscoveryHal W E)
    device_id_ serial_ box_key name_of dir now start_of (s : Speaker W) b
    bus fs fft_size capture apply_eq_ mute_ name x (c : CalibrationManager) :
  let run := runCalibration (AW := AW) bus true (Some dir) fs fft_size (Some capture) apply_eq_ mute_ name in
  let m := cal_config c in
  let m' := cal_config (state_after run c) in
  let profile := profile_path dir name in
  value_of run c = Value x -> eq_profile (audio (config_ m')) = name -> name <> "default" ->
  visible (disk m) (path_ m) = Some (dump_indented (to_json (config_ m))) ->
  is_valid (config_ m') = true -> int_fields (config_ m') -> dumpable (to_json (config_ m')) ->
  dumpable (profile_json (mk_profile name (recommended_eq x) (score x) f0)) ->
  profile <> path_ m -> profile +:+ ".tmp" <> path_ m -> profile <> path_ m +:+ ".bak" -> profile <> path_ m +:+ ".tmp" ->
  stopped_ (sp_services s) = false -> current (machine (sp_system s)) = SystemState.Booting ->
  config_of s = new_config_manager (disk m') (path_ m) b -> status_ok (start_of 1%nat) = true ->
  let s' := state_after (startup (Hal := Hal) device_id_ serial_ box_key name_of dir now start_of) s in
  eq_ (sp_dsp s') = setGains (recommended_eq x) (eq_ (sp_dsp s)).
Proof.
  intros run m m' profile Hx Hname Hdef Hfile Hv Hi Hd Hdump Hp1 Hp2 Hp3 Hp4 Hstop Hboot Hcfg Hid s'.
  pose proof (completed_run bus dir fs fft_size capture apply_eq_ mute_ name m c eq_refl) as Hrun.
  fold run in Hrun. rewrite Hx in Hrun. destruct Hrun as (Hsaved&Hlen&Hm'). fold m' in Hm'.
  set (p := mk_profile name (recommended_eq x) (score x) f0) in *.
  set (d1 := state_after (profile_save dir p) (disk m)) in *.
  pose proof (profile_survives J L F FL dir p (disk m) Hdump Hlen) as Hsurv.
  fold d1 in Hsurv. cbv zeta in Hsurv. cbn [p_name p] in Hsurv.
  destruct (validName name); [|by destruct Hsurv as [Hs _]; rewrite Hs in Hsaved].
  destruct Hsurv as [Hload _]. rewrite Hsaved in Hload.
  destruct (update_in_file (with_audio (with_eq name)) (set_disk d1 m) profile) as [Hf Hq]; try done.
  { cbn [disk path_ set_disk config_]. unfold d1. rewrite profile_save_others; [exact Hfile|..]; intros Heq; [by apply Hp1|by apply Hp2]. }
  rewrite <- Hm' in Hf, Hq. cbn [path_ set_disk disk] in Hf, Hq.
  destruct (start_from_file (disk m') (path_ m) b (config_ m') Hv Hi Hd Hf) as (Hr&Hc&Hdk).
  pose proof (startup_run device_id_ serial_ box_key name_of dir now start_of s Hstop) as Hstart. cbv zeta in Hstart.
  rewrite Hcfg, Hr, Hid in Hstart. destruct Hstart as [_ Hst]. unfold s'. rewrite Hst.
  destruct (settle_outcome device_id_ serial_ box_key dir now (served s) Hboot) as (_&_&Hdsp&_).
  rewrite Hdsp. apply started_gains. unfold saved_gains.
  change (config_of (served s)) with (read_config s). unfold read_config. rewrite Hcfg, Hc, Hdk.
  change (eq_profile (audio (stored (config_ m')))) with (eq_profile (audio (config_ m'))). rewrite Hname.
  apply String.eqb_neq in Hdef. rewrite Hdef.
  rewrite (profile_visible dir name d1 (disk m') Hq).
  rewrite (loaded_profile_has dir name (disk m') p) by (by rewrite (profile_visible dir name d1 (disk m') Hq)).
  cbn [negb andb]. by rewrite Hload.
Qed.

(** C23: A fresh speaker whose device id has at least four characters can be paired for
    fifteen minutes, and only by who knows its code.  Started unpaired, with its
    configuration readable and its identity sound, it ends in setup mode with its beacon
    announced.  The first pairing request that then reaches it is accepted exactly when it
    names a well-formed streamer id and a key that is not empty, carries the code SETUP- and
    the device id from its fifth character on, arrives no later than 900 seconds after the
    start, is signed by the key it names, and brings a sealed Wi-Fi that is not empty, opens
    to credentials that can be read and stored together with the pairing. *)
Theorem fresh_speaker_pairs_in_its_window (J : JsonLib) (F : FileSystem) (AW : AtomicWriter F) (M : Libm) (Cr : Crypto)
    (W E : Type) (Hal : DiscoveryHal W E) openSealed secrets_dir
    device_id_ serial_ box_key name_of dir now start_of (s : Speaker W) :
  let startup := startup (Hal := Hal) device_id_ serial_ box_key name_of dir now start_of in
  let c := config_ (state_after Config.start (config_of s)) in
  stopped_ (sp_services s) = false -> current (machine (sp_system s)) = SystemState.Booting ->
  status_ok (value_of Config.start (config_of s)) = true -> status_ok (start_of 1%nat) = true ->
  paired (pairing c) = false -> (4 <= String.length device_id_)%nat ->
  let s' := state_after startup s in
  value_of startup s = Done success /\ current (machine (sp_system s')) = SystemState.SetupMode /\
  sp_discovery s' = state_after (advertise (setup_beacon device_id_ serial_ box_key c)) (sp_discovery s) /\
  forall q t,
    (exists r, value_of (processRequest openSealed secrets_dir q t) (sp_pairing s') = Value r) <->
    acceptable openSealed secrets_dir q ("SETUP-" +:+ str_drop 4 device_id_) t (now + 900) (sp_pairing s').
Proof.
  intros st c Hstop Hboot Hread Hid Hpaired Hlen s'.
  pose proof (startup_run device_id_ serial_ box_key name_of dir now start_of s Hstop) as Hstart. cbv zeta in Hstart.
  rewrite Hread, Hid in Hstart. destruct Hstart as [Hval Hst].
  destruct (settle_outcome device_id_ serial_ box_key dir now (served s) Hboot) as (_&_&_&_&_&Hset).
  change (config_of (served s)) with (state_after Config.start (config_of s)) in Hset. fold c in Hset.
  rewrite Hpaired, (proj2 (Nat.ltb_ge _ _) Hlen) in Hset. destruct Hset as [Hr [Hm Ho Hcode Huntil Hann]].
  unfold s', st. rewrite Hval, Hst. split_and!; [done|done|done|].
  intros q t. rewrite <- Hcode, <- Huntil. by apply accepted_iff.
Qed.


(** A configuration that is corrupt beyond its backup does not bring the speaker up in safe
    mode: the start is refused, with everything stopped and the machine never left. *)
Lemma corrupt_config_aborts_start (J : JsonLib) (F : FileSystem) (FL : FileSystemLaws F) (AW : AtomicWriter F)
    (M : Libm) (W E : Type) (Hal : DiscoveryHal W E) device_id_ serial_ box_key name_of dir now start_of (s : Speaker W) :
  load_source (disk (config_of s)) (path_ (config_of s)) = Lost -> stopped_ (sp_services s) = false ->
  let startup := startup (Hal := Hal) device_id_ serial_ box_key name_of dir now start_of in
  value_of startup s = Done (error ErrorCode.ServiceStartFailed (name_of 0%nat)) /\
  sp_services (state_after startup s) = mk_lifecycle [] true /\ sp_system (state_after startup s) = sp_system s.
Proof.
  intros Hlost Hstop st.
  pose proof (startup_run device_id_ serial_ box_key name_of dir now start_of s Hstop) as Hstart. cbv zeta in Hstart.
  assert (value_of Config.start (config_of s) =
    error ErrorCode.ConfigCorrupt "config was corrupt; reverted to defaults") as Hread.
  { unfold value_of, Config.start, mbind, SW_bind. rewrite load_run, Hlost. done. }
  rewrite Hread in Hstart. cbn [status_ok error] in Hstart. unfold st. by destruct Hstart as [-> ->].
Qed.

(** ** Witnesses *)

Section Witnesses.
#[local] Existing Instance jvalue_lib.
#[local] Existing Instance jvalue_laws.
#[local] Existing Instance mdisk_system.
#[local] Existing Instance mdisk_laws.
#[local] Existing Instance posix_writer.
#[local] Existing Instance demo_crypto.
#[local] Existing Instance flat_libm.

(** A speaker just built, on a disk. *)
Definition built (d : Disk) : Speaker (option SpeakerBeacon) :=
  mk_speaker (mk_lifecycle [] false) (new_dsp (f_of_Z 48000) 2) StateMachine.boot
    (mk_pairing_service (new_config_manager d "c" true) false "" 0 ServiceState.Stopped true)
    (mk_discovery (None : option SpeakerBeacon) true ServiceState.Stopped false false "" "")
    (Idle, ServiceState.Stopped) "" false.

Definition fresh_speaker : Speaker (option SpeakerBeacon) := built (disk_with (dump_indented (to_json defaults))).

Abbreviation demo_startup := (startup (Hal := stub_discovery) "SPK-0001" "SN-1" "box" (fun _ => "service"%string)
  "profiles" 1000 (fun _ => success)).

Definition setup_request : PairingRequest :=
  let q := mk_pairing_request "STR-0123abcd" "key" "site" "Kitchen" "SETUP-0001" demo_sealed "" in
  mk_pairing_request "STR-0123abcd" "key" "site" "Kitchen" "SETUP-0001" demo_sealed ("sig:key:" +:+ request_text q).

(** Right after the start, and a second too late. *)
Lemma fresh_speaker_pairs_in_its_window_witness :
  let s' := state_after demo_startup fresh_speaker in
  value_of demo_startup fresh_speaker = Done success /\
  acceptable (fun s => Value s) "secrets" setup_request "SETUP-0001" 1900 1900 (sp_pairing s') /\
  ~ exists r, value_of (processRequest (fun s => Value s) "secrets" setup_request 1901) (sp_pairing s') = Value r.
Proof.
  cbv zeta.
  assert (status_ok (value_of Config.start (config_of fresh_speaker)) = true) as Hread by (vm_compute; reflexivity).
  assert (paired (pairing (config_ (state_after Config.start (config_of fresh_speaker)))) = false) as Hfree
    by (vm_compute; reflexivity).
  assert (4 <= String.length "SPK-0001")%nat as Hlen by (cbn; lia).
  destruct (fresh_speaker_pairs_in_its_window jvalue_lib mdisk_system posix_writer flat_libm demo_crypto _ _
    stub_discovery (fun s => Value s) "secrets" "SPK-0001" "SN-1" "box" (fun _ => "service"%string) "profiles" 1000
    (fun _ => success) fresh_speaker eq_refl eq_refl Hread eq_refl Hfree Hlen) as (Hv & _ & _ & Hp).
  assert (match value_of (processRequest (fun s => Value s) "secrets" setup_request 1900)
    (sp_pairing (state_after demo_startup fresh_speaker)) with Value _ => true | Failure _ => false end = true) as Hok
    by (vm_compute; reflexivity).
  split; [exact Hv|].
  revert Hp Hok. generalize (sp_pairing (state_after demo_startup fresh_speaker)). intros p Hp Hok.
  change ("SETUP-" +:+ str_drop 4 "SPK-0001") with "SETUP-0001"%string in Hp. change (1000 + 900)%Z with 1900%Z in Hp.
  split.
  - apply Hp. by destruct (value_of (processRequest _ _ setup_request 1900) p) as [r|]; [exists r|].
  - intros Hr. apply Hp in Hr as ((_&_&_&_&Ht&_)&_). lia.
Defined.


(** The calibration of a speaker on the default configuration, with a microphone that heard
    two samples. *)
Definition calibrated : CalibrationManager := mk_cal demo_manager Idle ServiceState.Running.
Abbreviation demo_calibration := (
  runCalibration true true (Some "profiles"%string) (f_of_Z 48000) 2 (Some (fun _ => [100; -100]%Z)) true true "living").
Definition restarted : Speaker (option SpeakerBeacon) :=
  built (disk (cal_config (state_after demo_calibration calibrated))).

Lemma calibrated_config :
  config_ (cal_config (state_after demo_calibration calibrated)) = with_audio (with_eq "living") defaults.
Proof. vm_compute. reflexivity. Qed.

Lemma correction_survives_restart_witness :
  exists x, value_of demo_calibration calibrated = Value x /\
    eq_ (sp_dsp (state_after demo_startup restarted)) = setGains (recommended_eq x) (eq_ (sp_dsp restarted)).
Proof.
  destruct (value_of demo_calibration calibrated) as [x|st] eqn:Hx.
  2:{ assert (match value_of demo_calibration calibrated with Value _ => true | Failure _ => false end = true) as Hok
        by (vm_compute; reflexivity). rewrite Hx in Hok. discriminate. }
  exists x. split; [done|].
  refine (correction_survives_restart jvalue_lib jvalue_laws mdisk_system mdisk_laws posix_writer flat_libm _ _
    stub_discovery "SPK-0001" "SN-1" "box" (fun _ => "service"%string) "profiles" 1000 (fun _ => success) restarted true
    true (f_of_Z 48000) 2 (fun _ => [100; -100]%Z) true true "living" x calibrated Hx _ _ _ _ _ _ _ _ _ _ _ _ _ _ _).
  - by rewrite calibrated_config.
  - done.
  - vm_compute. reflexivity.
  - rewrite calibrated_config. vm_compute. reflexivity.
  - rewrite calibrated_config. unfold int_fields, in_signed. simpl. lia.
  - exact I.
  - exact I.
  - vm_compute. discriminate.
  - vm_compute. discriminate.
  - vm_compute. discriminate.
  - vm_compute. discriminate.
  - reflexivity.
  - reflexivity.
  - reflexivity.
  - reflexivity.
Defined.
End Witnesses.
