(* ===== verification/Workers.v ===== *)
(** * Workers: the threads that keep in touch with the speakers

    Models the threads of [streamer/src/state/MonitorService.h] and
    [streamer/src/app/LinkReporterService.h] as step relations: a state is where the thread
    and the caller of [start] and [stop] stand, and the flags they share; a step is one
    access to a flag, one exchange begun or ended, one notification, one sleep begun or
    ended, or one join.  The monitor waits on a condition variable: it tests its flag, then
    blocks, and only a thread that is blocked hears a notification.  What an exchange does is
    [Gateway.send]; here it may end or throw. *)

From S2P Require Import Prelude Core Json Files Config Control Speakers Gateway.

(** What a step shows: an exchange begun, an exception that leaves a thread, a sleep that
    lasted the milliseconds it was to last, a wake-up a condition variable has of its own,
    and the return of [stop] from the join. *)
Inductive Shown := Exchange (sp : Speaker) | Terminate | Slept (ms : Z) | Spurious | Joined | Quiet.

#[global] Instance Shown_eq_dec : EqDecision Shown.
Proof. solve_decision. Defined.

(** The time slept out in a run. *)
Definition slept_in (tr : list Shown) : Z :=
  foldr (fun e n => match e with Slept ms => ms + n | _ => n end)%Z 0%Z tr.

Lemma slept_cons e tr : slept_in (e :: tr) = (slept_in [e] + slept_in tr)%Z.
Proof. unfold slept_in. destruct e; cbn [foldr]; lia. Qed.

(** *** Machines that have been told to stop *)

Section Drain.
Context {S : Type} (step : S -> Shown -> S -> Prop).

Inductive runs : S -> list Shown -> S -> Prop :=
| runs_refl s : runs s [] s
| runs_step s e s1 tr s2 : step s e s1 -> runs s1 tr s2 -> runs s (e :: tr) s2.

Lemma runs_invariant (P : S -> Prop) s tr s' :
  (forall s e s', P s -> step s e s' -> P s') -> runs s tr s' -> P s -> P s'.
Proof. intros Hp. induction 1; eauto. Qed.

(** States from which every step but an exception leads down, until the join; [nap] is the
    time that can still be slept. *)
Context (inside : S -> Prop) (way : S -> nat) (nap : S -> Z).

Definition leads_down : Prop := forall s e s', inside s -> step s e s' -> e <> Terminate ->
  (forall sp, e <> Exchange sp) /\ (way s' < way s)%nat /\ (slept_in [e] + nap s' <= nap s)%Z /\
  (e <> Joined -> inside s').

Lemma drains s tr s' : leads_down -> runs s tr s' -> inside s -> Terminate ∉ tr -> Joined ∉ tr ->
  (forall sp, Exchange sp ∉ tr) /\ (length tr + way s' <= way s)%nat /\ (slept_in tr + nap s' <= nap s)%Z /\
  inside s'.
Proof.
  intros down. induction 1 as [s|s e s1 tr s2 Hs _ IH]; intros Hin Ht Hj.
  - split_and!; [by intros sp ?%elem_of_nil|cbn; lia|cbn; lia|done].
  - rewrite not_elem_of_cons in Ht, Hj. destruct Ht as [Ht1 Ht2], Hj as [Hj1 Hj2].
    destruct (down s e s1 Hin Hs) as (He & Hw & Hn & Hk); [congruence|].
    destruct IH as (H1 & H2 & H3 & H4); [auto|done..|].
    split_and!; [|cbn; lia| |done].
    + intros sp [Heq|Hi]%elem_of_cons; [by eapply He|by eapply H1].
    + rewrite slept_cons. lia.
Qed.
End Drain.

(** ** The monitor *)

Module Monitor.
Section Monitor.
Variable poll_interval_ms_ : Z.

(** [Sweep l]: in the loop of [pollOnce], before the test of the flag, with [l] left of the
    registry as it was when the sweep began.  [Testing]: in [wait_for], about to test its
    predicate; [Blocking]: the predicate was false and the thread is about to block;
    [Asleep]: blocked on [cv_]. *)
(* [src/streamer/src/state/MonitorService.h:71-97] MonitorService::loop, pollOnce, pollSpeaker *)
Inductive Thread :=
| Off | Loop | Sweep (rest : list Speaker) | Asking (sp : Speaker) (rest : list Speaker)
| Testing | Blocking | Asleep | Ended | Crashed.

(** [Notifying]: [running_] is down and [cv_] not notified yet. *)
(* [src/streamer/src/state/MonitorService.h:50-62] MonitorService::stop *)
Inductive Caller := Free | Flagged | Notifying | Joining.

(* [src/streamer/src/state/MonitorService.h:104-108] MonitorService *)
Record Monitor := mk_monitor
  { thread : Thread; caller : Caller; running_ : bool; stopping_ : bool; m_state : ServiceState; ticks_ : Z }.

Definition at_ (t : Thread) (s : Monitor) : Monitor :=
  mk_monitor t (caller s) (running_ s) (stopping_ s) (m_state s) (ticks_ s).

(** [cv_.notify_all()]: only a thread that is blocked hears it. *)
Definition notified (t : Thread) : Thread := match t with Asleep => Testing | _ => t end.

(** The thread's steps.  A wait that times out lets the loop go on whatever the flag; one
    that is notified, or woken for no reason, tests the flag again. *)
(* [src/streamer/src/state/MonitorService.h:71-97] MonitorService::loop, pollOnce, pollSpeaker *)
Inductive thread_step (s : Monitor) : Shown -> Monitor -> Prop :=
| t_again (registry : SpeakerRegistry) : thread s = Loop -> running_ s = true -> thread_step s Quiet (at_ (Sweep registry) s)
| t_leave : thread s = Loop -> running_ s = false -> thread_step s Quiet (at_ Ended s)
| t_ask sp l : thread s = Sweep (sp :: l) -> stopping_ s = false -> thread_step s (Exchange sp) (at_ (Asking sp l) s)
| t_abort sp l : thread s = Sweep (sp :: l) -> stopping_ s = true -> thread_step s Quiet (at_ Testing s)
| t_told sp l : thread s = Asking sp l -> thread_step s Quiet (at_ (Sweep l) s)
| t_throw sp l : thread s = Asking sp l -> thread_step s Terminate (at_ Crashed s)
| t_tick : thread s = Sweep [] ->
    thread_step s Quiet (mk_monitor Testing (caller s) (running_ s) (stopping_ s) (m_state s) (wrap 64 (ticks_ s + 1)))
| t_test : thread s = Testing ->
    thread_step s Quiet (at_ (if running_ s then Blocking else Loop) s)
| t_block : thread s = Blocking -> thread_step s Quiet (at_ Asleep s)
| t_timeout : thread s = Asleep -> thread_step s (Slept poll_interval_ms_) (at_ Loop s)
| t_spurious : thread s = Asleep -> thread_step s Spurious (at_ Testing s).

(* [src/streamer/src/state/MonitorService.h:42-48] MonitorService::start *)
Inductive start_step (s : Monitor) : Monitor -> Prop :=
| start_again : caller s = Free -> running_ s = true -> start_step s s
| start_thread : caller s = Free -> running_ s = false ->
    start_step s (mk_monitor Loop Free true false ServiceState.Running (ticks_ s)).

(* [src/streamer/src/state/MonitorService.h:50-62] MonitorService::stop *)
Inductive stop_step (s : Monitor) : Shown -> Monitor -> Prop :=
| stop_flag : caller s = Free ->
    stop_step s Quiet (mk_monitor (thread s) Flagged (running_ s) true (m_state s) (ticks_ s))
| stop_idle : caller s = Flagged -> running_ s = false ->
    stop_step s Quiet (mk_monitor (thread s) Free false false (m_state s) (ticks_ s))
| stop_down : caller s = Flagged -> running_ s = true ->
    stop_step s Quiet (mk_monitor (thread s) Notifying false (stopping_ s) ServiceState.Stopping (ticks_ s))
| stop_notify : caller s = Notifying ->
    stop_step s Quiet (mk_monitor (notified (thread s)) Joining (running_ s) (stopping_ s) (m_state s) (ticks_ s))
| stop_join : caller s = Joining -> thread s = Ended ->
    stop_step s Joined (mk_monitor Off Free (running_ s) false ServiceState.Stopped (ticks_ s)).

Definition new_monitor : Monitor := mk_monitor Off Free false false ServiceState.Stopped 0.

(** Any interleaving of the thread with one caller. *)
Inductive step (s : Monitor) : Shown -> Monitor -> Prop :=
| step_thread e s' : thread_step s e s' -> step s e s'
| step_start s' : start_step s s' -> step s Quiet s'
| step_stop e s' : stop_step s e s' -> step s e s'.

(** *** What holds at every step *)

(** The thread exists exactly while it is running or being joined, and the flags follow the
    caller. *)
Definition coherent (s : Monitor) : Prop :=
  match caller s with
  | Free => stopping_ s = false /\ (running_ s = false <-> thread s = Off) /\ thread s <> Ended
  | Flagged => stopping_ s = true /\ (running_ s = false <-> thread s = Off) /\ thread s <> Ended
  | Notifying | Joining => stopping_ s = true /\ running_ s = false /\ thread s <> Off
  end.

Lemma new_coherent : coherent new_monitor.
Proof. by split_and!. Qed.

Lemma step_coherent s e s' : coherent s -> step s e s' -> coherent s'.
Proof.
  destruct s as [t c r st ms tk]. intros Hc [e' s1 H|s1 H|e' s1 H]; inversion H; unfold coherent in *; cbn in *; subst;
    cbn in *; try (destruct c); try (destruct r); try (destruct t); naive_solver.
Qed.

Lemma reached_coherent tr s : runs step new_monitor tr s -> coherent s.
Proof. intros Hr. eapply runs_invariant; [apply step_coherent|exact Hr|apply new_coherent]. Qed.

(** *** Stopping *)

(** What is left of the thread's way once it has been told to stop. *)
Definition way (s : Monitor) : nat :=
  match thread s with
  | Off | Crashed => 0 | Ended => 1 | Loop => 2 | Testing => 3 | Asleep | Sweep _ => 4 | Blocking | Asking _ _ => 5
  end + match caller s with Notifying => 1 | _ => 0 end.

(** Only a thread that is blocked, or about to block, can sleep a poll interval out. *)
Definition nap (s : Monitor) : Z :=
  match thread s with Blocking | Asleep => poll_interval_ms_ | _ => 0 end.

Definition winding (s : Monitor) : Prop :=
  coherent s /\ (caller s = Notifying \/ caller s = Joining) /\ thread s <> Crashed.

Lemma winding_down : (0 <= poll_interval_ms_)%Z -> leads_down step winding way nap.
Proof.
  intros Hp s e s' (Hc & Hj & Hx) Hs He. pose proof (step_coherent _ _ _ Hc Hs) as Hc'. unfold coherent in Hc.
  destruct s as [t c r st ms tk]. cbn in *.
  assert (st = true /\ r = false) as [-> ->] by (destruct Hj as [-> | ->]; naive_solver).
  unfold winding, way, nap, slept_in.
  destruct Hs as [e s1 H|s1 H|e s1 H]; inversion H; cbn in *; subst; try (destruct_or!; done);
    (split; [congruence|]; split; [try (destruct t); try (destruct c); cbn; lia|];
     split; [try (destruct t); cbn; lia|]; intros ?; split; [done|]; split; [tauto|]);
    try done; by destruct t.
Qed.

(** A thread that has been told to stop always has a step, or the join has. *)
Lemma winding_moves s : winding s -> exists e s', e <> Terminate /\ step s e s'.
Proof.
  intros (Hc & Hj & Hx). destruct Hj as [Hj|Hj].
  { exists Quiet. eexists. split; [done|]. apply step_stop. by apply stop_notify. }
  unfold coherent in Hc. rewrite Hj in Hc. destruct Hc as (Hst & Hr & Hoff).
  destruct (thread s) as [| |[|sp l]|sp l| | | | |] eqn:Ht; try done.
  - exists Quiet. eexists. split; [done|]. apply step_thread. by apply t_leave.
  - exists Quiet. eexists. split; [done|]. apply step_thread. by eapply t_tick.
  - exists Quiet. eexists. split; [done|]. apply step_thread. by eapply t_abort.
  - exists Quiet. eexists. split; [done|]. apply step_thread. by eapply t_told.
  - exists Quiet. eexists. split; [done|]. apply step_thread. by apply t_test.
  - exists Quiet. eexists. split; [done|]. apply step_thread. by apply t_block.
  - eexists. eexists. split; [|apply step_thread; by apply t_timeout]. done.
  - exists Joined. eexists. split; [done|]. apply step_stop. by apply stop_join.
Qed.

(** While [stop] is under way no exchange begins. *)
Lemma busy_caller_asks_nobody s sp s' : coherent s -> caller s <> Free -> ~ step s (Exchange sp) s'.
Proof.
  intros Hc Hf Hs. unfold coherent in Hc. assert (stopping_ s = true) as Hst by (by destruct (caller s); [|destruct Hc..]).
  inversion Hs as [e s1 H|s1 H|e s1 H]; inversion H; congruence.
Qed.

Lemma joined_stopped s s' : step s Joined s' -> thread s' = Off /\ m_state s' = ServiceState.Stopped /\ caller s' = Free.
Proof. intros Hs. inversion Hs as [e s1 H|s1 H|e s1 H]; by inversion H. Qed.

(** The notification, once given, is heard by all but a thread between its test and its
    block. *)
Lemma notified_nap s s' :
  stop_step s Quiet s' -> caller s = Notifying -> thread s <> Blocking -> nap s' = 0%Z.
Proof. intros Hs Hc Hb. inversion Hs; subst; try congruence. unfold nap. cbn. by destruct (thread s). Qed.

(** A notification given between the test and the block is lost: [stop] waits for a thread
    that sleeps its interval out. *)
Lemma notification_can_be_lost :
  exists tr s, runs step new_monitor tr s /\ thread s = Asleep /\ caller s = Joining /\
    forall e s', step s e s' -> e = Slept poll_interval_ms_ \/ e = Spurious.
Proof.
  exists [Quiet; Quiet; Quiet; Quiet; Quiet; Quiet; Quiet; Quiet].
  exists (mk_monitor Asleep Joining false true ServiceState.Stopping 1).
  split; [|split; [done|]; split; [done|]].
  - eapply runs_step; [apply step_start; by apply start_thread|].
    eapply runs_step; [apply step_thread; by apply (t_again _ [])|].
    eapply runs_step; [apply step_thread; by apply t_tick|].
    eapply runs_step; [apply step_thread; by apply t_test|].
    eapply runs_step; [apply step_stop; by apply stop_flag|].
    eapply runs_step; [apply step_stop; by apply stop_down|].
    eapply runs_step; [apply step_stop; by apply stop_notify|].
    eapply runs_step; [apply step_thread; by apply t_block|]. apply runs_refl.
  - intros e s' [e1 s1 H|s1 H|e1 s1 H]; inversion H; cbn in *; try done; by auto.
Qed.
End Monitor.
End Monitor.

(** ** The link reporter *)

Module Reporter.
Section Reporter.
Variable interval_ms_ : Z.

(* [src/streamer/src/app/LinkReporterService.h:68-87] LinkReporterService::loop *)
Inductive ReporterThread :=
| Off | Loop | Sweep (rssi : Z) (rest : list Speaker) | Telling (rssi : Z) (sp : Speaker) (rest : list Speaker)
| Sleep (slept : Z) | Dozing (slept : Z) | Ended | Crashed.

(* [src/streamer/src/app/LinkReporterService.h:89-98] LinkReporterService *)
Record Reporter := mk_reporter
  { thread : ReporterThread; joining_ : bool; running_ : bool; l_state : ServiceState; reports_sent_ : Z }.

Definition at_ (t : ReporterThread) (s : Reporter) : Reporter :=
  mk_reporter t (joining_ s) (running_ s) (l_state s) (reports_sent_ s).

(** The reader of the radio answers anything at each turn. *)
(* [src/streamer/src/app/LinkReporterService.h:68-87] LinkReporterService::loop *)
Inductive reporter_thread_step (s : Reporter) : Shown -> Reporter -> Prop :=
| t_read rssi (registry : SpeakerRegistry) : thread s = Loop -> running_ s = true ->
    reporter_thread_step s Quiet (at_ (Sweep rssi registry) s)
| t_unread : thread s = Loop -> running_ s = true -> reporter_thread_step s Quiet (at_ (Sleep 0) s)
| t_leave : thread s = Loop -> running_ s = false -> reporter_thread_step s Quiet (at_ Ended s)
| t_tell v sp l : thread s = Sweep v (sp :: l) -> running_ s = true -> reporter_thread_step s (Exchange sp) (at_ (Telling v sp l) s)
| t_break v sp l : thread s = Sweep v (sp :: l) -> running_ s = false -> reporter_thread_step s Quiet (at_ (Sleep 0) s)
| t_told v sp l : thread s = Telling v sp l ->
    reporter_thread_step s Quiet (mk_reporter (Sweep v l) (joining_ s) (running_ s) (l_state s) (wrap 64 (reports_sent_ s + 1)))
| t_throw v sp l : thread s = Telling v sp l -> reporter_thread_step s Terminate (at_ Crashed s)
| t_swept v : thread s = Sweep v [] -> reporter_thread_step s Quiet (at_ (Sleep 0) s)
| t_doze n : thread s = Sleep n -> (n < interval_ms_)%Z -> running_ s = true ->
    reporter_thread_step s Quiet (at_ (Dozing n) s)
| t_slice n : thread s = Dozing n -> reporter_thread_step s (Slept 100) (at_ (Sleep (n + 100)) s)
| t_wake n : thread s = Sleep n -> (interval_ms_ <= n)%Z \/ running_ s = false -> reporter_thread_step s Quiet (at_ Loop s).

(* [src/streamer/src/app/LinkReporterService.h:48-53] LinkReporterService::start *)
Inductive reporter_start_step (s : Reporter) : Reporter -> Prop :=
| start_again : joining_ s = false -> running_ s = true -> reporter_start_step s s
| start_thread : joining_ s = false -> running_ s = false ->
    reporter_start_step s (mk_reporter Loop false true ServiceState.Running (reports_sent_ s)).

(* [src/streamer/src/app/LinkReporterService.h:55-61] LinkReporterService::stop *)
Inductive reporter_stop_step (s : Reporter) : Shown -> Reporter -> Prop :=
| stop_idle : joining_ s = false -> running_ s = false -> reporter_stop_step s Quiet s
| stop_wait : joining_ s = false -> running_ s = true ->
    reporter_stop_step s Quiet (mk_reporter (thread s) true false ServiceState.Stopping (reports_sent_ s))
| stop_join : joining_ s = true -> thread s = Ended ->
    reporter_stop_step s Joined (mk_reporter Off false (running_ s) ServiceState.Stopped (reports_sent_ s)).

Definition new_reporter : Reporter := mk_reporter Off false false ServiceState.Stopped 0.

Inductive step (s : Reporter) : Shown -> Reporter -> Prop :=
| step_thread e s' : reporter_thread_step s e s' -> step s e s'
| step_start s' : reporter_start_step s s' -> step s Quiet s'
| step_stop e s' : reporter_stop_step s e s' -> step s e s'.

Definition coherent (s : Reporter) : Prop :=
  if joining_ s then running_ s = false /\ thread s <> Off
  else (running_ s = false <-> thread s = Off) /\ thread s <> Ended.

Lemma reporter_step_coherent s e s' : coherent s -> step s e s' -> coherent s'.
Proof.
  destruct s as [t j r ls n]. intros Hc [e' s1 H|s1 H|e' s1 H]; inversion H; unfold coherent in *; cbn in *; subst;
    cbn in *; try destruct j; naive_solver.
Qed.

Lemma reporter_reached_coherent tr s : runs step new_reporter tr s -> coherent s.
Proof. intros Hr. eapply runs_invariant; [apply reporter_step_coherent|exact Hr|]. by split. Qed.

Definition way (s : Reporter) : nat :=
  match thread s with
  | Off | Crashed => 0 | Ended => 1 | Loop => 2 | Sleep _ => 3 | Sweep _ _ | Dozing _ => 4 | Telling _ _ _ => 5
  end.

(** Of a sleep only the slice that has begun is slept out. *)
Definition nap (s : Reporter) : Z := match thread s with Dozing _ => 100 | _ => 0 end.

Definition joining (s : Reporter) : Prop := coherent s /\ joining_ s = true /\ thread s <> Crashed.

Lemma reporter_joining_down : leads_down step joining way nap.
Proof.
  intros s e s' (Hc & Hj & Hx) Hs He. pose proof (reporter_step_coherent _ _ _ Hc Hs) as Hc'.
  destruct s as [t j r ls n]. unfold coherent in Hc. cbn in *. subst j. destruct Hc as (-> & _).
  unfold joining, way, nap, slept_in.
  destruct Hs as [e s1 H|s1 H|e s1 H]; inversion H; cbn in *; subst; try done; split_and!; try done; cbn; lia.
Qed.

Lemma reporter_joining_moves s : joining s -> exists e s', e <> Terminate /\ step s e s'.
Proof.
  intros (Hc & Hj & Hx). unfold coherent in Hc. rewrite Hj in Hc. destruct Hc as (Hr & Hoff).
  destruct (thread s) as [| |v [|sp l]|v sp l|n|n| |] eqn:Ht; try done.
  - exists Quiet. eexists. split; [done|]. apply step_thread. by apply t_leave.
  - exists Quiet. eexists. split; [done|]. apply step_thread. by eapply t_swept.
  - exists Quiet. eexists. split; [done|]. apply step_thread. by eapply t_break.
  - exists Quiet. eexists. split; [done|]. apply step_thread. by eapply t_told.
  - exists Quiet. eexists. split; [done|]. apply step_thread. eapply t_wake; [done|by right].
  - eexists. eexists. split; [|apply step_thread; by eapply t_slice]. done.
  - exists Joined. eexists. split; [done|]. apply step_stop. by apply stop_join.
Qed.

Lemma reporter_joined_stopped s s' : step s Joined s' -> thread s' = Off /\ l_state s' = ServiceState.Stopped /\ joining_ s' = false.
Proof. intros Hs. inversion Hs as [e s1 H|s1 H|e s1 H]; by inversion H. Qed.
End Reporter.
End Reporter.

(** ** A reply no field of which may be trusted *)

Section Replies.
Context {J : JsonLib} {Cr : Crypto} {W E : Type}.
Variable request : string -> Z -> string -> SW W E (Result string).

(** A field of the wrong type throws out of the exchange, out of the sweep, and so out of
    the thread, which nothing catches: [t_throw]. *)
Lemma bad_reply_ends_sweep stopping moment k sp l w text what c :
  stopping k = false -> parse_reply text = Throw what ->
  let g := gateway w in
  build (secret_key_b64_ g) (nextCommandId (millis_ (moment k)) (salt_ (moment k)) "GET_STATUS" g).1 (device_id sp)
    "GET_STATUS" (jobj []) (now_seconds (moment k) + 30) (now_seconds (moment k)) = Value c ->
  value_of (request (host sp) (control_port sp) (dump (toJson c))) (outside w) = Value text ->
  value_of (pollOnce request stopping moment k (sp :: l)) w = Throw what.
Proof.
  intros Hs Hp g Hb Hr. cbn [pollOnce]. rewrite Hs, value_of_bind. unfold send.
  assert (value_of (dispatch request (moment k) true sp "GET_STATUS" (jobj []) 30) w = Throw what) as ->; [|done].
  unfold value_of at 1. rewrite dispatch_run. cbv zeta. fold g. unfold client_send. rewrite Hb.
  unfold mbind, SW_bind. unfold value_of in Hr.
  destruct (request (host sp) (control_port sp) (dump (toJson c)) (outside w)) as [[r s'] es]. cbn in Hr. subst r.
  cbn. by rewrite Hp.
Qed.
End Replies.

(** ** Properties *)

(** What a run of a stopping thread, up to the join, must satisfy: at most [steps] steps, of
    which sleeps take at most [sleep] milliseconds. *)
Definition winds_down {S} (step : S -> Shown -> S -> Prop) (stopped : S -> Prop) (steps : nat) (sleep : Z) (s : S) : Prop :=
  forall tr s', runs step s tr s' -> Terminate ∉ tr -> Joined ∉ tr ->
    (forall sp, Exchange sp ∉ tr) /\ (length tr <= steps)%nat /\ (slept_in tr <= sleep)%Z /\
    (exists e s'', e <> Terminate /\ step s' e s'') /\ forall s'', step s' Joined s'' -> stopped s''.

Lemma drained_winds_down {S} (step : S -> Shown -> S -> Prop) (stopped : S -> Prop) inside way nap steps sleep s :
  leads_down step inside way nap ->
  (forall s, inside s -> exists e s', e <> Terminate /\ step s e s') ->
  (forall s s', step s Joined s' -> stopped s') -> (forall s, 0 <= nap s)%Z ->
  (way s <= Datatypes.S steps)%nat -> (nap s <= sleep)%Z -> inside s -> winds_down step stopped steps sleep s.
Proof.
  intros Hdown Hmove Hstop Hnap Hw Hn Hin tr s' Hr Ht Hj.
  destruct (drains step inside way nap s tr s' Hdown Hr Hin Ht Hj) as (He & Hl & Hz & Hin'). split; [done|].
  destruct (Hmove s' Hin') as (e & s'' & Hne & Hs).
  destruct (Hdown s' e s'' Hin' Hs Hne) as (_ & Hlt & _). pose proof (Hnap s').
  split; [lia|]. split; [lia|]. split; [by exists e, s''|by apply Hstop].
Qed.


(** ** Witness *)

Section Witness.
Definition two_speakers : SpeakerRegistry :=
  [mk_speaker "SPK-1" "Kitchen" "10.0.0.7" 45455; mk_speaker "SPK-2" "Hall" "10.0.0.8" 45455].
Import Monitor.

(** The first speaker of two is being asked when [stop] takes the flag down. *)
Definition interrupted : Monitor :=
  mk_monitor (Asking (mk_speaker "SPK-1" "Kitchen" "10.0.0.7" 45455) (drop 1 two_speakers)) Notifying false true
    ServiceState.Stopping 0.

End Witness.
