(* ===== verification/Http.v ===== *)
(** * Http: the adapters between cpp-httplib and the two web servers

    Models [src/src/web/HttplibWebTransport.cpp] and
    [src/streamer/src/web/HttplibStreamerTransport.cpp], which differ in the address they
    listen on, the in-process transport of the development hosts ([IWebTransport.h]), and
    the start and stop of [WebServer.cpp].  The library httplib is a parameter: a request is
    what it hands over, and what it answers itself, to a method nobody registered or to an
    exception, is an argument. *)

From S2P Require Import Prelude Core Json Files Config Web.

(** What httplib hands to a handler; a header that is not there is [None]. *)
Record RawRequest := mk_raw
  { raw_method : string; raw_path : string; raw_body : string; raw_header : string -> option string }.

(** The request the routers see: of the headers, two. *)
(* [src/src/web/HttplibWebTransport.cpp:21-26] HttplibWebTransport::start *)
Definition to_request (q : RawRequest) : HttpRequest :=
  mk_request (raw_method q) (raw_path q) (raw_body q) (default ""%string (raw_header q "Authorization"))
    (default ""%string (raw_header q "Host")).

(* [src/streamer/src/web/HttplibStreamerTransport.cpp:20-25] HttplibStreamerTransport::start *)
Definition streamer_request (q : RawRequest) : HttpRequest := to_request q.

Section Transport.
Context {W E : Type}.

(** The handler that was given to [start], if any. *)
Abbreviation Handler := (HttpRequest -> SW W E (Try HttpResponse)).

(** httplib's own answers. *)
Variables (no_route : HttpResponse) (on_exception : string -> HttpResponse).

Definition no_handler : HttpResponse := mk_response 500 "application/json" "{}" [].

(* [src/src/web/HttplibWebTransport.cpp:20-32] HttplibWebTransport::start *)
Definition dispatch (handler : option Handler) (q : RawRequest) : SW W E (Try HttpResponse) :=
  match handler with Some h => h (to_request q) | None => mret (Done no_handler) end.

(** Only GET and POST are registered, on every path; an exception out of the handler is
    httplib's to answer. *)
(* [src/src/web/HttplibWebTransport.cpp:20-34] HttplibWebTransport::start *)
Definition exchange (handler : option Handler) (q : RawRequest) : SW W E HttpResponse :=
  if String.eqb (raw_method q) "GET" || String.eqb (raw_method q) "POST" then
    r ← dispatch handler q;
    mret (match r with Done a => a | Throw what => on_exception what end)
  else mret no_route.

(** ** The life of the transport *)

(* [src/src/web/HttplibWebTransport.h:26-31] HttplibWebTransport *)
Record HttpTransport := mk_transport { running_ : bool; handler_ : option Handler; listening_on : option (string * Z) }.

Inductive HEffect := HListen (address : string) (port : Z) | HStop | HJoin.

(** [valid] is what the server object says of itself; the thread that binds the port has
    only been started then. *)
(* [src/src/web/HttplibWebTransport.cpp:36-43] HttplibWebTransport::start *)
Definition http_start (address : string) (valid : bool) (port : Z) (h : Handler) : SW HttpTransport HEffect Status :=
  modify (fun _ => mk_transport true (Some h) (Some (address, port)));;
  tell [HListen address port];;
  mret (if valid then success else error ErrorCode.IoError "invalid httplib server").

(* [src/src/web/HttplibWebTransport.cpp:45-50] HttplibWebTransport::stop *)
Definition http_stop : SW HttpTransport HEffect Status :=
  t ← get;
  modify (fun t => mk_transport false (handler_ t) (if running_ t then None else listening_on t));;
  when (running_ t) (tell [HStop; HJoin]);;
  mret success.

(* [src/src/web/HttplibWebTransport.cpp:16-43] HttplibWebTransport::start *)
Definition speaker_listens := http_start "0.0.0.0".

(** The address is the loopback one until it is set. *)
(* [src/streamer/src/web/HttplibStreamerTransport.cpp:17-41] HttplibStreamerTransport::start *)
Definition streamer_listens (bind_address : option string) := http_start (default "127.0.0.1"%string bind_address).

(* [src/src/web/IWebTransport.h:57-60] StubWebTransport::handle *)
Definition stub_handle (t : HttpTransport) (q : HttpRequest) : SW W E (Try HttpResponse) :=
  if running_ t then
    match handler_ t with
    | Some h => h q
    | None => mret (Done (mk_response 503 "application/json" (error_text "down") []))
    end
  else mret (Done (mk_response 503 "application/json" (error_text "down") [])).

(** Starting and stopping pair up: the second stop does nothing. *)
Lemma stopped_once address valid port h t :
  effects_of (http_start address valid port h;; http_stop;; http_stop) t = [HListen address port; HStop; HJoin].
Proof. done. Qed.

(** The answer to [start] is the same whether or not the port can be bound: it is given
    before the thread has tried. *)
Lemma start_answers_before_binding address port h t :
  value_of (http_start address true port h) t = success /\
  effects_of (http_start address true port h) t = [HListen address port].
Proof. done. Qed.
End Transport.

(** ** The speaker's web server behind the transport *)

Section Served.
Context {J : JsonLib} {W E : Type} (setup_text index_text logo : string) (getenv : string -> option string).
Context (no_route : HttpResponse) (on_exception : string -> HttpResponse).

(* [src/src/web/WebServer.cpp:148-155] WebServer::start *)
Definition web_start (port : Z) (answer : Z -> Status) (s : WebServer (W := W) (E := E)) : Status * WebServer (W := W) (E := E) :=
  let st := answer port in
  (st, mk_server (s_auth s) (s_ctx s) (if status_ok st then ServiceState.Running else ServiceState.Degraded)).

(* [src/src/web/WebServer.cpp:157-161] WebServer::stop *)
Definition web_stop (s : WebServer (W := W) (E := E)) : WebServer (W := W) (E := E) :=
  mk_server (s_auth s) (s_ctx s) ServiceState.Stopped.

Abbreviation server s := (handle setup_text index_text logo getenv s).

(** A request without the header of a credential has none. *)
Lemma headerless_is_refused a q : raw_header q "Authorization" = None -> authorize a (auth (to_request q)) = false.
Proof. intros H. unfold to_request. cbn [auth]. by rewrite H. Qed.

(** On the wire: whatever the method and the body, a request that is no GET and has no
    Authorization header changes nothing, unless it is one of the onboarding requests of a
    speaker in setup mode through its hotspot; its answer is a refusal or httplib's own. *)
Lemma wire_write_needs_credential (s : WebServer (W := W) (E := E)) q w :
  raw_method q <> "GET"%string -> raw_header q "Authorization" = None ->
  setup_open (E := E) (s_ctx s) (to_request q) w = false ->
  exists r, exchange no_route on_exception (Some (server s)) q w = (r, w, []) /\
    (r = no_route \/ r_status r ∈ [401%Z; 404%Z; 405%Z]).
Proof.
  intros Hm Ha Hs. unfold exchange. destruct (_ || _); [|by eexists; split; [reflexivity|left]].
  destruct (write_refused setup_text index_text logo getenv s (to_request q) w) as (r & Hr & Hst).
  - exact Hm.
  - unfold allowed. by rewrite headerless_is_refused, Hs.
  - exists r. split; [|by right]. unfold dispatch, mbind, SW_bind. by rewrite Hr.
Qed.
End Served.
