(* ===== verification/StreamerMain.v ===== *)
(** * StreamerMain: the streamer's program, from its command line to its end

    Models [streamer/src/main/StreamerMain.cpp]: the arguments, the paths, the targets and
    the test tone, the composition of [StreamerApp]'s start with the audio source named on
    the command line, and the two ways the program waits - for the audio to end, or, with
    the interface, in [StreamerApp::run] for a signal.  The identity's load, the sockets,
    the answers of the services and of [makeSource] are arguments. *)

From Stdlib Require Import Ascii.
From S2P Require Import Scanners Application.
From S2P Require Import Prelude Core Json Files Config Audio Storage Control Pairing Network Speakers Zones.
From S2P Require Import Gateway StreamerConfig Onboarding Sender Web Dsp MasterDsp StreamerApi Sources StreamerApp.

(** ** The command line *)

Section Arguments.
(** [std::stod]: [None] where it throws. *)
Variable stod : string -> option spec_float.

(* [src/streamer/src/main/StreamerMain.cpp:103-109] main *)
Record Options := mk_options
  { tone_ip : string; stream_ips : string; play_file : string; seconds : spec_float; do_serve : bool;
    serve_port : Z; bind_address : string; lead : spec_float }.

(* [src/streamer/src/main/StreamerMain.cpp:103-109] main *)
Definition default_options : Options :=
  mk_options "" "" "" (f_of_Z 2) false 8090 "127.0.0.1" (S754_finite false 6485183463413514 (-55)).

Inductive Parsed := Version | Help | Uncaught (what : string) | Parsed_ (o : Options).

Definition dash_first (s : string) : bool :=
  match s with String c _ => bool_decide (c = ascii_of_nat 45) | EmptyString => false end.

(** An argument nobody knows, and an option without its value, is passed over. *)
(* [src/streamer/src/main/StreamerMain.cpp:111-145] main *)
Fixpoint parse_options (args : list string) (o : Options) : Parsed :=
  match args with
  | [] => Parsed_ o
  | arg :: rest =>
      let named s := String.eqb arg s in
      if named "--version" then Version
      else if named "--help" then Help
      else if named "--serve" then
        let o := mk_options (tone_ip o) (stream_ips o) (play_file o) (seconds o) true (serve_port o) (bind_address o) (lead o) in
        match rest with
        | v :: rest' =>
            if dash_first v then parse_options rest o
            else match stoi v with
                 | Some p => parse_options rest' (mk_options (tone_ip o) (stream_ips o) (play_file o) (seconds o) true p
                                                    (bind_address o) (lead o))
                 | None => Uncaught "stoi"
                 end
        | [] => Parsed_ o
        end
      else
        match rest with
        | v :: rest' =>
            if named "--stream" then parse_options rest' (mk_options (tone_ip o) v (play_file o) (seconds o) (do_serve o)
                                                         (serve_port o) (bind_address o) (lead o))
            else if named "--lead" then
              match stod v with
              | Some x => parse_options rest' (mk_options (tone_ip o) (stream_ips o) (play_file o) (seconds o) (do_serve o)
                                                 (serve_port o) (bind_address o) x)
              | None => Uncaught "stod"
              end
            else if named "--tone" then parse_options rest' (mk_options v (stream_ips o) (play_file o) (seconds o) (do_serve o)
                                                            (serve_port o) (bind_address o) (lead o))
            else if named "--play" then parse_options rest' (mk_options (tone_ip o) (stream_ips o) v (seconds o) (do_serve o)
                                                            (serve_port o) (bind_address o) (lead o))
            else if named "--bind" then parse_options rest' (mk_options (tone_ip o) (stream_ips o) (play_file o) (seconds o)
                                                            (do_serve o) (serve_port o) v (lead o))
            else if named "--seconds" then
              match stod v with
              | Some x => parse_options rest' (mk_options (tone_ip o) (stream_ips o) (play_file o) x (do_serve o)
                                                 (serve_port o) (bind_address o) (lead o))
              | None => Uncaught "stod"
              end
            else parse_options rest o
        | [] => Parsed_ o
        end
  end.
End Arguments.

Definition comma : ascii := ascii_of_nat 44.

Fixpoint fields (cur csv : string) : list string :=
  match csv with
  | EmptyString => [cur]
  | String c r => if bool_decide (c = comma) then cur :: fields "" r else fields (cur +:+ String c "") r
  end.

(* [src/streamer/src/main/StreamerMain.cpp:69-81] parseTargets *)
Definition parseTargets (csv : string) : list ZoneEndpoint :=
  (fun ip => mk_endpoint ip kDefaultPort) <$> filter (fun ip => ip <> "") (fields "" csv).

Section Environment.
Variable getenv : string -> option string.

Definition set_in (k : string) : option string :=
  match getenv k with Some v => if String.eqb v "" then None else Some v | None => None end.

(** A variable names the file; otherwise it is under the home, or beside the program. *)
Definition path_of (variable under_home beside : string) : string :=
  match set_in variable with
  | Some p => p
  | None => match set_in "HOME" with Some home => home +:+ under_home | None => beside end
  end.

(* [src/streamer/src/main/StreamerMain.cpp:83-89] identityKeyPath *)
Definition identityKeyPath : string :=
  path_of "NEXUS_STREAMER_KEY" "/.nexus-streamer/identity.key" ".nexus-streamer-identity.key".

(* [src/streamer/src/main/StreamerMain.cpp:91-97] configPath *)
Definition configPath : string :=
  path_of "NEXUS_STREAMER_CONFIG" "/.nexus-streamer/config.json" ".nexus-streamer-config.json".
End Environment.

(** ** What the command line asks to play *)

Section Tone.
Variable sin : spec_float -> spec_float.

(* [src/streamer/src/main/StreamerMain.cpp:52-55] makeTone *)
Definition makeTone_sample (f : Z) : Z :=
  to_signed 16 (f_trunc (fmul (sin (fdiv (fmul (fmul (fmul (f_of_Z 2) kPi) (f_of_Z 440)) (f_of_Z f)) (f_of_Z 48000)))
                           (f_of_Z 8000))).

(** A negative or enormous length is undefined in the conversion to [size_t]. *)
(* [src/streamer/src/main/StreamerMain.cpp:49-57] makeTone *)
Definition makeTone (seconds : spec_float) : list Z :=
  concat ((fun f => let s := makeTone_sample (Z.of_nat f) in [s; s])
          <$> seq 0 (Z.to_nat (f_trunc (fmul seconds (f_of_Z 48000))))).
End Tone.

Inductive Job :=
| StreamStdin (targets : list ZoneEndpoint)
| PlayFile (file : string) (targets : list ZoneEndpoint)
| PlayTone (ip : string)
| NoJob.

(* [src/streamer/src/main/StreamerMain.cpp:229-263] main *)
Definition job (o : Options) : Job :=
  if negb (String.eqb (stream_ips o) "") then StreamStdin (parseTargets (stream_ips o))
  else if negb (String.eqb (play_file o) "") then PlayFile (play_file o) (parseTargets (tone_ip o))
  else if negb (String.eqb (tone_ip o) "") then PlayTone (tone_ip o)
  else NoJob.

(** ** The program *)

Section Program.
Context {J : JsonLib} {F : FileSystem} {AW : AtomicWriter F} {Cr : Crypto} {M : Libm} {W E : Type}.
Variable sin : spec_float -> spec_float.
Variable stod : string -> option spec_float.
Variable sha256Hex : string -> string.
(** What the load of the identity gives, whether the UDP socket opens, the configuration as
    it stands at [configPath], the random token, what is outside, and the answers of the
    sink, of [makeSource], of the services, and of the web server by address and port. *)
Variables (identity : Result StreamerIdentity) (sink_open : bool) (config : StreamerConfigManager (F := F))
  (fresh : string) (outside_ : W).
Variable set_targets : list (string * Z) -> Status.
Variable make_source : SourceSpec -> Result Source.
Variables (start_of : Service -> Status) (name_of : Service -> string) (web_start : string -> Z -> Status).

(** The application, once it is built, and its services. *)
Record Program := mk_program { p_site : option (Site (Rest W)); p_services : Running }.

Inductive PEffect := PApp (e : SEffect (F := F) E) | PService (e : UEffect) | PPrint (text : string).

Abbreviation P := (SW Program PEffect).

Definition on_services {A} (f : SW Running UEffect A) : P A :=
  zoom p_services (fun u p => mk_program (p_site p) u) PService f.

(** How the program goes on from its start. *)
Inductive Next :=
| Exits (code : Z)          (* it has ended *)
| Dies (what : string)      (* an exception nobody catches *)
| Serving                   (* the interface runs, until a signal *)
| Sending.                  (* the audio runs, until it is over or a signal *)

(* [src/streamer/src/main/StreamerMain.cpp:197-214] main *)
Definition bring_up (o : Options) (id : StreamerIdentity) : P (Try Status) :=
  match boot_site id fresh (f_of_Z 48000) 2 (Some config) outside_ with
  | Throw what => mret (Throw what)
  | Done (_, site) =>
      modify (fun p => mk_program (Some site) (p_services p));;
      st ← on_services (start_all start_of name_of (web_start (bind_address o) (serve_port o)) true true);
      mret (Done st)
  end.

(** [playTo] changes nothing of the site itself. *)
Definition play_on (site : Site (Rest W)) (l : list ZoneEndpoint) (src : Source) : P bool :=
  fun p => (status_ok (value_of (playTo (E := E) set_targets l src) site), p,
            PApp <$> effects_of (playTo (E := E) set_targets l src) site).

(** Whether what the command line asks to play could be started. *)
(* [src/streamer/src/main/StreamerMain.cpp:229-270] main *)
Definition run_job (o : Options) (site : Site (Rest W)) : P bool :=
  match job o with
  | StreamStdin l => play_on site l SStdin
  | PlayFile file l =>
      tell [PApp (EOpen (mk_source_spec "file" file))];;
      match make_source (mk_source_spec "file" file) with
      | Failure _ => mret false
      | Value src => match l with [] => mret false | _ => play_on site l src end
      end
  | PlayTone ip => play_on site [mk_endpoint ip kDefaultPort] (SMemory (mk_memory (makeTone sin (seconds o)) 2 0))
  | NoJob => mret true
  end.

(** An [exit] after the start destroys the application, which shuts it down. *)
(* [src/streamer/src/main/StreamerMain.cpp:233-236] main *)
Definition leave_with (code : Z) : P Next := on_services StreamerApp.shutdown;; mret (Exits code).

(* [src/streamer/src/main/StreamerMain.cpp:229-282] main *)
Definition go_on (o : Options) (site : Site (Rest W)) : P Next :=
  ok ← run_job o site;
  if negb ok then leave_with 1
  else mret (if do_serve o then Serving else Sending).

Definition nothing_to_do (o : Options) : bool :=
  negb (do_serve o) && String.eqb (stream_ips o) "" && String.eqb (tone_ip o) "" && String.eqb (play_file o) "".

Definition print_ap (id : StreamerIdentity) : string :=
  let c := deriveApCredentials sha256Hex (id_ id) in
  "NEXUS_AP_SSID=" +:+ ssid c +:+ String (ascii_of_nat 10) ("NEXUS_AP_PASSPHRASE=" +:+ passphrase c +:+
    String (ascii_of_nat 10) "").

(** From the arguments to the point where the program waits. *)
(* [src/streamer/src/main/StreamerMain.cpp:102-235] main *)
Definition main (args : list string) : P Next :=
  match parse_options stod args default_options with
  | Version | Help => mret (Exits 0)
  | Uncaught what => mret (Dies what)
  | Parsed_ o =>
      if existsb (String.eqb "--ap-credentials") args then
        match identity with
        | Failure _ => mret (Exits 1)
        | Value id => tell [PPrint (print_ap id)];; mret (Exits 0)
        end
      else if nothing_to_do o then mret (Exits 0)
      else
        match identity with
        | Failure _ => mret (Exits 1)
        | Value id =>
            if negb sink_open then mret (Exits 1)
            else
              st ← bring_up o id;
              match st with
              | Throw what => mret (Dies what)
              | Done st =>
                  if negb (status_ok st) then leave_with 1
                  else
                    p ← get;
                    match p_site p with Some site => go_on o site | None => mret (Exits 1) end
              end
        end
  end.

(** The end of either wait. *)
(* [src/streamer/src/main/StreamerMain.cpp:274-287] main *)
Definition ends : P Next := leave_with 0.
End Program.
Arguments Program {J F} W.
Arguments PEffect {F} E.

(** ** The wait for a signal *)

(** Where the main thread stands in [run]; the signal handler is [requestShutdown]. *)
(* [src/streamer/src/app/StreamerApp.cpp:554-561] StreamerApp::run *)
Inductive RunPc := Entering | Looping | Leaving.

(* [src/streamer/src/app/StreamerApp.cpp:554-561] StreamerApp::run *)
Inductive run_step : RunPc * bool -> RunPc * bool -> Prop :=
| run_enter b : run_step (Entering, b) (Looping, true)
| run_turn : run_step (Looping, true) (Looping, true)
| run_leave : run_step (Looping, false) (Leaving, false).

(* [src/streamer/src/app/StreamerApp.h:87-87] StreamerApp::requestShutdown *)
Definition requestShutdown (s : RunPc * bool) : RunPc * bool := (s.1, false).

(** A signal during the loop ends it; one that arrives after the handler is installed and
    before [run] is entered is forgotten: [run] sets the flag, and loops for ever. *)
Lemma signal_in_loop_ends b : run_step (requestShutdown (Looping, b)) (Leaving, false).
Proof. apply run_leave. Qed.

Lemma signal_before_run_is_lost b s : rtc run_step (requestShutdown (Entering, b)) s -> s.1 <> Leaving.
Proof.
  enough (forall s0, s0 = (Entering, false) \/ s0 = (Looping, true) -> rtc run_step s0 s ->
    s = (Entering, false) \/ s = (Looping, true)) as H.
  { intros Hr. by destruct (H _ (or_introl eq_refl) Hr) as [->| ->]. }
  intros s0 Hs Hr. induction Hr as [s1|s1 s2 s3 Hs1 _ IH]; [exact Hs|]. apply IH. right.
  destruct Hs as [->| ->]; by inversion Hs1.
Qed.

(** ** The targets *)

Fixpoint no_comma (s : string) : Prop :=
  match s with EmptyString => True | String c r => c <> comma /\ no_comma r end.

Fixpoint commas (l : list string) : string :=
  match l with [] => "" | [s] => s | s :: l => s +:+ String comma (commas l) end.

Lemma str_app_empty a : a +:+ "" = a.
Proof. induction a as [|x a IH]; [done|]. by rewrite str_app_cons, IH. Qed.

Lemma fields_plain cur s : no_comma s -> fields cur s = [cur +:+ s].
Proof.
  revert cur. induction s as [|c s IH]; intros cur Hs; cbn [fields]; [by rewrite str_app_empty|].
  destruct Hs as [Hc Hs]. rewrite bool_decide_eq_false_2 by done. rewrite IH by done. by rewrite str_app_assoc.
Qed.

Lemma fields_first cur s r : no_comma s -> fields cur (s +:+ String comma r) = (cur +:+ s) :: fields "" r.
Proof.
  revert cur. induction s as [|c s IH]; intros cur Hs; rewrite ?str_app_cons; cbn [fields].
  - rewrite str_app_empty. change ("" +:+ String comma r) with (String comma r). cbn [fields].
    by rewrite bool_decide_eq_true_2.
  - destruct Hs as [Hc Hs]. rewrite bool_decide_eq_false_2 by done. rewrite IH by done. by rewrite str_app_assoc.
Qed.

(** Every address of the list becomes a target, in order, on the audio port. *)
Lemma targets_of_list l : Forall (fun ip => no_comma ip /\ ip <> "") l ->
  parseTargets (commas l) = (fun ip => mk_endpoint ip kDefaultPort) <$> l.
Proof.
  intros Hl. unfold parseTargets. f_equal. induction Hl as [|s l [Hs Hn] Hl IH]; [done|].
  destruct l as [|t l]; cbn [commas].
  - rewrite fields_plain by done. by rewrite filter_cons_True.
  - rewrite fields_first by done. rewrite filter_cons_True by done. by f_equal.
Qed.

(** [--play] with [--stream] does not play the file: the program streams its standard input. *)
Lemma stream_wins_over_play o : stream_ips o <> "" -> job o = StreamStdin (parseTargets (stream_ips o)).
Proof. intros H. apply String.eqb_neq in H. unfold job. by rewrite H. Qed.

(** ** From the command line to the sound *)

Section Launch.
Context {J : JsonLib} {F : FileSystem} {AW : AtomicWriter F} {Cr : Crypto} {M : Libm} {W E : Type}.
Context (sin : spec_float -> spec_float) (set_targets : list (string * Z) -> Status)
  (make_source : SourceSpec -> Result Source).

Lemma boot_site_audio id fresh fs ch (cfg : option StreamerConfigManager) (w : W) token site :
  boot_site id fresh fs ch cfg w = Done (token, site) -> r_audio (rest site) = true.
Proof.
  unfold boot_site. destruct cfg as [m|]; [|by intros [= <- <-]]. destruct (boot_config fresh m) as [tk m'].
  destruct (master_from_json _); cbn; [|done]. by intros [= <- <-].
Qed.

(** The targets named and the source opened, as the application shows them. *)
Definition plays (l : list ZoneEndpoint) (src : Source) : list (PEffect E) :=
  PApp <$> [ETargets (targets_of l); ECount (length (targets_of l)); EPlay src].

(** What a program that stays has done for its job. *)
Definition done_for (o : Options) : list (PEffect E) :=
  match job o with
  | StreamStdin l => plays l SStdin
  | PlayFile file l =>
      PApp (EOpen (mk_source_spec "file" file)) ::
      match make_source (mk_source_spec "file" file) with Value src => plays l src | Failure _ => [] end
  | PlayTone ip => plays [mk_endpoint ip kDefaultPort] (SMemory (mk_memory (makeTone sin (seconds o)) 2 0))
  | NoJob => []
  end.

Definition silent_effects (es : list (PEffect E)) : Prop := forall src, PApp (EPlay src) ∉ es.

(** What a run has told the web server, the pairing thread and the services. *)
Definition told (es : list (PEffect E)) : list UEffect :=
  omap (fun e => match e with PService u => Some u | _ => None end) es.

Lemma told_appended es es' : told (es ++ es') = told es ++ told es'.
Proof. apply omap_app. Qed.

Lemma told_of_services es : told (PService <$> es) = es.
Proof. induction es as [|e es IH]; [done|]. cbn. by f_equal. Qed.

Lemma told_app_effects es : told (PApp <$> es) = [].
Proof. by induction es. Qed.

(** A play is refused by the sink, or carried out. *)
Lemma play_on_run (site : Site (Rest W)) l src (p : Program W) : r_audio (rest site) = true ->
  exists ok es, play_on set_targets site l src p = (ok, p, es) /\ told es = [] /\
    if ok then es = plays l src else silent_effects es.
Proof.
  intros Ha. unfold play_on, value_of, effects_of. rewrite playTo_run by done. cbv zeta. cbn [fst snd].
  eexists _, _. split; [reflexivity|]. split; [apply told_app_effects|]. destruct (status_ok (set_targets (targets_of l))) eqn:Ho; [done|].
  rewrite Ho. intros src'. cbn. by intros [?|?%elem_of_nil]%elem_of_cons.
Qed.

Lemma run_job_run o (site : Site (Rest W)) (p : Program W) : r_audio (rest site) = true ->
  exists ok es, run_job sin set_targets make_source o site p = (ok, p, es) /\ told es = [] /\
    if ok then es = done_for o else silent_effects es.
Proof.
  intros Ha. unfold run_job, done_for. destruct (job o) as [l|file l|ip|].
  - by apply play_on_run.
  - unfold mbind, SW_bind, tell.
    assert (silent_effects [PApp (EOpen (mk_source_spec "file" file))]) as Hopen
      by (intros src; by intros [?|?%elem_of_nil]%elem_of_cons).
    destruct (make_source _) as [src|e]; [|by eexists _, _]. destruct l as [|x l]; [by eexists _, _|].
    destruct (play_on_run site (x :: l) src p Ha) as (ok & es & Hp & Ht & Hs). rewrite Hp. eexists _, _. split; [done|].
    split; [exact Ht|].
    destruct ok; [by rewrite Hs|]. intros src' [?|?]%elem_of_cons; [done|]. by eapply Hs.
  - by apply play_on_run.
  - by eexists _, _.
Qed.

Definition not_running : Running := mk_running false false [].

(** *** What is left running

    What the effects say: a service, the web server, runs from a start it answered well until
    it is stopped, the pairing thread from its creation until its join. *)

Record Live := mk_live { live_web : bool; live_thread : bool; live_services : list Service }.

Definition live_step (start_of : Service -> Status) (web : Status) (l : Live) (e : UEffect) : Live :=
  match e with
  | UThread => mk_live (live_web l) true (live_services l)
  | UThreadStop => mk_live (live_web l) false (live_services l)
  | UWebStart => mk_live (status_ok web) (live_thread l) (live_services l)
  | UWebStop => mk_live false (live_thread l) (live_services l)
  | UStart s => mk_live (live_web l) (live_thread l) (if status_ok (start_of s) then live_services l ++ [s] else live_services l)
  | UStop s => mk_live (live_web l) (live_thread l) (filter (fun x => x <> s) (live_services l))
  end.

Definition nothing_live : Live := mk_live false false [].

Definition left_running (start_of : Service -> Status) (web : Status) (es : list UEffect) : Live :=
  foldl (live_step start_of web) nothing_live es.

Lemma live_starts start_of web l live : Forall (fun x => status_ok (start_of x) = true) live ->
  foldl (live_step start_of web) l (UStart <$> live) = mk_live (live_web l) (live_thread l) (live_services l ++ live).
Proof.
  intros Hf. revert l. induction Hf as [|s live Hs _ IH]; intros l; cbn [fmap list_fmap foldl].
  - rewrite app_nil_r. by destruct l.
  - rewrite IH. cbn [live_step live_web live_thread live_services]. by rewrite Hs, <- app_assoc.
Qed.

Lemma live_stops start_of web l stopped : (forall x, x ∈ live_services l -> x ∈ stopped) ->
  foldl (live_step start_of web) l (UStop <$> stopped) = mk_live (live_web l) (live_thread l) [].
Proof.
  revert l. induction stopped as [|s stopped IH]; intros [w t sv] Hin; cbn [fmap list_fmap foldl live_services] in *.
  - destruct sv as [|x sv]; [done|]. exfalso. by eapply not_elem_of_nil, Hin, list_elem_of_here.
  - rewrite IH; [done|]. cbn [live_step live_services]. intros x [Hx Hl]%list_elem_of_filter.
    by apply Hin, elem_of_cons in Hl as [|].
Qed.

Lemma service_effects_silent es : silent_effects (PService <$> es).
Proof. intros src Hin. by apply list_elem_of_fmap in Hin as (x & ? & _). Qed.

Lemma start_all_live start_of name_of web : exists st u es,
  start_all start_of name_of web true true not_running = (st, u, es) /\
  if status_ok st then
    u = mk_running true true (ordered true true) /\ es = UThread :: (UStart <$> ordered true true) ++ [UWebStart] /\
    Forall (fun x => status_ok (start_of x) = true) (ordered true true) /\ status_ok web = true /\
    left_running start_of web es = mk_live true true (ordered true true)
  else u = not_running /\ left_running start_of web es = nothing_live.
Proof.
  destruct (streamer_starts_whole start_of name_of web true true) as (live & later & Hall & Hf & Hr). cbv zeta in Hr.
  destruct later as [|svc later].
  - rewrite app_nil_r in Hall. rewrite <- Hall in Hf. destruct (status_ok web) eqn:Hw.
    + destruct Hr as [Hr _]. eexists _, _, _. split; [exact Hr|]. cbn [status_ok success]. split_and!; try done.
      unfold left_running. cbn [foldl]. rewrite foldl_app, live_starts by done. cbn. by rewrite Hw.
    + eexists _, _, _. split; [exact Hr|]. change (status_ok (error _ _)) with (status_ok web). rewrite Hw. split; [done|].
      unfold left_running. cbn [foldl]. rewrite foldl_app, live_starts by done. cbn [foldl app live_step nothing_live live_web live_thread live_services].
      rewrite live_stops; [cbn; by rewrite Hw|]. intros x. cbn [live_services]. by rewrite elem_of_reverse.
  - destruct Hr as [Hsvc Hr]. eexists _, _, _. split; [exact Hr|].
    change (status_ok (error _ _)) with (status_ok (start_of svc)). rewrite Hsvc. split; [done|].
    unfold left_running. cbn [foldl]. rewrite fmap_app, <- app_assoc, foldl_app, live_starts by done.
    cbn [fmap list_fmap foldl app live_step nothing_live live_web live_thread live_services]. rewrite Hsvc.
    rewrite live_stops; [done|]. intros x. cbn [live_services]. by rewrite elem_of_reverse.
Qed.

Lemma bring_up_run start_of name_of web_start config fresh (outside_ : W) o id token site :
  boot_site id fresh (f_of_Z 48000) 2 (Some config) outside_ = Done (token, site) ->
  let web := web_start (bind_address o) (serve_port o) in
  exists st u es,
    bring_up (E := E) config fresh outside_ start_of name_of web_start o id (mk_program None not_running) =
      (Done st, mk_program (Some site) u, PService <$> es) /\
    if status_ok st then
      u = mk_running true true (ordered true true) /\ es = UThread :: (UStart <$> ordered true true) ++ [UWebStart] /\
      Forall (fun x => status_ok (start_of x) = true) (ordered true true) /\ status_ok web = true /\
      left_running start_of web es = mk_live true true (ordered true true)
    else u = not_running /\ left_running start_of web es = nothing_live.
Proof.
  intros Hb web. unfold bring_up. rewrite Hb. fold web.
  destruct (start_all_live start_of name_of web) as (st & u & es & Hs & H).
  exists st, u, es. split; [|exact H]. unfold mbind, SW_bind, modify, on_services, zoom, value_of, state_after, effects_of.
  cbn [p_services p_site]. rewrite Hs. cbn. by rewrite app_nil_r.
Qed.

Lemma leave_run code (p : Program W) :
  leave_with (E := E) code p = (Exits code, mk_program (p_site p) not_running,
    PService <$> (if web_started_ (p_services p) then [UWebStop] else []) ++
      (if sweeping_ (p_services p) then [UThreadStop] else []) ++ (UStop <$> reverse (started_ (p_services p)))).
Proof.
  unfold leave_with, on_services, zoom, value_of, state_after, effects_of, mbind, SW_bind.
  rewrite shutdown_run. cbn [fst snd mret SW_ret]. by rewrite app_nil_r.
Qed.

(** The whole streamer, shut down. *)
Lemma left_running_shut start_of web es :
  left_running start_of web es = mk_live true true (ordered true true) ->
  left_running start_of web (es ++ [UWebStop] ++ [UThreadStop] ++ (UStop <$> reverse (ordered true true))) = nothing_live.
Proof.
  intros He. unfold left_running in *. rewrite foldl_app, He. cbn [foldl app live_step live_web live_thread live_services].
  rewrite live_stops; [done|]. intros x. cbn [live_services]. by rewrite elem_of_reverse.
Qed.
End Launch.

(** ** Properties *)



(** ** Witness *)

Section Witness.
#[local] Existing Instance jvalue_lib.
#[local] Existing Instance jvalue_laws.
#[local] Existing Instance mdisk_system.
#[local] Existing Instance mdisk_laws.
#[local] Existing Instance posix_writer.
#[local] Existing Instance demo_crypto.
#[local] Existing Instance flat_libm.

(** An empty tone to one speaker, from a site without a configuration file. *)
Abbreviation demo_main := (main (W := unit) (E := unit) (fun x => x) (fun _ => Some f0) (fun _ => "0"%string)
  (Value (mk_streamer_identity "STR-1" "pub" "key")) true (new_streamer_manager (disk_with "") "elsewhere") "fresh" tt
  (fun _ => success) (fun _ => Value SStdin) (fun _ => success) (fun _ => "service"%string) (fun _ _ => success)
  ["--tone"; "10.0.0.7"; "--seconds"; "0"]).

End Witness.
